(* ===== verification/_CoqProject ===== *)
-Q . S2P
Prelude.v
GoIO.v
GoSlice.v
Wire.v
WirePool.v
GoFloat.v
GoTime.v
Config.v
GoStr.v
GoJSON.v
Watcher.v
Engine.v
ProcWorker.v
ProcPool.v
ProcPoolInv.v
ProcPoolConv.v
ProcPoolSpec.v
ProcPoolLive.v
ProcPoolSeq.v
EmbWorker.v
EmbPool.v
EmbPoolInv.v
EmbPoolSeq.v
EmbPoolMode.v
EmbPoolFaults.v
EmbPoolLive.v
Main.v
Messages.v
WebSocket.v
WebSocketConc.v
Http.v
Compress.v
Middleware.v
Standalone.v
Router.v
Metrics.v
Server.v
Acme.v
TLS.v
Lifecycle.v
Service.v
Health.v
Concurrent.v
Scrape.v
WriterPool.v
WriterPoolInv.v
