(* ===== verification/Prelude.v ===== *)
(** Maboo: the server, modelled and verified.

    Maboo is an HTTP server in Go that hands requests to PHP workers. This library models
    the Go code under [src/internal/] and [src/cmd/maboo/] as executable definitions and
    proves what makes each part correct, and, where the code does not do what it means to,
    what it does instead.

    * The program and the files that model it

    - The wire protocol between the server and external PHP workers. [Wire] is
      [protocol/wire.go] ([WriteFrame], [ReadFrame], the control frames), over the buffers
      of [GoSlice] and the readers and writers of [GoIO]; [WirePool] is the same code run by
      any number of goroutines that share the [sync.Pool]s of buffers; [Messages] is [request.go],
      [response.go], [stream.go] and [msgpack.go], with MessagePack a class that has a
      round-trip law.
    - The configuration: [Config] is [config/config.go] and [defaults.go]; its durations are
      read and written by the functions of Go's [time] package in [GoTime].
    - The PHP engine: [Engine] is [phpengine/engine.go] and [selector.go]; the strings and
      paths it uses are in [GoStr].
    - The embedded pool the server runs on. [EmbWorker] is [worker/worker.go]. [EmbPool] is
      [worker/pool.go] as a machine: the pool record, one thread per goroutine, one step
      function per Go function ([start_step], [spawn_step], [exec_step], [replace_step],
      [watch_step], [reload_step], [stop_step]), joined by [tstep] and scheduled by [step].
      A step is one shared-memory action of the code, so every interleaving of the code's
      actions is a run of the machine. The machine goes on after a panic that ends the
      process, so it has at least the program's behaviours. Its theorems are in
      [EmbPoolInv] (every reachable state), [EmbPoolSeq] (undisturbed runs), [EmbPoolMode]
      (worker and request mode), [EmbPoolFaults] (runs that go wrong) and [EmbPoolLive] (how
      long a request takes, and that nothing is stuck); the scaling arithmetic uses the doubles
      of [GoFloat].
    - The pool of external PHP processes. [ProcWorker] is [pool/worker.go]: a worker, the
      pipes to its process, and what a conversation over them is. [ProcPool] is
      [pool/pool.go], a machine of the same kind over the codec of [Wire]. The PHP process
      is the environment: between any two steps it may write, within what a predicate
      [php_may] of what it has been sent allows, or end. Its theorems are in
      [ProcPoolInv] (who talks to a worker: an invariant that counts the rights to
      converse), [ProcPoolConv] (answers belong to their requests), [ProcPoolSpec] (an
      abstract system of conversations and the refinement), [ProcPoolLive]
      (well-formedness, progress, and two waits and checks that fail) and [ProcPoolSeq]
      (undisturbed runs).
    - The file watcher: [Watcher] is [pool/watcher.go], over snapshots of a file system
      that is a tree.
    - The WebSocket service: [WebSocket] is [websocket/manager.go] and [handler.go];
      [WebSocketConc] runs the sessions as goroutines over one manager.
    - The HTTP side. [Http] is what the code uses of Go's [net/http]: headers, the
      [ResponseWriter] interface as a class, the library's own writer, and handlers that
      are polymorphic in their writer, so that a middleware is a function on handlers.
      [Compress] is [server/compress.go], [Middleware] the core of [server/middleware.go];
      [WriterPool] runs both for many requests that share the [sync.Pool]s of writers, against a
      class [Base] of the writers below, with its theorem in [WriterPoolInv];
      [Metrics] is [server/metrics.go] and [Scrape] its report
      while others count, [Router] is [server/router.go], [health.go],
      [pool.go] and [phpengine/context.go] and [detector.go], with the worker pool as the
      class [WorkerPool]; [Server] puts them together as [server/server.go], [http2.go] and
      [http3.go] do. [Standalone] holds what the server itself does not use: the separate
      middlewares, [static.go] and [earlyhints.go]. [Acme] is [acme.go]: the settings of the
      certificate manager, a class of what that library promises ([Redirection]), and the
      server that redirects to HTTPS. [TLS] is [tls.go], and [startTLS] of [server.go] with its
      errors; [Lifecycle] runs [Start], [Stop] and the goroutines of the redirect and HTTP/3
      servers against each other.
    - The whole. [Service] runs the server of [Server] on the machine of [EmbPool], as an
      instance of [WorkerPool], one request after the other; [Health] adds the documents of
      [health.go], through the JSON encoder of [GoJSON]; [Concurrent] runs any number of
      requests at once, each a goroutine through the middlewares whose [Exec] is a thread
      of the pool's machine. [Main] is [cmd/maboo/main.go]: the command line, and
      [serve] as a machine around the pool's, with its goroutines, signals, requests in
      flight and exit status.

    This file is the prelude: results and errors, bytes, fixed-width integers, and the
    lemmas on lists that several components use. [GoIO], [GoSlice], [GoStr], [GoTime], [GoJSON]
    and [GoFloat] model the parts of the Go language and its standard library the program relies on.

    * How Go is modelled

    A function that returns [(T, error)] returns a [result]; one that only returns an error
    returns an option. A struct is a record, shared and mutated objects live in a heap of
    locations (the workers, the WebSocket clients). [int] and [int64] are integers whose
    arithmetic wraps where the code can reach the bounds: identifiers and the atomic
    counters. A map is a [gmap]; where the order of [range] matters it is a parameter,
    assumed to be some permutation of the entries. Code outside the program (MessagePack,
    gzip, YAML and JSON decoding, cryptography, the numbers of the Go runtime, files, random
    numbers, clocks, h2c, the PHP forwarder) is a parameter; the hypotheses made of it are its
    documented laws, and each theorem with a hypothesis has a witness that applies it to concrete
    values.

    A time-out may fire at any moment: time itself is not modelled. In the pool of processes a
    write to a pipe is all or nothing, a read waits until the frame is complete, and the
    wait for the end of a process ([cmd.Wait], in a goroutine of its own) is one step with
    the [select] that sees it. In [Main], [http.Server] is known by what it promises:
    it accepts requests while it listens, and [Shutdown] returns nil only when the requests it
    tracks are done.

    * What the theorems show

    - Wire and messages: streams of frames and messages are read back unchanged from any
      chunking and any stale buffers; accepted input is exactly what the writer produces;
      truncation gives the precise error; beyond 24 and 32 bits of length the writer
      silently produces something else; the decoders never confuse two kinds of frames; goroutines
      that share the buffers get the results they get alone.
    - Embedded pool: under every interleaving no worker serves two requests at once, no
      worker is lost, and the counters are exact; [Start] never blocks; an undisturbed
      request has a closed form, recycling included; in worker mode every request that
      gets a worker is answered; in request mode none is; reloading leaves stopped workers
      in service, stopping makes others panic, and [MaxWorkers] can be exceeded; a request
      returns within ten actions of its own, held up by nothing but a full channel, no state
      leaves a goroutine waiting for nobody, and a reload can withhold a response that is ready.
    - Process pool: under every interleaving, with processes that may crash at any time,
      two goroutines never converse with the same process and every response is the answer to
      its own request; the machine is simulated by the abstract protocol, and a worker given
      up is never used again; every state is well formed; a request returns within four actions of its
      own or waits for [WORKER_READY], which may be for ever, or for a place in the channel;
      an undisturbed request has a closed form; a crashed worker is never noticed, and
      a reload of an idle pool blocks.
    - Watcher: a reload exactly when a watched file appeared, disappeared or got newer.
    - WebSocket: the manager implements a set of connections and a membership relation;
      broadcasts reach exactly the members; replies go where PHP says; under every
      interleaving a session's events are in order, and when all sessions are over nothing is
      left behind.
    - HTTP: a request goes through all layers to the pool and back with status, headers,
      body, metrics and log as specified; compression is transparent for handlers that
      write their status first or never, and what happens otherwise; panics are contained;
      the CGI variables are protected from headers; the counters add up; the core
      middleware is the composition of the separate ones; the static handler stays below its
      root; requests that share the pooled writers and gzip writers get the responses they get
      alone.
    - The whole: from [Start] on, every request for PHP gets the page, over any number of
      requests and recyclings; a shutdown in order loses no tracked request, and a shutdown
      can always complete; the exit status is 0 whatever the listener did.
    - Under load: concurrent requests leave what serving them one by one leaves, in worker mode
      every response is the page or names the time-out, and a scrape of the metrics shows numbers
      between those of its beginning and its end.
    - Health: whatever the pool is doing, the JSON the endpoints send reads back with its exact
      numbers.
    - Certificates: [startTLS] serves with the certificate of its choice or returns the error
      of the step that failed; the redirect server redirects all that is no challenge;
      a shutdown leaves no server behind, unless it overtakes [startTLS].
    - Configuration and engine: durations are read back as written; validation accepts exactly
      what the rest needs; the version chosen is always supported, and never depends on
      [composer.json].

    * Bounds and fuel

    The recursions are structural (on lists, strings, trees, numbers of workers), but for the
    reader of JSON in [GoJSON], whose fuel is the length of the text ([read_encode]), and two in
    [GoTime]: the digits of a number, with fuel 20, enough below 2^64, and the components of a
    duration, with the length of the text as fuel, enough because each one takes at least a
    character ([parse_components_total]). The pools, the shared buffers, the sessions, the
    requests under load, the scrape and [serve] are step machines whose runs are lists of events.
    Theorems about runs give the number of steps (four per worker and one for [Start], ten for a
    request, seven for a replacement, nine and two per worker for a shutdown), or a bound that
    every step decreases ([WirePool.actions_left], [WriterPoolInv.actions_left], [EmbPoolLive.steps_left],
    [WebSocketConc.rank]). The no-loss theorem
    assumes fewer than 2^32 workers made, the point where the 32-bit identifiers repeat; the
    scaling test is checked for pools of up to 64 workers, twice the default maximum.

    * Not modelled

    What [autocert] does with certificates and challenges, and the redirects of [http.ServeMux]
    itself (known by the laws of the class [Redirection]); cryptography, listening, TLS and
    QUIC, which belong to libraries; the writer of the metrics middleware in [WriterPool],
    where it is not pooled; the YAML syntax of the configuration; the numbers of
    the Go runtime and the printing of a floating-point number; the attributes of log entries of
    the pools and of [serve]; times and durations other than as given numbers; the PHP SDK and the C SAPI.
    A step by which the process pool and the watcher would be wired into [serve] does not exist in
    the code either: they are used by nothing under [src/cmd/]. *)
From Stdlib Require Export ZArith Lia.
From Stdlib Require Import Strings.Byte.
From stdpp Require Export base tactics option list.

#[export] Set Warnings "-clear-no-such-hyp".

Declare Scope maboo_scope.
Delimit Scope maboo_scope with maboo.
Open Scope maboo_scope.

(** The lemmas that automate the common cases of every component. *)
Create HintDb maboo.
Create Rewrite HintDb maboo.

(** ** Results: a Go function returning [(T, error)] *)

Inductive result (A E : Type) : Type :=
| Ok (a : A)
| Err (e : E).
Arguments Ok {A E} a.
Arguments Err {A E} e.

Definition result_bind {A B E} (r : result A E) (f : A -> result B E) : result B E :=
  match r with Ok a => f a | Err e => Err e end.

Definition map_err {A E F} (f : E -> F) (r : result A E) : result A F :=
  match r with Ok a => Ok a | Err e => Err (f e) end.

Notation "'let?' x ':=' c 'in' k" := (result_bind c (fun x => k))
  (at level 10, x pattern, c at level 100, k at level 200)
  : maboo_scope.

Definition is_ok {A E} (r : result A E) : bool :=
  match r with Ok _ => true | Err _ => false end.

#[export] Instance result_eq_dec {A E} `{EqDecision A, EqDecision E} :
  EqDecision (result A E).
Proof. solve_decision. Defined.

(** ** Bytes *)

Abbreviation byte := Byte.byte.

#[export] Instance byte_eq_dec : EqDecision byte := Byte.byte_eq_dec.

(** Go's conversion [byte(x)]: the low eight bits. *)
Definition byte_of_Z (z : Z) : byte :=
  match Byte.of_N (Z.to_N (z mod 256)) with Some b => b | None => Byte.x00 end.

(** Go's conversion [int(b)] of a byte. *)
Definition Z_of_byte (b : byte) : Z := Z.of_N (Byte.to_N b).

Lemma Z_of_byte_range b : (0 <= Z_of_byte b < 256)%Z.
Proof. unfold Z_of_byte. pose proof (Byte.to_N_bounded b). lia. Qed.

Lemma Z_of_byte_of_Z z : Z_of_byte (byte_of_Z z) = (z mod 256)%Z.
Proof.
  unfold Z_of_byte, byte_of_Z.
  assert (0 <= z mod 256 < 256)%Z as Hm by (apply Z.mod_pos_bound; lia).
  destruct (Byte.of_N (Z.to_N (z mod 256))) as [b|] eqn:E.
  - apply Byte.to_of_N in E. rewrite E. lia.
  - apply Byte.of_N_None_iff in E. lia.
Qed.

Lemma byte_of_Z_of_byte b : byte_of_Z (Z_of_byte b) = b.
Proof.
  unfold byte_of_Z. rewrite Z.mod_small by apply Z_of_byte_range.
  unfold Z_of_byte. rewrite N2Z.id, Byte.of_to_N. reflexivity.
Qed.

#[export] Instance Z_of_byte_inj : Inj (=) (=) Z_of_byte.
Proof.
  intros a b H. rewrite <- (byte_of_Z_of_byte a), <- (byte_of_Z_of_byte b).
  by f_equal.
Qed.

(** [lia] with quotients and remainders by constants. *)
Ltac zdiv := Z.div_mod_to_equations; lia.

(** ** Machine integers *)

(** Signed and unsigned wrap-around of Go's fixed-width integers. *)
Definition uwrap (w z : Z) : Z := (z mod 2 ^ w)%Z.
Definition swrap (w z : Z) : Z := ((z + 2 ^ (w - 1)) mod 2 ^ w - 2 ^ (w - 1))%Z.

Definition int32 (z : Z) : Z := swrap 32 z.
Definition int64 (z : Z) : Z := swrap 64 z.

Lemma int32_add a b : int32 (int32 a + b) = int32 (a + b).
Proof.
  unfold int32, swrap.
  replace ((a + 2 ^ (32 - 1)) mod 2 ^ 32 - 2 ^ (32 - 1) + b + 2 ^ (32 - 1))%Z
    with ((a + 2 ^ (32 - 1)) mod 2 ^ 32 + b)%Z by lia.
  rewrite Zplus_mod_idemp_l. do 2 f_equal. lia.
Qed.

Lemma int64_add a b : int64 (int64 a + b) = int64 (a + b).
Proof.
  unfold int64, swrap.
  replace ((a + 2 ^ (64 - 1)) mod 2 ^ 64 - 2 ^ (64 - 1) + b + 2 ^ (64 - 1))%Z
    with ((a + 2 ^ (64 - 1)) mod 2 ^ 64 + b)%Z by lia.
  rewrite Zplus_mod_idemp_l. do 2 f_equal. lia.
Qed.

Lemma int32_id z : (- 2 ^ 31 <= z < 2 ^ 31)%Z -> int32 z = z.
Proof. intros H. unfold int32, swrap. rewrite Z.mod_small; lia. Qed.

Lemma int64_id z : (- 2 ^ 63 <= z < 2 ^ 63)%Z -> int64 z = z.
Proof. intros H. unfold int64, swrap. rewrite Z.mod_small; lia. Qed.

(** Wrapping is injective on every window of [2^32] consecutive integers. *)
Lemma int32_inj a b : (Z.abs (a - b) < 2 ^ 32)%Z -> int32 a = int32 b -> a = b.
Proof.
  unfold int32, swrap. intros Hab H.
  assert ((a + 2 ^ (32 - 1)) mod 2 ^ 32 = (b + 2 ^ (32 - 1)) mod 2 ^ 32)%Z as E by lia.
  pose proof (Z.div_mod (a + 2 ^ (32 - 1)) (2 ^ 32) ltac:(lia)).
  pose proof (Z.div_mod (b + 2 ^ (32 - 1)) (2 ^ 32) ltac:(lia)).
  assert (a - b = 2 ^ 32 * ((a + 2 ^ (32 - 1)) / 2 ^ 32 - (b + 2 ^ (32 - 1)) / 2 ^ 32))%Z by lia.
  nia.
Qed.

(** Joining a number below a shifted one is addition. *)
Lemma lor_shiftl_low a b k :
  (0 <= k)%Z -> (0 <= b < 2 ^ k)%Z -> Z.lor (Z.shiftl a k) b = (a * 2 ^ k + b)%Z.
Proof.
  intros Hk Hb. rewrite <- Z.lxor_lor, <- Z.add_nocarry_lxor.
  1: by rewrite Z.shiftl_mul_pow2 by lia.
  all: apply Z.bits_inj'; intros n Hn; rewrite Z.land_spec, Z.bits_0.
  all: destruct (decide (n < k)%Z);
    [ by rewrite Z.shiftl_spec_low by lia
    | rewrite <- (Z.mod_small b (2 ^ k)) by lia;
      rewrite Z.mod_pow2_bits_high by lia; apply andb_false_r ].
Qed.

(** ** Lists *)

Lemma insert_Permutation {A} (l : list A) (i : nat) (x y : A) :
  l !! i = Some x -> exists k, l ≡ₚ x :: k /\ <[i := y]> l ≡ₚ y :: k.
Proof.
  intros Hx. exists (delete i l). split; [by apply delete_Permutation|].
  rewrite insert_take_drop by (by eapply lookup_lt_Some).
  rewrite delete_take_drop. by rewrite Permutation_middle.
Qed.

Lemma NoDup_submseteq_inv {A} (l k : list A) : l ⊆+ k -> NoDup k -> NoDup l.
Proof.
  intros [x Hx]%submseteq_Permutation Hk. rewrite Hx in Hk. by apply NoDup_app in Hk as [? _].
Qed.

Lemma Forall_submseteq {A} (P : A -> Prop) (l k : list A) : l ⊆+ k -> Forall P k -> Forall P l.
Proof.
  intros Hl. rewrite !Forall_forall. intros Hk x Hx. apply Hk. by eapply elem_of_submseteq.
Qed.

(** What one element of a list contributes to a duplicate-free [bind], no other does. *)
Lemma NoDup_bind_lookup {A B} (f : A -> list B) (l : list A) i j x y b :
  NoDup (l ≫= f) -> l !! i = Some x -> l !! j = Some y -> b ∈ f x -> b ∈ f y -> i = j.
Proof.
  revert i j. induction l as [|z l IH]; intros i j; [done|].
  rewrite bind_cons, NoDup_app. intros (_ & Hd & Hn) Hi Hj Hx Hy.
  assert (forall k v, l !! k = Some v -> b ∈ f v -> b ∈ f z -> False) as Hno.
  { intros k v Hk Hv Hz. apply (Hd b Hz), list_elem_of_bind. exists v.
    split; [done|]. by eapply list_elem_of_lookup_2. }
  destruct i as [|i], j as [|j]; simpl in *; simplify_eq; try done.
  - exfalso. by eapply Hno.
  - exfalso. by eapply Hno.
  - f_equal. by apply (IH i j).
Qed.

Lemma list_bind_fmap {A B C} (f : A -> list B) (g : B -> C) (l : list A) :
  g <$> (l ≫= f) = l ≫= (fun x => g <$> f x).
Proof. induction l as [|x l IH]; [done|]. by rewrite !bind_cons, fmap_app, IH. Qed.
