(* ===== verification/GoIO.v ===== *)
(** Readers and writers: the part of Go's [io] package the frame codec uses.

    A reader is the sequence of the chunks its [Read] calls will deliver (a
    pipe returns what the other side has written so far, not what was asked
    for) and the error that follows them.  Two readers that deliver the same
    bytes in different chunks are equivalent, and [ReadFull] respects that
    equivalence. *)
From S2P Require Import Prelude.

Inductive io_error :=
| EOF                 (** [io.EOF] *)
| ErrUnexpectedEOF    (** [io.ErrUnexpectedEOF] *)
| IOError (code : Z). (** any other error of the underlying file *)

#[export] Instance io_error_eq_dec : EqDecision io_error.
Proof. solve_decision. Defined.

Record reader := MkReader {
  rd_chunks : list (list byte);
  rd_end : io_error
}.

(** All the bytes a reader will deliver. *)
Definition rd_bytes (r : reader) : list byte := concat (rd_chunks r).

(** The reader that delivers [bs] in one piece. *)
Definition flat_reader (bs : list byte) (e : io_error) : reader := MkReader [bs] e.

(** The error of a short read: [io.EOF] only when no byte was read. *)
Definition short_read_error (got : list byte) (e : io_error) : io_error :=
  match got, e with
  | _ :: _, EOF => ErrUnexpectedEOF
  | _, _ => e
  end.

(** The loop of [io.ReadAtLeast] with [min = len(buf)]: call [Read] on the rest
    of the buffer until it is full or [Read] fails. A [Read] shorter than its
    chunk leaves the rest of the chunk for the next call. *)
Fixpoint read_full_loop (cs : list (list byte)) (e : io_error) (need : nat)
    (acc : list byte) : result (list byte) io_error * list (list byte) :=
  match need with
  | O => (Ok acc, cs)
  | S _ =>
      match cs with
      | [] => (Err (short_read_error acc e), [])
      | c :: cs' =>
          if decide (need < length c)
          then (Ok (acc ++ take need c), drop need c :: cs')
          else read_full_loop cs' e (need - length c) (acc ++ c)
      end
  end.

(** [io.ReadFull(r, buf)] with [len(buf) = n]. *)
Definition ReadFull (r : reader) (n : nat) : result (list byte) io_error * reader :=
  let '(res, cs) := read_full_loop (rd_chunks r) (rd_end r) n [] in
  (res, MkReader cs (rd_end r)).

(** Readers that deliver the same bytes and then the same error. *)
Definition reader_equiv (r1 r2 : reader) : Prop :=
  rd_bytes r1 = rd_bytes r2 /\ rd_end r1 = rd_end r2.

#[export] Instance reader_Equiv : Equiv reader := reader_equiv.

#[export] Instance reader_equiv_equivalence : Equivalence (≡@{reader}).
Proof.
  split; unfold equiv, reader_Equiv, reader_equiv.
  - by intros r.
  - by intros r1 r2 [-> ->].
  - by intros r1 r2 r3 [-> ->] [-> ->].
Qed.

Lemma flat_reader_equiv r : r ≡ flat_reader (rd_bytes r) (rd_end r).
Proof.
  unfold equiv, reader_Equiv, reader_equiv, flat_reader, rd_bytes. simpl.
  by rewrite app_nil_r.
Qed.

(** What the loop computes, on the concatenation of the chunks. *)
Lemma read_full_loop_ok cs e need acc :
  need <= length (concat cs) ->
  exists cs', read_full_loop cs e need acc
              = (Ok (acc ++ take need (concat cs)), cs')
              /\ concat cs' = drop need (concat cs).
Proof.
  revert need acc. induction cs as [|c cs IH]; intros [|need] acc Hlen; simpl in *.
  - exists []. by rewrite app_nil_r.
  - lia.
  - exists (c :: cs). by rewrite app_nil_r.
  - destruct (decide (S need < length c)) as [Hlt|Hge].
    + eexists. rewrite take_app_le, drop_app_le by lia. done.
    + rewrite length_app in Hlen.
      destruct (IH (S need - length c) (acc ++ c)) as (cs' & -> & Hcs'); [lia|].
      exists cs'. rewrite take_app_ge, drop_app_ge by lia.
      by rewrite <- app_assoc.
Qed.

Lemma read_full_loop_short cs e need acc :
  length (concat cs) < need ->
  read_full_loop cs e need acc = (Err (short_read_error (acc ++ concat cs) e), []).
Proof.
  revert need acc. induction cs as [|c cs IH]; intros [|need] acc Hlen; simpl in *;
    try lia.
  - by rewrite app_nil_r.
  - rewrite length_app in Hlen. rewrite decide_False by lia.
    rewrite IH by lia. by rewrite <- app_assoc.
Qed.

Lemma ReadFull_ok r n :
  n <= length (rd_bytes r) ->
  exists r', ReadFull r n = (Ok (take n (rd_bytes r)), r')
             /\ rd_bytes r' = drop n (rd_bytes r) /\ rd_end r' = rd_end r.
Proof.
  intros Hn. unfold ReadFull.
  destruct (read_full_loop_ok (rd_chunks r) (rd_end r) n [] Hn) as (cs & -> & Hcs).
  by eexists.
Qed.

Lemma ReadFull_short r n :
  length (rd_bytes r) < n ->
  ReadFull r n = (Err (short_read_error (rd_bytes r) (rd_end r)), MkReader [] (rd_end r)).
Proof. intros Hn. unfold ReadFull. by rewrite read_full_loop_short. Qed.

#[export] Instance ReadFull_proper :
  Proper ((≡) ==> (=) ==> prod_relation (=) (≡)) ReadFull.
Proof.
  intros r1 r2 [Hb He] n ? <-. unfold rd_bytes in Hb.
  destruct (decide (n <= length (rd_bytes r1))) as [Hn|Hn].
  - destruct (ReadFull_ok r1 n Hn) as (r1' & -> & Hb1 & He1).
    unfold rd_bytes in Hn. rewrite Hb in Hn.
    destruct (ReadFull_ok r2 n Hn) as (r2' & -> & Hb2 & He2).
    split; simpl.
    + unfold rd_bytes. by rewrite Hb.
    + split; [|congruence]. rewrite Hb1, Hb2. unfold rd_bytes. by rewrite Hb.
  - rewrite (ReadFull_short r1 n) by lia.
    unfold rd_bytes in Hn. rewrite Hb in Hn.
    rewrite (ReadFull_short r2 n) by (unfold rd_bytes; lia).
    unfold rd_bytes. rewrite Hb, He. by split.
Qed.

(** ** Writers *)

(** [io.Writer]: [Write] returns how many bytes it took and an error. *)
Class Writer (W : Type) := write : W -> list byte -> nat * option io_error * W.

(** The write end of a pipe nobody has closed: every byte is taken. *)
Record pipe := MkPipe { pipe_bytes : list byte }.

#[export] Instance pipe_writer : Writer pipe :=
  fun w bs => (length bs, None, MkPipe (pipe_bytes w ++ bs)).
