(* ===== verification/GoSlice.v ===== *)
(** Go byte slices: a backing array, whose length is the slice's capacity, and
    the slice's own length. Slices that are resliced or appended to within the
    capacity keep the backing array, stale bytes included; the pooled buffers
    of the program are slices of this kind. *)
From S2P Require Import Prelude.

Record slice := MkSlice { sl_arr : list byte; sl_len : nat }.

Definition sl_cap (s : slice) : nat := length (sl_arr s).

(** What a reader of the slice sees. *)
Definition sl_bytes (s : slice) : list byte := take (sl_len s) (sl_arr s).

(** [make([]byte, len, cap)] *)
Definition sl_make (len cap : nat) : slice := MkSlice (replicate cap Byte.x00) len.

(** [s[:n]], for [n <= cap(s)] *)
Definition sl_reslice (s : slice) (n : nat) : slice := MkSlice (sl_arr s) n.

(** [s[i] = b], for [i < len(s)] *)
Definition sl_set (s : slice) (i : nat) (b : byte) : slice :=
  MkSlice (<[i := b]> (sl_arr s)) (sl_len s).

Definition sl_set_all (s : slice) (l : list (nat * byte)) : slice :=
  foldl (fun s '(i, b) => sl_set s i b) s l.

(** [append(s, bs...)]: in place when it fits, on a new array otherwise. *)
Definition sl_append (s : slice) (bs : list byte) : slice :=
  let n := sl_len s + length bs in
  if decide (n <= sl_cap s)
  then MkSlice (take (sl_len s) (sl_arr s) ++ bs ++ drop n (sl_arr s)) n
  else MkSlice (take (sl_len s) (sl_arr s) ++ bs) n.

(** A slice is no longer than its array. *)
Definition sl_wf (s : slice) : Prop := sl_len s <= sl_cap s.

Lemma sl_bytes_append s bs : sl_wf s -> sl_bytes (sl_append s bs) = sl_bytes s ++ bs.
Proof.
  unfold sl_wf, sl_cap, sl_bytes, sl_append. intros Hwf. destruct s as [arr n]; simpl in *.
  assert (length (take n arr) = n) as Hn by (rewrite length_take; lia).
  case_decide; simpl.
  - rewrite app_assoc, take_app_le by (rewrite length_app; lia).
    apply take_ge. rewrite length_app. lia.
  - apply take_ge. rewrite length_app. lia.
Qed.

Lemma sl_append_wf s bs : sl_wf s -> sl_wf (sl_append s bs).
Proof.
  unfold sl_wf, sl_cap, sl_append. intros Hwf.
  case_decide; simpl in *; rewrite !length_app, length_take, ?length_drop; lia.
Qed.

Lemma sl_reslice_0 s : sl_wf (sl_reslice s 0) /\ sl_bytes (sl_reslice s 0) = [].
Proof. split; [unfold sl_wf; simpl; lia|done]. Qed.

Lemma length_sl_bytes s : sl_wf s -> length (sl_bytes s) = sl_len s.
Proof. unfold sl_wf, sl_cap, sl_bytes. intros. rewrite length_take. lia. Qed.

#[export] Hint Resolve sl_append_wf : maboo.
#[export] Hint Rewrite sl_bytes_append using (auto with maboo) : maboo.
