(* ===== verification/Wire.v ===== *)
(** The maboo-wire frame codec: [src/internal/protocol/wire.go].

    [WriteFrame] and [ReadFrame] are the code, pooled buffers and chunked reads
    included; [encode_frame] and [parse_frame] are the wire format they
    implement, on byte sequences. *)
From S2P Require Import Prelude GoIO GoSlice.
From Stdlib Require Ascii String.
Import String.StringSyntax.
Delimit Scope string_scope with string.
Local Open Scope Z_scope.
Local Open Scope list_scope.

(** ** Data *)

Definition Magic : byte * byte := (Byte.x4d, Byte.x42).
Definition Version : byte := Byte.x01.
Definition FrameHeaderSize : nat := 14.

Definition TypeRequest : byte := Byte.x01.
Definition TypeResponse : byte := Byte.x02.
Definition TypeStreamData : byte := Byte.x03.
Definition TypeStreamClose : byte := Byte.x04.
Definition TypeWorkerReady : byte := Byte.x05.
Definition TypeWorkerStop : byte := Byte.x06.
Definition TypePing : byte := Byte.x07.
Definition TypeError : byte := Byte.x08.

Definition FlagCompressed : byte := byte_of_Z (Z.shiftl 1 0).
Definition FlagChunked : byte := byte_of_Z (Z.shiftl 1 1).
Definition FlagFinal : byte := byte_of_Z (Z.shiftl 1 2).

(** [StreamID] is a [uint16]; a nil and an empty slice are both [[]], which the
    code never tells apart. *)
Record Frame := MkFrame {
  FType : byte;
  Flags : byte;
  StreamID : Z;
  Headers : list byte;
  Payload : list byte
}.

#[export] Instance Frame_eq_dec : EqDecision Frame.
Proof. solve_decision. Defined.

(** ** [WriteFrame] *)

(** [binary.BigEndian.PutUint16] and [PutUint32]: the bytes they store. *)
Definition PutUint16 (v : Z) : byte * byte :=
  (byte_of_Z (Z.shiftr v 8), byte_of_Z v).
Definition PutUint32 (v : Z) : byte * byte * byte * byte :=
  (byte_of_Z (Z.shiftr v 24), byte_of_Z (Z.shiftr v 16),
   byte_of_Z (Z.shiftr v 8), byte_of_Z v).

(** The fourteen stores into [buf], in order. *)
Definition header_stores (f : Frame) : list (nat * byte) :=
  let '(s1, s0) := PutUint16 (StreamID f) in
  let hdrSize := Z.of_nat (length (Headers f)) in
  let '(p3, p2, p1, p0) := PutUint32 (uwrap 32 (Z.of_nat (length (Payload f)))) in
  [(0%nat, fst Magic); (1%nat, snd Magic); (2%nat, Version);
   (3%nat, FType f); (4%nat, Flags f); (5%nat, s1); (6%nat, s0);
   (7%nat, byte_of_Z (Z.shiftr hdrSize 16)); (8%nat, byte_of_Z (Z.shiftr hdrSize 8));
   (9%nat, byte_of_Z hdrSize); (10%nat, p3); (11%nat, p2); (12%nat, p1); (13%nat, p0)].

(** [writeBufPool.New] *)
Definition new_write_buf : slice := sl_make 0 256.

(** The slice [WriteFrame] hands to [w.Write], built in the pooled buffer [bp]. *)
Definition frame_buf (bp : slice) (f : Frame) : slice :=
  let totalSize := (FrameHeaderSize + length (Headers f) + length (Payload f))%nat in
  let buf := sl_reslice bp 0 in
  let buf := if decide (sl_cap buf < totalSize)%nat then sl_make 0 totalSize else buf in
  let buf := sl_set_all (sl_reslice buf FrameHeaderSize) (header_stores f) in
  sl_append (sl_append buf (Headers f)) (Payload f).

(** [WriteFrame]: the error, the writer, and the buffer put back in the pool. *)
Definition WriteFrame {W} `{Writer W} (bp : slice) (w : W) (f : Frame) :
    option io_error * W * slice :=
  let buf := frame_buf bp f in
  let '(_, err, w') := write w (sl_bytes buf) in
  (err, w', buf).

(** ** [ReadFrame] *)

Inductive read_error :=
| ReadingHeader (e : io_error)         (** "reading frame header" *)
| InvalidMagic (b0 b1 : byte)          (** "invalid magic bytes" *)
| UnsupportedVersion (v : byte)        (** "unsupported protocol version" *)
| ReadingData (n : Z) (e : io_error).  (** "reading frame data (n bytes)" *)

#[export] Instance read_error_eq_dec : EqDecision read_error.
Proof. solve_decision. Defined.

(** [header[i]] as an unsigned integer. *)
Definition at_ (h : list byte) (i : nat) : byte := default Byte.x00 (h !! i).
Definition zat (h : list byte) (i : nat) : Z := Z_of_byte (at_ h i).

(** [binary.BigEndian.Uint16] and [Uint32] of [h[i:]]. *)
Definition Uint16 (h : list byte) (i : nat) : Z :=
  Z.lor (zat h (i + 1)) (Z.shiftl (zat h i) 8).
Definition Uint32 (h : list byte) (i : nat) : Z :=
  Z.lor (Z.lor (Z.lor (zat h (i + 3)) (Z.shiftl (zat h (i + 2)) 8))
               (Z.shiftl (zat h (i + 1)) 16))
        (Z.shiftl (zat h i) 24).

Definition header_size (h : list byte) : Z :=
  Z.lor (Z.lor (Z.shiftl (zat h 7) 16) (Z.shiftl (zat h 8) 8)) (zat h 9).

(** The second read: both parts in one buffer, then split. *)
Definition read_frame_data (f : Frame) (hdrSize payloadSize : Z) (r : reader) :
    result Frame read_error * reader :=
  let totalData := hdrSize + payloadSize in
  if Z.gtb totalData 0 then
    match ReadFull r (Z.to_nat totalData) with
    | (Err e, r) => (Err (ReadingData totalData e), r)
    | (Ok data, r) =>
        let hs := if Z.gtb hdrSize 0 then take (Z.to_nat hdrSize) data else Headers f in
        let ps := if Z.gtb payloadSize 0 then drop (Z.to_nat hdrSize) data else Payload f in
        (Ok (MkFrame (FType f) (Flags f) (StreamID f) hs ps), r)
    end
  else (Ok f, r).

Definition ReadFrame (r : reader) : result Frame read_error * reader :=
  match ReadFull r FrameHeaderSize with
  | (Err e, r) => (Err (ReadingHeader e), r)
  | (Ok header, r) =>
      if negb (bool_decide (at_ header 0 = fst Magic))
         || negb (bool_decide (at_ header 1 = snd Magic))
      then (Err (InvalidMagic (at_ header 0) (at_ header 1)), r)
      else if negb (bool_decide (at_ header 2 = Version))
      then (Err (UnsupportedVersion (at_ header 2)), r)
      else read_frame_data (MkFrame (at_ header 3) (at_ header 4) (Uint16 header 5) [] [])
             (header_size header) (Uint32 header 10) r
  end.

(** ** Control frames *)

Definition ascii_bytes (s : String.string) : list byte :=
  map Ascii.byte_of_ascii (String.list_ascii_of_string s).

Definition NewPingFrame : Frame := MkFrame TypePing Byte.x00 0 [] (ascii_bytes "ping"%string).
Definition NewPongFrame : Frame := MkFrame TypePing Byte.x00 0 [] (ascii_bytes "pong"%string).
Definition NewWorkerReadyFrame : Frame := MkFrame TypeWorkerReady Byte.x00 0 [] [].
Definition NewWorkerStopFrame : Frame := MkFrame TypeWorkerStop Byte.x00 0 [] [].
Definition NewErrorFrame (msg : String.string) : Frame :=
  MkFrame TypeError Byte.x00 0 [] (ascii_bytes msg).

(** ** The wire format, on byte sequences *)

Definition encode_frame (f : Frame) : list byte :=
  map snd (header_stores f) ++ Headers f ++ Payload f.

(** The frames the format can carry: 24 bits of header length, 32 of payload. *)
Definition fits (f : Frame) : Prop :=
  0 <= StreamID f < 2 ^ 16
  /\ Z.of_nat (length (Headers f)) < 2 ^ 24
  /\ Z.of_nat (length (Payload f)) < 2 ^ 32.

#[export] Instance fits_dec f : Decision (fits f).
Proof. unfold fits. apply _. Defined.

(** A big-endian number. *)
Definition be_number (bs : list byte) : Z :=
  foldl (fun acc b => acc * 256 + Z_of_byte b) 0 bs.

(** One frame at the front of [bs]; [e] is what follows the bytes. *)
Definition parse_frame (bs : list byte) (e : io_error) : result Frame read_error * list byte :=
  match bs with
  | m0 :: m1 :: v :: t :: fl :: s1 :: s0 :: h2 :: h1 :: h0 :: p3 :: p2 :: p1 :: p0 :: rest =>
      let hsz := Z.to_nat (be_number [h2; h1; h0]) in
      let psz := Z.to_nat (be_number [p3; p2; p1; p0]) in
      if decide ((m0, m1) = Magic) then
        if decide (v = Version) then
          if decide (hsz + psz <= length rest)%nat
          then (Ok (MkFrame t fl (be_number [s1; s0])
                      (take hsz rest) (take psz (drop hsz rest))),
                drop (hsz + psz) rest)
          else (Err (ReadingData (Z.of_nat (hsz + psz)) (short_read_error rest e)), [])
        else (Err (UnsupportedVersion v), rest)
      else (Err (InvalidMagic m0 m1), rest)
  | _ => (Err (ReadingHeader (short_read_error bs e)), [])
  end.

(** ** The pooled buffer does not show *)

Lemma length_header_stores f : length (header_stores f) = FrameHeaderSize.
Proof. done. Qed.

Lemma sl_set_all_header s f :
  (FrameHeaderSize <= sl_cap s)%nat ->
  let s' := sl_set_all (sl_reslice s FrameHeaderSize) (header_stores f) in
  sl_wf s' /\ sl_bytes s' = map snd (header_stores f).
Proof.
  unfold FrameHeaderSize, sl_cap, sl_wf. intros Hcap.
  destruct s as [arr n]; simpl in *.
  do 14 (destruct arr as [|? arr]; [simpl in Hcap; lia|]).
  simpl in *. unfold sl_cap, sl_bytes. simpl. rewrite take_0. split; [lia|done].
Qed.

(** Whatever the pooled buffer held, the slice written is the frame's encoding. *)
Lemma frame_buf_bytes bp f : sl_bytes (frame_buf bp f) = encode_frame f.
Proof.
  unfold frame_buf, encode_frame.
  set (total := (FrameHeaderSize + length (Headers f) + length (Payload f))%nat).
  set (buf := if decide _ then _ else _).
  assert (FrameHeaderSize <= sl_cap buf)%nat as Hcap.
  { unfold buf. case_decide as Hc.
    - unfold sl_cap, sl_make, total. cbn [sl_arr]. rewrite length_replicate. lia.
    - change (sl_cap (sl_reslice bp 0)) with (sl_cap bp) in *. unfold total in Hc. lia. }
  destruct (sl_set_all_header buf f Hcap) as [Hwf Hb].
  by rewrite !sl_bytes_append, Hb, app_assoc by auto with maboo.
Qed.

Lemma WriteFrame_pipe bp (w : pipe) f :
  exists buf, WriteFrame bp w f = (None, MkPipe (pipe_bytes w ++ encode_frame f), buf).
Proof.
  unfold WriteFrame. simpl. rewrite frame_buf_bytes. by eexists.
Qed.

(** ** Numbers of the header *)

Lemma zat_range h i : 0 <= zat h i < 256.
Proof. apply Z_of_byte_range. Qed.

Lemma Uint16_be h i : Uint16 h i = be_number [at_ h i; at_ h (i + 1)].
Proof.
  unfold Uint16, be_number, zat. simpl. rewrite Z.lor_comm.
  rewrite lor_shiftl_low by (lia || apply Z_of_byte_range). lia.
Qed.

Lemma header_size_be h : header_size h = be_number [at_ h 7; at_ h 8; at_ h 9].
Proof.
  unfold header_size, be_number, zat. simpl.
  pose proof (Z_of_byte_range (at_ h 7)). pose proof (Z_of_byte_range (at_ h 8)).
  pose proof (Z_of_byte_range (at_ h 9)).
  rewrite <- Z.lor_assoc, (lor_shiftl_low _ (Z_of_byte (at_ h 9)) 8) by lia.
  rewrite lor_shiftl_low by lia. lia.
Qed.

Lemma Uint32_be h i :
  Uint32 h i = be_number [at_ h i; at_ h (i + 1); at_ h (i + 2); at_ h (i + 3)].
Proof.
  unfold Uint32, be_number, zat. simpl.
  pose proof (Z_of_byte_range (at_ h i)). pose proof (Z_of_byte_range (at_ h (i + 1))).
  pose proof (Z_of_byte_range (at_ h (i + 2))). pose proof (Z_of_byte_range (at_ h (i + 3))).
  rewrite (Z.lor_comm (Z_of_byte _)), lor_shiftl_low by lia.
  rewrite (Z.lor_comm (_ + _)), lor_shiftl_low by lia.
  rewrite (Z.lor_comm (_ + _)), lor_shiftl_low by lia. lia.
Qed.

Lemma be_number_range bs : 0 <= be_number bs < 256 ^ Z.of_nat (length bs).
Proof.
  unfold be_number. induction bs as [|b bs IH] using rev_ind; [simpl; lia|].
  rewrite foldl_app, length_app. simpl.
  pose proof (Z_of_byte_range b).
  replace (Z.of_nat (length bs + 1)) with (Z.succ (Z.of_nat (length bs))) by lia.
  rewrite Z.pow_succ_r by lia. lia.
Qed.

(** ** [ReadFrame] implements [parse_frame] *)

(** A reading function that delivers [x] and leaves [bs] before the end [e]. *)
Definition reads_to {A} (out : A * reader) (x : A) (bs : list byte) (e : io_error) : Prop :=
  fst out = x /\ rd_bytes (snd out) = bs /\ rd_end (snd out) = e.

Lemma read_frame_data_spec f hsz psz r :
  Headers f = [] -> Payload f = [] -> 0 <= hsz -> 0 <= psz ->
  let h := Z.to_nat hsz in
  let p := Z.to_nat psz in
  let bs := rd_bytes r in
  if decide (h + p <= length bs)%nat
  then reads_to (read_frame_data f hsz psz r)
         (Ok (MkFrame (FType f) (Flags f) (StreamID f) (take h bs) (take p (drop h bs))))
         (drop (h + p) bs) (rd_end r)
  else reads_to (read_frame_data f hsz psz r)
         (Err (ReadingData (hsz + psz) (short_read_error bs (rd_end r)))) [] (rd_end r).
Proof.
  intros Hh Hp Hhsz Hpsz h p bs. unfold read_frame_data, reads_to.
  assert (Eh : Z.to_nat hsz = h) by done. assert (Ep : Z.to_nat psz = p) by done.
  clearbody h p. subst bs.
  destruct (Z.gtb_spec (hsz + psz) 0) as [Hpos|Hzero].
  - replace (Z.to_nat (hsz + psz)) with (h + p)%nat by lia.
    case_decide as Hlen.
    + destruct (ReadFull_ok r (h + p) Hlen) as (r' & -> & Hb & He). simpl.
      rewrite Hh, Hp. split_and!; [|done|done]. rewrite Eh. do 2 f_equal.
      * destruct (Z.gtb_spec hsz 0); [|by replace h with 0%nat by lia].
        rewrite take_take. f_equal. lia.
      * destruct (Z.gtb_spec psz 0); [|by replace p with 0%nat by lia].
        rewrite <- take_drop_commute || rewrite take_drop_commute.
        done.
    + rewrite ReadFull_short by lia. done.
  - replace h with 0%nat by lia. replace p with 0%nat by lia.
    rewrite decide_True by lia. simpl. rewrite !take_0, drop_0.
    destruct f; simpl in *; subst. done.
Qed.

(** The checks on the fixed header, as the code writes them. *)
Lemma magic_check b0 b1 :
  negb (bool_decide (b0 = fst Magic)) || negb (bool_decide (b1 = snd Magic))
  = negb (bool_decide ((b0, b1) = Magic)).
Proof.
  rewrite <- negb_andb, <- bool_decide_and. f_equal. apply bool_decide_ext.
  unfold Magic. simpl. by split; [intros [-> ->]|intros [= -> ->]].
Qed.

Lemma ReadFrame_parse r :
  reads_to (ReadFrame r) (fst (parse_frame (rd_bytes r) (rd_end r)))
    (snd (parse_frame (rd_bytes r) (rd_end r))) (rd_end r).
Proof.
  unfold ReadFrame.
  destruct (decide (FrameHeaderSize <= length (rd_bytes r))%nat) as [Hlen|Hlen].
  - destruct (ReadFull_ok r FrameHeaderSize Hlen) as (r' & -> & Hb & He).
    unfold FrameHeaderSize in *. revert Hlen Hb.
    generalize (rd_bytes r) as bs. intros bs Hlen Hb.
    do 14 (destruct bs as [|? bs]; [simpl in Hlen; lia|]). clear Hlen.
    cbn [take drop] in Hb |- *. rewrite drop_0 in Hb. rewrite take_0.
    rewrite magic_check, header_size_be, Uint32_be, Uint16_be.
    unfold at_. cbn [lookup list_lookup Nat.add default from_option id parse_frame].
    match goal with |- context [be_number [?a; ?b; ?c]] =>
      pose proof (be_number_range [a; b; c]) as [Hh _] end.
    match goal with |- context [be_number [?a; ?b; ?c; ?d]] =>
      pose proof (be_number_range [a; b; c; d]) as [Hp _] end.
    rewrite !(bool_decide_decide (_ = Magic)), !(bool_decide_decide (_ = Version)).
    case_decide; [|by split_and!].
    case_decide; [|by split_and!]. cbn [negb].
    match goal with |- reads_to (read_frame_data ?f _ _ _) _ _ _ =>
      pose proof (read_frame_data_spec f _ _ r' eq_refl eq_refl Hh Hp) as Hd end.
    cbn zeta in Hd. rewrite Hb, He in Hd.
    case_decide; [done|]. cbn [fst snd].
    by rewrite Nat2Z.inj_add, !Z2Nat.id by lia.
  - rewrite ReadFull_short by lia. unfold FrameHeaderSize in *.
    revert Hlen. generalize (rd_bytes r) as bs. intros bs Hlen.
    do 14 (destruct bs as [|? bs]; [done|]).
    simpl in Hlen. lia.
Qed.

(** ** The format is a bijection between frames that fit and their encodings *)

Lemma be_number_PutUint16 v :
  0 <= v < 2 ^ 16 -> be_number [fst (PutUint16 v); snd (PutUint16 v)] = v.
Proof.
  intros Hv. unfold be_number, PutUint16. simpl.
  rewrite !Z_of_byte_of_Z, Z.shiftr_div_pow2 by lia. zdiv.
Qed.

Lemma be_number_3 v :
  be_number [byte_of_Z (Z.shiftr v 16); byte_of_Z (Z.shiftr v 8); byte_of_Z v]
  = uwrap 24 v.
Proof.
  unfold be_number, uwrap. simpl. rewrite !Z_of_byte_of_Z, !Z.shiftr_div_pow2 by lia. zdiv.
Qed.

Lemma be_number_4 v :
  0 <= v < 2 ^ 32 ->
  be_number [byte_of_Z (Z.shiftr v 24); byte_of_Z (Z.shiftr v 16);
             byte_of_Z (Z.shiftr v 8); byte_of_Z v] = v.
Proof.
  intros Hv. unfold be_number. simpl.
  rewrite !Z_of_byte_of_Z, !Z.shiftr_div_pow2 by lia. zdiv.
Qed.

Lemma parse_encode f rest e :
  fits f -> parse_frame (encode_frame f ++ rest) e = (Ok f, rest).
Proof.
  intros (Hs & Hh & Hp). unfold encode_frame, header_stores.
  pose proof (be_number_PutUint16 _ Hs) as Es. destruct (PutUint16 _) as [s1 s0].
  pose proof (be_number_3 (Z.of_nat (length (Headers f)))) as Eh.
  pose proof (be_number_4 (Z.of_nat (length (Payload f))) ltac:(lia)) as Ep.
  unfold uwrap in *. rewrite Z.mod_small in Eh by lia. rewrite Z.mod_small by lia.
  unfold PutUint32. cbn [map snd fst app parse_frame] in *.
  rewrite decide_True by done. rewrite decide_True by done.
  rewrite Eh, Ep, Es, !Nat2Z.id.
  rewrite <- app_assoc, decide_True by (rewrite !length_app; lia).
  rewrite take_app_length, drop_app_length, take_app_length.
  rewrite <- drop_drop, drop_app_length, drop_app_length.
  by destruct f.
Qed.

(** The fourteen bytes of a header are determined by the numbers they carry. *)
Lemma be_number_inj bs1 bs2 :
  length bs1 = length bs2 -> be_number bs1 = be_number bs2 -> bs1 = bs2.
Proof.
  revert bs2. induction bs1 as [|b1 bs1 IH] using rev_ind; intros bs2 Hl Hn.
  - by destruct bs2.
  - destruct bs2 as [|b2 bs2 _] using rev_ind; rewrite !length_app in Hl; simpl in Hl; [lia|].
    unfold be_number in *. rewrite !foldl_app in Hn. simpl in Hn.
    pose proof (Z_of_byte_range b1). pose proof (Z_of_byte_range b2).
    rewrite (IH bs2) by lia. f_equal. f_equal. apply (inj Z_of_byte). lia.
Qed.

Lemma bytes2_be a b :
  PutUint16 (be_number [a; b]) = (a, b).
Proof.
  assert (be_number [a; b] = be_number [a; b]) as E by done.
  rewrite <- (be_number_PutUint16 (be_number [a; b])) in E at 1
    by apply (be_number_range [a; b]).
  apply be_number_inj in E; [|done]. unfold PutUint16 in *. by injection E as -> ->.
Qed.

Lemma bytes3_be a b c (v := be_number [a; b; c]) :
  [byte_of_Z (Z.shiftr v 16); byte_of_Z (Z.shiftr v 8); byte_of_Z v] = [a; b; c].
Proof.
  apply be_number_inj; [done|]. rewrite be_number_3.
  apply Z.mod_small, (be_number_range [a; b; c]).
Qed.

Lemma bytes4_be a b c d (v := be_number [a; b; c; d]) :
  PutUint32 v = (a, b, c, d).
Proof.
  assert ([byte_of_Z (Z.shiftr v 24); byte_of_Z (Z.shiftr v 16);
           byte_of_Z (Z.shiftr v 8); byte_of_Z v] = [a; b; c; d]) as E.
  { apply be_number_inj; [done|]. rewrite be_number_4; [done|].
    apply (be_number_range [a; b; c; d]). }
  unfold PutUint32. by injection E as -> -> -> ->.
Qed.

Lemma encode_parse bs e f rest :
  parse_frame bs e = (Ok f, rest) -> bs = encode_frame f ++ rest /\ fits f.
Proof.
  do 14 (destruct bs as [|? bs]; [done|]). cbn [parse_frame].
  case_decide as Hm; [|done]. case_decide as Hv; [|done]. case_decide as Hl; [|done].
  intros [= <- <-]. injection Hm as -> ->. subst.
  match goal with |- context [be_number [?a; ?b]] => pose proof (be_number_range [a; b]) as H2 end.
  match goal with |- context [be_number [?a; ?b; ?c]] =>
    pose proof (be_number_range [a; b; c]) as H3; pose proof (bytes3_be a b c) as E3 end.
  match goal with |- context [be_number [?a; ?b; ?c; ?d]] =>
    pose proof (be_number_range [a; b; c; d]) as H4; pose proof (bytes4_be a b c d) as E4 end.
  cbn zeta in *. cbn [length] in *.
  match goal with |- context [be_number [?a; ?b; ?c]] => set (hsz := be_number [a; b; c]) in * end.
  match goal with |- context [be_number [?a; ?b; ?c; ?d]] =>
    set (psz := be_number [a; b; c; d]) in * end.
  assert (length (take (Z.to_nat hsz) bs) = Z.to_nat hsz) as Lh by (rewrite length_take; lia).
  assert (length (take (Z.to_nat psz) (drop (Z.to_nat hsz) bs)) = Z.to_nat psz) as Lp
    by (rewrite length_take, length_drop; lia).
  split.
  - unfold encode_frame, header_stores. cbn [StreamID Headers Payload FType Flags].
    rewrite bytes2_be, Lh, Lp, !Z2Nat.id by lia.
    unfold uwrap. rewrite (Z.mod_small psz) by lia. rewrite E4.
    injection E3 as -> -> ->. cbn [map snd fst app].
    rewrite <- app_assoc, <- drop_drop, !take_drop. done.
  - unfold fits. cbn [StreamID Headers Payload]. rewrite Lh, Lp. lia.
Qed.

(** ** Properties *)

(** A sequence of calls of [WriteFrame], each with the pooled buffer it got. *)
Fixpoint write_frames (w : pipe) (fs : list (slice * Frame)) : option io_error * pipe :=
  match fs with
  | [] => (None, w)
  | (bp, f) :: fs =>
      match WriteFrame bp w f with
      | (None, w, _) => write_frames w fs
      | (Some e, w, _) => (Some e, w)
      end
  end.

(** [n] calls of [ReadFrame], stopping at the first error. *)
Fixpoint read_frames (n : nat) (r : reader) : list Frame * option read_error * reader :=
  match n with
  | O => ([], None, r)
  | S n =>
      match ReadFrame r with
      | (Err e, r) => ([], Some e, r)
      | (Ok f, r) => let '(fs, e, r) := read_frames n r in (f :: fs, e, r)
      end
  end.

Lemma write_frames_bytes w fs :
  write_frames w fs = (None, MkPipe (pipe_bytes w ++ concat (map (encode_frame ∘ snd) fs))).
Proof.
  revert w. induction fs as [|[bp f] fs IH]; intros w; cbn -[WriteFrame].
  - rewrite app_nil_r. by destruct w.
  - destruct (WriteFrame_pipe bp w f) as (buf & ->). rewrite IH. cbn [pipe_bytes].
    by rewrite <- app_assoc.
Qed.

Lemma ReadFrame_encode r f rest :
  fits f -> rd_bytes r = encode_frame f ++ rest ->
  exists r', ReadFrame r = (Ok f, r') /\ rd_bytes r' = rest /\ rd_end r' = rd_end r.
Proof.
  intros Hf Hr. pose proof (ReadFrame_parse r) as (Hp & Hb & He).
  rewrite Hr, (parse_encode f rest) in Hp, Hb by done.
  destruct (ReadFrame r) as [res r']. simpl in *. subst. by eexists.
Qed.

(** C1. The stream round trip: frames that fit the format, written one after the
    other into a pipe with whatever stale buffers the pool hands out, are read back
    in order and complete, however the pipe cuts the bytes into chunks; the read
    after the last one reports the end of the stream before any byte. *)
Theorem wire_stream_roundtrip (fs : list (slice * Frame)) (r : reader) :
  Forall (fits ∘ snd) fs ->
  rd_bytes r = pipe_bytes (snd (write_frames (MkPipe []) fs)) ->
  rd_end r = EOF ->
  fst (write_frames (MkPipe []) fs) = None
  /\ fst (fst (read_frames (length fs) r)) = map snd fs
  /\ snd (fst (read_frames (S (length fs)) r)) = Some (ReadingHeader EOF).
Proof.
  rewrite write_frames_bytes. simpl. intros Hfs Hr He. split; [done|].
  revert r Hr He. induction Hfs as [|[bp f] fs Hf Hfs IH]; intros r Hr He.
  - split; [done|]. pose proof (ReadFrame_parse r) as (Hp & _ & _).
    rewrite Hr, He in Hp. simpl in *. destruct (ReadFrame r) as [res r'].
    simpl in Hp. by subst.
  - destruct (ReadFrame_encode r f _ Hf Hr) as (r' & Er & Hb & He'). simpl.
    rewrite Er. destruct (IH r' Hb ltac:(congruence)) as [IH1 IH2].
    simpl in IH1, IH2. rewrite <- IH1.
    destruct (read_frames (length fs) r') as [[gs e] r'']. simpl.
    destruct (ReadFrame r') as [[f'|e'] r3]; [|done].
    by destruct (read_frames (length fs) r3) as [[? ?] ?].
Qed.

(** C23. Reading is sound: when [ReadFrame] accepts a frame, the bytes it consumed are
    exactly those [WriteFrame] produces for that frame, from any pooled buffer, and the
    frame fits the format; nothing beyond them is consumed. *)
Theorem ReadFrame_sound (r r' : reader) (f : Frame) (bp : slice) (w : pipe) :
  ReadFrame r = (Ok f, r') ->
  fits f
  /\ exists bs buf, WriteFrame bp w f = (None, MkPipe (pipe_bytes w ++ bs), buf)
                    /\ rd_bytes r = bs ++ rd_bytes r'.
Proof.
  intros Er. pose proof (ReadFrame_parse r) as (Hp & Hb & He). rewrite Er in *. simpl in *.
  destruct (parse_frame (rd_bytes r) (rd_end r)) as [res rest] eqn:Ep. simpl in *. subst.
  destruct (encode_parse _ _ _ _ Ep) as [-> Hf]. split; [done|].
  destruct (WriteFrame_pipe bp w f) as (buf & Ew). by exists (encode_frame f), buf.
Qed.

(** Fragmentation does not show: two readers that deliver the same bytes in
    different chunks get the same frame or the same error, and are left with the same
    bytes. *)
Theorem ReadFrame_fragmentation : Proper ((≡) ==> prod_relation (=) (≡)) ReadFrame.
Proof.
  intros r1 r2 [Hb He].
  pose proof (ReadFrame_parse r1) as (Hp1 & Hb1 & He1).
  pose proof (ReadFrame_parse r2) as (Hp2 & Hb2 & He2).
  rewrite Hb, He in Hp1, Hb1. split; [congruence|]. split; congruence.
Qed.

(** C35. A cut stream never yields a frame: of a strict prefix of an encoded frame,
    [ReadFrame] reports a short header or short data, as an unexpected end except at
    the two places where the code asks for bytes and gets none. *)
Theorem ReadFrame_truncated (f : Frame) (r : reader) (n : nat) :
  fits f -> (n < length (encode_frame f))%nat ->
  rd_bytes r = take n (encode_frame f) -> rd_end r = EOF ->
  let end_of k := if decide (n = k) then EOF else ErrUnexpectedEOF in
  fst (ReadFrame r)
  = Err (if decide (n < FrameHeaderSize)%nat then ReadingHeader (end_of 0%nat)
         else ReadingData (Z.of_nat (length (Headers f) + length (Payload f)))
                (end_of FrameHeaderSize)).
Proof.
  intros Hf Hn Hr He end_of. pose proof (ReadFrame_parse r) as (-> & _ & _).
  rewrite Hr, He. pose proof (parse_encode f [] EOF Hf) as Hp. rewrite app_nil_r in Hp.
  revert Hn Hp. unfold FrameHeaderSize in *.
  assert (length (encode_frame f) = 14 + (length (Headers f) + length (Payload f)))%nat as Hl
    by (unfold encode_frame; by rewrite !length_app).
  revert Hl. generalize (encode_frame f) as bs. intros bs Hl Hn Hp.
  do 14 (destruct bs as [|? bs]; [simpl in Hl; lia|]).
  do 14 (destruct n as [|n]; [done|]). rewrite decide_False by lia.
  cbn [take parse_frame] in *. case_decide; [|done]. case_decide; [|done].
  case_decide; [|done]. injection Hp as Hp Hrest. simpl in Hl.
  assert (length bs = Z.to_nat (be_number [b6; b7; b8])
                      + Z.to_nat (be_number [b9; b10; b11; b12]))%nat as Hlen.
  { apply (f_equal length) in Hrest. rewrite length_drop in Hrest. simpl in Hrest. lia. }
  simpl in Hn. rewrite decide_False by (rewrite length_take; lia). simpl. do 2 f_equal.
  - lia.
  - unfold end_of, short_read_error. destruct n; simpl; [done|].
    destruct bs; simpl in *; [lia|]. done.
Qed.

(** C40. The limits of the format are not checked when writing: [WriteFrame] reports
    success for every frame, and the frame comes back exactly when its headers are
    below 16 MiB and its payload below 4 GiB; a larger one is silently replaced. *)
Theorem WriteFrame_unchecked_limits (f : Frame) (bp : slice) (r : reader) (rest : list byte) :
  0 <= StreamID f < 2 ^ 16 ->
  rd_bytes r = pipe_bytes (snd (fst (WriteFrame bp (MkPipe []) f))) ++ rest ->
  fst (fst (WriteFrame bp (MkPipe []) f)) = None
  /\ (fst (ReadFrame r) = Ok f
      <-> Z.of_nat (length (Headers f)) < 2 ^ 24 /\ Z.of_nat (length (Payload f)) < 2 ^ 32).
Proof.
  destruct (WriteFrame_pipe bp (MkPipe []) f) as (buf & ->). cbn [fst snd pipe_bytes app].
  intros Hs Hr. split; [done|]. split.
  - intros Ho. pose proof (ReadFrame_parse r) as (Hp & _ & _). rewrite Ho in Hp.
    destruct (parse_frame (rd_bytes r) (rd_end r)) as [res rest'] eqn:Ep.
    simpl in Hp. subst res. by apply encode_parse in Ep as [_ (_ & ? & ?)].
  - intros [Hh Hp]. by destruct (ReadFrame_encode r f rest) as (r' & -> & _).
Qed.

(** ** The properties at concrete inputs *)

Definition example_frame : Frame :=
  MkFrame TypeRequest FlagFinal 513 (ascii_bytes "hd"%string) (ascii_bytes "body"%string).

Definition example_reader (bs : list byte) : reader :=
  MkReader [take 3 bs; []; take 13 (drop 3 bs); drop 16 bs] EOF.

Definition dirty_buf : slice := MkSlice (replicate 40 Byte.xff) 7.

Lemma wire_stream_roundtrip_witness :
  let fs := [(dirty_buf, example_frame); (new_write_buf, NewPingFrame)] in
  let r := example_reader (pipe_bytes (snd (write_frames (MkPipe []) fs))) in
  fst (fst (read_frames 2 r)) = [example_frame; NewPingFrame].
Proof.
  intros fs r.
  apply (wire_stream_roundtrip fs r); [|by vm_compute|done].
  repeat constructor; unfold fits; vm_compute; done.
Defined.

Lemma ReadFrame_sound_witness :
  fits example_frame
  /\ exists bs buf, WriteFrame dirty_buf (MkPipe []) example_frame = (None, MkPipe bs, buf)
                    /\ encode_frame example_frame = bs ++ [].
Proof.
  apply (ReadFrame_sound (example_reader (encode_frame example_frame)) (MkReader [] EOF)
           example_frame dirty_buf (MkPipe [])).
  by vm_compute.
Defined.

Lemma ReadFrame_truncated_witness :
  fst (ReadFrame (flat_reader (take 16 (encode_frame example_frame)) EOF))
  = Err (ReadingData 6 ErrUnexpectedEOF).
Proof.
  apply (ReadFrame_truncated example_frame
           (flat_reader (take 16 (encode_frame example_frame)) EOF) 16).
  - unfold fits. vm_compute. done.
  - vm_compute. lia.
  - by vm_compute.
  - done.
Defined.

Lemma WriteFrame_unchecked_limits_witness :
  fst (ReadFrame (example_reader (encode_frame example_frame))) = Ok example_frame.
Proof.
  apply (WriteFrame_unchecked_limits example_frame dirty_buf
           (example_reader (encode_frame example_frame)) []); vm_compute; done.
Defined.
