(* ===== verification/WirePool.v ===== *)
(** The codec's buffer pools: [ReadFrame] and [WriteFrame] of
    [src/internal/protocol/wire.go] called by many goroutines at once.

    Both functions work in buffers of a [sync.Pool] that all goroutines share. This file
    runs them as a machine: a heap of buffers, the two pools as lists of buffers that
    are free, and a thread per call; a step is one access to a pool, one [Read], one
    store, or the accesses to a buffer between two of these. A pool may hand out any of
    its buffers or a new one, and may lose buffers at any time. [Wire] has the two
    functions as they run alone; the theorem says that running together changes nothing but
    the bytes shown in two error messages, which are read after the buffer was put back. *)
From S2P Require Import Prelude GoIO GoSlice Wire.
Local Open Scope Z_scope.
Local Open Scope list_scope.

(** ** State *)

(** Buffers are named by their position in the heap: pointers to slices. *)
Record store := MkStore {
  heap : list slice;
  readHdrPool : list nat;
  writeBufPool : list nat
}.

(** What [ReadFrame] is about to report of a header it rejects. *)
Inductive complaint := BadMagic | BadVersion.

Section Machine.
Context {W : Type} `{Writer W}.

Inductive call :=
| CallRead (r : reader)
| CallWrite (w : W) (f : Frame).

(** Where a call is. [grown] is the array of [buf] when it is not the pooled buffer's. *)
Inductive pc :=
| RGet (r : reader)                              (** [readHdrPool.Get()] *)
| RFill (bp got : nat) (r : reader)              (** [io.ReadFull(r, header)], [got] bytes read *)
| RFailed (bp : nat) (e : io_error) (r : reader) (** it failed: [Put], return *)
| RCheck (bp : nat) (r : reader)                 (** magic and version *)
| RBad (bp : nat) (k : complaint) (r : reader)   (** rejected: [Put] *)
| RMessage (bp : nat) (k : complaint) (r : reader)       (** after it, [header[0]] or [header[2]] is read *)
| RMessage1 (bp : nat) (b0 : byte) (r : reader)          (** then [header[1]] *)
| RParse (bp : nat) (r : reader)                         (** the fields of the header *)
| RPut (bp : nat) (f : Frame) (hdrSize payloadSize : Z) (r : reader)
| RData (f : Frame) (hdrSize payloadSize : Z) (r : reader)
| RDone (res : result Frame read_error) (r : reader)
| WGet (w : W)                                                       (** [writeBufPool.Get()] *)
| WStart (bp : nat) (w : W)                                          (** [buf], from the pooled slice or a new one *)
| WStore (bp : nat) (grown : option (list byte)) (todo : list (nat * byte)) (w : W)
| WHeaders (bp : nat) (grown : option (list byte)) (w : W)           (** [append(buf, f.Headers...)] *)
| WPayload (bp : nat) (grown : option (list byte)) (n : nat) (w : W) (** [append(buf, f.Payload...)] *)
| WWrite (bp : nat) (grown : option (list byte)) (n : nat) (w : W)   (** [w.Write(buf)] *)
| WPut (bp : nat) (grown : option (list byte)) (n : nat) (err : option io_error) (w : W)
| WDone (err : option io_error) (w : W).

Record thread := MkThread { t_call : call; t_pc : pc }.
Record state := MkState { st : store; threads : list thread }.

(** ** The pools *)

(** What [Get] does: a buffer of the pool, or a new one. *)
Inductive choice := Go | New | Pooled (k : nat).

Definition Get (free : list nat) (new : slice) (h : list slice) (c : choice)
    : option (nat * list nat * list slice) :=
  match c with
  | Go => None
  | New => Some (length h, free, h ++ [new])
  | Pooled k => match free !! k with Some bp => Some (bp, delete k free, h) | None => None end
  end.

(** [readHdrPool.New] *)
Definition new_header : slice := sl_make FrameHeaderSize FrameHeaderSize.

Definition buffer (s : store) (bp : nat) : slice := default (sl_make 0 0) (heap s !! bp).
Definition header (s : store) (bp : nat) : list byte := sl_arr (buffer s bp).

Definition set_heap (s : store) (h : list slice) : store := MkStore h (readHdrPool s) (writeBufPool s).
Definition set_array (s : store) (bp : nat) (arr : list byte) : store :=
  set_heap s (<[bp := MkSlice arr (sl_len (buffer s bp))]> (heap s)).
Definition put_header (s : store) (bp : nat) : store :=
  MkStore (heap s) (bp :: readHdrPool s) (writeBufPool s).
Definition put_write_buf (s : store) (bp : nat) (buf : slice) : store :=
  MkStore (<[bp := buf]> (heap s)) (readHdrPool s) (bp :: writeBufPool s).

(** ** [ReadFrame] *)

(** Overwrite [bs] at [i] in an array. *)
Definition copy_at (i : nat) (bs arr : list byte) : list byte :=
  take i arr ++ bs ++ drop (i + length bs) arr.

(** One [Read] of [ReadFull]'s loop, into [header[got:]]. *)
Definition fill_step (s : store) (bp got : nat) (r : reader) : store * pc :=
  let need := (FrameHeaderSize - got)%nat in
  match rd_chunks r with
  | [] => (s, RFailed bp (short_read_error (take got (header s bp)) (rd_end r)) (MkReader [] (rd_end r)))
  | c :: cs =>
      if decide (need < length c)%nat
      then (set_array s bp (copy_at got (take need c) (header s bp)),
            RCheck bp (MkReader (drop need c :: cs) (rd_end r)))
      else
        let got' := (got + length c)%nat in
        let r' := MkReader cs (rd_end r) in
        (set_array s bp (copy_at got c (header s bp)),
         if decide (got' = FrameHeaderSize) then RCheck bp r' else RFill bp got' r')
  end.

Definition check_header (h : list byte) (bp : nat) (r : reader) : pc :=
  if negb (bool_decide (at_ h 0 = fst Magic)) || negb (bool_decide (at_ h 1 = snd Magic))
  then RBad bp BadMagic r
  else if negb (bool_decide (at_ h 2 = Version)) then RBad bp BadVersion r
  else RParse bp r.

Definition read_step (s : store) (p : pc) (c : choice) : option (store * pc) :=
  match p with
  | RGet r =>
      match Get (readHdrPool s) new_header (heap s) c with
      | Some (bp, free, h) => Some (MkStore h free (writeBufPool s), RFill bp 0 r)
      | None => None
      end
  | RFill bp got r => Some (fill_step s bp got r)
  | RFailed bp e r => Some (put_header s bp, RDone (Err (ReadingHeader e)) r)
  | RCheck bp r => Some (s, check_header (header s bp) bp r)
  | RBad bp k r => Some (put_header s bp, RMessage bp k r)
  | RMessage bp BadMagic r => Some (s, RMessage1 bp (at_ (header s bp) 0) r)
  | RMessage bp BadVersion r =>
      Some (s, RDone (Err (UnsupportedVersion (at_ (header s bp) 2))) r)
  | RMessage1 bp b0 r => Some (s, RDone (Err (InvalidMagic b0 (at_ (header s bp) 1))) r)
  | RParse bp r =>
      let h := header s bp in
      Some (s, RPut bp (MkFrame (at_ h 3) (at_ h 4) (Uint16 h 5) [] []) (header_size h) (Uint32 h 10) r)
  | RPut bp f hdrSize payloadSize r => Some (put_header s bp, RData f hdrSize payloadSize r)
  | RData f hdrSize payloadSize r =>
      let '(res, r) := read_frame_data f hdrSize payloadSize r in Some (s, RDone res r)
  | _ => None
  end.

(** ** [WriteFrame] *)

(** [buf]: of length [n], in an array of its own or in the pooled buffer's. *)
Definition buf_of (s : store) (bp : nat) (grown : option (list byte)) (n : nat) : slice :=
  MkSlice (default (header s bp) grown) n.

(** The array of [buf] after it has been stored to or appended to: an [append] that does not fit
    moves [buf] to an array of its own. *)
Definition keep_buf (s : store) (bp : nat) (grown : option (list byte)) (buf : slice)
    : store * option (list byte) :=
  match grown with
  | Some _ => (s, Some (sl_arr buf))
  | None =>
      if decide (length (sl_arr buf) = length (header s bp))
      then (set_array s bp (sl_arr buf), None) else (s, Some (sl_arr buf))
  end.

Definition write_step (s : store) (f : Frame) (p : pc) (c : choice) : option (store * pc) :=
  match p with
  | WGet w =>
      match Get (writeBufPool s) new_write_buf (heap s) c with
      | Some (bp, free, h) => Some (MkStore h (readHdrPool s) free, WStart bp w)
      | None => None
      end
  | WStart bp w =>
      let totalSize := (FrameHeaderSize + length (Headers f) + length (Payload f))%nat in
      let grown := if decide (sl_cap (buffer s bp) < totalSize)%nat
                   then Some (sl_arr (sl_make 0 totalSize)) else None in
      Some (s, WStore bp grown (header_stores f) w)
  | WStore bp grown [] w => Some (s, WHeaders bp grown w)
  | WStore bp grown ((i, b) :: todo) w =>
      let '(s, grown) := keep_buf s bp grown (sl_set (buf_of s bp grown FrameHeaderSize) i b) in
      Some (s, WStore bp grown todo w)
  | WHeaders bp grown w =>
      let buf := sl_append (buf_of s bp grown FrameHeaderSize) (Headers f) in
      let '(s, grown) := keep_buf s bp grown buf in Some (s, WPayload bp grown (sl_len buf) w)
  | WPayload bp grown n w =>
      let buf := sl_append (buf_of s bp grown n) (Payload f) in
      let '(s, grown) := keep_buf s bp grown buf in Some (s, WWrite bp grown (sl_len buf) w)
  | WWrite bp grown n w =>
      let '(_, err, w) := write w (sl_bytes (buf_of s bp grown n)) in Some (s, WPut bp grown n err w)
  | WPut bp grown n err w => Some (put_write_buf s bp (buf_of s bp grown n), WDone err w)
  | _ => None
  end.

(** ** The machine *)

Inductive event :=
| Call (c : call)              (** a goroutine calls one of the functions *)
| Run (i : nat) (c : choice)
| LoseHeader (k : nat)         (** the garbage collector empties the pools *)
| LoseWriteBuf (k : nat).

Definition start (c : call) : thread :=
  MkThread c match c with CallRead r => RGet r | CallWrite w _ => WGet w end.

Definition pc_step (s : store) (t : thread) (c : choice) : option (store * pc) :=
  match t_call t with
  | CallRead _ => read_step s (t_pc t) c
  | CallWrite _ f => write_step s f (t_pc t) c
  end.

Definition step (s : state) (e : event) : option state :=
  match e with
  | Call c => Some (MkState (st s) (threads s ++ [start c]))
  | Run i c =>
      match threads s !! i with
      | Some t =>
          match pc_step (st s) t c with
          | Some (st', p) => Some (MkState st' (<[i := MkThread (t_call t) p]> (threads s)))
          | None => None
          end
      | None => None
      end
  | LoseHeader k =>
      Some (MkState (MkStore (heap (st s)) (delete k (readHdrPool (st s))) (writeBufPool (st s))) (threads s))
  | LoseWriteBuf k =>
      Some (MkState (MkStore (heap (st s)) (readHdrPool (st s)) (delete k (writeBufPool (st s)))) (threads s))
  end.

Fixpoint run (s : state) (es : list event) : option state :=
  match es with
  | [] => Some s
  | e :: es => match step s e with Some s => run s es | None => None end
  end.

Definition init : state := MkState (MkStore [] [] []) [].

(** ** Who has a buffer *)

(** The buffer a call has taken and not yet put back. *)
Definition holds (p : pc) : list nat :=
  match p with
  | RFill bp _ _ | RFailed bp _ _ | RCheck bp _ | RBad bp _ _ | RParse bp _ | RPut bp _ _ _ _
  | WStart bp _ | WStore bp _ _ _ | WHeaders bp _ _ | WPayload bp _ _ _ | WWrite bp _ _ _
  | WPut bp _ _ _ _ => [bp]
  | _ => []
  end.

Definition free (s : store) : list nat := readHdrPool s ++ writeBufPool s.

(** What a step of a call that held [hs], and now holds [hs'], may do to the store: it
    changes no buffer but those, and buffers are neither lost nor duplicated. *)
Record moves (s : store) (hs : list nat) (s' : store) (hs' : list nat) : Prop := {
  m_heap bp : (bp < length (heap s))%nat -> bp ∉ hs -> heap s' !! bp = heap s !! bp;
  m_len : (length (heap s) <= length (heap s'))%nat;
  m_rights : free s' ++ hs' ≡ₚ free s ++ hs
             \/ (length (heap s) < length (heap s'))%nat
                /\ free s' ++ hs' ≡ₚ length (heap s) :: (free s ++ hs)
}.

Lemma moves_refl s hs : moves s hs s hs.
Proof. by split; [|lia|left]. Qed.

Lemma moves_set_array s bp arr : moves s [bp] (set_array s bp arr) [bp].
Proof.
  unfold set_array. split; cbn.
  - intros bp' _ Hne. apply list_lookup_insert_ne. intros ->. apply Hne, list_elem_of_singleton. done.
  - by rewrite length_insert.
  - by left.
Qed.

Lemma Get_moves s f new c bp f' h :
  Get f new (heap s) c = Some (bp, f', h) ->
  (forall i, (i < length (heap s))%nat -> h !! i = heap s !! i)
  /\ (length (heap s) <= length h)%nat
  /\ (bp :: f' ≡ₚ f /\ h = heap s \/ (length (heap s) < length h)%nat /\ bp = length (heap s) /\ f' = f /\ h = heap s ++ [new]).
Proof.
  unfold Get. destruct c as [| |k]; [done| |].
  - intros [= <- <- <-]. rewrite length_app. split_and!; [|lia|right; split_and!; try done; simpl; lia].
    intros i Hi. by apply lookup_app_l.
  - destruct (f !! k) as [l|] eqn:E; [|done]. intros [= <- <- <-].
    split_and!; [done|done|left]. split; [|done]. symmetry. by apply delete_Permutation.
Qed.

Lemma moves_put_header s bp : moves s [bp] (put_header s bp) [].
Proof. split; cbn; [done|done|left]. rewrite app_nil_r. apply Permutation_cons_append. Qed.

Lemma moves_put_write s bp buf : moves s [bp] (put_write_buf s bp buf) [].
Proof.
  split; cbn.
  - intros bp' _ Hne. apply list_lookup_insert_ne. intros ->. apply Hne, list_elem_of_singleton. done.
  - by rewrite length_insert.
  - left. unfold free. cbn. rewrite app_nil_r, <- Permutation_middle. apply Permutation_cons_append.
Qed.

Lemma moves_keep s bp grown buf : moves s [bp] (fst (keep_buf s bp grown buf)) [bp].
Proof.
  unfold keep_buf. destruct grown; [apply moves_refl|].
  case_decide; [apply moves_set_array|apply moves_refl].
Qed.

(** Buffers in the header pool are headers. *)
Definition headers_ok (s : store) : Prop :=
  forall bp, bp ∈ readHdrPool s -> length (header s bp) = FrameHeaderSize.

Lemma header_lookup s s' bp : heap s' !! bp = heap s !! bp -> header s' bp = header s bp.
Proof. unfold header, buffer. by intros ->. Qed.

Lemma buf_of_lookup s s' bp grown n : heap s' !! bp = heap s !! bp -> buf_of s' bp grown n = buf_of s bp grown n.
Proof. intros E. unfold buf_of. by rewrite (header_lookup _ _ _ E). Qed.

(** ** What a call has achieved so far *)

Definition rejected (r0 : reader) (k : complaint) (r : reader) : Prop :=
  match k with
  | BadMagic => exists b0 b1, ReadFrame r0 = (Err (InvalidMagic b0 b1), r)
  | BadVersion => exists v, ReadFrame r0 = (Err (UnsupportedVersion v), r)
  end.

(** The same result, the bytes shown in an error message apart. *)
Definition same_result (a b : result Frame read_error) : Prop :=
  match a, b with
  | Err (InvalidMagic _ _), Err (InvalidMagic _ _) => True
  | Err (UnsupportedVersion _), Err (UnsupportedVersion _) => True
  | _, _ => a = b
  end.

(** [ReadFull] goes on with [got] bytes read into the header. *)
Definition resume (h : list byte) (got : nat) (r : reader) : result (list byte) io_error * reader :=
  let '(res, cs) := read_full_loop (rd_chunks r) (rd_end r) (FrameHeaderSize - got) (take got h) in
  (res, MkReader cs (rd_end r)).

Definition header_frame (h : list byte) : Frame := MkFrame (at_ h 3) (at_ h 4) (Uint16 h 5) [] [].

Definition read_ok (s : store) (r0 : reader) (p : pc) : Prop :=
  match p with
  | RGet r => r = r0
  | RFill bp got r =>
      length (header s bp) = FrameHeaderSize /\ (got < FrameHeaderSize)%nat
      /\ ReadFull r0 FrameHeaderSize = resume (header s bp) got r
  | RFailed bp e r =>
      length (header s bp) = FrameHeaderSize /\ ReadFull r0 FrameHeaderSize = (Err e, r)
  | RCheck bp r =>
      length (header s bp) = FrameHeaderSize /\ ReadFull r0 FrameHeaderSize = (Ok (header s bp), r)
  | RBad bp k r => length (header s bp) = FrameHeaderSize /\ rejected r0 k r
  | RMessage _ k r => rejected r0 k r
  | RMessage1 _ _ r => rejected r0 BadMagic r
  | RParse bp r =>
      length (header s bp) = FrameHeaderSize
      /\ ReadFrame r0 = read_frame_data (header_frame (header s bp)) (header_size (header s bp))
                          (Uint32 (header s bp) 10) r
  | RPut bp f n m r =>
      length (header s bp) = FrameHeaderSize /\ ReadFrame r0 = read_frame_data f n m r
  | RData f n m r => ReadFrame r0 = read_frame_data f n m r
  | RDone res r => same_result res (fst (ReadFrame r0)) /\ r = snd (ReadFrame r0)
  | _ => False
  end.

Definition write_ok (s : store) (w0 : W) (f : Frame) (p : pc) : Prop :=
  match p with
  | WGet w | WStart _ w => w = w0
  | WStore bp grown todo w =>
      w = w0 /\ exists b0, frame_buf b0 f
        = sl_append (sl_append (sl_set_all (buf_of s bp grown FrameHeaderSize) todo) (Headers f)) (Payload f)
  | WHeaders bp grown w =>
      w = w0 /\ exists b0, frame_buf b0 f
        = sl_append (sl_append (buf_of s bp grown FrameHeaderSize) (Headers f)) (Payload f)
  | WPayload bp grown n w =>
      w = w0 /\ exists b0, frame_buf b0 f = sl_append (buf_of s bp grown n) (Payload f)
  | WWrite bp grown n w => w = w0 /\ exists b0, frame_buf b0 f = buf_of s bp grown n
  | WPut _ _ _ err w | WDone err w => exists n, write w0 (encode_frame f) = (n, err, w)
  | _ => False
  end.

Definition call_ok (s : store) (t : thread) : Prop :=
  match t_call t with
  | CallRead r0 => read_ok s r0 (t_pc t)
  | CallWrite w0 f => write_ok s w0 f (t_pc t)
  end.

(** What a call has achieved depends on the buffer it holds, and on no other. *)
Lemma call_ok_frame s s' t :
  (forall bp, bp ∈ holds (t_pc t) -> heap s' !! bp = heap s !! bp) -> call_ok s t -> call_ok s' t.
Proof.
  intros Hf. unfold call_ok. destruct (t_call t), (t_pc t); cbn [read_ok write_ok holds] in *; try done.
  all: match goal with Hf : forall bp, bp ∈ [?b] -> _ |- _ =>
         specialize (Hf b ltac:(by apply list_elem_of_singleton)) end.
  all: by rewrite ?(header_lookup _ _ _ Hf), ?(buf_of_lookup _ _ _ _ _ Hf).
Qed.

(** A machine state in order. *)
Record pools_ok (s : state) : Prop := {
  po_nodup : NoDup (free (st s) ++ (threads s ≫= fun t => holds (t_pc t)));
  po_heap : Forall (fun bp => (bp < length (heap (st s)))%nat)
              (free (st s) ++ (threads s ≫= fun t => holds (t_pc t)));
  po_headers : headers_ok (st s);
  po_calls : Forall (call_ok (st s)) (threads s)
}.

(** ** Steps of [ReadFrame] *)

Lemma header_set_array s bp arr : (bp < length (heap s))%nat -> header (set_array s bp arr) bp = arr.
Proof. intros Hb. unfold header, buffer, set_array. cbn. by rewrite list_lookup_insert_eq. Qed.

Lemma headers_ok_set s bp arr : bp ∉ readHdrPool s -> headers_ok s -> headers_ok (set_array s bp arr).
Proof.
  intros Hn Hh b Hb. rewrite (header_lookup s); [by apply Hh|].
  apply list_lookup_insert_ne. intros ->. done.
Qed.

Lemma headers_ok_put s bp : length (header s bp) = FrameHeaderSize -> headers_ok s -> headers_ok (put_header s bp).
Proof. intros Hl Hh b [->|Hb]%elem_of_cons; [done|by apply Hh]. Qed.

Lemma length_copy_at i bs arr : (i + length bs <= length arr)%nat -> length (copy_at i bs arr) = length arr.
Proof. intros. unfold copy_at. rewrite !length_app, length_take, length_drop. lia. Qed.

Lemma take_copy_at i bs arr :
  (i <= length arr)%nat -> take (i + length bs) (copy_at i bs arr) = take i arr ++ bs.
Proof.
  intros. unfold copy_at. rewrite app_assoc, take_app_le by (rewrite length_app, length_take; lia).
  apply take_ge. rewrite length_app, length_take. lia.
Qed.

(** One [Read] brings [ReadFull] one step further. *)
Lemma fill_ok s r0 bp got r :
  (bp < length (heap s))%nat -> read_ok s r0 (RFill bp got r) ->
  read_ok (fst (fill_step s bp got r)) r0 (snd (fill_step s bp got r)).
Proof.
  intros Hbp (Hl & Hg & Hr). unfold fill_step, resume in *. 
  destruct (FrameHeaderSize - got)%nat as [|need] eqn:En; [lia|].
  destruct r as [[|c cs] e]; cbn [rd_chunks rd_end read_full_loop fst snd read_ok] in *; [done|].
  case_decide as Hc; cbn [fst snd].
  - cbn [read_ok]. rewrite header_set_array, length_copy_at by (done || (rewrite length_take; lia)).
    split; [done|]. rewrite Hr. do 2 f_equal.
    rewrite <- (take_copy_at got (take (S need) c) (header s bp)) by lia.
    apply take_ge. rewrite length_copy_at; rewrite length_take; lia.
  - case_decide as Hd; cbn [read_ok]; rewrite header_set_array, length_copy_at by (done || lia).
    + split; [done|]. rewrite Hr. replace (S need - length c)%nat with 0%nat by lia.
      assert (take got (header s bp) ++ c = copy_at got c (header s bp)) as E.
      { rewrite <- (take_copy_at got c) by lia. apply take_ge. rewrite length_copy_at; lia. }
      rewrite E. by destruct cs.
    + split_and!; [done|lia|]. rewrite Hr. unfold resume. cbn [rd_chunks rd_end].
      rewrite take_copy_at by lia.
      by replace (FrameHeaderSize - (got + length c))%nat with (S need - length c)%nat by lia.
Qed.

Lemma fill_moves s bp got r :
  moves s [bp] (fst (fill_step s bp got r)) (holds (snd (fill_step s bp got r))).
Proof.
  unfold fill_step. destruct (rd_chunks r); [apply moves_refl|].
  case_decide; [apply moves_set_array|]. cbn [fst snd]. case_decide; apply moves_set_array.
Qed.

Lemma fill_headers s bp got r :
  bp ∉ readHdrPool s -> headers_ok s -> headers_ok (fst (fill_step s bp got r)).
Proof.
  intros Hn Hh. unfold fill_step. destruct (rd_chunks r); [done|].
  case_decide; by apply headers_ok_set.
Qed.

(** The verdict on a header is [ReadFrame]'s. *)
Lemma check_ok s r0 bp r :
  length (header s bp) = FrameHeaderSize -> ReadFull r0 FrameHeaderSize = (Ok (header s bp), r) ->
  read_ok s r0 (check_header (header s bp) bp r) /\ holds (check_header (header s bp) bp r) = [bp].
Proof.
  intros Hl Hr. unfold check_header.
  destruct (_ || _) eqn:E1; [|destruct (negb (bool_decide (at_ _ 2 = _))) eqn:E2]; (split; [|done]); cbn [read_ok rejected].
  all: split; [exact Hl|]; unfold ReadFrame; rewrite Hr, E1, ?E2; eauto.
Qed.

Lemma Get_header_ok s c bp f' h :
  headers_ok s -> Forall (fun bp => (bp < length (heap s))%nat) (free s) ->
  Get (readHdrPool s) new_header (heap s) c = Some (bp, f', h) ->
  let s' := MkStore h f' (writeBufPool s) in
  moves s [] s' [bp] /\ headers_ok s' /\ length (header s' bp) = FrameHeaderSize.
Proof.
  intros Hh Hb Hg s'. destruct (Get_moves s _ _ _ _ _ _ Hg) as (H1 & H2 & H3).
  assert (forall b, b ∈ readHdrPool s -> heap s' !! b = heap s !! b) as Hin.
  { intros b Hin. apply H1. rewrite Forall_forall in Hb. apply Hb, elem_of_app. by left. }
  split; [split|].
  - intros b Hlt _. by apply H1.
  - exact H2.
  - unfold free. cbn. rewrite app_nil_r. destruct H3 as [[Hp _]|(Hl & -> & -> & _)].
    + left. rewrite <- Permutation_cons_append. by rewrite <- Hp.
    + right. split; [done|]. symmetry. apply Permutation_cons_append.
  - destruct H3 as [[Hp Eh]|(Hl & -> & -> & Eh)]; (split; [intros b Hin'|]).
    + rewrite (header_lookup s) by (apply Hin; rewrite <- Hp; by right). apply Hh. rewrite <- Hp. by right.
    + rewrite (header_lookup s) by (apply Hin; rewrite <- Hp; by left). apply Hh. rewrite <- Hp. by left.
    + rewrite (header_lookup s) by (by apply Hin). by apply Hh.
    + unfold header, buffer, s'. cbn. rewrite Eh, lookup_app_r, Nat.sub_diag by lia. done.
Qed.

Definition step_ok (s : store) (p : pc) (s' : store) (p' : pc) : Prop :=
  moves s (holds p) s' (holds p') /\ headers_ok s'.

Lemma read_step_ok s r0 p c s' p' :
  read_step s p c = Some (s', p') -> read_ok s r0 p -> headers_ok s ->
  NoDup (free s ++ holds p) -> Forall (fun bp => (bp < length (heap s))%nat) (free s ++ holds p) ->
  step_ok s p s' p' /\ read_ok s' r0 p'.
Proof.
  intros Hs Hok Hh Hn Hb.
  assert (forall bp, bp ∈ holds p -> (bp < length (heap s))%nat /\ bp ∉ readHdrPool s) as Hown.
  { intros bp Hin. split; [rewrite Forall_forall in Hb; apply Hb, elem_of_app; by right|].
    intros Hf. apply NoDup_app in Hn as (_ & Hd & _). apply (Hd bp); [|done].
    apply elem_of_app. by left. }
  unfold step_ok. destruct p; cbn [read_step] in Hs; try done; cbn [holds] in *.
  - destruct (Get _ _ _ _) as [[[bp f'] h]|] eqn:Eg; [|done]. injection Hs as <- <-.
    rewrite app_nil_r in Hb. destruct (Get_header_ok s c bp f' h Hh Hb Eg) as (H1 & H2 & H3).
    split; [done|]. cbn in Hok. subst r0. split_and!; [done|unfold FrameHeaderSize; lia|].
    unfold ReadFull, resume. by rewrite take_0, Nat.sub_0_r.
  - destruct (Hown bp ltac:(by apply list_elem_of_singleton)) as [Hlt Hnot].
    pose proof (fill_ok s r0 bp got r Hlt Hok) as H1. pose proof (fill_moves s bp got r) as H2.
    pose proof (fill_headers s bp got r Hnot Hh) as H3.
    injection Hs as Hs. destruct (fill_step s bp got r). by injection Hs as -> ->.
  - injection Hs as <- <-. destruct Hok as [Hl Hr]. split; [split; [apply moves_put_header|by apply headers_ok_put]|].
    cbn [read_ok]. unfold ReadFrame. by rewrite Hr.
  - injection Hs as <- <-. destruct Hok as [Hl Hr]. destruct (check_ok s r0 bp r Hl Hr) as [H1 ->].
    split; [split; [apply moves_refl|done]|done].
  - injection Hs as <- <-. destruct Hok as [Hl Hr].
    split; [split; [apply moves_put_header|by apply headers_ok_put]|done].
  - destruct k; injection Hs as <- <-; (split; [split; [apply moves_refl|done]|]); [done|].
    cbn in *. destruct Hok as [v ->]. by split.
  - injection Hs as <- <-. split; [split; [apply moves_refl|done]|].
    cbn in *. destruct Hok as (b & b' & ->). by split.
  - injection Hs as <- <-. split; [split; [apply moves_refl|done]|]. done.
  - injection Hs as <- <-. destruct Hok as [Hl Hr].
    split; [split; [apply moves_put_header|by apply headers_ok_put]|done].
  - cbn in Hok. destruct (read_frame_data f hdrSize payloadSize r) as [res r'] eqn:E. injection Hs as <- <-.
    split; [split; [apply moves_refl|done]|]. cbn. rewrite Hok. split; [|done]. by destruct res as [|[]].
Qed.

(** ** Steps of [WriteFrame] *)

Lemma Get_write_ok s c bp f' h :
  headers_ok s -> Forall (fun bp => (bp < length (heap s))%nat) (free s) ->
  Get (writeBufPool s) new_write_buf (heap s) c = Some (bp, f', h) ->
  let s' := MkStore h (readHdrPool s) f' in moves s [] s' [bp] /\ headers_ok s'.
Proof.
  intros Hh Hb Hg s'. destruct (Get_moves s _ _ _ _ _ _ Hg) as (H1 & H2 & H3).
  split; [split|].
  - intros b Hlt _. by apply H1.
  - exact H2.
  - unfold free. cbn. rewrite app_nil_r. destruct H3 as [[Hp _]|(Hl & -> & -> & _)].
    + left. rewrite <- Permutation_cons_append, Permutation_middle. by rewrite Hp.
    + right. split; [done|]. symmetry. apply Permutation_cons_append.
  - intros b Hin. rewrite (header_lookup s); [by apply Hh|]. apply H1.
    rewrite Forall_forall in Hb. apply Hb, elem_of_app. by left.
Qed.

(** [buf] is what was stored, wherever it is. *)
Lemma keep_buf_ok s bp grown buf :
  (bp < length (heap s))%nat ->
  let '(s', grown') := keep_buf s bp grown buf in buf_of s' bp grown' (sl_len buf) = buf.
Proof.
  intros Hb. unfold keep_buf, buf_of. destruct grown as [a|]; [by destruct buf|].
  case_decide; cbn [default]; [rewrite header_set_array by done|]; destruct buf; reflexivity.
Qed.

Lemma keep_headers s bp grown buf :
  bp ∉ readHdrPool s -> headers_ok s -> headers_ok (fst (keep_buf s bp grown buf)).
Proof.
  intros Hn Hh. unfold keep_buf. destruct grown; [done|]. case_decide; [by apply headers_ok_set|done].
Qed.

Lemma headers_ok_put_write s bp buf :
  bp ∉ readHdrPool s -> headers_ok s -> headers_ok (put_write_buf s bp buf).
Proof.
  intros Hn Hh b Hb. rewrite (header_lookup s); [by apply Hh|].
  apply list_lookup_insert_ne. intros ->. done.
Qed.

(** A store or an append, and the buffer after it. *)
Lemma keep_step_ok s bp grown buf :
  (bp < length (heap s))%nat -> bp ∉ readHdrPool s -> headers_ok s ->
  let '(s', grown') := keep_buf s bp grown buf in
  (moves s [bp] s' [bp] /\ headers_ok s') /\ buf_of s' bp grown' (sl_len buf) = buf.
Proof.
  intros Hb Hn Hh. pose proof (keep_buf_ok s bp grown buf Hb) as H1.
  pose proof (moves_keep s bp grown buf) as H2. pose proof (keep_headers s bp grown buf Hn Hh) as H3.
  by destruct (keep_buf s bp grown buf).
Qed.

Lemma write_step_ok s w0 f p c s' p' :
  write_step s f p c = Some (s', p') -> write_ok s w0 f p -> headers_ok s ->
  NoDup (free s ++ holds p) -> Forall (fun bp => (bp < length (heap s))%nat) (free s ++ holds p) ->
  step_ok s p s' p' /\ write_ok s' w0 f p'.
Proof.
  intros Hs Hok Hh Hn Hb.
  assert (forall bp, bp ∈ holds p -> (bp < length (heap s))%nat /\ bp ∉ readHdrPool s) as Hown.
  { intros bp Hin. split; [rewrite Forall_forall in Hb; apply Hb, elem_of_app; by right|].
    intros Hf. apply NoDup_app in Hn as (_ & Hd & _). apply (Hd bp); [|done].
    apply elem_of_app. by left. }
  unfold step_ok. destruct p; cbn [write_step] in Hs; try done; cbn [holds] in *.
  all: try destruct (Hown bp ltac:(by apply list_elem_of_singleton)) as [Hlt Hnot].
  - destruct (Get _ _ _ _) as [[[bp f'] h]|] eqn:Eg; [|done]. injection Hs as <- <-.
    rewrite app_nil_r in Hb. by destruct (Get_write_ok s c bp f' h Hh Hb Eg).
  - apply (inj Some), pair_equal_spec in Hs as [<- <-]. split; [split; [apply moves_refl|done]|]. cbn [write_ok] in *. split; [done|].
    exists (buffer s bp). unfold frame_buf, buf_of.
    change (sl_cap (sl_reslice (buffer s bp) 0)) with (sl_cap (buffer s bp)). case_decide; reflexivity.
  - cbn in Hok. destruct Hok as [-> [b0 E]]. destruct todo as [|[i b] todo]; cbn [write_step] in Hs.
    + injection Hs as <- <-. split; [split; [apply moves_refl|done]|]. split; [done|by exists b0].
    + pose proof (keep_step_ok s bp grown (sl_set (buf_of s bp grown FrameHeaderSize) i b) Hlt Hnot Hh) as Hk.
      destruct (keep_buf _ _ _ _) as [s1 g1]. injection Hs as <- <-. destruct Hk as [Hm Eb].
      split; [done|]. split; [done|]. exists b0. rewrite E. do 2 f_equal.
      change (sl_len _) with FrameHeaderSize in Eb. by rewrite Eb.
  - cbn in Hok. destruct Hok as [-> [b0 E]].
    pose proof (keep_step_ok s bp grown (sl_append (buf_of s bp grown FrameHeaderSize) (Headers f)) Hlt Hnot Hh) as Hk.
    destruct (keep_buf _ _ _ _) as [s1 g1]. injection Hs as <- <-. destruct Hk as [Hm Eb].
    split; [done|]. split; [done|]. exists b0. by rewrite E, Eb.
  - cbn in Hok. destruct Hok as [-> [b0 E]].
    pose proof (keep_step_ok s bp grown (sl_append (buf_of s bp grown n) (Payload f)) Hlt Hnot Hh) as Hk.
    destruct (keep_buf _ _ _ _) as [s1 g1]. injection Hs as <- <-. destruct Hk as [Hm Eb].
    split; [done|]. split; [done|]. exists b0. by rewrite E, Eb.
  - cbn in Hok. destruct Hok as [-> [b0 E]].
    destruct (write w0 (sl_bytes (buf_of s bp grown n))) as [[k err'] w'] eqn:Ew. injection Hs as <- <-.
    split; [split; [apply moves_refl|done]|]. exists k. by rewrite <- (frame_buf_bytes b0), E.
  - injection Hs as <- <-.
    split; [split; [apply moves_put_write|by apply headers_ok_put_write]|done].
Qed.

(** ** The machine *)

Lemma pc_step_ok s t c s' p' :
  pc_step s t c = Some (s', p') -> call_ok s t -> headers_ok s ->
  NoDup (free s ++ holds (t_pc t)) -> Forall (fun bp => (bp < length (heap s))%nat) (free s ++ holds (t_pc t)) ->
  step_ok s (t_pc t) s' p' /\ call_ok s' (MkThread (t_call t) p').
Proof.
  unfold pc_step, call_ok. cbn [t_call t_pc].
  destruct (t_call t); [apply read_step_ok|apply write_step_ok].
Qed.

(** The rights of a call stand for themselves. *)
Abbreviation held := (fun t => holds (t_pc t)).

Lemma run_pools_ok s i t c st' p :
  threads s !! i = Some t -> pc_step (st s) t c = Some (st', p) -> pools_ok s ->
  pools_ok (MkState st' (<[i := MkThread (t_call t) p]> (threads s))).
Proof.
  intros Ht Hs [Hn Hb Hh Hc].
  destruct (insert_Permutation _ i t (MkThread (t_call t) p) Ht) as (k & Hk & Hk').
  assert (forall x l, x :: k ≡ₚ l -> (l ≫= held) ≡ₚ holds (t_pc x) ++ (k ≫= held)) as Hbind.
  { intros x l Hl. rewrite <- Hl. done. }
  pose proof (Hbind t _ (symmetry Hk)) as E. pose proof (Hbind _ _ (symmetry Hk')) as E'.
  cbn [t_pc] in E'. rewrite E, app_assoc in Hn, Hb.
  assert (call_ok (st s) t) as Hct by (by eapply Forall_lookup_1).
  destruct (pc_step_ok _ _ _ _ _ Hs Hct Hh) as [[[M1 M2 M3] Hh'] Hct'].
  { by apply NoDup_app in Hn as (? & _ & _). }
  { by apply Forall_app in Hb as [? _]. }
  assert (Forall (fun bp => (bp < length (heap st'))%nat) ((free (st s) ++ holds (t_pc t)) ++ (k ≫= held))) as Hb'.
  { eapply Forall_impl; [exact Hb|]. cbn. lia. }
  split; cbn [st threads]; [| |done|].
  - rewrite E', app_assoc. destruct M3 as [->|[_ ->]]; [done|]. cbn. constructor; [|done].
    intros Hin. rewrite Forall_forall in Hb. specialize (Hb _ Hin). lia.
  - rewrite E', app_assoc. destruct M3 as [->|[Hl ->]]; [done|]. cbn. by constructor.
  - apply Forall_lookup. intros j t2 Hj. apply list_lookup_insert_Some in Hj as [(-> & <- & _)|[Hij Hj]]; [done|].
    assert (call_ok (st s) t2) as H2 by (by eapply Forall_lookup_1).
    eapply call_ok_frame; [|done]. intros bp Hbp. 
    assert (bp ∈ threads s ≫= held) as Hin.
    { apply list_elem_of_bind. exists t2. split; [done|]. by eapply list_elem_of_lookup_2. }
    apply M1.
    + rewrite Forall_forall in Hb. apply Hb. rewrite <- app_assoc, <- E. apply elem_of_app. by right.
    + intros Hbp'. rewrite <- app_assoc, <- E in Hn. apply NoDup_app in Hn as (_ & _ & Hn).
      apply Hij. by eapply (NoDup_bind_lookup _ _ _ _ _ _ bp Hn).
Qed.

Lemma lose_pools_ok s st' :
  heap st' = heap (st s) -> free st' ⊆+ free (st s) -> readHdrPool st' ⊆ readHdrPool (st s) ->
  pools_ok s -> pools_ok (MkState st' (threads s)).
Proof.
  intros Eh Hf Hr [Hn Hb Hh Hc].
  assert (free st' ++ (threads s ≫= held) ⊆+ free (st s) ++ (threads s ≫= held)) as Hsub by (by apply submseteq_skips_r).
  split; cbn [st threads].
  - by eapply NoDup_submseteq_inv.
  - rewrite Eh. by eapply Forall_submseteq.
  - intros bp Hbp. rewrite (header_lookup (st s)) by (by rewrite Eh). by apply Hh, Hr.
  - eapply Forall_impl; [exact Hc|]. intros t. apply call_ok_frame. intros. by rewrite Eh.
Qed.

Lemma step_pools_ok s e s' : step s e = Some s' -> pools_ok s -> pools_ok s'.
Proof.
  intros Hs Hok. destruct e as [c|i c|k|k]; cbn [step] in Hs.
  - injection Hs as <-. destruct Hok as [Hn Hb Hh Hc].
    assert ((threads s ++ [start c]) ≫= held = threads s ≫= held) as E.
    { rewrite bind_app. by destruct c; rewrite app_nil_r. }
    split; cbn [st threads]; rewrite ?E; try done.
    apply Forall_app. split; [done|]. constructor; [|done]. by destruct c.
  - destruct (threads s !! i) as [t|] eqn:Ht; [|done].
    destruct (pc_step (st s) t c) as [[st' p]|] eqn:Ep; [|done]. injection Hs as <-.
    by eapply run_pools_ok.
  - injection Hs as <-. apply lose_pools_ok; try done; cbn.
    + apply submseteq_skips_r, sublist_submseteq, sublist_delete.
    + intros bp Hbp. eapply elem_of_submseteq; [done|]. apply sublist_submseteq, sublist_delete.
  - injection Hs as <-. apply lose_pools_ok; try done; cbn.
    apply submseteq_skips_l, sublist_submseteq, sublist_delete.
Qed.

Lemma init_pools_ok : pools_ok init.
Proof. split; cbn; try done; [by constructor|]. intros bp Hbp. by apply elem_of_nil in Hbp. Qed.

Lemma run_keeps_pools_ok es s s' : run s es = Some s' -> pools_ok s -> pools_ok s'.
Proof.
  revert s. induction es as [|e es IH]; intros s; cbn [run]; [by intros [= <-]|].
  destruct (step s e) as [s1|] eqn:E; [|done]. intros Hr Hok. by eapply IH, step_pools_ok.
Qed.

(** ** Progress *)

(** An upper bound on the steps a call still makes. *)
Definition actions_left (p : pc) : nat :=
  match p with
  | RGet r => 6 + length (rd_chunks r)
  | RFill _ _ r => 5 + length (rd_chunks r)
  | RCheck _ _ => 4
  | RBad _ _ _ | RParse _ _ => 3
  | RMessage _ _ _ | RPut _ _ _ _ _ => 2
  | RMessage1 _ _ _ | RFailed _ _ _ | RData _ _ _ _ => 1
  | RDone _ _ | WDone _ _ => 0
  | WGet _ => 21
  | WStart _ _ => 20
  | WStore _ _ todo _ => 5 + length todo
  | WHeaders _ _ _ => 4
  | WPayload _ _ _ _ => 3
  | WWrite _ _ _ _ => 2
  | WPut _ _ _ _ _ => 1
  end%nat.

Lemma pc_step_left s t c s' p' :
  pc_step s t c = Some (s', p') -> (actions_left p' < actions_left (t_pc t))%nat.
Proof.
  unfold pc_step. destruct (t_call t) as [r0|w0 f], (t_pc t); cbn [read_step write_step]; try done.
  all: try (intros [= <- <-]; cbn; lia).
  all: try (destruct (Get _ _ _ _) as [[[? ?] ?]|]; [|done]; intros [= <- <-]; cbn; lia).
  - unfold fill_step. cbn [actions_left]. destruct (rd_chunks r) as [|c1 cs]; [intros [= <- <-]; cbn; lia|].
    destruct (decide (_ < _)%nat); [intros [= <- <-]; cbn; lia|].
    intros [= <- <-]. destruct (decide _); cbn; lia.
  - intros [= <- <-]. unfold check_header. repeat case_match; cbn; lia.
  - destruct k; intros [= <- <-]; cbn; lia.
  - destruct (read_frame_data _ _ _ _); intros [= <- <-]; cbn; lia.
  - destruct todo as [|[i b] todo]; [intros [= <- <-]; cbn; lia|].
    destruct (keep_buf _ _ _ _); intros [= <- <-]; cbn; lia.
  - destruct (keep_buf _ _ _ _); intros [= <- <-]; cbn; lia.
  - destruct (keep_buf _ _ _ _); intros [= <- <-]; cbn; lia.
  - destruct (write _ _) as [[? ?] ?]; intros [= <- <-]; cbn; lia.
Qed.

(** A call that has not returned can go on, whatever the pools hold. *)
Lemma pc_step_enabled s t : call_ok s t -> (0 < actions_left (t_pc t))%nat -> is_Some (pc_step s t New).
Proof.
  unfold pc_step, call_ok.
  destruct (t_call t) as [r0|w0 f], (t_pc t); cbn [read_step write_step read_ok write_ok actions_left Get];
    try done; intros Hok Hl; try lia; try by eexists.
  - destruct k; by eexists.
  - destruct (read_frame_data _ _ _ _); by eexists.
  - destruct todo as [|[i b] todo]; [by eexists|]. destruct (keep_buf _ _ _ _); by eexists.
  - destruct (keep_buf _ _ _ _); by eexists.
  - destruct (keep_buf _ _ _ _); by eexists.
  - destruct (write _ _) as [[? ?] ?]; by eexists.
Qed.

(** ** Many goroutines *)

(** What a call that returned must have done: what it does when it is alone. *)
Definition as_alone (t : thread) : Prop :=
  match t_call t, t_pc t with
  | CallRead r0, RDone res r => same_result res (fst (ReadFrame r0)) /\ r = snd (ReadFrame r0)
  | CallWrite w0 f, WDone err w => forall bp, exists buf, WriteFrame bp w0 f = (err, w, buf)
  | _, _ => (0 < actions_left (t_pc t))%nat
  end.

Lemma call_ok_as_alone s t : call_ok s t -> as_alone t.
Proof.
  unfold call_ok, as_alone.
  destruct (t_call t) as [r0|w0 f], (t_pc t); cbn [read_ok write_ok actions_left]; try done; try lia.
  intros [n Hw] bp. unfold WriteFrame. rewrite frame_buf_bytes, Hw. by eexists.
Qed.

End Machine.

(** ** Concrete runs *)

(** A header with other magic bytes, a frame, and a frame to be written. *)
Definition bad_reader : reader := flat_reader (replicate 14 Byte.x58) EOF.
Definition ping_reader : reader :=
  MkReader [take 5 (encode_frame NewPingFrame); drop 5 (encode_frame NewPingFrame)] EOF.

Definition goes (i n : nat) : list (event (W := pipe)) := replicate n (Run i Go).

(** The first call puts its buffer back; the second takes it and reads a frame into it
    before the first has written its message. *)
Definition overtaken : list (event (W := pipe)) :=
  [Call (CallRead bad_reader); Call (CallRead ping_reader); Call (CallWrite (MkPipe []) NewPongFrame);
   Run 0 New] ++ goes 0 3 ++ [Run 1 (Pooled 0); Run 2 New] ++ goes 1 2 ++ goes 0 2 ++ goes 2 20 ++ goes 1 4.

Definition results (s : option (state (W := pipe))) :
    option (list (option (result Frame read_error) * option (list byte))) :=
  (fun s => map (fun t => match t_pc t with
     | RDone res _ => (Some res, None)
     | WDone _ w => (None, Some (pipe_bytes w))
     | _ => (None, None)
     end) (threads s)) <$> s.

(** The message of the first call shows the magic bytes it should have found. *)
Theorem message_of_another :
  fst (ReadFrame bad_reader) = Err (InvalidMagic Byte.x58 Byte.x58)
  /\ results (run init overtaken)
     = Some [(Some (Err (InvalidMagic (fst Magic) (snd Magic))), None); (Some (Ok NewPingFrame), None);
             (None, Some (encode_frame NewPongFrame))].
Proof. by split; vm_compute. Qed.

