(* ===== verification/GoFloat.v ===== *)
(** IEEE 754 double precision, through the Standard Library's [SpecFloat]: the
    conversions, operations and comparisons the program does on [float64]. Integers
    of at most 53 bits are represented exactly, and so are their products. *)
From S2P Require Import Prelude.
From Stdlib Require Import SpecFloat.
Local Open Scope Z_scope.

Definition float64 := spec_float.

(** [float64(n)] *)
Definition f64 (n : Z) : float64 := binary_normalize 53 1024 n 0 false.
Definition fdiv : float64 -> float64 -> float64 := SFdiv 53 1024.
Definition fmul : float64 -> float64 -> float64 := SFmul 53 1024.
Definition fadd : float64 -> float64 -> float64 := SFadd 53 1024.
Definition fle : float64 -> float64 -> bool := SFleb.

(** The conversion of a double to an integer: towards zero. *)
Definition trunc (x : float64) : Z :=
  match x with
  | S754_finite s m e => (if s then -1 else 1) * Z.shiftl (Z.pos m) e
  | _ => 0
  end.

Example f64_ex : fle (fdiv (f64 1) (f64 3)) (fdiv (f64 1) (f64 2)) = true.
Proof. by vm_compute. Qed.

(** ** Integers of at most 53 bits are exact *)

Lemma digits2_log2 p : Z.pos (digits2_pos p) = Z.log2 (Z.pos p) + 1.
Proof.
  assert (forall q, digits2_pos q = Pos.size q) as E by (induction q; simpl; congruence).
  rewrite E. destruct p; simpl; lia.
Qed.

Lemma iter_pos_nat {A} (f : A -> A) p x : iter_pos f p x = Nat.iter (Pos.to_nat p) f x.
Proof.
  revert x. induction p as [p IH|p IH|]; intros x; cbn [iter_pos]; rewrite ?IH.
  - replace (Pos.to_nat p~1) with (Pos.to_nat p + (Pos.to_nat p + 1))%nat by lia.
    by rewrite !Nat.iter_add.
  - replace (Pos.to_nat p~0) with (Pos.to_nat p + Pos.to_nat p)%nat by lia.
    by rewrite Nat.iter_add.
  - done.
Qed.

(** Shifting out zeros loses nothing. *)
Lemma shr_exact m e n :
  0 < m -> 0 <= n -> shr (Build_shr_record (m * 2 ^ n) false false) e n = (Build_shr_record m false false, e + n).
Proof.
  intros Hm Hn. destruct n as [|p|p]; [|simpl|lia].
  - simpl. by rewrite Z.mul_1_r, Z.add_0_r.
  - f_equal. rewrite iter_pos_nat, <- (positive_nat_Z p).
    generalize (Pos.to_nat p) as k. clear. intros k. induction k as [|k IH].
    + change (2 ^ Z.of_nat 0) with 1. by rewrite Z.mul_1_r.
    + rewrite Nat2Z.inj_succ, Z.pow_succ_r, Nat.iter_succ_r by lia.
      rewrite <- IH. f_equal. replace (m * (2 * 2 ^ Z.of_nat k)) with (2 * (m * 2 ^ Z.of_nat k)) by lia.
      by destruct (m * 2 ^ Z.of_nat k).
Qed.

Lemma log2_below n k : 0 < n -> n < 2 ^ k -> Z.log2 n + 1 <= k.
Proof. intros H0 Hk. apply Z.log2_lt_pow2 in Hk; lia. Qed.

(** Rounding a number that fits: the mantissa is brought to 53 bits. *)
Lemma round_exact n k e :
  0 < n < 2 ^ 53 -> 0 <= k -> 53 <= Z.log2 n + 1 + k -> -1000 <= e + k <= 900 ->
  binary_round_aux 53 1024 false (n * 2 ^ k) e loc_Exact
  = S754_finite false (Z.to_pos (n * 2 ^ (52 - Z.log2 n))) (e + k + Z.log2 n - 52).
Proof.
  intros Hn Hk Hd He. pose proof (log2_below n 53 ltac:(lia) ltac:(lia)) as Hl.
  pose proof (Z.log2_nonneg n).
  assert (forall j, 0 <= j -> Zdigits2 (n * 2 ^ j) = Z.log2 n + j + 1) as Hdig.
  { intros j Hj. assert (0 < n * 2 ^ j) by nia. destruct (n * 2 ^ j) as [|p|p] eqn:E; [lia| |lia].
    cbn [Zdigits2]. rewrite digits2_log2, <- E, Z.log2_mul_pow2; lia. }
  unfold binary_round_aux, shr_fexp. cbn [shr_record_of_loc].
  rewrite Hdig by done. unfold fexp, emin.
  replace (Z.max _ _ - e) with (Z.log2 n + k - 52) by lia.
  replace (n * 2 ^ k) with (n * 2 ^ (52 - Z.log2 n) * 2 ^ (Z.log2 n + k - 52))
    by (rewrite <- Z.mul_assoc, <- Z.pow_add_r by lia; do 2 f_equal; lia).
  rewrite shr_exact by nia. cbn [shr_m loc_of_shr_record round_nearest_even shr_record_of_loc].
  rewrite Hdig by lia. replace (Z.max _ _ - _) with 0 by lia. cbn [shr shr_m].
  assert (0 < n * 2 ^ (52 - Z.log2 n)) as Hp by nia.
  destruct (n * 2 ^ (52 - Z.log2 n)) as [|p|p]; [lia| |lia]. cbn [shr_m].
  rewrite (proj2 (Z.leb_le _ _)) by lia. cbn [Z.to_pos]. f_equal. lia.
Qed.

Lemma f64_exact n :
  0 < n < 2 ^ 53 ->
  f64 n = S754_finite false (Z.to_pos (n * 2 ^ (52 - Z.log2 n))) (Z.log2 n - 52).
Proof.
  intros Hn. destruct n as [|p|p]; [lia| |lia].
  pose proof (log2_below (Z.pos p) 53 ltac:(lia) ltac:(lia)) as Hl.
  pose proof (Z.log2_nonneg (Z.pos p)).
  unfold f64, binary_normalize, binary_round, shl_align, fexp, emin. rewrite digits2_log2.
  replace (Z.max _ _) with (- (52 - Z.log2 (Z.pos p))) by lia. rewrite Z.sub_0_r.
  destruct (52 - Z.log2 (Z.pos p)) as [|q|q] eqn:E; [| |lia].
  - pose proof (round_exact (Z.pos p) 0 0 Hn) as R. rewrite E, Z.mul_1_r in *. change (- 0) with 0. cbv beta iota.
    rewrite R by lia.
    f_equal; lia.
  - pose proof (round_exact (Z.pos p) (Z.pos q) (- Z.pos q) Hn) as R. rewrite E in R.
    change (- Z.pos q) with (Z.neg q) in *. cbv beta iota.
    replace (Z.pos (Pos.iter xO p q)) with (Z.pos p * 2 ^ Z.pos q).
    2: { rewrite <- Z.shiftl_mul_pow2 by lia. symmetry. by apply (Pos.iter_swap_gen _ _ Z.pos xO (Z.mul 2)). }
    rewrite R by lia. f_equal. lia.
Qed.

Lemma fmul_exact a b :
  0 < a -> 0 < b -> a * b < 2 ^ 53 -> fmul (f64 a) (f64 b) = f64 (a * b).
Proof.
  intros Ha Hb Hab.
  assert (forall x y, 0 < x -> 0 < y -> x * y < 2 ^ 53 -> Z.log2 x <= 52) as Hl.
  { intros x y Hx Hy Hxy. pose proof (log2_below x 53 Hx ltac:(nia)). lia. }
  pose proof (Hl a b Ha Hb Hab) as La. pose proof (Hl b a Hb Ha ltac:(lia)) as Lb.
  pose proof (Z.log2_mul_below a b Ha Hb) as Lab.
  rewrite (f64_exact (a * b)), (f64_exact a), (f64_exact b) by nia.
  unfold fmul, SFmul. cbn [xorb].
  rewrite Pos2Z.inj_mul, !Z2Pos.id by nia.
  replace (a * 2 ^ (52 - Z.log2 a) * (b * 2 ^ (52 - Z.log2 b)))
    with (a * b * 2 ^ ((52 - Z.log2 a) + (52 - Z.log2 b))) by (rewrite Z.pow_add_r by lia; ring).
  pose proof (Z.log2_nonneg a). pose proof (Z.log2_nonneg b). pose proof (Z.log2_nonneg (a * b)).
  rewrite round_exact by nia. f_equal. lia.
Qed.

Lemma trunc_f64 n : 0 <= n < 2 ^ 53 -> trunc (f64 n) = n.
Proof.
  intros Hn. destruct (decide (n = 0)) as [->|H0]; [done|].
  pose proof (log2_below n 53 ltac:(lia) ltac:(lia)) as Hl.
  rewrite f64_exact by lia. cbn [trunc]. rewrite Z2Pos.id by nia.
  rewrite Z.shiftl_div_pow2 by lia. replace (- (Z.log2 n - 52)) with (52 - Z.log2 n) by lia.
  rewrite Z.div_mul by nia. lia.
Qed.
