(* ===== verification/GoTime.v ===== *)
(** Durations: Go's [time.Duration], its text and the parsing of that text.

    [Duration_String] and [ParseDuration] are [time.Duration.String] and
    [time.ParseDuration] of the standard library, with the machine arithmetic they
    do: [uint64] values that wrap around, the overflow checks against [2^63], and the
    double in which a fraction is scaled. The main lemma is that parsing the text of a
    duration gives the duration back, for every [int64]. *)
From S2P Require Import Prelude GoFloat.
From stdpp Require Export strings gmap.
From Stdlib Require Import Ascii String SpecFloat.
Local Open Scope string_scope.
Local Open Scope Z_scope.

(** A [time.Duration]: an [int64] of nanoseconds. *)
Definition Nanosecond : Z := 1.
Definition Microsecond : Z := 1000.
Definition Millisecond : Z := 1000000.
Definition Second : Z := 1000000000.
Definition Minute : Z := 60 * Second.
Definition Hour : Z := 60 * Minute.

Definition uint64 (z : Z) : Z := uwrap 64 z.

(** ** [Duration.String] *)

(** The text is built from its end: a buffer is what has been written so far. *)
Definition digit (d : Z) : ascii := ascii_of_nat (Z.to_nat (d + 48)).

(** [fmtFrac]'s loop, [i] digits to go. *)
Fixpoint fmtFrac_loop (i : nat) (print : bool) (v : Z) (buf : string) : bool * Z * string :=
  match i with
  | O => (print, v, buf)
  | S i =>
      let d := v mod 10 in
      let print := print || negb (d =? 0) in
      fmtFrac_loop i print (v / 10) (if print then String (digit d) buf else buf)
  end.

(** The fraction of [v / 10^prec] without trailing zeros, and the quotient. *)
Definition fmtFrac (buf : string) (v : Z) (prec : nat) : string * Z :=
  let '(print, v, buf) := fmtFrac_loop prec false v buf in
  (if print then String "." buf else buf, v).

(** [fmtInt]'s loop; a [uint64] has at most twenty digits. *)
Fixpoint fmtInt_loop (fuel : nat) (v : Z) (buf : string) : string :=
  match fuel with
  | O => buf
  | S fuel => if v >? 0 then fmtInt_loop fuel (v / 10) (String (digit (v mod 10)) buf) else buf
  end.

Definition fmtInt (buf : string) (v : Z) : string :=
  if v =? 0 then String "0" buf else fmtInt_loop 20 v buf.

(** The micro sign, U+00B5, in UTF-8. *)
Definition micro : string := String "194" (String "181" "").

Definition format_small (u : Z) : string :=
  if u =? 0 then "0s"
  else
    let '(unit, prec) :=
      if u <? Microsecond then ("ns", 0%nat)
      else if u <? Millisecond then (micro +:+ "s", 3%nat)
      else ("ms", 6%nat) in
    let '(buf, u) := fmtFrac unit u prec in
    fmtInt buf u.

Definition format_large (u : Z) : string :=
  let '(buf, u) := fmtFrac "s" u 9 in
  let buf := fmtInt buf (u mod 60) in
  let u := u / 60 in
  if u >? 0 then
    let buf := fmtInt (String "m" buf) (u mod 60) in
    let u := u / 60 in
    if u >? 0 then fmtInt (String "h" buf) u else buf
  else buf.

Definition Duration_String (d : Z) : string :=
  let neg := d <? 0 in
  let u := if neg then uint64 (- uint64 d) else uint64 d in
  let buf := if u <? Second then format_small u else format_large u in
  if neg then String "-" buf else buf.

(** ** [ParseDuration] *)

Inductive duration_error :=
| InvalidDuration (orig : string)          (** "time: invalid duration" *)
| MissingUnit (orig : string)              (** "time: missing unit in duration" *)
| UnknownUnit (u orig : string).           (** "time: unknown unit u in duration" *)

#[export] Instance duration_error_eq_dec : EqDecision duration_error.
Proof. solve_decision. Defined.

Definition code (c : ascii) : Z := Z.of_nat (nat_of_ascii c).
Definition is_digit (c : ascii) : bool := (48 <=? code c) && (code c <=? 57).

(** [leadingInt], with what has been read: [None] on overflow. *)
Fixpoint leadingInt (x : Z) (s : string) : option (Z * string) :=
  match s with
  | "" => Some (x, "")
  | String c s' =>
      if negb (is_digit c) then Some (x, s)
      else if x >? 2 ^ 63 / 10 then None
      else
        let x := uint64 (x * 10 + code c - 48) in
        if x >? 2 ^ 63 then None else leadingInt x s'
  end.

(** [leadingFraction]: the digits that fit, and the power of ten that scales them. *)
Fixpoint leadingFraction (x : Z) (scale : float64) (overflow : bool) (s : string)
    : Z * float64 * string :=
  match s with
  | "" => (x, scale, "")
  | String c s' =>
      if negb (is_digit c) then (x, scale, s)
      else if overflow || (x >? (2 ^ 63 - 1) / 10) then leadingFraction x scale true s'
      else
        let y := uint64 (x * 10 + code c - 48) in
        if y >? 2 ^ 63 then leadingFraction x scale true s'
        else leadingFraction y (fmul scale (f64 10)) false s'
  end.

Definition unitMap : gmap string Z :=
  {["ns" := Nanosecond; "us" := Microsecond;
    micro +:+ "s" := Microsecond;
    String "206" (String "188" "s") := Microsecond;     (* Greek letter mu *)
    "ms" := Millisecond; "s" := Second; "m" := Minute; "h" := Hour]}.

(** The characters up to a dot or a digit. *)
Definition in_unit (c : ascii) : bool := negb (bool_decide (c = "."%char) || is_digit c).
Fixpoint span_unit (s : string) : string * string :=
  match s with
  | String c s' =>
      if in_unit c then let '(u, r) := span_unit s' in (String c u, r) else ("", s)
  | "" => ("", "")
  end.

(** The digits and the fraction at the front of a component, [v] and [f / scale], and
    what is left; [None] when the text is not a number. *)
Definition parse_number (s : string) : option (Z * Z * float64 * string) :=
  match s with
  | "" => None
  | String c _ =>
      if negb (bool_decide (c = "."%char) || is_digit c) then None
      else match leadingInt 0 s with
      | None => None
      | Some (v, s1) =>
          let pre := negb (Nat.eqb (String.length s) (String.length s1)) in
          let '(f, scale, s2, post) :=
            match s1 with
            | String c s' =>
                if decide (c = "."%char) then
                  let '(f, scale, s2) := leadingFraction 0 (f64 1) false s' in
                  (f, scale, s2, negb (Nat.eqb (String.length s') (String.length s2)))
                else (0, f64 1, s1, false)
            | "" => (0, f64 1, s1, false)
            end in
          if negb pre && negb post then None else Some (v, f, scale, s2)
      end
  end.

(** The value of a component in nanoseconds; [None] on overflow. *)
Definition component_value (v f : Z) (scale : float64) (unit : Z) : option Z :=
  if v >? 2 ^ 63 / unit then None
  else
    let v := uint64 (v * unit) in
    if f >? 0 then
      let v := uint64 (v + uint64 (trunc (fmul (f64 f) (fdiv (f64 unit) scale)))) in
      if v >? 2 ^ 63 then None else Some v
    else Some v.

(** One round of [ParseDuration]'s loop: a number and its unit. *)
Definition parse_component (orig s : string) : result (Z * string) duration_error :=
  match parse_number s with
  | None => Err (InvalidDuration orig)
  | Some (v, f, scale, s) =>
      let '(u, s) := span_unit s in
      if decide (u = "") then Err (MissingUnit orig)
      else match unitMap !! u with
      | None => Err (UnknownUnit u orig)
      | Some unit =>
          match component_value v f scale unit with
          | None => Err (InvalidDuration orig)
          | Some v => Ok (v, s)
          end
      end
  end.

(** The loop; [None] when the fuel runs out before the text. *)
Fixpoint parse_components (fuel : nat) (orig : string) (d : Z) (s : string)
    : option (result Z duration_error) :=
  match s with
  | "" => Some (Ok d)
  | _ =>
      match fuel with
      | O => None
      | S fuel =>
          match parse_component orig s with
          | Err e => Some (Err e)
          | Ok (v, s) =>
              let d := uint64 (d + v) in
              if d >? 2 ^ 63 then Some (Err (InvalidDuration orig))
              else parse_components fuel orig d s
          end
      end
  end.

(** The sign, and the rest of the text. *)
Definition take_sign (s : string) : bool * string :=
  match s with
  | String c s' =>
      if decide (c = "-"%char) then (true, s')
      else if decide (c = "+"%char) then (false, s') else (false, s)
  | "" => (false, s)
  end.

Definition ParseDuration (orig : string) : result Z duration_error :=
  let '(neg, s) := take_sign orig in
  if decide (s = "0") then Ok 0
  else if decide (s = "") then Err (InvalidDuration orig)
  else match parse_components (String.length s) orig 0 s with
  | None => Err (InvalidDuration orig)
  | Some (Err e) => Err e
  | Some (Ok d) =>
      if neg then Ok (int64 (- int64 d))
      else if d >? 2 ^ 63 - 1 then Err (InvalidDuration orig)
      else Ok (int64 d)
  end.

Example String_ex :
  map Duration_String [0; 1100; 2200000; -3300000000; 90 * Second; 2 * Hour + 1; -2 ^ 63; 2 ^ 63 - 1]
  = ["0s"; "1.1" +:+ micro +:+ "s"; "2.2ms"; "-3.3s"; "1m30s"; "2h0m0.000000001s";
     "-2562047h47m16.854775808s"; "2562047h47m16.854775807s"].
Proof. by vm_compute. Qed.

Example Parse_ex :
  map ParseDuration ["1.5h"; "300ms"; "-.5s"; "+5us"; "0"; ".s"; "3"; "1d"; "9223372036854775808ns";
                     "0.9223372036854775807h"; "5m 3s"; ""]
  = [Ok 5400000000000; Ok 300000000; Ok (-500000000); Ok 5000; Ok 0; Err (InvalidDuration ".s");
     Err (MissingUnit "3"); Err (UnknownUnit "d" "1d"); Err (InvalidDuration "9223372036854775808ns");
     Ok 3320413933267; Err (UnknownUnit "m " "5m 3s"); Err (InvalidDuration "")].
Proof. vm_compute. reflexivity. Qed.

(** ** Numbers *)

Lemma gtb_false a b : a <= b -> (a >? b) = false.
Proof. intros. destruct (Z.gtb_spec a b); [lia|done]. Qed.

Lemma gtb_true a b : b < a -> (a >? b) = true.
Proof. intros. destruct (Z.gtb_spec a b); [done|lia]. Qed.

Lemma uint64_id z : 0 <= z < 2 ^ 64 -> uint64 z = z.
Proof. intros. unfold uint64, uwrap. by rewrite Z.mod_small. Qed.

Lemma code_digit d : 0 <= d < 10 -> code (digit d) = d + 48.
Proof. intros Hd. unfold code, digit. rewrite nat_ascii_embedding; lia. Qed.

Lemma is_digit_digit d : 0 <= d < 10 -> is_digit (digit d) = true.
Proof.
  intros Hd. unfold is_digit. rewrite code_digit by done.
  apply andb_true_intro. split; apply Z.leb_le; lia.
Qed.

(** What follows a number: not a digit. *)
Definition no_digit (s : string) : Prop :=
  match s with "" => True | String c _ => is_digit c = false end.

Lemma leadingInt_stop x s : no_digit s -> leadingInt x s = Some (x, s).
Proof. destruct s as [|c s]; [done|]. cbn. by intros ->. Qed.

Lemma leadingFraction_stop x scale s : no_digit s -> leadingFraction x scale false s = (x, scale, s).
Proof. destruct s as [|c s]; [done|]. cbn. by intros ->. Qed.

(** One digit read. *)
Lemma leadingInt_digit x d s :
  0 <= d < 10 -> 0 <= x -> x * 10 + d <= 2 ^ 63 ->
  leadingInt x (String (digit d) s) = leadingInt (x * 10 + d) s.
Proof.
  intros Hd Hx Hl. cbn [leadingInt]. rewrite is_digit_digit, code_digit by done. cbn [negb].
  rewrite gtb_false by zdiv.
  replace (x * 10 + (d + 48) - 48) with (x * 10 + d) by lia.
  rewrite uint64_id by lia. by rewrite gtb_false.
Qed.

Lemma leadingFraction_digit x scale d s :
  0 <= d < 10 -> 0 <= x -> x * 10 + d < 2 ^ 63 ->
  leadingFraction x scale false (String (digit d) s)
  = leadingFraction (x * 10 + d) (fmul scale (f64 10)) false s.
Proof.
  intros Hd Hx Hl. cbn [leadingFraction]. rewrite is_digit_digit, code_digit by done.
  cbn [negb orb]. rewrite gtb_false by zdiv.
  replace (x * 10 + (d + 48) - 48) with (x * 10 + d) by lia.
  rewrite uint64_id by lia. by rewrite gtb_false by lia.
Qed.

(** [fmtInt] is read back. *)
Lemma leadingInt_loop fuel v buf :
  0 <= v < 10 ^ Z.of_nat fuel -> v <= 2 ^ 63 ->
  leadingInt 0 (fmtInt_loop fuel v buf) = leadingInt v buf.
Proof.
  revert v buf. induction fuel as [|fuel IH]; intros v buf Hv Hl; cbn [fmtInt_loop].
  - change (10 ^ Z.of_nat 0) with 1 in Hv. by replace v with 0 by lia.
  - rewrite Nat2Z.inj_succ, Z.pow_succ_r in Hv by lia.
    destruct (Z.gtb_spec v 0); [|by replace v with 0 by lia].
    rewrite IH by zdiv. rewrite leadingInt_digit by zdiv. f_equal. zdiv.
Qed.

Lemma leadingInt_fmtInt v buf :
  0 <= v <= 2 ^ 63 -> no_digit buf -> leadingInt 0 (fmtInt buf v) = Some (v, buf).
Proof.
  intros Hv Hb. unfold fmtInt. destruct (Z.eqb_spec v 0) as [->|H0].
  - change "0"%char with (digit 0). rewrite leadingInt_digit by lia. by apply leadingInt_stop.
  - rewrite leadingInt_loop by lia. by apply leadingInt_stop.
Qed.

(** A printed number begins with a digit, and adds to the buffer. *)
Definition number_before (buf s : string) : Prop :=
  exists d t, s = String (digit d) t /\ 0 <= d < 10 /\ (String.length buf < String.length s)%nat.

Lemma fmtInt_loop_before fuel v buf :
  0 < v < 10 ^ Z.of_nat fuel -> number_before buf (fmtInt_loop fuel v buf).
Proof.
  revert v buf. induction fuel as [|fuel IH]; intros v buf Hv; cbn [fmtInt_loop].
  - change (10 ^ Z.of_nat 0) with 1 in Hv. lia.
  - rewrite Nat2Z.inj_succ, Z.pow_succ_r in Hv by lia. rewrite gtb_true by lia.
    destruct (decide (v / 10 = 0)) as [E|E].
    + rewrite E. exists (v mod 10), buf. split_and!; [by destruct fuel|zdiv|zdiv|].
      destruct fuel; simpl; lia.
    + destruct (IH (v / 10) (String (digit (v mod 10)) buf)) as (d & t & Et & Hd & Hl); [zdiv|].
      exists d, t. split_and!; [done|lia|lia|]. simpl in Hl. lia.
Qed.

Lemma fmtInt_before v buf : 0 <= v <= 2 ^ 63 -> number_before buf (fmtInt buf v).
Proof.
  intros Hv. unfold fmtInt. destruct (Z.eqb_spec v 0) as [->|H0].
  - exists 0, buf. split_and!; [done|lia|lia|simpl; lia].
  - apply fmtInt_loop_before. lia.
Qed.

(** ** Fractions *)

Lemma f64_mul10 j : (j <= 9)%nat ->
  fmul (f64 (10 ^ Z.of_nat j)) (f64 10) = f64 (10 ^ Z.of_nat (S j)).
Proof.
  intros Hj. rewrite Nat2Z.inj_succ, Z.pow_succ_r, (Z.mul_comm 10) by lia.
  apply fmul_exact; [lia|lia|].
  pose proof (Z.pow_le_mono_r 10 (Z.of_nat j) 9 ltac:(lia) ltac:(lia)). lia.
Qed.

(** With the digits being printed, [i] of them are read back. *)
Lemma fmtFrac_loop_true i v buf :
  (i <= 9)%nat -> 0 <= v ->
  exists txt, fmtFrac_loop i true v buf = (true, v / 10 ^ Z.of_nat i, txt)
    /\ leadingFraction 0 (f64 1) false txt
       = leadingFraction (v mod 10 ^ Z.of_nat i) (f64 (10 ^ Z.of_nat i)) false buf
    /\ String.length txt = (i + String.length buf)%nat.
Proof.
  revert v buf. induction i as [|i IH]; intros v buf Hi Hv.
  - exists buf. cbn [fmtFrac_loop]. change (10 ^ Z.of_nat 0) with 1. by rewrite Z.div_1_r, Z.mod_1_r.
  - cbn [fmtFrac_loop orb].
    destruct (IH (v / 10) (String (digit (v mod 10)) buf) ltac:(lia) ltac:(zdiv)) as (txt & E & Ef & El).
    exists txt. rewrite E, Ef. pose proof (Z.pow_pos_nonneg 10 (Z.of_nat i) ltac:(lia) ltac:(lia)).
    assert (10 ^ Z.of_nat i <= 10 ^ 9) as Hb by (apply Z.pow_le_mono_r; lia).
    pose proof (Z.mod_pos_bound (v / 10) (10 ^ Z.of_nat i) ltac:(lia)).
    rewrite leadingFraction_digit by zdiv. rewrite f64_mul10 by lia.
    rewrite Nat2Z.inj_succ, Z.pow_succ_r, Z.div_div by lia.
    split_and!; [done| |simpl in El; lia]. f_equal. rewrite Z.rem_mul_r by lia. zdiv.
Qed.

(** A fraction [f / 10^j] printed before [buf] is read back; [m] is what it stands for in
    units of [10^-i]. *)
Definition fraction_before (i : nat) (m : Z) (buf txt : string) : Prop :=
  exists f j, (j <= i)%nat /\ m = f * 10 ^ Z.of_nat (i - j) /\ 0 < f
    /\ leadingFraction 0 (f64 1) false txt = leadingFraction f (f64 (10 ^ Z.of_nat j)) false buf
    /\ (String.length buf < String.length txt)%nat.

Lemma fmtFrac_loop_false i v buf :
  (i <= 9)%nat -> 0 <= v ->
  let m := v mod 10 ^ Z.of_nat i in
  let q := v / 10 ^ Z.of_nat i in
  if decide (m = 0) then fmtFrac_loop i false v buf = (false, q, buf)
  else exists txt, fmtFrac_loop i false v buf = (true, q, txt) /\ fraction_before i m buf txt.
Proof.
  cbv zeta. revert v. induction i as [|i IH]; intros v Hi Hv.
  - change (10 ^ Z.of_nat 0) with 1. by rewrite Z.mod_1_r, Z.div_1_r.
  - specialize (IH (v / 10) ltac:(lia) ltac:(zdiv)).
    destruct (fmtFrac_loop_true i (v / 10) (String (digit (v mod 10)) buf) ltac:(lia) ltac:(zdiv))
      as (txt & E & Ef & El).
    cbn [fmtFrac_loop orb]. pose proof (Z.pow_pos_nonneg 10 (Z.of_nat i) ltac:(lia) ltac:(lia)) as Hp.
    pose proof (Z.mod_pos_bound (v / 10) _ Hp) as Hm.
    rewrite Nat2Z.inj_succ, Z.pow_succ_r by lia.
    rewrite <- Z.div_div, Z.rem_mul_r by lia.
    destruct (Z.eqb_spec (v mod 10) 0) as [E0|E0]; cbn [negb].
    + rewrite E0, Z.add_0_l. case_decide as D; [rewrite decide_True by lia; done|].
      rewrite decide_False by lia. destruct IH as (t & -> & f & j & Hj & Hf & Hf0 & Et & Hl).
      exists t. split; [done|]. exists f, j. split_and!; [lia| |done..].
      replace (S i - j)%nat with (S (i - j)) by lia. rewrite Nat2Z.inj_succ, Z.pow_succ_r by lia. lia.
    + rewrite decide_False by zdiv. exists txt. rewrite E. split; [done|].
      exists (v mod 10 + 10 * ((v / 10) mod 10 ^ Z.of_nat i)), (S i).
      assert (10 ^ Z.of_nat i <= 10 ^ 8) as Hb by (apply Z.pow_le_mono_r; lia).
      split_and!; [lia| |zdiv| |simpl in El; lia].
      * rewrite Nat.sub_diag. simpl. lia.
      * rewrite Ef, leadingFraction_digit, f64_mul10 by (lia || zdiv). f_equal. lia.
Qed.

(** ** Components *)

(** What follows a number that was printed: a unit. *)
Definition unit_follows (buf : string) : Prop :=
  match buf with "" => False | String c _ => in_unit c = true end.

Lemma unit_follows_no_digit buf : unit_follows buf -> no_digit buf.
Proof.
  destruct buf as [|c buf]; [done|]. cbn. unfold in_unit.
  rewrite negb_true_iff, orb_false_iff. by intros [_ ?].
Qed.

Lemma pre_true buf s : (String.length buf < String.length s)%nat ->
  negb (Nat.eqb (String.length s) (String.length buf)) = true.
Proof. intros. apply negb_true_iff, Nat.eqb_neq. lia. Qed.

(** An integer before a unit. *)
Lemma parse_number_int buf v :
  0 <= v <= 2 ^ 63 -> unit_follows buf -> parse_number (fmtInt buf v) = Some (v, 0, f64 1, buf).
Proof.
  intros Hv Hb. pose proof (leadingInt_fmtInt v buf Hv (unit_follows_no_digit buf Hb)) as Hi.
  destruct (fmtInt_before v buf Hv) as (d & t & E & Hd & Hl). unfold parse_number.
  rewrite E in *. rewrite is_digit_digit, orb_true_r by done. cbn [negb]. rewrite Hi, pre_true by done.
  destruct buf as [|c buf]; [done|]. rewrite decide_False; [done|].
  intros ->. by cbn in Hb.
Qed.

(** An integer and a fraction before a unit. *)
Lemma parse_number_frac buf txt i m q :
  0 <= q <= 2 ^ 63 -> unit_follows buf -> fraction_before i m buf txt ->
  exists f j, parse_number (fmtInt (String "." txt) q) = Some (q, f, f64 (10 ^ Z.of_nat j), buf)
              /\ (j <= i)%nat /\ m = f * 10 ^ Z.of_nat (i - j) /\ 0 < f.
Proof.
  intros Hq Hb (f & j & Hj & Hm & Hf & Ef & Hl). exists f, j. split; [|done].
  pose proof (leadingInt_fmtInt q (String "." txt) Hq eq_refl) as Hi.
  destruct (fmtInt_before q (String "." txt) Hq) as (d & t & E & Hd & Hl'). unfold parse_number.
  rewrite E in *. rewrite is_digit_digit, orb_true_r by done. cbn [negb]. rewrite Hi, pre_true by done.
  rewrite decide_True by done.
  rewrite Ef, leadingFraction_stop by (by apply unit_follows_no_digit).
  rewrite pre_true by done. cbn [negb andb]. reflexivity.
Qed.

Lemma fdiv_pow10 i j : (j <= i <= 9)%nat ->
  fdiv (f64 (10 ^ Z.of_nat i)) (f64 (10 ^ Z.of_nat j)) = f64 (10 ^ Z.of_nat (i - j)).
Proof.
  intros Hij. do 10 (destruct i as [|i]; [do 10 (destruct j as [|j]; [first [exfalso; lia|by vm_compute]|]); lia|]). lia.
Qed.

Lemma div_le_unit v u k : 0 < u -> v * u <= k -> v <= k / u.
Proof. intros. apply Z.div_le_lower_bound; lia. Qed.

Lemma component_value_int v scale u :
  0 < u -> 0 <= v -> v * u <= 2 ^ 63 -> component_value v 0 scale u = Some (v * u).
Proof.
  intros Hu Hv Hl. unfold component_value. rewrite gtb_false by (by apply div_le_unit).
  by rewrite (uint64_id (v * u)) by (split; [by apply Z.mul_nonneg_nonneg; lia|lia]).
Qed.

Lemma component_value_frac q f i j :
  (j <= i <= 9)%nat -> 0 <= q -> 0 < f ->
  let m := f * 10 ^ Z.of_nat (i - j) in
  m < 10 ^ Z.of_nat i -> q * 10 ^ Z.of_nat i + m <= 2 ^ 63 ->
  component_value q f (f64 (10 ^ Z.of_nat j)) (10 ^ Z.of_nat i) = Some (q * 10 ^ Z.of_nat i + m).
Proof.
  intros Hij Hq Hf m Hm Hl. unfold component_value.
  assert (forall k, 0 < 10 ^ Z.of_nat k) as Hp by (intros k; apply Z.pow_pos_nonneg; lia).
  pose proof (Hp (i - j)%nat). pose proof (Hp i).
  assert (10 ^ Z.of_nat i <= 10 ^ 9) by (apply Z.pow_le_mono_r; lia).
  assert (0 < m < 10 ^ 9) as Hm' by nia.
  assert (0 <= q * 10 ^ Z.of_nat i) by nia.
  rewrite gtb_false by (apply div_le_unit; lia). rewrite gtb_true by done.
  rewrite fdiv_pow10 by done. rewrite fmul_exact by (fold m; lia). fold m.
  rewrite trunc_f64 by lia. rewrite (uint64_id (q * _)), (uint64_id m), uint64_id by lia.
  by rewrite gtb_false by lia.
Qed.

(** The unit, and what is left. *)
Lemma span_unit_app u s :
  Forall (fun c => in_unit c = true) (list_ascii_of_string u) ->
  match s with "" => True | String c _ => in_unit c = false end ->
  span_unit (u +:+ s) = (u, s).
Proof.
  intros Hu Hs. induction u as [|c u IH].
  - destruct s as [|c s]; [done|]. change (span_unit (String c s) = ("", String c s)).
    cbn [span_unit]. by rewrite Hs.
  - apply Forall_cons in Hu as [Hc Hu].
    change (span_unit (String c (u +:+ s)) = (String c u, s)).
    cbn [span_unit]. by rewrite Hc, IH.
Qed.

(** A component is read: its number, its unit and the rest. *)
Lemma parse_component_number orig s v f scale u rest unit r :
  parse_number s = Some (v, f, scale, u +:+ rest) ->
  Forall (fun c => in_unit c = true) (list_ascii_of_string u) -> u <> "" ->
  match rest with "" => True | String c _ => in_unit c = false end ->
  unitMap !! u = Some unit -> component_value v f scale unit = Some r ->
  parse_component orig s = Ok (r, rest).
Proof.
  intros Hn Hu Hu0 Hr Hm Hv. unfold parse_component.
  rewrite Hn, span_unit_app by done. rewrite decide_False by done. by rewrite Hm, Hv.
Qed.

Definition unit_text (u : string) : Prop :=
  u <> "" /\ Forall (fun c => in_unit c = true) (list_ascii_of_string u).

Lemma unit_text_follows u rest : unit_text u -> unit_follows (u +:+ rest).
Proof. destruct u as [|c u]; intros [? Hu]; [done|]. cbn in *. by apply Forall_cons in Hu as [? _]. Qed.

(** The integer [q] and the fraction [v mod 10^i / 10^i] with their unit. *)
Lemma parse_component_frac orig u rest i v q :
  unit_text u -> match rest with "" => True | String c _ => in_unit c = false end ->
  unitMap !! u = Some (10 ^ Z.of_nat i) -> (i <= 9)%nat -> 0 <= v -> 0 <= q ->
  q * 10 ^ Z.of_nat i + v mod 10 ^ Z.of_nat i <= 2 ^ 63 ->
  parse_component orig (fmtInt (fst (fmtFrac (u +:+ rest) v i)) q)
  = Ok (q * 10 ^ Z.of_nat i + v mod 10 ^ Z.of_nat i, rest).
Proof.
  intros Hu Hr Hm Hi Hv Hq Hl. pose proof (fmtFrac_loop_false i v (u +:+ rest) Hi Hv) as Hf.
  assert (0 < 10 ^ Z.of_nat i) as Hp by (apply Z.pow_pos_nonneg; lia).
  pose proof (Z.mod_pos_bound v _ Hp). cbv zeta in Hf. pose proof (unit_text_follows u rest Hu).
  unfold fmtFrac. case_decide as D.
  - rewrite Hf. cbn [fst]. rewrite D, Z.add_0_r in *.
    eapply parse_component_number; [apply parse_number_int; [nia|done]|apply Hu|apply Hu|done|done|].
    by apply component_value_int.
  - destruct Hf as (txt & -> & Hfb). cbn [fst].
    destruct (parse_number_frac _ txt i _ q ltac:(nia) ltac:(done) Hfb) as (f & j & Hn & Hj & E & Hf).
    rewrite E in *.
    eapply parse_component_number; [exact Hn|apply Hu|apply Hu|done|done|].
    apply component_value_frac; lia.
Qed.

(** ** The loop *)

Lemma parse_components_step fuel orig d s v s' :
  s <> "" -> parse_component orig s = Ok (v, s') -> 0 <= d + v <= 2 ^ 63 ->
  parse_components (S fuel) orig d s = parse_components fuel orig (d + v) s'.
Proof.
  intros Hs Hc Hd. destruct s as [|c s]; [done|]. cbn [parse_components].
  rewrite Hc, uint64_id by lia. by rewrite gtb_false by lia.
Qed.

Lemma parse_components_end fuel orig d : parse_components fuel orig d "" = Some (Ok d).
Proof. by destruct fuel. Qed.

Lemma number_before_unit buf s : number_before buf s ->
  s <> "" /\ match s with "" => True | String c _ => in_unit c = false end.
Proof.
  intros (d & t & -> & Hd & _). split; [done|]. unfold in_unit.
  by rewrite is_digit_digit, orb_true_r by done.
Qed.

Lemma parse_component_int orig u rest unit q :
  unit_text u -> match rest with "" => True | String c _ => in_unit c = false end ->
  unitMap !! u = Some unit -> 0 < unit -> 0 <= q -> q * unit <= 2 ^ 63 ->
  parse_component orig (fmtInt (u +:+ rest) q) = Ok (q * unit, rest).
Proof.
  intros Hu Hr Hm Hp Hq Hl.
  eapply parse_component_number; [apply parse_number_int; [nia|by apply unit_text_follows]|apply Hu|apply Hu|done|done|].
  by apply component_value_int.
Qed.

(** [s] is read to the end, [d] having been read: the result is [r]. *)
Definition parses (orig : string) (d : Z) (s : string) (r : Z) : Prop :=
  forall fuel, (String.length s <= fuel)%nat -> parse_components fuel orig d s = Some (Ok r).

Lemma parses_end orig d : parses orig d "" d.
Proof. intros fuel _. apply parse_components_end. Qed.

Lemma parses_cons orig d s v rest r u :
  number_before (u +:+ rest) s -> parse_component orig s = Ok (v, rest) -> 0 <= d + v <= 2 ^ 63 ->
  parses orig (d + v) rest r -> parses orig d s r.
Proof.
  intros Hn Hc Hd Hr fuel Hf. destruct (number_before_unit _ _ Hn) as [Hs _].
  destruct Hn as (_ & _ & _ & _ & Hl).
  assert (String.length (u +:+ rest) = (String.length u + String.length rest)%nat) as E.
  { clear. induction u as [|c u IH]; [done|]. change (S (String.length (u +:+ rest)) = S (String.length u + String.length rest))%nat. by rewrite IH. }
  destruct fuel as [|fuel]; [lia|]. erewrite parse_components_step by done.
  apply Hr. lia.
Qed.

Lemma fmtFrac_spec buf v i :
  (i <= 9)%nat -> 0 <= v ->
  snd (fmtFrac buf v i) = v / 10 ^ Z.of_nat i
  /\ (String.length buf <= String.length (fst (fmtFrac buf v i)))%nat.
Proof.
  intros Hi Hv. pose proof (fmtFrac_loop_false i v buf Hi Hv) as Hf. cbv zeta in Hf. unfold fmtFrac.
  case_decide; [by rewrite Hf|]. destruct Hf as (txt & -> & f & j & _ & _ & _ & _ & Hl).
  split; [done|simpl; lia].
Qed.

Lemma fmtFrac_before buf v i q :
  (i <= 9)%nat -> 0 <= v -> 0 <= q <= 2 ^ 63 -> number_before buf (fmtInt (fst (fmtFrac buf v i)) q).
Proof.
  intros Hi Hv Hq. destruct (fmtFrac_spec buf v i Hi Hv) as [_ Hl].
  destruct (fmtInt_before q (fst (fmtFrac buf v i)) Hq) as (d & t & E & Hd & Hl').
  exists d, t. split_and!; [done|lia|lia|lia].
Qed.

(** The text of a duration below one second. *)
Lemma parses_unit orig u i v :
  unit_text u -> unitMap !! u = Some (10 ^ Z.of_nat i) -> (i <= 9)%nat -> 0 <= v <= 2 ^ 63 ->
  let s := fmtInt (fst (fmtFrac u v i)) (snd (fmtFrac u v i)) in
  number_before u s /\ parses orig 0 s v.
Proof.
  intros Hu Hm Hi Hv. cbv zeta. destruct (fmtFrac_spec u v i Hi ltac:(lia)) as [-> _].
  assert (0 < 10 ^ Z.of_nat i) as Hp by (apply Z.pow_pos_nonneg; lia).
  assert (v / 10 ^ Z.of_nat i * 10 ^ Z.of_nat i + v mod 10 ^ Z.of_nat i = v) as E.
  { rewrite Z.mul_comm. symmetry. apply Z_div_mod_eq_full. }
  assert (0 <= v / 10 ^ Z.of_nat i) by (apply Z.div_pos; lia).
  assert (0 <= v mod 10 ^ Z.of_nat i) by (apply Z.mod_pos_bound; lia).
  assert (u +:+ "" = u) as Eu.
  { clear. induction u as [|c u IH]; [done|]. change (String c (u +:+ "") = String c u). by rewrite IH. }
  assert (number_before u (fmtInt (fst (fmtFrac u v i)) (v / 10 ^ Z.of_nat i))) as Hb.
  { apply fmtFrac_before; nia. }
  split; [done|].
  pose proof (parse_component_frac orig u "" i v (v / 10 ^ Z.of_nat i) Hu I Hm Hi ltac:(lia) ltac:(lia) ltac:(lia)) as Hc.
  rewrite Eu, E in Hc. eapply (parses_cons orig 0 _ v "" v u); [by rewrite Eu|done|lia|].
  apply parses_end.
Qed.

Ltac unit_text := by split; [done|repeat constructor].

Lemma format_small_parses orig u :
  0 <= u < Second ->
  exists b, number_before b (format_small u) /\ b <> "" /\ parses orig 0 (format_small u) u.
Proof.
  intros Hu. unfold format_small, Microsecond, Millisecond, Second in *.
  destruct (Z.eqb_spec u 0) as [->|H0].
  - exists "s". split_and!; [|done|].
    + exists 0, "s". split_and!; [done|lia|lia|simpl; lia].
    + intros fuel Hf. simpl in Hf. by do 2 (destruct fuel as [|fuel]; [lia|]).
  - destruct (u <? 1000); [|destruct (u <? 1000000)]; cbv beta iota.
    all: match goal with |- context [fmtFrac ?un ?v ?i] =>
      pose proof (parses_unit orig un i v ltac:(unit_text) eq_refl ltac:(lia) ltac:(lia)) as [Hb Hp];
      destruct (fmtFrac un v i) as [b q]; exists un; by split_and! end.
Qed.

(** Minutes or hours before a text that was read. *)
Lemma parses_before orig u unit q b rest d r :
  unit_text u -> unitMap !! u = Some unit -> 0 < unit -> 0 <= q -> 0 <= d ->
  d + q * unit <= 2 ^ 63 -> number_before b rest -> parses orig (d + q * unit) rest r ->
  number_before (u +:+ rest) (fmtInt (u +:+ rest) q) /\ parses orig d (fmtInt (u +:+ rest) q) r.
Proof.
  intros Hu Hm Hp Hq Hd Hl Hb Hr. apply number_before_unit in Hb as [_ Hb].
  assert (0 <= q * unit) by (apply Z.mul_nonneg_nonneg; lia).
  assert (q * 1 <= q * unit) by (apply Z.mul_le_mono_nonneg_l; lia).
  assert (number_before (u +:+ rest) (fmtInt (u +:+ rest) q)) as Hn by (apply fmtInt_before; lia).
  split; [done|].
  eapply parses_cons; [done|apply parse_component_int; try done; lia|lia|done].
Qed.

Lemma format_large_parses orig u :
  Second <= u <= 2 ^ 63 ->
  exists b, number_before b (format_large u) /\ b <> "" /\ parses orig 0 (format_large u) u.
Proof.
  intros Hu. unfold format_large, Second in *.
  destruct (fmtFrac_spec "s" u 9 ltac:(lia) ltac:(lia)) as [Eq _].
  change (10 ^ Z.of_nat 9) with 1000000000 in Eq.
  assert (forall q, 0 <= q < 60 -> number_before "s" (fmtInt (fst (fmtFrac "s" u 9)) q)) as Hb.
  { intros q Hq. apply fmtFrac_before; lia. }
  assert (forall d q, 0 <= q < 60 -> 0 <= d -> d + q * Second + u mod Second = u ->
          parses orig d (fmtInt (fst (fmtFrac "s" u 9)) q) u) as Hs.
  { intros d q Hq Hd E.
    assert (0 <= u mod Second) by (apply Z.mod_pos_bound; done).
    eapply (parses_cons _ _ _ (q * Second + u mod Second) "" _ "s"); [by apply Hb| | |].
    - apply (parse_component_frac orig "s" "" 9); [unit_text|done|done|lia|lia|lia|].
      unfold Second in *. change (10 ^ Z.of_nat 9) with 1000000000. lia.
    - lia.
    - rewrite Z.add_assoc, E. apply parses_end. }
  destruct (fmtFrac "s" u 9) as [b secs]. cbn [fst snd] in *. subst secs. unfold Second in *.
  set (secs := u / 1000000000) in *. specialize (Hb (secs mod 60) ltac:(zdiv)).
  destruct (Z.gtb_spec (secs / 60) 0) as [Hm|Hm].
  2: { exists "s". split_and!; [done..|]. apply Hs; unfold secs in *; zdiv. }
  destruct (Z.gtb_spec (secs / 60 / 60) 0) as [Hh|Hh].
  - destruct (parses_before orig "m" Minute ((secs / 60) mod 60) "s"
      (fmtInt b (secs mod 60)) (secs / 60 / 60 * Hour) u) as [Hbm Hpm];
      [unit_text|done|done|zdiv|unfold Hour, Minute, Second; lia
      |unfold Hour, Minute, Second, secs in *; zdiv|done
      |apply Hs; unfold Hour, Minute, Second, secs in *; zdiv|].
    destruct (parses_before orig "h" Hour (secs / 60 / 60) _ _ 0 u
      ltac:(unit_text) eq_refl ltac:(done) ltac:(lia) ltac:(lia)
      ltac:(unfold Hour, Minute, Second, secs in *; zdiv) Hbm Hpm) as [Hbh Hph].
    by exists ("h" +:+ (fmtInt ("m" +:+ fmtInt b (secs mod 60)) ((secs / 60) mod 60))).
  - destruct (parses_before orig "m" Minute ((secs / 60) mod 60) "s"
      (fmtInt b (secs mod 60)) 0 u) as [Hbm Hpm];
      [unit_text|done|done|zdiv|lia
      |unfold Minute, Second, secs in *; zdiv|done
      |apply Hs; unfold Minute, Second, secs in *; zdiv|].
    by exists ("m" +:+ fmtInt b (secs mod 60)).
Qed.

(** A text that begins with a digit has no sign. *)
Lemma take_sign_number b s : number_before b s -> take_sign s = (false, s).
Proof.
  intros (d & t & -> & Hd & _). cbn [take_sign].
  pose proof (is_digit_digit d Hd) as Hg.
  by rewrite !decide_False by (by intros E; rewrite E in Hg).
Qed.

Lemma ParseDuration_number b s neg u :
  number_before b s -> b <> "" -> 0 <= u <= 2 ^ 63 ->
  parses (if neg : bool then String "-" s else s) 0 s u ->
  ParseDuration (if neg : bool then String "-" s else s)
  = if neg then Ok (int64 (- int64 u))
    else if u >? 2 ^ 63 - 1 then Err (InvalidDuration s) else Ok (int64 u).
Proof.
  intros Hb Hb0 Hu Hp. unfold ParseDuration.
  assert (take_sign (if neg then String "-" s else s) = (neg, s)) as ->.
  { destruct neg; [done|by eapply take_sign_number]. }
  destruct (number_before_unit _ _ Hb) as [Hs _]. rewrite (decide_False (P := s = "")) by done.
  rewrite decide_False. 2: { intros ->. destruct Hb as (_ & _ & _ & _ & Hl). destruct b; [done|simpl in Hl; lia]. }
  rewrite (Hp _ (le_n _)). by destruct neg.
Qed.

(** Every duration is read back from its text. *)
Lemma ParseDuration_String d :
  - 2 ^ 63 <= d < 2 ^ 63 -> ParseDuration (Duration_String d) = Ok d.
Proof.
  intros Hd. unfold Duration_String.
  assert ((if d <? 0 then uint64 (- uint64 d) else uint64 d) = Z.abs d) as ->.
  { unfold uint64, uwrap. destruct (Z.ltb_spec d 0); zdiv. }
  set (s := if Z.abs d <? Second then _ else _).
  assert (forall orig, exists b, number_before b s /\ b <> "" /\ parses orig 0 s (Z.abs d)) as Hp.
  { intros orig. unfold s. destruct (Z.ltb_spec (Z.abs d) Second);
      [apply format_small_parses|apply format_large_parses]; lia. }
  destruct (Hp (if d <? 0 then String "-" s else s)) as (b & Hb & Hb0 & Hps).
  rewrite (ParseDuration_number b s (d <? 0) (Z.abs d)) by (done || lia).
  destruct (Z.ltb_spec d 0).
  - f_equal. unfold int64, swrap. zdiv.
  - rewrite gtb_false by lia. rewrite int64_id by lia. f_equal. lia.
Qed.

(** ** The fuel of the loop *)

Lemma leadingInt_length x s v r : leadingInt x s = Some (v, r) -> (String.length r <= String.length s)%nat.
Proof.
  revert x. induction s as [|c s IH]; intros x; cbn [leadingInt]; [by intros [= _ <-]|].
  case_match; [by intros [= _ <-]|]. do 2 (case_match; [done|]).
  intros Hr%IH. simpl. lia.
Qed.

Lemma leadingFraction_length x scale o s :
  (String.length (snd (leadingFraction x scale o s)) <= String.length s)%nat.
Proof.
  revert x scale o. induction s as [|c s IH]; intros x scale o; cbn [leadingFraction]; [done|].
  repeat case_match; cbn [snd String.length]; try done;
    (etrans; [apply IH|lia]).
Qed.

Lemma parse_number_length s v f scale r :
  parse_number s = Some (v, f, scale, r) -> (String.length r <= String.length s)%nat.
Proof.
  unfold parse_number. destruct s as [|c s]; [done|]. case_match; [done|].
  destruct (leadingInt 0 (String c s)) as [[w s1]|] eqn:E; [|done]. apply leadingInt_length in E.
  destruct s1 as [|c1 s1].
  - case_match; [done|]. intros [= _ _ _ <-]. simpl. lia.
  - destruct (decide (c1 = "."%char)).
    + pose proof (leadingFraction_length 0 (f64 1) false s1) as Hf.
      destruct (leadingFraction 0 (f64 1) false s1) as [[f' sc] s2]. case_match; [done|].
      intros [= _ _ _ <-]. simpl in *. lia.
    + case_match; [done|]. intros [= _ _ _ <-]. done.
Qed.

Lemma span_unit_length s :
  (String.length (fst (span_unit s)) + String.length (snd (span_unit s)) = String.length s)%nat.
Proof.
  induction s as [|c s IH]; [done|]. cbn [span_unit]. case_match; [|done].
  destruct (span_unit s). simpl in *. lia.
Qed.

Lemma parse_component_length orig s v r :
  parse_component orig s = Ok (v, r) -> (String.length r < String.length s)%nat.
Proof.
  unfold parse_component. destruct (parse_number s) as [[[[w f] sc] s1]|] eqn:E; [|done].
  apply parse_number_length in E. pose proof (span_unit_length s1) as Hs.
  destruct (span_unit s1) as [u s2]. case_decide as D; [done|].
  destruct (unitMap !! u); [|done]. case_match; [|done]. intros [= _ <-].
  destruct u; [done|]. simpl in *. lia.
Qed.

(** The length of the text is enough fuel. *)
Lemma parse_components_total fuel orig d s :
  (String.length s <= fuel)%nat -> is_Some (parse_components fuel orig d s).
Proof.
  revert d s. induction fuel as [|fuel IH]; intros d s Hs; (destruct s as [|c s]; [by eexists|]);
    [simpl in Hs; lia|].
  cbn [parse_components]. destruct (parse_component orig (String c s)) as [[v r]|e] eqn:E; [|by eexists].
  apply parse_component_length in E. case_match; [by eexists|]. apply IH. simpl in *. lia.
Qed.

Lemma ParseDuration_range s d : ParseDuration s = Ok d -> - 2 ^ 63 <= d < 2 ^ 63.
Proof.
  assert (forall z, - 2 ^ 63 <= int64 z < 2 ^ 63) as Hr by (intros; unfold int64, swrap; zdiv).
  unfold ParseDuration. destruct (take_sign s) as [neg t].
  repeat (case_match; try done); intros [= <-]; try apply Hr. lia.
Qed.

(** Two components of [2^63] nanoseconds pass every check of the library, and add up to zero. *)
Example ParseDuration_wraps :
  ParseDuration "9223372036854775808ns9223372036854775808ns" = Ok 0.
Proof. by vm_compute. Qed.
