(* ===== verification/Config.v ===== *)
(** The configuration: [src/internal/config/config.go] and [defaults.go].

    Every struct of the package is a record, [Validate] is the code's sequence
    of checks, and [valid_config] is what the rest of the program may rely on.
    A [Duration] is written and read as the standard library's durations are ([GoTime]);
    reading the file and decoding YAML are parameters of [Load]. *)
From S2P Require Import Prelude GoTime.
From stdpp Require Export strings gmap.
Local Open Scope string_scope.
Local Open Scope Z_scope.

(** ** Data *)

Inductive ServerMode := ModeNative | ModeCaddy | OtherMode (s : string).

Record ACMEConfig := MkACME {
  acme_Email : string;
  acme_Domains : list string;
  acme_CacheDir : string;
  acme_Staging : bool
}.

Record TLSConfig := MkTLS {
  tls_Auto : bool;
  tls_Cert : string;
  tls_Key : string;
  tls_ACME : ACMEConfig
}.

Record ServerConfig := MkServerConfig {
  server_Address : string;
  server_Mode : ServerMode;
  server_HTTP2 : bool;
  server_HTTP3 : bool;
  server_TLS : TLSConfig;
  server_HTTPRedirect : bool
}.

Record PHPConfig := MkPHPConfig {
  php_Version : string;
  php_Mode : string;
  php_Binary : string;
  php_Worker : string;
  php_INI : gmap string string
}.

Record AppConfig := MkAppConfig {
  app_Root : string;
  app_Entry : string;
  app_Env : gmap string string
}.

(** [Duration] is a [time.Duration]: an int64 of nanoseconds. *)
Definition Duration := Z.

Record PoolConfig := MkPoolConfig {
  MinWorkers : Z;
  MaxWorkers : Z;
  MaxJobs : Z;
  MaxMemory : string;
  IdleTimeout : Duration;
  AllocateTimeout : Duration;
  RequestTimeout : Duration
}.

Record WebSocketConfig := MkWebSocketConfig {
  ws_Enabled : bool;
  ws_Path : string;
  ws_Worker : string;
  ws_MaxConnections : Z;
  ws_PingInterval : Duration
}.

Record StaticConfig := MkStaticConfig { static_Root : string; static_CacheControl : string }.
Record LogConfig := MkLogConfig { log_Level : string; log_Format : string; log_Output : string }.
Record MetricsConfig := MkMetricsConfig { metrics_Enabled : bool; metrics_Path : string }.
Record WatchConfig := MkWatchConfig {
  watch_Enabled : bool; watch_Dirs : list string; watch_Interval : Duration
}.
Record WorkerConfig := MkWorkerConfig {
  worker_Script : string; worker_Pattern : string; worker_Count : Z; worker_Watch : list string
}.

Record Config := MkConfig {
  Server : ServerConfig;
  PHP : PHPConfig;
  Pool : PoolConfig;
  App : AppConfig;
  WebSocket : WebSocketConfig;
  Static : StaticConfig;
  Logging : LogConfig;
  Metrics : MetricsConfig;
  Watch : WatchConfig;
  Workers : list WorkerConfig
}.

(** ** [Default] *)

Definition Default : Config :=
  MkConfig
    (MkServerConfig "0.0.0.0:8080" ModeNative true false
       (MkTLS false "" "" (MkACME "" [] "" false)) false)
    (MkPHPConfig "auto" "worker" "" ""
       {["memory_limit" := "256M"; "max_execution_time" := "30"]})
    (MkPoolConfig 4 32 10000 "128M" (60 * Second) (30 * Second) (30 * Second))
    (MkAppConfig "." "auto" ∅)
    (MkWebSocketConfig false "/ws" "" 10000 (30 * Second))
    (MkStaticConfig "public" "public, max-age=3600")
    (MkLogConfig "info" "json" "stdout")
    (MkMetricsConfig true "/metrics")
    (MkWatchConfig false [] (2 * Second))
    [].

(** ** Durations in YAML *)

Inductive duration_yaml_error (E : Type) :=
| DecodeError (e : E)                            (** the node is not a string *)
| BadDuration (s : string) (e : duration_error). (** "invalid duration" *)
Arguments DecodeError {E}. Arguments BadDuration {E}.

Section Yaml.
Context {Node E : Type}.
(** [value.Decode(&s)] of the YAML library, into a string. *)
Variable Decode : Node -> result string E.

(** The error, and the duration pointed to. *)
Definition UnmarshalYAML (d : Duration) (value : Node) : option (duration_yaml_error E) * Duration :=
  match Decode value with
  | Err e => (Some (DecodeError e), d)
  | Ok s =>
      match ParseDuration s with
      | Err e => (Some (BadDuration s e), d)
      | Ok parsed => (None, parsed)
      end
  end.

Definition MarshalYAML (d : Duration) : result string E := Ok (Duration_String d).
End Yaml.

(** [Duration.Duration], a conversion. *)
Definition Duration_Duration (d : Duration) : Z := d.

(** ** [Validate] *)

Inductive config_error :=
| MinWorkersTooSmall (n : Z)
| MaxBelowMin (mx mn : Z)
| MaxJobsNegative (n : Z)
| BadMode (m : string)
| BadVersion (v : string)
| WorkerRequired
| AddressRequired
| WebSocketWorkerRequired.

#[export] Instance config_error_eq_dec : EqDecision config_error.
Proof. solve_decision. Defined.

(** A [map[string]bool] literal, and its lookup: [false] for a missing key. *)
Definition validModes : gmap string bool := {["worker" := true; "request" := true]}.
Definition validVersions : gmap string bool :=
  {["auto" := true; "7.4" := true; "8.0" := true;
    "8.1" := true; "8.2" := true; "8.3" := true; "8.4" := true]}.

Definition bget (m : gmap string bool) (k : string) : bool := default false (m !! k).

Definition is_empty (s : string) : bool := bool_decide (s = "").

(** The error returned, [None] for nil. *)
Definition Validate (c : Config) : option config_error :=
  if MinWorkers (Pool c) <? 1 then Some (MinWorkersTooSmall (MinWorkers (Pool c)))
  else if MaxWorkers (Pool c) <? MinWorkers (Pool c)
  then Some (MaxBelowMin (MaxWorkers (Pool c)) (MinWorkers (Pool c)))
  else if MaxJobs (Pool c) <? 0 then Some (MaxJobsNegative (MaxJobs (Pool c)))
  else if negb (bget validModes (php_Mode (PHP c))) then Some (BadMode (php_Mode (PHP c)))
  else if negb (bget validVersions (php_Version (PHP c)))
  then Some (BadVersion (php_Version (PHP c)))
  else if negb (is_empty (php_Binary (PHP c))) && is_empty (php_Worker (PHP c))
          && Nat.eqb (length (Workers c)) 0
  then Some WorkerRequired
  else if is_empty (server_Address (Server c)) then Some AddressRequired
  else if ws_Enabled (WebSocket c) && is_empty (ws_Worker (WebSocket c))
  then Some WebSocketWorkerRequired
  else None.

(** ** [Load] *)

Inductive load_error (E : Type) :=
| ReadingFile (e : E)
| ParsingFile (e : E)
| InvalidConfig (e : config_error).
Arguments ReadingFile {E}. Arguments ParsingFile {E}. Arguments InvalidConfig {E}.

Section Load.
Context {E : Type}.
(** [os.ReadFile], and [yaml.Unmarshal] into a given configuration. *)
Variable ReadFile : string -> result (list byte) E.
Variable Unmarshal : list byte -> Config -> result Config E.

Definition Load (path : string) : result Config (load_error E) :=
  let? data := map_err ReadingFile (ReadFile path) in
  let? cfg := map_err ParsingFile (Unmarshal data Default) in
  match Validate cfg with
  | Some e => Err (InvalidConfig e)
  | None => Ok cfg
  end.
End Load.

(** ** What a validated configuration promises *)

Record pool_ok (p : PoolConfig) : Prop := {
  min_pos : 1 <= MinWorkers p;
  min_le_max : MinWorkers p <= MaxWorkers p;
  jobs_nonneg : 0 <= MaxJobs p
}.

Record valid_config (c : Config) : Prop := {
  vc_pool : pool_ok (Pool c);
  vc_mode : php_Mode (PHP c) ∈ ["worker"; "request"];
  vc_version : php_Version (PHP c) ∈ ["auto"; "7.4"; "8.0"; "8.1"; "8.2"; "8.3"; "8.4"];
  vc_worker : php_Binary (PHP c) <> "" -> php_Worker (PHP c) = "" -> Workers c <> [];
  vc_address : server_Address (Server c) <> "";
  vc_ws : ws_Enabled (WebSocket c) = true -> ws_Worker (WebSocket c) <> ""
}.

(** The keys of a set literal are the strings it accepts. *)
Lemma bget_list_to_map ks k :
  bget (list_to_map (map (fun k => (k, true)) ks)) k = bool_decide (k ∈ ks).
Proof.
  unfold bget. induction ks as [|k' ks IH].
  - by rewrite bool_decide_false by apply not_elem_of_nil.
  - cbn [map list_to_map foldr fst snd uncurry]. rewrite lookup_insert.
    destruct (decide (k' = k)) as [->|Hne].
    + rewrite bool_decide_true by apply elem_of_cons, or_introl, eq_refl. done.
    + rewrite IH. apply bool_decide_ext. rewrite elem_of_cons. split; [by right|by intros [->|?]].
Qed.

Lemma is_empty_true s : is_empty s = true <-> s = "".
Proof. unfold is_empty. by rewrite bool_decide_eq_true. Qed.

Lemma validModes_spec m : bget validModes m = bool_decide (m ∈ ["worker"; "request"]).
Proof. exact (bget_list_to_map ["worker"; "request"] m). Qed.

Lemma validVersions_spec v :
  bget validVersions v
  = bool_decide (v ∈ ["auto"; "7.4"; "8.0"; "8.1"; "8.2"; "8.3"; "8.4"]).
Proof. exact (bget_list_to_map ["auto"; "7.4"; "8.0"; "8.1"; "8.2"; "8.3"; "8.4"] v). Qed.

#[export] Hint Rewrite validModes_spec validVersions_spec : maboo.

(** ** Properties *)

Lemma Validate_valid c : Validate c = None <-> valid_config c.
Proof.
  unfold Validate. autorewrite with maboo. split.
  - intros Hv. repeat (case_match; [done|]). clear Hv.
    repeat match goal with
    | H : (_ <? _) = false |- _ => apply Z.ltb_ge in H
    | H : negb _ = false |- _ => apply negb_false_iff, bool_decide_eq_true in H
    end.
    split; [split; lia|done|done| | |].
    + intros Hb Hw Hn. unfold is_empty in *. rewrite Hw, Hn, bool_decide_false in * by done. done.
    + intros Ha. unfold is_empty in *. by rewrite bool_decide_true in * by done.
    + intros He Hw. unfold is_empty in *. by rewrite He, (bool_decide_true (ws_Worker _ = _)) in *.
  - intros [[H1 H2 H3] Hm Hv Hw Ha Hws].
    repeat match goal with |- context [(?a <? ?b)] =>
      replace (a <? b) with false by (symmetry; apply Z.ltb_ge; lia) end.
    rewrite !bool_decide_true by done. cbn [negb]. unfold is_empty.
    rewrite (bool_decide_false (server_Address _ = _)) by done.
    destruct (ws_Enabled (WebSocket c)); cbn [andb];
      [rewrite (bool_decide_false (ws_Worker _ = _)) by naive_solver|].
    all: do 2 (case_bool_decide; cbn [negb andb]; try done).
    all: destruct (Workers c); [naive_solver|done].
Qed.

(** [Validate] accepts exactly the configurations the program can run: worker
    counts between one and the maximum, a known mode and PHP version, a worker script
    for an external binary, a listen address, a WebSocket worker when enabled; and the
    defaults are accepted. *)
Theorem Validate_spec : Validate Default = None /\ forall c, Validate c = None <-> valid_config c.
Proof. split; [by vm_compute|apply Validate_valid]. Qed.

(** [Load] returns a configuration only when the file was read, it parsed over the
    defaults, and the result is valid; otherwise it returns the error of the first of
    the three that failed. *)
Theorem Load_spec {E} (ReadFile : string -> result (list byte) E)
    (Unmarshal : list byte -> Config -> result Config E) (path : string) :
  match Load ReadFile Unmarshal path with
  | Ok c => valid_config c
            /\ exists data, ReadFile path = Ok data /\ Unmarshal data Default = Ok c
  | Err (ReadingFile e) => ReadFile path = Err e
  | Err (ParsingFile e) =>
      exists data, ReadFile path = Ok data /\ Unmarshal data Default = Err e
  | Err (InvalidConfig e) =>
      exists data c, ReadFile path = Ok data /\ Unmarshal data Default = Ok c
                     /\ Validate c = Some e /\ ~ valid_config c
  end.
Proof.
  unfold Load. destruct (ReadFile path) as [data|e]; simpl; [|done].
  destruct (Unmarshal data Default) as [c|e] eqn:Eu; simpl; [|by eexists].
  destruct (Validate c) as [e|] eqn:Ev.
  - exists data, c. split_and!; [done..|]. rewrite <- Validate_valid, Ev. done.
  - split; [by apply Validate_valid|by eexists].
Qed.

(** C28. A duration that [MarshalYAML] wrote is read back by [UnmarshalYAML], for every
    64-bit number of nanoseconds, the smallest one included. Whatever the text is,
    [UnmarshalYAML] either stores what [time.ParseDuration] makes of it, a number of 64
    bits, or returns an error and leaves the duration as it was. *)
Theorem duration_roundtrip {Node E} (Decode : Node -> result string E) (old : Duration) (value : Node) :
  (forall d, - 2 ^ 63 <= d < 2 ^ 63 -> Decode value = MarshalYAML d ->
             UnmarshalYAML Decode old value = (None, d))
  /\ match UnmarshalYAML Decode old value with
     | (None, d) => - 2 ^ 63 <= d < 2 ^ 63
                    /\ exists s, Decode value = Ok s /\ ParseDuration s = Ok d
     | (Some (DecodeError e), d) => d = old /\ Decode value = Err e
     | (Some (BadDuration s e), d) => d = old /\ Decode value = Ok s /\ ParseDuration s = Err e
     end.
Proof.
  unfold UnmarshalYAML, MarshalYAML. split.
  - intros d Hd ->. by rewrite ParseDuration_String.
  - destruct (Decode value) as [s|e]; [|done].
    destruct (ParseDuration s) as [d|e] eqn:E'; [|done].
    split; [by eapply ParseDuration_range|by exists s].
Qed.

Lemma duration_roundtrip_witness :
  UnmarshalYAML (Node := string) (E := unit) (fun s => Ok s) 7 (Duration_String (- 2 ^ 63))
  = (None, - 2 ^ 63).
Proof.
  destruct (duration_roundtrip (Node := string) (E := unit) (fun s => Ok s) 7
              (Duration_String (- 2 ^ 63))) as [H _].
  apply H; [lia|reflexivity].
Defined.
