(* ===== verification/GoStr.v ===== *)
(** Strings and paths: the functions of Go's [strings] and [path/filepath]
    packages the program calls, on byte strings. Letter case is ASCII case; the
    separators and prefixes the program looks for are ASCII. *)
From S2P Require Import Prelude.
From stdpp Require Export strings.
From Stdlib Require Import Ascii String.
Local Open Scope string_scope.

(** ** [strings] *)

(** [strings.HasPrefix] *)
Fixpoint HasPrefix (s p : string) {struct p} : bool :=
  match p, s with
  | "", _ => true
  | String a p, String b s => bool_decide (a = b) && HasPrefix s p
  | _, _ => false
  end.

(** [strings.TrimPrefix], when the prefix is there. *)
Fixpoint cut_prefix (s p : string) {struct p} : option string :=
  match p, s with
  | "", _ => Some s
  | String a p, String b s => if decide (a = b) then cut_prefix s p else None
  | _, _ => None
  end.

(** [strings.Contains] *)
Fixpoint Contains (s sub : string) : bool :=
  HasPrefix s sub || match s with "" => false | String _ s => Contains s sub end.

(** [strings.Split(s, sep)] for a separator of one byte: never empty. *)
Fixpoint Split (sep : ascii) (s : string) : list string :=
  match s with
  | "" => [""]
  | String c s' =>
      if decide (c = sep) then "" :: Split sep s'
      else match Split sep s' with
           | p :: ps => String c p :: ps
           | [] => [String c ""]
           end
  end.

(** [strings.Join(elems, sep)] *)
Fixpoint Join_with (sep : string) (elems : list string) : string :=
  match elems with
  | [] => ""
  | [e] => e
  | e :: es => e ++ sep ++ Join_with sep es
  end.

(** Apply a function to every byte. *)
Fixpoint string_map (f : ascii -> ascii) (s : string) : string :=
  match s with "" => "" | String c s => String (f c) (string_map f s) end.

(** [strings.ToLower], [strings.ToUpper], and [strings.ReplaceAll] of one byte by another. *)
Definition lower_ascii (c : ascii) : ascii :=
  let n := nat_of_ascii c in
  if decide (65 <= n /\ n <= 90) then ascii_of_nat (n + 32) else c.
Definition upper_ascii (c : ascii) : ascii :=
  let n := nat_of_ascii c in
  if decide (97 <= n /\ n <= 122) then ascii_of_nat (n - 32) else c.
Definition ToLower : string -> string := string_map lower_ascii.
Definition ToUpper : string -> string := string_map upper_ascii.
Definition ReplaceByte (a b : ascii) : string -> string :=
  string_map (fun c => if decide (c = a) then b else c).

(** [strings.TrimSpace], for ASCII white space. *)
Definition is_space (c : ascii) : bool :=
  let n := nat_of_ascii c in
  bool_decide ((9 <= n /\ n <= 13) \/ n = 32).
Fixpoint trim_left (s : string) : string :=
  match s with
  | "" => ""
  | String c s' => if is_space c then trim_left s' else s
  end.
Definition string_rev_go (s : string) : string := string_of_list_ascii (rev (list_ascii_of_string s)).
Definition TrimSpace (s : string) : string :=
  string_rev_go (trim_left (string_rev_go (trim_left s))).

(** ** [encoding/hex] *)

Definition hex_digit (n : nat) : ascii :=
  default "0"%char (list_ascii_of_string "0123456789abcdef" !! n).

(** [hex.Encode]. *)
Definition hex_encode (bs : list byte) : string :=
  string_of_list_ascii
    (bs ≫= fun b => let n := Z.to_nat (Z_of_byte b) in
                    [hex_digit (n / 16); hex_digit (n mod 16)]%nat).

Lemma hex_byte_inj b c :
  let n := Z.to_nat (Z_of_byte b) in let m := Z.to_nat (Z_of_byte c) in
  hex_digit (n / 16) = hex_digit (m / 16) -> hex_digit (n mod 16) = hex_digit (m mod 16) -> b = c.
Proof.
  assert (forall n m, (n < 16)%nat -> (m < 16)%nat -> hex_digit n = hex_digit m -> n = m) as Hd.
  { intros n m Hn Hm H.
    assert (forallb (fun n => forallb (fun m => implb (Ascii.eqb (hex_digit n) (hex_digit m)) (Nat.eqb n m))
      (seq 0 16)) (seq 0 16) = true) as Hall by (by vm_compute).
    rewrite forallb_forall in Hall. specialize (Hall n ltac:(apply in_seq; lia)).
    rewrite forallb_forall in Hall. specialize (Hall m ltac:(apply in_seq; lia)).
    rewrite (proj2 (Ascii.eqb_eq _ _) H) in Hall. by apply Nat.eqb_eq. }
  cbv zeta. intros H1%Hd H2%Hd.
  2-5: pose proof (Z_of_byte_range b); pose proof (Z_of_byte_range c);
       (apply Nat.mod_upper_bound; lia) || (apply Nat.Div0.div_lt_upper_bound; lia).
  assert (Z.to_nat (Z_of_byte b) = Z.to_nat (Z_of_byte c)) as E.
  { rewrite (Nat.div_mod_eq (Z.to_nat (Z_of_byte b)) 16), H1, H2. symmetry. apply Nat.div_mod_eq. }
  rewrite <- (byte_of_Z_of_byte b), <- (byte_of_Z_of_byte c). f_equal.
  pose proof (Z_of_byte_range b). pose proof (Z_of_byte_range c). lia.
Qed.

(** Different bytes have different texts. *)
Lemma hex_encode_inj bs cs : hex_encode bs = hex_encode cs -> bs = cs.
Proof.
  unfold hex_encode. intros H. apply (f_equal list_ascii_of_string) in H.
  rewrite !list_ascii_of_string_of_list_ascii in H. revert cs H.
  induction bs as [|b bs IH]; intros [|c cs] H; try discriminate H; [done|].
  rewrite !bind_cons in H. injection H as H1 H2 H. by rewrite (hex_byte_inj b c H1 H2), (IH cs H).
Qed.

(** ** [path/filepath], on Unix *)

Definition slash : ascii := "/".

(** The components of a path, after [Clean]'s rules: [acc] is the output so far,
    last component first. *)
Fixpoint clean_comps (rooted : bool) (acc : list string) (cs : list string) : list string :=
  match cs with
  | [] => rev acc
  | c :: cs =>
      if decide (c = "" \/ c = ".") then clean_comps rooted acc cs
      else if decide (c = "..") then
        match acc with
        | a :: acc' =>
            if decide (a = "..") then clean_comps rooted (".." :: acc) cs
            else clean_comps rooted acc' cs
        | [] => clean_comps rooted (if rooted then [] else [".."]) cs
        end
      else clean_comps rooted (c :: acc) cs
  end.

Definition is_rooted (p : string) : bool := HasPrefix p "/".

(** [filepath.Clean] *)
Definition Clean (p : string) : string :=
  let rooted := is_rooted p in
  let cs := clean_comps rooted [] (Split slash p) in
  if rooted then "/" ++ Join_with "/" cs
  else match cs with [] => "." | _ => Join_with "/" cs end.

(** [filepath.Join] *)
Fixpoint Join (elems : list string) : string :=
  match elems with
  | [] => ""
  | e :: es => if decide (e = "") then Join es else Clean (Join_with "/" (e :: es))
  end.

(** [filepath.Ext]: from the last dot of the last component. *)
Fixpoint Ext (p : string) : string :=
  match p with
  | "" => ""
  | String c p' =>
      if decide (c = "."%char) then
        if existsb (fun d => bool_decide (d = "."%char \/ d = slash)) (list_ascii_of_string p')
        then Ext p' else p
      else Ext p'
  end.

Example Clean_ex : map Clean [""; "a//b/./c"; "a/b/../../c"; "../a"; "/../a/"; "/"; "a/.."]
                   = ["."; "a/b/c"; "c"; "../a"; "/a"; "/"; "."].
Proof. reflexivity. Qed.
Example Ext_ex : map Ext ["a.b/c"; "a.tar.gz"; "x."; "/.php"] = [""; ".gz"; "."; ".php"].
Proof. reflexivity. Qed.
Example TrimSpace_ex : TrimSpace "  ^8.1 " = "^8.1".
Proof. reflexivity. Qed.

(** ** Lemmas *)

Lemma cut_prefix_Some s p t : cut_prefix s p = Some t <-> s = p ++ t.
Proof.
  revert s. induction p as [|a p IH]; intros s; simpl; [by split; intros [= ->]|].
  destruct s as [|b s]; [done|].
  case_decide as Hd; [subst; rewrite IH; simpl; split; [by intros ->|by intros [= ->]]|].
  split; [done|]. simpl. intros [= ??]. congruence.
Qed.

Lemma HasPrefix_spec s p : HasPrefix s p = true <-> exists t, s = p ++ t.
Proof.
  revert s. induction p as [|a p IH]; intros s; simpl; [split; [by exists s|done]|].
  destruct s as [|b s]; [split; [done|by intros [t ?]]|].
  rewrite andb_true_iff, bool_decide_eq_true, IH. split.
  - intros [-> [t ->]]. by exists t.
  - intros [t [= -> ->]]. eauto.
Qed.

Lemma Split_not_nil sep s : Split sep s <> [].
Proof. destruct s as [|c s]; simpl; [done|]. case_decide; [done|]. by destruct (Split sep s). Qed.

(** The head of a split does not contain the separator, and rejoining is the identity. *)
Lemma Join_Split sep s : Join_with (String sep "") (Split sep s) = s.
Proof.
  induction s as [|c s IH]; [done|]. simpl. case_decide as Hc.
  - subst. pose proof (Split_not_nil sep s).
    destruct (Split sep s) as [|p ps]; [done|]. simpl in *. by rewrite IH.
  - pose proof (Split_not_nil sep s). destruct (Split sep s) as [|p ps]; [done|].
    destruct ps; simpl in *; by rewrite <- IH.
Qed.

(** [strings.ReplaceAll], for a non-empty [old]: [skip] counts the bytes of a match
    still to be dropped. *)
Fixpoint replace_from (old new s : string) (skip : nat) {struct s} : string :=
  match s with
  | "" => ""
  | String c s' =>
      match skip with
      | S k => replace_from old new s' k
      | O => if HasPrefix s old
             then new ++ replace_from old new s' (String.length old - 1)
             else String c (replace_from old new s' 0)
      end
  end.
Definition ReplaceAll (s old new : string) : string := replace_from old new s 0.

Example ReplaceAll_ex : ReplaceAll "a{{V}}b{{V}}{" "{{V}}" "8.3" = "a8.3b8.3{".
Proof. reflexivity. Qed.
