(* ===== verification/GoJSON.v ===== *)
(** JSON: what the program uses of Go's [encoding/json], the encoder of maps of strings and
    numbers, and a reader of such documents that says what they mean.

    A string is a sequence of bytes, and the encoder decodes it as UTF-8. *)
From S2P Require Import Prelude GoStr.
From stdpp Require Import pretty.
From Stdlib Require Import Ascii String.
Local Open Scope string_scope.

(** ** Values *)

(** A [map[string]interface{}], in the order the program writes it, and what is in it. A number
    is given by the text it is printed as. *)
Inductive json :=
| JString (s : string)
| JNumber (text : string)
| JObject (fields : list (string * json)).

Definition JInt (z : Z) : json := JNumber (pretty z).

(** ** UTF-8 *)

Definition byte_in (lo hi : nat) (c : ascii) : bool :=
  let n := nat_of_ascii c in (lo <=? n)%nat && (n <=? hi)%nat.
Arguments byte_in (lo hi)%_nat_scope c.
Definition continuation : ascii -> bool := byte_in 128 191.

(** How many bytes follow the first one of the rune [String c s], of two bytes or more; [None]
    where [utf8.DecodeRuneInString] reports an error. *)
Definition rune_rest (c : ascii) (s : string) : option nat :=
  match s with
  | String c1 s1 =>
      if byte_in 194 223 c then if continuation c1 then Some 1 else None
      else
        match s1 with
        | String c2 s2 =>
            if byte_in 224 239 c then
              let first := if byte_in 224 224 c then byte_in 160 191
                           else if byte_in 237 237 c then byte_in 128 159 else continuation in
              if first c1 && continuation c2 then Some 2 else None
            else
              match s2 with
              | String c3 _ =>
                  let first := if byte_in 240 240 c then byte_in 144 191
                               else if byte_in 244 244 c then byte_in 128 143 else continuation in
                  if byte_in 240 244 c && first c1 && continuation c2 && continuation c3
                  then Some 3 else None
              | "" => None
              end
        | "" => None
        end
  | "" => None
  end%nat.

(** U+2028 and U+2029, which end lines in JavaScript: the last hexadecimal digit. *)
Definition line_separator (c : ascii) (s : string) : option ascii :=
  match s with
  | String c1 (String c2 _) =>
      if byte_in 226 226 c && byte_in 128 128 c1 then
        if byte_in 168 168 c2 then Some "8"%char
        else if byte_in 169 169 c2 then Some "9"%char else None
      else None
  | _ => None
  end.

(** U+FFFD, for a byte that is no UTF-8. *)
Definition replacement : string := String "239" (String "191" (String "189" "")).

(** The string with every invalid byte replaced; [skip] bytes of a rune are still to come. *)
Fixpoint to_valid (skip : nat) (s : string) : string :=
  match s with
  | "" => ""
  | String c s' =>
      match skip with
      | S skip => String c (to_valid skip s')
      | O =>
          if byte_in 0 127 c then String c (to_valid 0 s')
          else match rune_rest c s' with
               | None => replacement ++ to_valid 0 s'
               | Some n => String c (to_valid n s')
               end
      end
  end.

(** ** The encoder *)

Definition quote_mark : ascii := "034"%char.
Definition backslash : ascii := "\"%char.

(** The bytes below 128 that are copied: not the control characters, the quotation mark, the
    backslash, and what HTML must not see. *)
Definition html_safe (c : ascii) : bool :=
  byte_in 32 127 c && negb (bool_decide (c ∈ [quote_mark; backslash; "<"; ">"; "&"]%char)).

Definition hex_of (n : nat) : string :=
  String (hex_digit (n / 16)) (String (hex_digit (n mod 16)) "").

(** What is written for another byte below 128. *)
Definition escape_ascii (c : ascii) : string :=
  if bool_decide (c ∈ [quote_mark; backslash]) then String backslash (String c "")
  else if byte_in 8 8 c then "\b" else if byte_in 12 12 c then "\f"
  else if byte_in 10 10 c then "\n" else if byte_in 13 13 c then "\r"
  else if byte_in 9 9 c then "\t"
  else "\u00" ++ hex_of (nat_of_ascii c).

(** [appendString]'s loop; the [skip] bytes to come are written, or not when their rune
    has been. *)
Fixpoint escape (skip : nat) (copy : bool) (s : string) : string :=
  match s with
  | "" => ""
  | String c s' =>
      match skip with
      | S skip => if copy then String c (escape skip copy s') else escape skip copy s'
      | O =>
          if byte_in 0 127 c then
            (if html_safe c then String c "" else escape_ascii c) ++ escape 0 true s'
          else
            match rune_rest c s' with
            | None => "\ufffd" ++ escape 0 true s'
            | Some n =>
                match line_separator c s' with
                | Some d => "\u202" ++ String d (escape n false s')
                | None => String c (escape n true s')
                end
            end
      end
  end.

Definition encode_string (s : string) : string :=
  String quote_mark (escape 0 true s ++ String quote_mark "").

(** The keys of a map are written in order. *)
Fixpoint insert_key {A} (k : string) (v : A) (l : list (string * A)) : list (string * A) :=
  match l with
  | [] => [(k, v)]
  | (k', v') :: l' => if String.leb k k' then (k, v) :: l else (k', v') :: insert_key k v l'
  end.
Definition sort_keys {A} (l : list (string * A)) : list (string * A) :=
  foldr (fun kv => insert_key (fst kv) (snd kv)) [] l.

Fixpoint encode (v : json) : string :=
  match v with
  | JString s => encode_string s
  | JNumber text => text
  | JObject fields =>
      "{" ++ Join_with "," (map (fun kv => encode_string (fst kv) ++ ":" ++ snd kv)
                             (sort_keys (map (fun kv => (fst kv, encode (snd kv))) fields)))
      ++ "}"
  end.

(** [json.NewEncoder(w).Encode(v)] ends the document with a newline. *)
Definition Encode (v : json) : string := encode v ++ String "010" "".

(** ** A reader *)

Definition hex_value (c : ascii) : option nat :=
  let n := nat_of_ascii c in
  if byte_in 48 57 c then Some (n - 48)
  else if byte_in 97 102 c then Some (n - 87)
  else if byte_in 65 70 c then Some (n - 55) else None.

(** The UTF-8 of a code point below 65536. *)
Definition utf8 (n : nat) : string :=
  let byte k := ascii_of_nat k in
  if (n <? 128)%nat then String (byte n) ""
  else if (n <? 2048)%nat then String (byte (192 + n / 64)) (String (byte (128 + n mod 64)) "")
  else String (byte (224 + n / 4096)) (String (byte (128 + (n / 64) mod 64))
         (String (byte (128 + n mod 64)) "")).

Definition unescape (c : ascii) : option ascii :=
  match c with
  | "034" | "\" | "/" => Some c
  | "b" => Some "008" | "f" => Some "012" | "n" => Some "010" | "r" => Some "013" | "t" => Some "009"
  | _ => None
  end%char.

Definition prepend (p : string) (r : option (string * string)) : option (string * string) :=
  '(s, rest) ← r; Some (p ++ s, rest).

(** The rest of a string, and what follows its quotation mark. *)
Fixpoint read_chars (s : string) : option (string * string) :=
  match s with
  | "" => None
  | String c s' =>
      if bool_decide (c = quote_mark) then Some ("", s')
      else if bool_decide (c = backslash) then
        match s' with
        | String "u" (String a (String b (String d (String e s'')))) =>
            x ← hex_value a; y ← hex_value b; z ← hex_value d; w ← hex_value e;
            prepend (utf8 (x * 4096 + y * 256 + z * 16 + w)) (read_chars s'')
        | String e s'' => x ← unescape e; prepend (String x "") (read_chars s'')
        | "" => None
        end
      else if byte_in 0 31 c then None
      else prepend (String c "") (read_chars s')
  end.

Definition number_char (c : ascii) : bool :=
  byte_in 48 57 c || bool_decide (c ∈ ["-"; "+"; "."; "e"; "E"]%char).

Fixpoint span_number (s : string) : string * string :=
  match s with
  | "" => ("", "")
  | String c s' =>
      if number_char c then let '(t, r) := span_number s' in (String c t, r) else ("", s)
  end.

Fixpoint read_value (fuel : nat) (s : string) : option (json * string) :=
  match fuel, s with
  | S fuel, String c s' =>
      if bool_decide (c = quote_mark) then '(t, r) ← read_chars s'; Some (JString t, r)
      else if bool_decide (c = "{"%char) then
        match s' with
        | String "}" r => Some (JObject [], r)
        | _ => '(fs, r) ← read_fields fuel s'; Some (JObject fs, r)
        end
      else
        let '(t, r) := span_number s in
        if bool_decide (t = "") then None else Some (JNumber t, r)
  | _, _ => None
  end
with read_fields (fuel : nat) (s : string) : option (list (string * json) * string) :=
  match fuel, s with
  | S fuel, String c s' =>
      if bool_decide (c = quote_mark) then
        '(k, r) ← read_chars s';
        match r with
        | String ":" r =>
            '(v, r) ← read_value fuel r;
            match r with
            | String "," r => '(fs, r) ← read_fields fuel r; Some ((k, v) :: fs, r)
            | String "}" r => Some ([(k, v)], r)
            | _ => None
            end
        | _ => None
        end
      else None
  | _, _ => None
  end.

(** A document: a value and a newline. The text is fuel enough: every call reads a character. *)
Definition Decode (s : string) : option json :=
  match read_value (String.length s) s with
  | Some (v, String "010" "") => Some v
  | _ => None
  end.

Example encode_ex :
  let q s := String quote_mark (s ++ String quote_mark "") in
  let e_acute := String "195" (String "169" "") in
  encode (JObject [("b", JString ("<" ++ e_acute ++ String "128" "")); ("a", JInt (-12)); ("c", JObject [])])
  = "{" ++ q "a" ++ ":-12," ++ q "b" ++ ":" ++ q ("\u003c" ++ e_acute ++ "\ufffd") ++ "," ++ q "c" ++ ":{}}".
Proof. by vm_compute. Qed.

(** ** Reading what was written: strings *)

Lemma append_String c s t : String c s ++ t = String c (s ++ t).
Proof. reflexivity. Qed.
Lemma append_nil s : s ++ "" = s.
Proof. induction s as [|c s IH]; [done|]. by rewrite append_String, IH. Qed.
Lemma append_assoc s t u : (s ++ t) ++ u = s ++ (t ++ u).
Proof. induction s as [|c s IH]; [done|]. by rewrite !append_String, IH. Qed.

Lemma length_append s t : (String.length (s ++ t) = String.length s + String.length t)%nat.
Proof. induction s as [|c s IH]; [done|]. rewrite append_String. cbn. by rewrite IH. Qed.

(** Bytes of 128 and more, as the second and later bytes of a rune are. *)
Fixpoint high (s : string) : bool :=
  match s with "" => true | String c s => byte_in 128 255 c && high s end.

Lemma byte_in_range lo hi c : byte_in lo hi c = true <-> (lo <= nat_of_ascii c <= hi)%nat.
Proof. unfold byte_in. rewrite andb_true_iff, !Nat.leb_le. done. Qed.

Lemma byte_in_weaken lo hi lo' hi' c :
  (lo' <= lo)%nat -> (hi <= hi')%nat -> byte_in lo hi c = true -> byte_in lo' hi' c = true.
Proof. rewrite !byte_in_range. lia. Qed.

Lemma continuation_high c : continuation c = true -> byte_in 128 255 c = true.
Proof. apply byte_in_weaken; lia. Qed.

Lemma rune_rest_split c s n :
  rune_rest c s = Some n -> exists pre t, s = pre ++ t /\ String.length pre = n /\ high pre = true.
Proof.
  unfold rune_rest. intros H.
  assert (forall lo hi c1, (128 <= lo)%nat -> (hi <= 191)%nat -> byte_in lo hi c1 = true -> continuation c1 = true) as Hc.
  { intros lo hi c1 H1 H2. apply byte_in_weaken; lia. }
  destruct s as [|c1 s]; [done|]. destruct (byte_in 194 223 c).
  { destruct (continuation c1) eqn:E1; [|done]. injection H as <-. exists (String c1 ""), s.
    cbn. by rewrite continuation_high. }
  destruct s as [|c2 s]; [done|]. destruct (byte_in 224 239 c).
  { destruct (_ && _) eqn:E; [|done]. injection H as <-. apply andb_prop in E as [E1 E2].
    exists (String c1 (String c2 "")), s. cbn.
    rewrite !continuation_high; [done|done|]. repeat case_match; try exact E1; (eapply Hc; [| |exact E1]; lia). }
  destruct s as [|c3 s]; [done|]. destruct (_ && _) eqn:E; [|done]. injection H as <-.
  apply andb_prop in E as [[[_ E1]%andb_prop E2]%andb_prop E3].
  exists (String c1 (String c2 (String c3 ""))), s. cbn.
  rewrite !continuation_high; [done|done|done|]. repeat case_match; try exact E1; (eapply Hc; [| |exact E1]; lia).
Qed.

Lemma high_plain c : byte_in 128 255 c = true ->
  bool_decide (c = quote_mark) = false /\ bool_decide (c = backslash) = false /\ byte_in 0 31 c = false.
Proof.
  rewrite byte_in_range. intros H. split_and!.
  1,2: apply bool_decide_eq_false_2; intros ->; vm_compute in H; lia.
  apply not_true_is_false. rewrite byte_in_range. lia.
Qed.

Lemma prepend_prepend p q r : prepend p (prepend q r) = prepend (p ++ q) r.
Proof. destruct r as [[s rest]|]; [|done]. cbn. by rewrite append_assoc. Qed.

Lemma read_high pre s : high pre = true -> read_chars (pre ++ s) = prepend pre (read_chars s).
Proof.
  induction pre as [|c pre IH]; intros H; [change ("" ++ s) with s; by destruct (read_chars s) as [[]|]|].
  cbn [high] in H. apply andb_prop in H as [Hc H]. rewrite append_String. cbn [read_chars].
  destruct (high_plain c Hc) as (-> & -> & ->). by rewrite IH, prepend_prepend.
Qed.

(** A byte below 128 is read as it was. *)
Lemma read_ascii c s : byte_in 0 127 c = true ->
  read_chars ((if html_safe c then String c "" else escape_ascii c) ++ s) = prepend (String c "") (read_chars s).
Proof. destruct c as [[] [] [] [] [] [] [] []]; intros H; try discriminate H; reflexivity. Qed.

Lemma escape_copied pre s : escape (String.length pre) true (pre ++ s) = pre ++ escape 0 true s.
Proof. induction pre as [|c pre IH]; [done|]. rewrite !append_String. cbn. by rewrite IH. Qed.

Lemma escape_skipped pre s : escape (String.length pre) false (pre ++ s) = escape 0 true s.
Proof. induction pre as [|c pre IH]; [by destruct s|]. rewrite !append_String. cbn. by rewrite IH. Qed.

Lemma to_valid_copied pre s : to_valid (String.length pre) (pre ++ s) = pre ++ to_valid 0 s.
Proof. induction pre as [|c pre IH]; [done|]. rewrite !append_String. cbn. by rewrite IH. Qed.

(** U+2028 and U+2029. *)
Lemma line_separator_Some c s n d :
  rune_rest c s = Some n -> line_separator c s = Some d ->
  exists pre t, s = pre ++ t /\ String.length pre = n
    /\ forall u, read_chars ("\u202" ++ String d u) = prepend (String c pre) (read_chars u).
Proof.
  intros Hn H. unfold line_separator in H. destruct s as [|c1 [|c2 s]]; [done|done|].
  destruct (byte_in 226 226 c && byte_in 128 128 c1) eqn:E; [|done].
  assert (c = "226"%char /\ c1 = "128"%char) as [-> ->].
  { apply andb_prop in E as [E0 E1]. apply byte_in_range in E0, E1.
    rewrite <- (ascii_nat_embedding c), <- (ascii_nat_embedding c1).
    assert (nat_of_ascii c = 226%nat) as -> by lia. assert (nat_of_ascii c1 = 128%nat) as -> by lia. done. }
  assert (c2 = "168"%char /\ d = "8"%char \/ c2 = "169"%char /\ d = "9"%char) as Hd.
  { rewrite <- (ascii_nat_embedding c2).
    destruct (byte_in 168 168 c2) eqn:E2; [left|destruct (byte_in 169 169 c2) eqn:E3; [right|done]];
      injection H as <-; [apply byte_in_range in E2|apply byte_in_range in E3];
      [assert (nat_of_ascii c2 = 168%nat) as -> by lia|assert (nat_of_ascii c2 = 169%nat) as -> by lia]; done. }
  exists (String "128" (String c2 "")), s. split; [done|].
  destruct Hd as [[-> ->]|[-> ->]]; (split; [by injection Hn as <-|]); intros u; reflexivity.
Qed.

Lemma read_escape s rest :
  read_chars (escape 0 true s ++ String quote_mark rest) = Some (to_valid 0 s, rest).
Proof.
  remember (String.length s) as n eqn:Hn. revert s Hn. induction n as [n IH] using lt_wf_ind. intros s ->.
  destruct s as [|c s]; [done|]. cbn [escape to_valid].
  destruct (byte_in 0 127 c) eqn:Ec.
  { rewrite append_assoc, read_ascii by done. rewrite (IH (String.length s)); [done|cbn; lia|done]. }
  destruct (rune_rest c s) as [k|] eqn:Ek.
  - assert (byte_in 128 255 c = true) as Hc.
    { apply byte_in_range. pose proof (nat_ascii_bounded c). apply not_true_iff_false in Ec.
      rewrite byte_in_range in Ec. lia. }
    destruct (line_separator c s) as [d|] eqn:Ed.
    + destruct (line_separator_Some _ _ _ _ Ek Ed) as (pre & t & -> & <- & Hr).
      rewrite append_assoc, (append_String d), Hr, escape_skipped, to_valid_copied.
      rewrite (IH (String.length t)); [done| |done]. cbn. rewrite length_append. lia.
    + destruct (rune_rest_split _ _ _ Ek) as (pre & t & -> & <- & Hp).
      rewrite escape_copied, to_valid_copied, append_String.
      change (String c ((pre ++ ?x) ++ ?y)) with ((String c pre ++ x) ++ y).
      rewrite append_assoc, read_high by (cbn; by rewrite Hc).
      rewrite (IH (String.length t)); [done| |done]. cbn. rewrite length_append. lia.
  - rewrite append_assoc. change (read_chars ("\ufffd" ++ ?u)) with (prepend replacement (read_chars u)).
    rewrite (IH (String.length s)); [done|cbn; lia|done].
Qed.

(** ** Reading what was written: values *)

Lemma json_ind' (P : json -> Prop) :
  (forall s, P (JString s)) -> (forall t, P (JNumber t)) ->
  (forall fs, Forall (fun kv => P (snd kv)) fs -> P (JObject fs)) -> forall v, P v.
Proof.
  intros HS HN HO. fix IH 1. intros [s|t|fs]; [apply HS|apply HN|]. apply HO.
  induction fs as [|[k v] fs IHfs]; constructor; [apply IH|apply IHfs].
Qed.

Fixpoint all_chars (p : ascii -> bool) (s : string) : bool :=
  match s with "" => true | String c s => p c && all_chars p s end.

Definition number_text (t : string) : bool := negb (bool_decide (t = "")) && all_chars number_char t.

(** A value that can be encoded: its numbers are. *)
Fixpoint encodable (v : json) : bool :=
  match v with
  | JString _ => true
  | JNumber t => number_text t
  | JObject fs => forallb (fun kv => encodable (snd kv)) fs
  end.

(** What the reader sees: keys in order, and the strings in UTF-8. *)
Fixpoint canonical (v : json) : json :=
  match v with
  | JString s => JString (to_valid 0 s)
  | JNumber t => JNumber t
  | JObject fs =>
      JObject (map (fun kv => (to_valid 0 (fst kv), snd kv))
                 (sort_keys (map (fun kv => (fst kv, canonical (snd kv))) fs)))
  end.

Lemma insert_key_map {A B} (f : A -> B) k v l :
  insert_key k (f v) (map (fun kv => (fst kv, f (snd kv))) l)
  = map (fun kv => (fst kv, f (snd kv))) (insert_key k v l).
Proof.
  induction l as [|[k' v'] l IH]; [done|]. cbn. destruct (String.leb k k'); [done|]. cbn. by rewrite IH.
Qed.

Lemma sort_keys_map {A B} (f : A -> B) l :
  sort_keys (map (fun kv => (fst kv, f (snd kv))) l) = map (fun kv => (fst kv, f (snd kv))) (sort_keys l).
Proof.
  induction l as [|[k v] l IH]; [done|]. cbn [map sort_keys foldr fst snd].
  fold (sort_keys (map (fun kv => (fst kv, f (snd kv))) l)). rewrite IH. apply insert_key_map.
Qed.

Lemma insert_key_perm {A} k (v : A) l : insert_key k v l ≡ₚ (k, v) :: l.
Proof.
  induction l as [|[k' v'] l IH]; [done|]. cbn. destruct (String.leb k k'); [done|].
  rewrite IH. apply Permutation_swap.
Qed.

Lemma sort_keys_perm {A} (l : list (string * A)) : sort_keys l ≡ₚ l.
Proof.
  induction l as [|[k v] l IH]; [done|]. cbn [sort_keys foldr fst snd]. rewrite insert_key_perm.
  by constructor.
Qed.

(** What may follow a value. *)
Definition no_number (rest : string) : bool :=
  match rest with String c _ => negb (number_char c) | "" => true end.

Lemma span_number_app t rest :
  all_chars number_char t = true -> no_number rest = true -> span_number (t ++ rest) = (t, rest).
Proof.
  intros Ht Hr. induction t as [|c t IH].
  - change ("" ++ rest) with rest. destruct rest as [|c rest]; [done|]. cbn in *. by destruct (number_char c).
  - cbn [all_chars] in Ht. apply andb_prop in Ht as [Hc Ht]. rewrite append_String. cbn [span_number].
    by rewrite Hc, IH.
Qed.

Lemma pretty_chars (z : Z) : number_text (pretty z) = true.
Proof.
  assert (forall n : N, (n < 10)%N -> number_char (pretty_N_char n) = true) as Hc.
  { intros n Hn.
    assert (forallb (fun k => number_char (pretty_N_char (N.of_nat k))) (seq 0 10) = true) as Hall by done.
    rewrite forallb_forall in Hall. specialize (Hall (N.to_nat n) ltac:(apply in_seq; lia)).
    by rewrite N2Nat.id in Hall. }
  assert (forall n s, all_chars number_char s = true -> (n <> 0%N \/ s <> "") ->
    number_text (pretty_N_go n s) = true) as Hgo.
  { induction n as [n IH] using (well_founded_induction N.lt_wf_0). intros s Hs Hne. destruct (decide (n = 0%N)) as [->|Hn].
    - rewrite pretty_N_go_0. unfold number_text. rewrite Hs, bool_decide_false; [done|]. by destruct Hne.
    - rewrite pretty_N_go_step by lia. apply IH; [apply N.div_lt; lia| |by right].
      cbn. rewrite Hs, Hc by (apply N.mod_lt; lia). done. }
  assert (forall n : N, number_text (pretty n) = true) as HN.
  { intros n. unfold pretty, pretty_N. case_decide; [done|]. apply Hgo; [done|by left]. }
  unfold pretty, pretty_Z. destruct z as [|p|p]; [done|apply HN|].
  specialize (HN (N.pos p)). unfold number_text in *. apply andb_prop in HN as [_ HN]. exact HN.
Qed.

Lemma encodable_JInt z : encodable (JInt z) = true.
Proof. apply pretty_chars. Qed.
#[export] Hint Rewrite encodable_JInt : maboo.

(** A value is read as what it is, whatever follows it. *)
Definition reads (v : json) : Prop := forall rest fuel,
  encodable v = true -> no_number rest = true -> (String.length (encode v) <= fuel)%nat ->
  read_value fuel (encode v ++ rest) = Some (canonical v, rest).

Definition field_text (kv : string * json) : string := encode_string (fst kv) ++ ":" ++ encode (snd kv).
Definition read_field (kv : string * json) : string * json := (to_valid 0 (fst kv), canonical (snd kv)).

Lemma encode_JObject fs :
  encode (JObject fs) = "{" ++ Join_with "," (map field_text (sort_keys fs)) ++ "}".
Proof. cbn [encode]. rewrite sort_keys_map, map_map. done. Qed.

Lemma canonical_JObject fs : canonical (JObject fs) = JObject (map read_field (sort_keys fs)).
Proof. cbn [canonical]. rewrite sort_keys_map, map_map. done. Qed.

Lemma read_key k rest :
  encode_string k ++ rest = String quote_mark (escape 0 true k ++ String quote_mark rest).
Proof. unfold encode_string. by rewrite append_String, append_assoc. Qed.

Lemma read_field_text kv tail fuel :
  reads (snd kv) -> encodable (snd kv) = true -> no_number tail = true ->
  (String.length (field_text kv) <= S fuel)%nat ->
  read_fields (S fuel) (field_text kv ++ tail)
  = match tail with
    | String "," r => '(fs, r) ← read_fields fuel r; Some (read_field kv :: fs, r)
    | String "}" r => Some ([read_field kv], r)
    | _ => None
    end.
Proof.
  destruct kv as [k v]. unfold field_text, read_field. cbn [fst snd]. intros Hv He Ht Hl.
  rewrite !length_append in Hl. cbn in Hl. rewrite append_assoc, read_key. cbn [read_fields].
  rewrite bool_decide_true, read_escape by done. cbn [mbind option_bind].
  rewrite append_assoc, append_String. change ("" ++ ?s) with s.
  rewrite Hv by (try done; lia). done.
Qed.

Lemma length_field kv : (3 <= String.length (field_text kv))%nat.
Proof. unfold field_text, encode_string. rewrite !length_append. cbn. rewrite length_append. cbn. lia. Qed.

Lemma length_fields kv fs : (3 <= String.length (Join_with "," (map field_text (kv :: fs))))%nat.
Proof.
  pose proof (length_field kv). destruct fs as [|kv' fs]; [done|]. cbn [map Join_with].
  rewrite length_append. lia.
Qed.

Lemma read_fields_text kv fs rest fuel :
  Forall (fun kv => reads (snd kv) /\ encodable (snd kv) = true) (kv :: fs) ->
  (String.length (Join_with "," (map field_text (kv :: fs))) <= fuel)%nat ->
  read_fields fuel (Join_with "," (map field_text (kv :: fs)) ++ String "}" rest)
  = Some (map read_field (kv :: fs), rest).
Proof.
  revert kv fuel. induction fs as [|kv' fs IH]; intros kv fuel Hall Hl;
    apply Forall_cons in Hall as [[Hr He] Hall];
    pose proof (Nat.le_trans _ _ _ (length_fields _ _) Hl); (destruct fuel as [|fuel]; [lia|]).
  - by rewrite (read_field_text kv (String "}" rest)).
  - change (Join_with "," (map field_text (kv :: kv' :: fs)))
      with (field_text kv ++ "," ++ Join_with "," (map field_text (kv' :: fs))) in *.
    rewrite !length_append in Hl. rewrite append_assoc, read_field_text; [|done|done|done|lia].
    change (("," ++ ?x) ++ ?y) with (String "," (x ++ y)). cbv iota beta.
    rewrite IH; [done|done|]. pose proof (length_field kv). change (String.length ",") with 1%nat in Hl. lia.
Qed.

Lemma length_encode v : encodable v = true -> (1 <= String.length (encode v))%nat.
Proof.
  destruct v as [s|t|fs]; intros He.
  - unfold encode, encode_string. cbn. lia.
  - destruct t; [done|]. cbn. lia.
  - rewrite encode_JObject, length_append. cbn. lia.
Qed.

Lemma read_encode v : reads v.
Proof.
  induction v as [s|t|fs IH] using json_ind'; intros rest fuel He Hr Hl;
    pose proof (length_encode _ He); (destruct fuel as [|fuel]; [lia|]).
  - cbn [encode] in *. rewrite read_key. cbn [read_value]. by rewrite bool_decide_true, read_escape.
  - cbn [encode encodable canonical] in *. apply andb_prop in He as [Hne Hc].
    destruct t as [|c t]; [done|]. pose proof Hc as Hc'. apply andb_prop in Hc' as [Hc0 _].
    rewrite append_String. cbn [read_value].
    rewrite !bool_decide_false by (intros ->; discriminate Hc0).
    change (String c (t ++ rest)) with (String c t ++ rest). by rewrite span_number_app.
  - rewrite encode_JObject, canonical_JObject in *. cbn [encodable] in He.
    assert (Forall (fun kv => reads (snd kv) /\ encodable (snd kv) = true) (sort_keys fs)) as Hall.
    { rewrite sort_keys_perm. apply Forall_and. split; [done|]. apply Forall_forall. intros kv Hkv%list_elem_of_In. exact (proj1 (forallb_forall _ _) He kv Hkv). }
    clear IH He. destruct (sort_keys fs) as [|kv l]; [done|].
    rewrite !length_append in Hl. change (String.length "{") with 1%nat in Hl.
    rewrite !append_assoc. change ("{" ++ ?x) with (String "{" x). cbn [read_value].
    change ("}" ++ rest) with (String "}" rest).
    rewrite read_fields_text; [|done|lia].
    rewrite bool_decide_false, bool_decide_true by done. cbn [mbind option_bind].
    destruct l as [|kv' l]; done.
Qed.

(** A document that was written is read back, its keys in order. *)
Lemma Decode_Encode v : encodable v = true -> Decode (Encode v) = Some (canonical v).
Proof.
  intros He. unfold Decode, Encode. rewrite (read_encode v) by (done || (rewrite length_append; lia)). done.
Qed.
