(* ===== verification/Watcher.v ===== *)
(** The file watcher: [src/internal/pool/watcher.go].

    A snapshot of the file system gives the tree below a root directory; [Walk] is
    [filepath.Walk] over such a tree, and the watcher's two closures are its visitors.
    The abstract view is [seen]: which files are watched, with which time of change. *)
From S2P Require Import Prelude.
From stdpp Require Import gmap strings.
From S2P Require Import GoStr.
From Stdlib Require Import Ascii String.
Local Open Scope string_scope.
Local Open Scope list_scope.

(** ** Trees and [filepath.Walk] *)

#[local] Set Warnings "-register-all".

(** What [Lstat] and reading a directory give: a file's time of change, or a
    directory's entries in lexical order; [None] is an error. *)
Inductive node :=
| File (mtime : Z)
| Dir (entries : option (list (string * option node))).

Definition is_dir (n : node) : bool := match n with File _ => false | Dir _ => true end.

(** [os.FileInfo], as far as it is used. *)
Record FileInfo := MkInfo { fi_name : string; fi_isDir : bool; fi_mtime : Z }.

Definition info (name : string) (n : node) : FileInfo :=
  MkInfo name (is_dir n) (match n with File m => m | Dir _ => 0%Z end).

(** What a visitor returns: nil or [filepath.SkipDir]. *)
Inductive verdict := Continue | SkipDir.

(** The root of every walked directory, at one moment. *)
Definition snapshot := string -> option node.

(** The name [Lstat] reports for a path: its last component. *)
Definition basename (p : string) : string :=
  default "/" (last (filter (.≠ "") (Split slash p))).

Section Walk.
Context {S : Type}.

(** A visitor: the path, and the info unless there was an error. *)
Variable fn : S -> string -> option FileInfo -> S * verdict.

Fixpoint walk (path name : string) (n : node) (s : S) {struct n} : S * verdict :=
  match n with
  | File _ => fn s path (Some (info name n))
  | Dir None => fn s path None
  | Dir (Some entries) =>
      match fn s path (Some (info name n)) with
      | (s, SkipDir) => (s, SkipDir)
      | (s, Continue) =>
          (fix entries_loop (es : list (string * option node)) (s : S) : S * verdict :=
             match es with
             | [] => (s, Continue)
             | (nm, None) :: es => entries_loop es (fst (fn s (Join [path; nm]) None))
             | (nm, Some n) :: es =>
                 match walk (Join [path; nm]) nm n s with
                 | (s, Continue) => entries_loop es s
                 | (s, SkipDir) => if is_dir n then entries_loop es s else (s, SkipDir)
                 end
             end) entries s
      end
  end.

(** [filepath.Walk]; its result is not used. *)
Definition Walk (fs : snapshot) (root : string) (s : S) : S :=
  match fs root with
  | None => fst (fn s root None)
  | Some n => fst (walk root (basename root) n s)
  end.
End Walk.

(** ** The watcher *)

Record Watcher := MkWatcher {
  dirs : list string;
  exts : list string;
  mtimes : gmap string Z
}.

Definition NewWatcher (ds : list string) : Watcher :=
  MkWatcher ds [".php"; ".inc"; ".phtml"] ∅.

Definition isWatchedFile (w : Watcher) (path : string) : bool :=
  let ext := ToLower (Ext path) in
  existsb (fun e => bool_decide (ext = e)) (exts w).

(** Directories that are not entered. *)
Definition skipped (name : string) : bool :=
  bool_decide (name = "vendor") || bool_decide (name = "node_modules")
  || bool_decide (name = ".git").

(** The visitor of both closures; [step] is what they do with a watched file. *)
Definition visitor {S} (w : Watcher) (step : S -> string -> Z -> S)
    (s : S) (path : string) (i : option FileInfo) : S * verdict :=
  match i with
  | None => (s, Continue)
  | Some i =>
      if fi_isDir i then (s, if skipped (fi_name i) then SkipDir else Continue)
      else if isWatchedFile w path then (step s path (fi_mtime i), Continue)
      else (s, Continue)
  end.

Definition walk_all {S} (w : Watcher) (step : S -> string -> Z -> S) (fs : snapshot) (s : S) : S :=
  foldl (fun s dir => Walk (visitor w step) fs dir s) s (dirs w).

Definition scan (fs : snapshot) (w : Watcher) : Watcher :=
  MkWatcher (dirs w) (exts w)
    (walk_all w (fun ms path m => <[path := m]> ms) fs (mtimes w)).

(** One file of [detectChanges]: into [currentFiles], and compared with [w.mtimes]. *)
Definition detect_file (old : gmap string Z) (s : gmap string Z * bool) (path : string) (m : Z) :
    gmap string Z * bool :=
  (<[path := m]> (fst s),
   match old !! path with
   | Some oldTime => if decide (oldTime < m)%Z then true else snd s
   | None => true
   end).

Definition detectChanges (fs : snapshot) (w : Watcher) : bool * Watcher :=
  let '(currentFiles, changed) := walk_all w (detect_file (mtimes w)) fs (∅, false) in
  let deleted := existsb (fun e => bool_decide (currentFiles !! (fst e) = None))
                   (map_to_list (mtimes w)) in
  (changed || deleted, MkWatcher (dirs w) (exts w) currentFiles).

(** The ticks of [Start]'s goroutine: for each, whether [onChange] is called. *)
Fixpoint ticks (w : Watcher) (fss : list snapshot) : list bool * Watcher :=
  match fss with
  | [] => ([], w)
  | fs :: fss =>
      let '(b, w) := detectChanges fs w in
      let '(bs, w) := ticks w fss in (b :: bs, w)
  end.

Definition Start (fs : snapshot) (w : Watcher) (fss : list snapshot) : list bool * Watcher :=
  ticks (scan fs w) fss.

(** ** What is watched *)

Inductive seen_in (w : Watcher) : string -> string -> node -> string -> Z -> Prop :=
| seen_file path name m :
    isWatchedFile w path = true -> seen_in w path name (File m) path m
| seen_entry path name es nm n p m :
    skipped name = false -> In (nm, Some n) es ->
    seen_in w (Join [path; nm]) nm n p m ->
    seen_in w path name (Dir (Some es)) p m.

Definition seen (w : Watcher) (fs : snapshot) (p : string) (m : Z) : Prop :=
  exists d n, In d (dirs w) /\ fs d = Some n /\ seen_in w d (basename d) n p m.

(** A path has one time of change. *)
Definition consistent (w : Watcher) (fs : snapshot) : Prop :=
  forall p m m', seen w fs p m -> seen w fs p m' -> m = m'.

(** What counts as a change: a new file, a file gone, a file with a later time. *)
Definition changes (w : Watcher) (old new : snapshot) : Prop :=
  (exists p m, seen w new p m /\ forall m0, ~ seen w old p m0)
  \/ (exists p m, seen w old p m /\ forall m1, ~ seen w new p m1)
  \/ (exists p m0 m1, seen w old p m0 /\ seen w new p m1 /\ m0 < m1)%Z.

(** ** The walk visits the watched files, one by one *)

Lemma node_ind' (P : node -> Prop) :
  (forall m, P (File m)) -> P (Dir None) ->
  (forall es, (forall nm n, In (nm, Some n) es -> P n) -> P (Dir (Some es))) ->
  forall n, P n.
Proof.
  intros HF HN HD. fix IH 1. intros [m|[es|]]; [apply HF| |apply HN].
  apply HD. induction es as [|[nm' [n'|]] es IHes]; intros nm n Hin.
  - destruct Hin.
  - destruct Hin as [Heq|Hin]; [|exact (IHes nm n Hin)].
    injection Heq as _ <-. apply IH.
  - destruct Hin as [Heq|Hin]; [discriminate|exact (IHes nm n Hin)].
Qed.

Section Files.
Variable w : Watcher.

(** The watched files below a node, in the order of the visits. *)
Fixpoint files_in (path name : string) (n : node) : list (string * Z) :=
  match n with
  | File m => if isWatchedFile w path then [(path, m)] else []
  | Dir None => []
  | Dir (Some es) =>
      if skipped name then []
      else (fix go (es : list (string * option node)) : list (string * Z) :=
              match es with
              | [] => []
              | (nm, None) :: es => go es
              | (nm, Some n) :: es => files_in (Join [path; nm]) nm n ++ go es
              end) es
  end.

Definition files (fs : snapshot) : list (string * Z) :=
  flat_map (fun d => match fs d with Some n => files_in d (basename d) n | None => [] end) (dirs w).

Lemma files_in_seen path name n p m : In (p, m) (files_in path name n) <-> seen_in w path name n p m.
Proof.
  revert path name. induction n as [m'| |es IH] using node_ind'; intros path name.
  - cbn [files_in]. destruct (isWatchedFile w path) eqn:E; simpl; split.
    + intros [[= <- <-]|[]]. by constructor.
    + inversion_clear 1. by left.
    + done.
    + inversion 1. congruence.
  - cbn [files_in]. split; [done|inversion 1].
  - cbn [files_in]. destruct (skipped name) eqn:E.
    { split; [done|inversion 1; congruence]. }
    transitivity (exists nm n, In (nm, Some n) es /\ seen_in w (Join [path; nm]) nm n p m).
    2:{ split; [intros (nm & n & ? & ?); by eapply seen_entry|inversion_clear 1; eauto]. }
    induction es as [|[nm [n|]] es IHes]; [split; [done|intros (?&?&[]&?)]| |].
    + rewrite in_app_iff, IHes by (intros ?? Hi; apply (IH _ _ (or_intror Hi))).
      rewrite (IH nm n (or_introl eq_refl)). split.
      * intros [Hs|(nm' & n' & Hi & Hs)]; [exists nm, n|exists nm', n']; split; try done; [by left|by right].
      * intros (nm' & n' & [[= <- <-]|Hi] & Hs); [by left|right; eauto].
    + rewrite IHes by (intros ?? Hi; apply (IH _ _ (or_intror Hi))). split.
      * intros (nm' & n' & Hi & Hs). exists nm', n'. split; [by right|done].
      * intros (nm' & n' & [|Hi] & Hs); [done|eauto].
Qed.

Lemma files_seen fs p m : In (p, m) (files fs) <-> seen w fs p m.
Proof.
  unfold files, seen. rewrite in_flat_map. split.
  - intros (d & Hd & Hin). destruct (fs d) as [n|] eqn:E; [|done].
    exists d, n. by rewrite <- files_in_seen.
  - intros (d & n & Hd & E & Hs). exists d. by rewrite E, files_in_seen.
Qed.

Lemma walk_files {S} (step : S -> string -> Z -> S) path name n s :
  exists v, walk (visitor w step) path name n s
            = (foldl (fun s f => step s (fst f) (snd f)) s (files_in path name n), v)
            /\ (v = SkipDir -> is_dir n = true).
Proof.
  revert path name s. induction n as [m| |es IH] using node_ind'; intros path name s.
  - exists Continue. cbn. by destruct (isWatchedFile w path).
  - by exists Continue.
  - cbn [walk visitor fi_isDir info is_dir fi_name files_in].
    destruct (skipped name); [by exists SkipDir|].
    exists Continue. split; [|done]. revert s.
    induction es as [|[nm [n|]] es IHes]; intros s; [done| |].
    + destruct (IH nm n (or_introl eq_refl) (Join [path; nm]) nm s) as (v & -> & Hv).
      rewrite foldl_app. rewrite <- IHes by (intros ?? Hi; apply (IH _ _ (or_intror Hi))).
      destruct v; [done|]. by rewrite Hv.
    + cbn [visitor fst]. apply IHes. intros ?? Hi. apply (IH _ _ (or_intror Hi)).
Qed.

Lemma walk_all_files {S} (step : S -> string -> Z -> S) fs s :
  walk_all w step fs s = foldl (fun s f => step s (fst f) (snd f)) s (files fs).
Proof.
  unfold walk_all, files. revert s. induction (dirs w) as [|d ds IH]; intros s; [done|].
  cbn [foldl flat_map]. rewrite foldl_app, <- IH. f_equal. unfold Walk.
  destruct (fs d) as [n|]; [|done].
  by destruct (walk_files step d (basename d) n s) as (v & -> & _).
Qed.
End Files.

(** The map the visits build: the last visit of a path counts. *)
Lemma recorded (fl : list (string * Z)) (ms : gmap string Z) p :
  let ms' := foldl (fun ms f => <[fst f := snd f]> ms) ms fl in
  (exists m, In (p, m) fl /\ ms' !! p = Some m) \/ ((forall m, ~ In (p, m) fl) /\ ms' !! p = ms !! p).
Proof.
  revert ms. induction fl as [|[q m] fl IH]; intros ms; simpl; [by right; split; [intros ? []|]|].
  destruct (IH (<[q := m]> ms)) as [(m' & Hin & E)|[Hno E]]; [left; exists m'; auto|].
  rewrite E. destruct (decide (p = q)) as [->|Hne].
  - left. exists m. rewrite lookup_insert_eq. auto.
  - right. rewrite lookup_insert_ne by done. split; [|done].
    intros m' [[= -> ->]|Hin]; [done|by apply (Hno m')].
Qed.

Lemma detect_files (old : gmap string Z) (fl : list (string * Z)) (s : gmap string Z * bool) :
  let s' := foldl (fun s f => detect_file old s (fst f) (snd f)) s fl in
  fst s' = foldl (fun ms f => <[fst f := snd f]> ms) (fst s) fl
  /\ (snd s' = true <-> snd s = true \/ exists p m, In (p, m) fl
        /\ forall m0, old !! p = Some m0 -> (m0 < m)%Z).
Proof.
  revert s. induction fl as [|[q m] fl IH]; intros s; simpl.
  { split; [done|]. split; [by left|]. by intros [?|(?&?&[]&?)]. }
  destruct (IH (detect_file old s q m)) as [-> ->]. simpl. split; [done|].
  split.
  - intros [Hd|(p & m' & Hin & Hl)]; [|right; eauto].
    destruct (old !! q) as [m0|] eqn:E; [case_decide; [|by left]|]; right; exists q, m;
      (split; [by left|]); intros ??; simplify_eq; done.
  - intros [Hs|(p & m' & [[= -> ->]|Hin] & Hl)]; [left| |right; eauto].
    + rewrite Hs. destruct (old !! q); [by case_decide|done].
    + left. destruct (old !! p) as [m0|] eqn:E; [|done]. rewrite decide_True; [done|auto].
Qed.

(** ** Properties *)

(** The times kept are those of a snapshot. *)
Definition times_of (w : Watcher) (fs : snapshot) : Prop :=
  forall p m, mtimes w !! p = Some m <-> seen w fs p m.

(** [seen] does not depend on the times. *)
Definition same_watch (w w' : Watcher) : Prop := dirs w = dirs w' /\ exts w = exts w'.

Lemma seen_in_ext w w' path name n p m :
  same_watch w w' -> seen_in w path name n p m -> seen_in w' path name n p m.
Proof.
  intros [Ed Ee]. induction 1; [constructor|by econstructor].
  unfold isWatchedFile in *. by rewrite <- Ee.
Qed.

Lemma seen_ext w w' fs p m : same_watch w w' -> seen w fs p m -> seen w' fs p m.
Proof.
  intros Hsw (d & n & Hd & Hn & Hs). exists d, n. destruct Hsw as [Ed Ee].
  rewrite <- Ed. split_and!; [done..|]. by eapply seen_in_ext.
Qed.

Lemma recorded_times w fs (ms : gmap string Z) :
  consistent w fs -> (forall p m, ms !! p = Some m -> exists m', seen w fs p m') ->
  forall p m, foldl (fun (ms : gmap string Z) f => <[fst f := snd f]> ms) ms (files w fs) !! p = Some m
              <-> seen w fs p m.
Proof.
  intros Hc Hms p m. destruct (recorded (files w fs) ms p) as [(m' & Hin & E)|[Hno E]].
  - rewrite E. apply files_seen in Hin. split; [by intros [= <-]|].
    intros Hs. f_equal. by eapply Hc.
  - rewrite E. split.
    + intros Hm. destruct (Hms p m Hm) as [m' Hs]. by apply files_seen, Hno in Hs.
    + intros Hs. by apply files_seen, Hno in Hs.
Qed.

Lemma scan_times ds fs :
  consistent (NewWatcher ds) fs -> times_of (scan fs (NewWatcher ds)) fs.
Proof.
  intros Hc p m. cbn [scan mtimes]. rewrite walk_all_files, recorded_times by done.
  split; by apply seen_ext.
Qed.

Lemma existsb_deleted (old cur : gmap string Z) :
  existsb (fun e => bool_decide (cur !! (fst e) = None)) (map_to_list old) = true
  <-> exists p m, old !! p = Some m /\ cur !! p = None.
Proof.
  rewrite existsb_exists. split.
  - intros ([p m] & Hin & Hb). apply bool_decide_eq_true in Hb.
    apply list_elem_of_In, elem_of_map_to_list in Hin. eauto.
  - intros (p & m & Ho & Hc). exists (p, m).
    by rewrite <- list_elem_of_In, elem_of_map_to_list, bool_decide_eq_true.
Qed.

Lemma detectChanges_times w old new :
  consistent w old -> consistent w new -> times_of w old ->
  let '(b, w') := detectChanges new w in
  (b = true <-> changes w old new) /\ times_of w' new /\ same_watch w w'.
Proof.
  intros Hco Hcn Ht. unfold detectChanges. rewrite walk_all_files.
  destruct (detect_files (mtimes w) (files w new) (∅, false)) as [E1 E2]. cbn zeta in E1, E2.
  destruct (foldl _ (∅, false) _) as [cur b]. cbn [fst snd] in E1, E2.
  pose proof (recorded_times w new ∅ Hcn) as Hcur. rewrite <- E1 in Hcur.
  specialize (Hcur ltac:(done)).
  split; [|split; [|done]].
  - rewrite orb_true_iff, existsb_deleted, E2. unfold changes. split.
    + intros [[?|(p & m & Hin & Hl)]|(p & m & Ho & Hno)]; [done| |].
      * apply files_seen in Hin. destruct (mtimes w !! p) as [m0|] eqn:Eo.
        -- right; right. exists p, m0, m. apply Ht in Eo. auto.
        -- left. exists p, m. split; [done|]. intros m0 Hs. apply Ht in Hs. congruence.
      * right; left. exists p, m. split; [by apply Ht|]. intros m1 Hs. apply Hcur in Hs. congruence.
    + intros [(p & m & Hs & Hno)|[(p & m & Hs & Hno)|(p & m0 & m1 & Ho & Hs & Hl)]].
      * left; right. exists p, m. rewrite files_seen. split; [done|].
        intros m0 Hm. apply Ht in Hm. by apply Hno in Hm.
      * right. exists p, m. split; [by apply Ht|].
        destruct (cur !! p) as [m1|] eqn:Ec; [|done]. apply Hcur in Ec. by apply Hno in Ec.
      * left; right. exists p, m1. rewrite files_seen. split; [done|].
        intros m Hm. apply Ht in Hm. by rewrite (Hco _ _ _ Hm Ho).
  - intros p m. cbn [mtimes]. rewrite Hcur. split; by apply seen_ext.
Qed.

Lemma changes_ext w w' old new : same_watch w w' -> changes w old new -> changes w' old new.
Proof.
  intros Hsw. assert (same_watch w' w) as Hsw' by (by destruct Hsw).
  unfold changes. intros [(p & m & Hs & Hno)|[(p & m & Hs & Hno)|(p & m0 & m1 & Ho & Hs & Hl)]].
  - left. exists p, m. split; [by eapply seen_ext|]. intros m0 H0. eapply Hno. by eapply seen_ext.
  - right; left. exists p, m. split; [by eapply seen_ext|]. intros m0 H0. eapply Hno. by eapply seen_ext.
  - right; right. exists p, m0, m1. split_and!; [by eapply seen_ext..|done].
Qed.

Lemma consistent_ext w w' fs : same_watch w w' -> consistent w fs -> consistent w' fs.
Proof.
  intros Hsw Hc p m m' H1 H2. assert (same_watch w' w) as Hsw' by (by destruct Hsw).
  eapply Hc; by eapply seen_ext.
Qed.

Lemma ticks_changes w old fss k b :
  Forall (consistent w) (old :: fss) -> times_of w old ->
  fst (ticks w fss) !! k = Some b ->
  exists before now, (old :: fss) !! k = Some before /\ fss !! k = Some now
                     /\ (b = true <-> changes w before now).
Proof.
  revert w old k. induction fss as [|new fss IH]; intros w old k Hc Ht; [done|].
  inversion_clear Hc as [|? ? Ho Hcs]. inversion_clear Hcs as [|? ? Hn Hf].
  cbn [ticks]. pose proof (detectChanges_times w old new Ho Hn Ht) as Hd.
  destruct (detectChanges new w) as [b' w']. destruct Hd as (Hb & Ht' & Hsw).
  assert (same_watch w' w) as Hsw' by (by destruct Hsw).
  specialize (IH w' new). destruct (ticks w' fss) as [bs w'']. cbn [fst] in *.
  destruct k as [|k]; cbn.
  - intros [= <-]. exists old, new. auto.
  - intros Hk. destruct (IH k) as (before & now & Eb & En & Hi); [|done|done|].
    + constructor; [by eapply consistent_ext|]. eapply Forall_impl; [done|]. exact (fun fs => consistent_ext _ _ fs Hsw).
    + exists before, now. split_and!; [done..|]. rewrite Hi. split; by apply changes_ext.
Qed.

(** C25. The watcher reloads exactly on changes: at every tick [onChange] is called if and
    only if, between the snapshot of the tick before (of [Start], for the first) and
    this one, a watched file appeared, disappeared or got a later time, whatever the
    directories contain; a file whose time moves back is not a change. Watched are the
    files with one of the extensions below the given directories, outside [vendor],
    [node_modules] and [.git]. *)
Theorem reload_iff_changed (ds : list string) (fs0 : snapshot) (fss : list snapshot)
    (k : nat) (b : bool) :
  let w := NewWatcher ds in
  Forall (consistent w) (fs0 :: fss) ->
  fst (Start fs0 w fss) !! k = Some b ->
  exists before now, (fs0 :: fss) !! k = Some before /\ fss !! k = Some now
                     /\ (b = true <-> changes w before now).
Proof.
  intros w Hc Hk. assert (same_watch w (scan fs0 w)) as Hsw by done.
  destruct (ticks_changes (scan fs0 w) fs0 fss k b) as (before & now & Eb & En & Hi); [| |done|].
  - eapply Forall_impl; [done|]. exact (fun fs => consistent_ext _ _ fs Hsw).
  - apply scan_times. by inversion Hc.
  - exists before, now. split_and!; [done..|]. rewrite Hi. by split; apply changes_ext.
Qed.

(** ** At a concrete input *)

(** A tree whose [vendor] directory and unreadable directory are not entered; the second
    has a later time of the one watched file. *)
Definition example_fs (m : Z) (d : string) : option node :=
  if bool_decide (d = "./app") then
    Some (Dir (Some [("README", Some (File 9)); ("gone.php", None);
                     ("lib", Some (Dir None));
                     ("src", Some (Dir (Some [("a.PHP", Some (File m))])));
                     ("vendor", Some (Dir (Some [("b.php", Some (File m))])))]))%Z
  else None.

Example example_ticks :
  fst (Start (example_fs 3) (NewWatcher ["./app"; "x"]) [example_fs 3; example_fs 5; example_fs 4])
  = [false; true; false].
Proof. vm_compute. reflexivity. Qed.

Lemma example_consistent m : consistent (NewWatcher ["./app"; "x"]) (example_fs m).
Proof.
  intros p m1 m2 H1 H2. apply files_seen in H1, H2.
  assert (files (NewWatcher ["./app"; "x"]) (example_fs m) = [("app/src/a.PHP", m)]) as E by done.
  rewrite E in H1, H2. destruct H1 as [[= _ <-]|[]], H2 as [[= _ <-]|[]]. done.
Qed.

Lemma reload_iff_changed_witness :
  exists before now,
    [example_fs 3; example_fs 3; example_fs 5] !! 1 = Some before
    /\ [example_fs 3; example_fs 5] !! 1 = Some now
    /\ (true = true <-> changes (NewWatcher ["./app"; "x"]) before now).
Proof.
  apply (reload_iff_changed ["./app"; "x"] (example_fs 3) [example_fs 3; example_fs 5] 1 true).
  - repeat constructor; apply example_consistent.
  - vm_compute. reflexivity.
Defined.
