(* ===== verification/Engine.v ===== *)
(** The embedded PHP engine and the choice of its version:
    [src/internal/phpengine/engine.go] and [selector.go].

    The engine is the state machine of the code (started or not); the page it
    answers with is the embedded file, a parameter. The project's [composer.json]
    and its JSON decoding are parameters of [SelectVersion]. *)
From S2P Require Import Prelude Config GoStr.
From Stdlib Require Import Ascii String.
Local Open Scope string_scope.
Local Open Scope Z_scope.

(** ** The engine *)

Record Engine := MkEngine { eng_version : string; eng_started : bool }.

Record Response := MkResponse {
  resp_Status : Z;
  resp_Headers : gmap string string;
  resp_Body : string
}.

Inductive engine_error :=
| UnsupportedPHP (v : string)
| EngineNotStarted.

#[export] Instance engine_error_eq_dec : EqDecision engine_error.
Proof. solve_decision. Defined.

Definition engineVersions : gmap string bool :=
  {["7.4" := true; "8.0" := true; "8.1" := true;
    "8.2" := true; "8.3" := true; "8.4" := true]}.

Definition NewEngine (version : string) : result Engine engine_error :=
  if negb (bget engineVersions version) then Err (UnsupportedPHP version)
  else Ok (MkEngine version false).

Definition Startup (e : Engine) : Engine :=
  if eng_started e then e else MkEngine (eng_version e) true.

Definition Shutdown (e : Engine) : Engine :=
  if negb (eng_started e) then e else MkEngine (eng_version e) false.

(** [Execute]; the script and its context are not used by the code yet. *)
Definition Execute (placeholderHTML : string) (e : Engine) : result Response engine_error :=
  if negb (eng_started e) then Err EngineNotStarted
  else Ok (MkResponse 200 {["Content-Type" := "text/html; charset=utf-8"]}
             (ReplaceAll placeholderHTML "{{PHP_VERSION}}" (eng_version e))).

(** ** Version selection *)

Definition digit (c : ascii) : option Z :=
  let n := Z.of_nat (nat_of_ascii c) in
  if (48 <=? n) && (n <=? 57) then Some (n - 48) else None.

(** [atoi]: the digits of [s] in order, other bytes skipped, in int64. *)
Fixpoint atoi_from (n : Z) (s : string) : Z :=
  match s with
  | "" => n
  | String c s => atoi_from (match digit c with Some d => int64 (n * 10 + d) | None => n end) s
  end.
Definition atoi (s : string) : Z := atoi_from 0 s.

(** [compareVersions]: the loop over the first two parts; a missing part counts as 0. *)
Fixpoint compare_parts (n : nat) (a b : list string) : Z :=
  match n with
  | O => 0
  | S n =>
      let va := match a with p :: _ => atoi p | [] => 0 end in
      let vb := match b with p :: _ => atoi p | [] => 0 end in
      if va <? vb then -1 else if va >? vb then 1 else compare_parts n (tail a) (tail b)
  end.
Definition compareVersions (a b : string) : Z :=
  compare_parts 2 (Split "."%char a) (Split "."%char b).

Definition phpVersions : list string := ["7.4"; "8.0"; "8.1"; "8.2"; "8.3"; "8.4"].

Fixpoint highest_from (versions : list string) (mn : string) : string :=
  match versions with
  | [] => "8.3"
  | v :: vs => if compareVersions v mn >=? 0 then "8.3" else highest_from vs mn
  end.
Definition getHighestCompatible (mn : string) : string := highest_from phpVersions mn.

(** The regular expressions. [digits s] is a match of [\d+] at the front of [s]
    (greedy) and what follows; [major_minor] one of [\d+\.\d+]. *)
Fixpoint digits_star (s : string) : string * string :=
  match s with
  | "" => ("", "")
  | String c s' =>
      match digit c with
      | Some _ => let '(d, r) := digits_star s' in (String c d, r)
      | None => ("", s)
      end
  end.
Definition digits (s : string) : option (string * string) :=
  match digits_star s with ("", _) => None | (d, r) => Some (d, r) end.
Definition major_minor (s : string) : option (string * string) :=
  match digits s with
  | Some (d1, String "." r) =>
      match digits r with
      | Some (d2, r2) => Some (d1 ++ "." ++ d2, r2)
      | None => None
      end
  | _ => None
  end.

(** The four patterns with a group, in the order they are tried: the group's text. *)
Definition pattern_ge (s : string) : option string :=
  match cut_prefix s ">" with
  | Some r => fst <$> major_minor (default r (cut_prefix r "="))
  | None => None
  end.
Definition pattern_caret (s : string) : option string :=
  r ← cut_prefix s "^"; fst <$> major_minor r.
Definition pattern_tilde (s : string) : option string :=
  r ← cut_prefix s "~"; fst <$> major_minor r.
Definition pattern_patch (s : string) : option string :=
  match major_minor s with
  | Some (v, String "." r) =>
      match digits r with Some (_, "") => Some v | _ => None end
  | _ => None
  end.
(** [^\d+\.\d+$] *)
Definition pattern_exact (s : string) : bool :=
  match major_minor s with Some (_, "") => true | _ => false end.

Fixpoint first_match (ps : list (string -> option string)) (s : string) : option string :=
  match ps with
  | [] => None
  | p :: ps => match p s with Some v => Some v | None => first_match ps s end
  end.

Definition resolveVersionConstraint (constraint : string) : string :=
  let constraint := TrimSpace constraint in
  match first_match [pattern_ge; pattern_caret; pattern_tilde; pattern_patch] constraint with
  | Some minVersion => getHighestCompatible minVersion
  | None => if pattern_exact constraint then getHighestCompatible constraint else ""
  end.

Section Select.
(** [os.ReadFile], [None] on error, and the "require" object of the JSON text,
    [None] when it does not decode. *)
Variable ReadFile : string -> option (list byte).
Variable UnmarshalRequire : list byte -> option (gmap string string).

Definition parseComposerPHPVersion (data : list byte) : string :=
  match UnmarshalRequire data with
  | None => ""
  | Some require =>
      match require !! "php" with
      | None => ""
      | Some phpConstraint => resolveVersionConstraint phpConstraint
      end
  end.

Definition SelectVersion (projectRoot explicit : string) : string :=
  if negb (is_empty explicit) && negb (bool_decide (explicit = "auto")) then explicit
  else
    match ReadFile (Join [projectRoot; "composer.json"]) with
    | Some data =>
        let version := parseComposerPHPVersion data in
        if negb (is_empty version) then version else "8.3"
    | None => "8.3"
    end.
End Select.

Example resolve_ex :
  map resolveVersionConstraint ["^8.1"; ">=7.4"; "~8.0"; "7.4.33"; " 8.2 "; "*"; ">= 8.1"; "8"; "7.4.x"]
  = ["8.3"; "8.3"; "8.3"; "8.3"; "8.3"; ""; ""; ""; ""].
Proof. by vm_compute. Qed.
Example compare_ex :
  (compareVersions "8.10" "8.9", compareVersions "7.4" "8.0", compareVersions "8" "8.0.9") = (1, -1, 0).
Proof. by vm_compute. Qed.

(** ** Lemmas *)

Lemma engineVersions_spec v : bget engineVersions v = bool_decide (v ∈ phpVersions).
Proof. exact (bget_list_to_map phpVersions v). Qed.

Lemma Startup_started e : eng_started (Startup e) = true.
Proof. unfold Startup. by destruct (eng_started e) eqn:E. Qed.
Lemma Shutdown_stopped e : eng_started (Shutdown e) = false.
Proof. unfold Shutdown. by destruct (eng_started e) eqn:E. Qed.

#[export] Hint Rewrite engineVersions_spec Startup_started Shutdown_stopped : maboo.

Lemma highest_from_const vs mn : highest_from vs mn = "8.3".
Proof. induction vs as [|v vs IH]; simpl; [done|]. by case_match. Qed.

Lemma resolve_cases c :
  resolveVersionConstraint c = "8.3" \/ resolveVersionConstraint c = "".
Proof.
  unfold resolveVersionConstraint, getHighestCompatible.
  repeat case_match; rewrite ?highest_from_const; auto.
Qed.

Lemma SelectVersion_cases ReadFile Unm root explicit :
  SelectVersion ReadFile Unm root explicit
  = if bool_decide (explicit ∈ [""; "auto"]) then "8.3" else explicit.
Proof.
  unfold SelectVersion, is_empty.
  rewrite <- negb_orb, <- bool_decide_or.
  rewrite (bool_decide_ext (explicit ∈ _) (explicit = "" \/ explicit = "auto"))
    by (rewrite !elem_of_cons, elem_of_nil; tauto).
  case_bool_decide; simpl; [|done].
  case_match; [|done]. unfold parseComposerPHPVersion.
  repeat case_match; simplify_eq; try done.
  all: match goal with H : _ = true |- resolveVersionConstraint ?c = _ =>
    destruct (resolve_cases c) as [E|E]; rewrite E in *; done | _ => idtac end.
Qed.

(** Every version a validated configuration can lead to is one the engine supports. *)
Lemma NewEngine_valid ReadFile Unm c :
  valid_config c ->
  exists v, NewEngine (SelectVersion ReadFile Unm (app_Root (App c)) (php_Version (PHP c)))
            = Ok (MkEngine v false).
Proof.
  intros [_ _ Hv _ _ _]. rewrite SelectVersion_cases. unfold NewEngine.
  rewrite engineVersions_spec, bool_decide_true; [by eexists|].
  unfold phpVersions. rewrite !elem_of_cons in *. case_bool_decide as Hc.
  { by do 4 right; left. }
  rewrite !elem_of_cons in Hc. rewrite !elem_of_cons. tauto.
Qed.

(** ** Properties *)

(** Two versions in the order of their first two numbers. *)
Definition version_key (v : string) : Z * Z :=
  match Split "."%char v with
  | [] => (0, 0)
  | [a] => (atoi a, 0)
  | a :: b :: _ => (atoi a, atoi b)
  end.

Lemma compareVersions_key a b :
  compareVersions a b
  = let '(a1, a2) := version_key a in let '(b1, b2) := version_key b in
    if a1 <? b1 then -1 else if b1 <? a1 then 1
    else if a2 <? b2 then -1 else if b2 <? a2 then 1 else 0.
Proof.
  unfold compareVersions, version_key.
  destruct (Split _ a) as [|? [|? ?]], (Split _ b) as [|? [|? ?]];
    cbn [compare_parts tail]; rewrite !Z.gtb_ltb; done.
Qed.

(** [compareVersions] is a total preorder on version strings: comparing the other
    way round negates the answer, answers are -1, 0 or 1, and "not above" composes. *)
Theorem compareVersions_preorder (a b c : string) :
  compareVersions b a = - compareVersions a b
  /\ compareVersions a b ∈ [-1; 0; 1]
  /\ (compareVersions a b <= 0 -> compareVersions b c <= 0 -> compareVersions a c <= 0).
Proof.
  rewrite !compareVersions_key.
  destruct (version_key a) as [a1 a2], (version_key b) as [b1 b2], (version_key c) as [c1 c2].
  rewrite !elem_of_cons.
  repeat match goal with |- context [?x <? ?y] => destruct (Z.ltb_spec x y) end;
    split_and!; intros; auto; lia.
Qed.

(** The version picked for a validated configuration is one the engine supports, so
    [NewEngine] returns an engine, not started, of the configured version, or of 8.3
    when the configuration leaves the choice open. *)
Theorem SelectVersion_supported (ReadFile : string -> option (list byte))
    (Unm : list byte -> option (gmap string string)) (c : Config) :
  valid_config c ->
  NewEngine (SelectVersion ReadFile Unm (app_Root (App c)) (php_Version (PHP c)))
  = Ok (MkEngine (if bool_decide (php_Version (PHP c) = "auto") then "8.3"
                  else php_Version (PHP c)) false).
Proof.
  intros [_ _ Hv _ _ _]. rewrite SelectVersion_cases. unfold NewEngine.
  rewrite engineVersions_spec. unfold phpVersions.
  rewrite !elem_of_cons, elem_of_nil in Hv.
  destruct_or! Hv; rewrite ?Hv; try done; by vm_compute.
Qed.

(** [composer.json] never changes the version: whatever the file system and the
    JSON decoder deliver, an open choice ends in 8.3, even for a constraint such as
    [^8.4] whose lower bound is above 8.3. *)
Theorem SelectVersion_ignores_composer (ReadFile : string -> option (list byte))
    (Unm : list byte -> option (gmap string string)) (root : string) :
  SelectVersion ReadFile Unm root "auto" = "8.3"
  /\ SelectVersion ReadFile Unm root "" = "8.3"
  /\ (forall mn, getHighestCompatible mn = "8.3")
  /\ resolveVersionConstraint "^8.4" = "8.3"
  /\ compareVersions (getHighestCompatible "8.4") "8.4" = -1.
Proof.
  rewrite !SelectVersion_cases. split_and!; [done|done| |by vm_compute|by vm_compute].
  intros mn. apply highest_from_const.
Qed.

Lemma compareVersions_preorder_witness : compareVersions "7.4" "8.10" <= 0.
Proof.
  refine (proj2 (proj2 (compareVersions_preorder "7.4" "8.2" "8.10")) _ _); by vm_compute.
Defined.

Lemma SelectVersion_supported_witness :
  NewEngine (SelectVersion (fun _ => None) (fun _ => None) "." "auto") = Ok (MkEngine "8.3" false).
Proof.
  apply (SelectVersion_supported (fun _ => None) (fun _ => None) Default).
  apply Validate_valid. by vm_compute.
Defined.
