(* ===== verification/ProcWorker.v ===== *)
(** A worker process and its pipes: [src/internal/pool/worker.go].

    The PHP process is not the program's: [Conn] is what the server sees of it, the bytes
    the server wrote to its standard input, the bytes it wrote to its standard output and how
    much of them has been read, and whether it has ended. The two ends of [Exec] are
    definitions of their own, because the pool's goroutines run between them. A read that
    would wait is [None]. *)
From S2P Require Import Prelude GoIO GoSlice Wire.
Local Open Scope Z_scope.
Local Open Scope list_scope.

(** ** The pipes *)

(** How a process ended: by itself, or by a signal. *)
Inductive exit_kind := Exited | Signaled.

#[export] Instance exit_kind_eq_dec : EqDecision exit_kind.
Proof. solve_decision. Defined.

(** [c_stdin] holds what was delivered, [c_stdout] all the process wrote, [c_pos] of it read.
    The server closes its ends ([c_in_closed], [c_out_closed]) in [Stop]. *)
Record Conn := MkConn {
  c_stdin : list byte;
  c_in_closed : bool;
  c_stdout : list byte;
  c_pos : nat;
  c_out_closed : bool;
  c_exit : option exit_kind
}.

Definition new_conn : Conn := MkConn [] false [] 0 false None.

(** [os.ErrClosed] and [EPIPE]. *)
Definition ErrClosed : io_error := IOError (-1).
Definition EPIPE : io_error := IOError 32.

(** Writing to the process: all or nothing, since a frame cut short by the end of the pipe
    is not a frame. *)
#[export] Instance conn_writer : Writer Conn := fun c bs =>
  if c_in_closed c then (0%nat, Some ErrClosed, c)
  else match c_exit c with
       | Some _ => (0%nat, Some EPIPE, c)
       | None => (length bs, None,
                  MkConn (c_stdin c ++ bs) false (c_stdout c) (c_pos c) (c_out_closed c) None)
       end.

Definition c_unread (c : Conn) : list byte := drop (c_pos c) (c_stdout c).

(** [n] unread bytes are left. *)
Definition c_left (n : nat) (c : Conn) : Conn :=
  MkConn (c_stdin c) (c_in_closed c) (c_stdout c) (length (c_stdout c) - n)
    (c_out_closed c) (c_exit c).

Definition short_read (r : result Frame read_error) : bool :=
  match r with Err (ReadingHeader _) | Err (ReadingData _ _) => true | _ => false end.

(** [protocol.ReadFrame(w.stdout)]. While the process lives, a read that needs more bytes
    waits. A read from the closed pipe fails, after the [k] bytes it may have got before. *)
Definition conn_ReadFrame (k : nat) (c : Conn) : option (result Frame read_error * Conn) :=
  if c_out_closed c then
    let '(r, rd) := ReadFrame (flat_reader (take k (c_unread c)) ErrClosed) in
    Some (r, c_left (length (rd_bytes rd) + (length (c_unread c) - k)) c)
  else
    let '(r, rd) := ReadFrame (flat_reader (c_unread c) EOF) in
    if short_read r && bool_decide (c_exit c = None) then None
    else Some (r, c_left (length (rd_bytes rd)) c).

(** [w.stdin.Close()], the two ends closed by [cmd.Wait], and [Process.Kill]. *)
Definition close_stdin (c : Conn) : Conn :=
  MkConn (c_stdin c) true (c_stdout c) (c_pos c) (c_out_closed c) (c_exit c).
Definition close_pipes (c : Conn) : Conn :=
  MkConn (c_stdin c) true (c_stdout c) (c_pos c) true (c_exit c).
Definition kill (c : Conn) : Conn :=
  MkConn (c_stdin c) (c_in_closed c) (c_stdout c) (c_pos c) (c_out_closed c)
    (match c_exit c with Some k => Some k | None => Some Signaled end).

(** What the process does: it writes, or it ends. *)
Definition php_writes (bs : list byte) (c : Conn) : Conn :=
  MkConn (c_stdin c) (c_in_closed c) (c_stdout c ++ bs) (c_pos c) (c_out_closed c) (c_exit c).
Definition php_exits (k : exit_kind) (c : Conn) : Conn :=
  MkConn (c_stdin c) (c_in_closed c) (c_stdout c) (c_pos c) (c_out_closed c)
    (match c_exit c with Some k => Some k | None => Some k end).

(** ** The worker *)

Inductive WorkerState := StateIdle | StateBusy | StateStopped.

#[export] Instance proc_WorkerState_eq_dec : EqDecision WorkerState.
Proof. solve_decision. Defined.

(** [w_mu] tells whether the mutex is held; [w_pstate] is [cmd.ProcessState], set by
    [cmd.Wait] only. *)
Record Worker := MkWorker {
  w_id : Z;
  w_state : WorkerState;
  w_jobs : Z;
  w_mu : bool;
  w_conn : Conn;
  w_pstate : option exit_kind
}.

Definition set_state (s : WorkerState) (w : Worker) : Worker :=
  MkWorker (w_id w) s (w_jobs w) (w_mu w) (w_conn w) (w_pstate w).
Definition set_mu (b : bool) (w : Worker) : Worker :=
  MkWorker (w_id w) (w_state w) (w_jobs w) b (w_conn w) (w_pstate w).
Definition set_conn (c : Conn) (w : Worker) : Worker :=
  MkWorker (w_id w) (w_state w) (w_jobs w) (w_mu w) c (w_pstate w).
Definition add_job (w : Worker) : Worker :=
  MkWorker (w_id w) (w_state w) (int64 (w_jobs w + 1)) (w_mu w) (w_conn w) (w_pstate w).
Definition set_pstate (k : exit_kind) (w : Worker) : Worker :=
  MkWorker (w_id w) (w_state w) (w_jobs w) (w_mu w) (w_conn w) (Some k).

(** [NewWorker], once the process is started; then the wait for its [WORKER_READY]. *)
Definition NewWorker (id : Z) : Worker := MkWorker id StateIdle 0 false new_conn None.

Definition is_ready (r : result Frame read_error) : bool :=
  match r with Ok f => bool_decide (FType f = TypeWorkerReady) | Err _ => false end.

(** Reading a frame from, and writing one to, the worker. *)
Definition ReadFrame (k : nat) (w : Worker) : option (result Frame read_error * Worker) :=
  '(r, c) ← conn_ReadFrame k (w_conn w); Some (r, set_conn c w).
Definition write_frame (f : Frame) (w : Worker) : option io_error * Worker :=
  let '(e, c, _) := WriteFrame new_write_buf (w_conn w) f in (e, set_conn c w).

Inductive exec_error := SendingRequest (e : io_error) | ReadingResponse (e : read_error).

(** [Exec]: lock, store Busy, write, read; then the deferred store of Idle, count and
    unlock. *)
Definition exec_finish (w : Worker) : Worker := set_mu false (add_job (set_state StateIdle w)).
Definition Exec (k : nat) (req : Frame) (w : Worker) : option (result Frame exec_error * Worker) :=
  if w_mu w then None
  else
    let w := set_state StateBusy (set_mu true w) in
    match write_frame req w with
    | (Some e, w) => Some (Err (SendingRequest e), exec_finish w)
    | (None, w) =>
        '(r, w) ← ReadFrame k w; Some (map_err ReadingResponse r, exec_finish w)
    end.

Definition ExecStream (f : Frame) (w : Worker) : option (option io_error * Worker) :=
  if w_mu w then None else Some (write_frame f w).

Inductive ping_error :=
| SendingPing (e : io_error) | ReadingPong (e : read_error) | ExpectedPong (t : byte).

Definition Ping (k : nat) (w : Worker) : option (option ping_error * Worker) :=
  if w_mu w then None
  else
    match write_frame NewPingFrame w with
    | (Some e, w) => Some (Some (SendingPing e), w)
    | (None, w) =>
        '(r, w) ← ReadFrame k w;
        Some (match r with
              | Err e => Some (ReadingPong e)
              | Ok f => if bool_decide (FType f = TypePing) then None else Some (ExpectedPong (FType f))
              end, w)
    end.

(** [Stop], up to its wait for the process: the state, the stop frame, closing the pipe. *)
Definition stop_write (w : Worker) : Worker := snd (write_frame NewWorkerStopFrame w).
Definition stop_close (w : Worker) : Worker := set_conn (close_stdin (w_conn w)) w.

(** [cmd.Wait()]: the second call fails; the first waits for the end of the process, keeps
    its state and closes the pipes. *)
Definition Wait (w : Worker) : option Worker :=
  match w_pstate w, c_exit (w_conn w) with
  | Some _, _ => Some w
  | None, Some k => Some (set_pstate k (set_conn (close_pipes (w_conn w)) w))
  | None, None => None
  end.
Definition Kill (w : Worker) : Worker := set_conn (kill (w_conn w)) w.

(** [Stop], with nobody in between; [None] while the process lives, when [expired] is not
    given. *)
Definition Stop (expired : bool) (w : Worker) : option Worker :=
  let w := stop_close (stop_write (set_state StateStopped w)) in
  match Wait w with
  | Some w => Some w
  | None => if expired then Some (Kill w) else None
  end.

Definition IsAlive (w : Worker) : bool :=
  match w_pstate w with Some Exited => false | _ => true end.

(** ** The conversation *)

(** Reading a whole frame moves on by exactly its encoding. *)
Definition c_advance (n : nat) (c : Conn) : Conn :=
  MkConn (c_stdin c) (c_in_closed c) (c_stdout c) (c_pos c + n) (c_out_closed c) (c_exit c).

Lemma c_left_advance n c :
  (c_pos c <= length (c_stdout c))%nat -> (n <= length (c_unread c))%nat ->
  c_left (length (c_unread c) - n) c = c_advance n c.
Proof.
  unfold c_left, c_advance, c_unread. rewrite length_drop. intros. f_equal. lia.
Qed.

Lemma conn_ReadFrame_Ok k c f c' :
  (c_pos c <= length (c_stdout c))%nat ->
  conn_ReadFrame k c = Some (Ok f, c') ->
  exists rest, c_unread c = encode_frame f ++ rest /\ c' = c_advance (length (encode_frame f)) c.
Proof.
  intros Hp. unfold conn_ReadFrame.
  assert (forall bs e r rd, Wire.ReadFrame (flat_reader bs e) = (Ok r, rd) ->
            bs = encode_frame r ++ rd_bytes rd) as Hread.
  { intros bs e r rd E. pose proof (ReadFrame_parse (flat_reader bs e)) as (Hf & Hb & _).
    rewrite E in Hf, Hb. cbn in Hf, Hb. rewrite app_nil_r in Hf, Hb.
    destruct (parse_frame bs e) as [res rest] eqn:Ep. cbn in Hf, Hb. subst.
    by apply encode_parse in Ep as [-> _]. }
  destruct (c_out_closed c).
  - destruct (Wire.ReadFrame _) as [r rd] eqn:E. intros [= -> <-].
    apply Hread in E. exists (rd_bytes rd ++ drop k (c_unread c)).
    rewrite app_assoc, <- E, take_drop. split; [done|].
    assert (length (take k (c_unread c))
            = length (encode_frame f) + length (rd_bytes rd))%nat as Hl
      by (by rewrite E, length_app).
    rewrite length_take in Hl.
    rewrite <- c_left_advance by (done || lia). f_equal. lia.
  - destruct (Wire.ReadFrame _) as [r rd] eqn:E.
    destruct (short_read r && _) eqn:Es; [done|]. intros [= -> <-].
    apply Hread in E. exists (rd_bytes rd). split; [done|].
    assert (length (c_unread c) = length (encode_frame f) + length (rd_bytes rd))%nat as Hl
      by (by rewrite E, length_app).
    rewrite <- c_left_advance by (done || lia). f_equal. lia.
Qed.

(** Encodings of frames that fit are prefix-free. *)
Lemma encode_prefix_free f g x y :
  fits g -> encode_frame f ++ x = encode_frame g ++ y -> fits f -> f = g.
Proof.
  intros Hg E Hf. pose proof (parse_encode f x EOF Hf) as Pf.
  rewrite E, (parse_encode g y EOF Hg) in Pf. by injection Pf.
Qed.

Lemma encode_read_fits f bs e rd r :
  Wire.ReadFrame (flat_reader bs e) = (Ok f, rd) -> r = f -> fits r.
Proof.
  intros E ->. pose proof (ReadFrame_parse (flat_reader bs e)) as (Hf & _ & _).
  rewrite E in Hf. cbn in Hf. rewrite app_nil_r in Hf.
  destruct (parse_frame bs e) as [res rest] eqn:Ep. cbn in Hf. subst.
  by apply encode_parse in Ep as [_ ?].
Qed.

Lemma conn_ReadFrame_fits k c f c' : conn_ReadFrame k c = Some (Ok f, c') -> fits f.
Proof.
  unfold conn_ReadFrame. destruct (c_out_closed c); destruct (Wire.ReadFrame _) as [r rd] eqn:E.
  - intros [= -> _]. by eapply encode_read_fits.
  - destruct (_ && _); [done|]. intros [= -> _]. by eapply encode_read_fits.
Qed.

(** The frames sent to a worker that ask for an answer. *)
Definition requests (fs : list Frame) : list Frame :=
  filter (fun f => FType f <> TypeWorkerStop) fs.

Lemma fits_stop : fits NewWorkerStopFrame.
Proof. unfold fits. vm_compute. done. Qed.
Lemma fits_ready : fits NewWorkerReadyFrame.
Proof. unfold fits. vm_compute. done. Qed.

Section Protocol.

(** A PHP program: what it answers to its last request, having had the others before. *)
Variable answer : list Frame -> Frame.
Hypothesis answer_fits : forall h, fits (answer h).

(** All a program that follows the protocol ever writes when it is sent [rs], having had
    [h]: each answer is followed by [WORKER_READY]. *)
Fixpoint replies (h rs : list Frame) : list byte :=
  match rs with
  | [] => []
  | r :: rs =>
      encode_frame (answer (h ++ [r])) ++ encode_frame NewWorkerReadyFrame
      ++ replies (h ++ [r]) rs
  end.
Definition dialogue (rs : list Frame) : list byte :=
  encode_frame NewWorkerReadyFrame ++ replies [] rs.

Lemma replies_app h rs r :
  replies h (rs ++ [r])
  = replies h rs ++ encode_frame (answer (h ++ rs ++ [r])) ++ encode_frame NewWorkerReadyFrame.
Proof.
  revert h. induction rs as [|r' rs IH]; intros h; cbn [replies app].
  - by rewrite app_nil_r.
  - rewrite IH, <- !app_assoc. done.
Qed.

Lemma dialogue_snoc rs r :
  dialogue (rs ++ [r])
  = dialogue rs ++ encode_frame (answer (rs ++ [r])) ++ encode_frame NewWorkerReadyFrame.
Proof. unfold dialogue. by rewrite replies_app, <- app_assoc. Qed.

(** Where the server is in the conversation with a worker it holds. *)
Inductive phase :=
| Started                            (** [WORKER_READY] not read yet *)
| Ready                            (** read; nothing sent since *)
| Sent (req : Frame)               (** the answer not read yet *)
| Answered (req resp : Frame).     (** answered; [WORKER_READY] not read yet *)

Definition heard (ph : phase) (h : list Frame) : list Frame :=
  match ph with Started | Ready => h | Sent r | Answered r _ => h ++ [r] end.
Definition has_read (ph : phase) (h : list Frame) : list byte :=
  match ph with
  | Started => []
  | Ready | Sent _ => dialogue h
  | Answered r _ => dialogue h ++ encode_frame (answer (h ++ [r]))
  end.

Record conversation (ph : phase) (h : list Frame) (c : Conn) : Prop := MkConversation {
  cv_sent : exists fs, c_stdin c = concat (map encode_frame fs) /\ Forall fits fs
                       /\ requests fs = heard ph h;
  cv_read : take (c_pos c) (c_stdout c) = has_read ph h;
  cv_pos : (c_pos c <= length (c_stdout c))%nat;
  cv_out : c_stdout c `prefix_of` dialogue (heard ph h);
  cv_phase : match ph with
             | Started => h = []
             | Answered r f => f = answer (h ++ [r])
             | _ => True
             end
}.
Definition conv (ph : phase) (c : Conn) : Prop := exists h, conversation ph h c.

(** Only what was written and read matters. *)
Lemma conv_ext ph c c' :
  c_stdin c' = c_stdin c -> c_stdout c' = c_stdout c -> c_pos c' = c_pos c ->
  conv ph c -> conv ph c'.
Proof.
  intros E1 E2 E3 [h [Hs Hr Hp Ho Hph]]. exists h. constructor; by rewrite ?E1, ?E2, ?E3.
Qed.

Lemma conv_new : conv Started new_conn.
Proof.
  exists []. constructor; try done.
  - exists []. done.
  - apply prefix_nil.
Qed.

Lemma write_bytes c f :
  WriteFrame new_write_buf c f
  = (let '(_, err, c') := write c (encode_frame f) in
     (err, c', frame_buf new_write_buf f)).
Proof. unfold WriteFrame. by rewrite frame_buf_bytes. Qed.

Lemma conv_send f ph c e c' b :
  conv ph c -> fits f -> WriteFrame new_write_buf c f = (e, c', b) ->
  (FType f = TypeWorkerStop -> conv ph c')
  /\ (FType f <> TypeWorkerStop -> ph = Ready -> e = None -> conv (Sent f) c').
Proof.
  intros [h Hc] Hf. rewrite write_bytes. unfold write, conn_writer.
  assert (conv ph c) as Hcv by (by exists h).
  destruct (c_in_closed c); [intros [= <- <- <-]; by split|].
  destruct (c_exit c); intros [= <- <- <-]; [by split|].
  destruct Hc as [(fs & Es & Hfs & Hreq) Hr Hp Ho Hph].
  assert (concat (map encode_frame (fs ++ [f])) = c_stdin c ++ encode_frame f) as E
    by (by rewrite map_app, concat_app, Es; simpl; rewrite app_nil_r).
  split.
  - intros Ht. exists h. constructor; try done. exists (fs ++ [f]). split_and!; [done| |].
    + by apply Forall_app_2; [|constructor].
    + unfold requests in *. rewrite filter_app, Hreq, filter_cons_False, filter_nil, app_nil_r; [done|].
      intros Hn. by apply Hn.
  - intros Ht -> _. exists h. constructor; try done.
    + exists (fs ++ [f]). split_and!; [done| |].
      * by apply Forall_app_2; [|constructor].
      * unfold requests in *. by rewrite filter_app, Hreq, filter_cons_True, filter_nil.
    + cbn [heard c_stdout] in *. rewrite dialogue_snoc. by apply prefix_app_r.
Qed.

(** What is read next is what the dialogue says next. *)
Lemma conv_next ph h c k f c' g rest :
  conversation ph h c -> conn_ReadFrame k c = Some (Ok f, c') -> fits g ->
  dialogue (heard ph h) = has_read ph h ++ encode_frame g ++ rest ->
  f = g /\ c_stdin c' = c_stdin c /\ c_stdout c' = c_stdout c
  /\ take (c_pos c') (c_stdout c') = has_read ph h ++ encode_frame g
  /\ (c_pos c' <= length (c_stdout c'))%nat.
Proof.
  intros [_ Hr Hp [t Ho] _] E Hg Hd. pose proof (conn_ReadFrame_fits _ _ _ _ E) as Hf.
  destruct (conn_ReadFrame_Ok _ _ _ _ Hp E) as (r & Hu & ->).
  assert (c_stdout c = has_read ph h ++ encode_frame f ++ r) as Es
    by (by rewrite <- Hr, <- Hu; unfold c_unread; rewrite take_drop).
  assert (f = g) as ->.
  { rewrite Hd, Es, <- !app_assoc in Ho. apply app_inv_head in Ho.
    by eapply encode_prefix_free; [|symmetry; exact Ho|]. }
  assert (c_pos c = length (has_read ph h)) as Epos
    by (rewrite <- Hr, length_take; lia).
  split_and!; [done..| |]; cbn [c_advance c_pos c_stdout].
  - rewrite Es, Epos, app_assoc, <- length_app. by rewrite take_app_length.
  - rewrite Es, !length_app. lia.
Qed.

Lemma conv_read_fresh c k f c' :
  conv Started c -> conn_ReadFrame k c = Some (Ok f, c') ->
  f = NewWorkerReadyFrame /\ conv Ready c'.
Proof.
  intros [h Hc] E. assert (h = []) as -> by apply (cv_phase _ _ _ Hc).
  destruct (conv_next _ _ _ _ _ _ NewWorkerReadyFrame (replies [] []) Hc E fits_ready eq_refl)
    as (-> & E1 & E2 & Hr & Hp).
  split; [done|]. exists []. destruct Hc as [Hs _ _ Ho _].
  constructor; rewrite ?E1, ?E2 in *; try done.
Qed.

Lemma conv_read_sent req c k f c' :
  conv (Sent req) c -> conn_ReadFrame k c = Some (Ok f, c') -> conv (Answered req f) c'.
Proof.
  intros [h Hc] E.
  destruct (conv_next _ _ _ _ _ _ (answer (h ++ [req])) (encode_frame NewWorkerReadyFrame)
              Hc E (answer_fits _)) as (-> & E1 & E2 & Hr & Hp).
  { cbn [heard has_read]. apply dialogue_snoc. }
  exists h. destruct Hc as [Hs _ _ Ho _]. constructor; rewrite ?E1, ?E2 in *; done.
Qed.

Lemma conv_read_ready req resp c k f c' :
  conv (Answered req resp) c -> conn_ReadFrame k c = Some (Ok f, c') ->
  f = NewWorkerReadyFrame /\ conv Ready c'.
Proof.
  intros [h Hc] E.
  destruct (conv_next _ _ _ _ _ _ NewWorkerReadyFrame [] Hc E fits_ready)
    as (-> & E1 & E2 & Hr & Hp).
  { cbn [heard has_read]. by rewrite dialogue_snoc, app_nil_r, <- app_assoc. }
  split; [done|]. exists (h ++ [req]). destruct Hc as [Hs _ _ Ho _].
  constructor; rewrite ?E1, ?E2 in *; try done.
  cbn [has_read] in *. by rewrite Hr, <- app_assoc, dialogue_snoc.
Qed.

(** What a program may have written, given what it was sent. *)
Variable php_may : list byte -> list byte -> bool.

(** It answers the requests it was sent in order, and says when it is ready. It may stop
    at any point. *)
Definition answers_in_order : Prop :=
  forall fs out, Forall fits fs ->
    php_may (concat (map encode_frame fs)) out = true -> out `prefix_of` dialogue (requests fs).

Lemma conv_php_writes bs ph c :
  answers_in_order -> conv ph c -> php_may (c_stdin c) (c_stdout c ++ bs) = true ->
  conv ph (php_writes bs c).
Proof.
  intros Hphp [h [(fs & Es & Hfs & Hreq) Hr Hp Ho Hph]] Hm. exists h.
  constructor; cbn; [eauto| | | |done].
  - rewrite take_app_le by done. done.
  - rewrite length_app. lia.
  - rewrite Es in Hm. apply Hphp in Hm; [|done]. by rewrite <- Hreq.
Qed.
End Protocol.

#[export] Hint Resolve conv_new : maboo.
