(* ===== verification/ProcPool.v ===== *)
(** The pool of PHP processes: [src/internal/pool/pool.go], as a machine.

    Every goroutine is a thread, a control point of one of the package's functions; a step
    of a thread is one action on shared memory, a channel or a pipe.  The PHP processes are
    the other side: between any two steps they may write, as far as [php_may] allows, or
    end. There is one step function per function of the code, one match arm per control
    point. *)
From S2P Require Import Prelude GoIO GoSlice Wire Config GoFloat ProcWorker.
From stdpp Require Import gmap strings pretty.
Local Open Scope Z_scope.

(** ** State *)

(** A [*Worker]; [heap] holds the objects, [available] is the buffered channel, its head the
    next value received. *)
Abbreviation loc := nat (only parsing).

(** What the goroutine of [Exec] sends on [done]; the worker and the request are those it
    ran for. *)
Record execResult := MkResult {
  er_worker : loc;
  er_req : Frame;
  er_result : result Frame exec_error
}.

(** [dones] holds the [done] channels, of capacity one, [next_done] the next to make. *)
Record ProcPool := MkPool {
  workers : list loc;
  heap : gmap loc Worker;
  next_loc : loc;
  available : list loc;
  closed : bool;
  nextID : Z;
  cancelled : bool;
  dones : gmap nat execResult;
  next_done : nat;
  totalRequests : Z;
  activeWorkers : Z;
  busyWorkers : Z
}.

Definition set_workers ws p := MkPool ws (heap p) (next_loc p) (available p) (closed p)
  (nextID p) (cancelled p) (dones p) (next_done p) (totalRequests p) (activeWorkers p) (busyWorkers p).
Definition set_available av p := MkPool (workers p) (heap p) (next_loc p) av (closed p)
  (nextID p) (cancelled p) (dones p) (next_done p) (totalRequests p) (activeWorkers p) (busyWorkers p).
Definition set_closed b p := MkPool (workers p) (heap p) (next_loc p) (available p) b
  (nextID p) (cancelled p) (dones p) (next_done p) (totalRequests p) (activeWorkers p) (busyWorkers p).
Definition set_nextID n p := MkPool (workers p) (heap p) (next_loc p) (available p) (closed p)
  n (cancelled p) (dones p) (next_done p) (totalRequests p) (activeWorkers p) (busyWorkers p).
Definition set_cancelled b p := MkPool (workers p) (heap p) (next_loc p) (available p) (closed p)
  (nextID p) b (dones p) (next_done p) (totalRequests p) (activeWorkers p) (busyWorkers p).
Definition set_dones d p := MkPool (workers p) (heap p) (next_loc p) (available p) (closed p)
  (nextID p) (cancelled p) d (next_done p) (totalRequests p) (activeWorkers p) (busyWorkers p).
Definition make_done p := MkPool (workers p) (heap p) (next_loc p) (available p) (closed p)
  (nextID p) (cancelled p) (dones p) (S (next_done p)) (totalRequests p) (activeWorkers p) (busyWorkers p).

(** [atomic.Int64.Add] and [atomic.Int32.Add] on the metrics. *)
Definition add_total d p := MkPool (workers p) (heap p) (next_loc p) (available p) (closed p)
  (nextID p) (cancelled p) (dones p) (next_done p)
  (int64 (totalRequests p + d)) (activeWorkers p) (busyWorkers p).
Definition add_active d p := MkPool (workers p) (heap p) (next_loc p) (available p) (closed p)
  (nextID p) (cancelled p) (dones p) (next_done p)
  (totalRequests p) (int32 (activeWorkers p + d)) (busyWorkers p).
Definition add_busy d p := MkPool (workers p) (heap p) (next_loc p) (available p) (closed p)
  (nextID p) (cancelled p) (dones p) (next_done p)
  (totalRequests p) (activeWorkers p) (int32 (busyWorkers p + d)).

(** Storing a worker object, and allocating one. *)
Definition set_worker (w : loc) (x : Worker) p :=
  MkPool (workers p) (<[w := x]> (heap p)) (next_loc p) (available p) (closed p)
    (nextID p) (cancelled p) (dones p) (next_done p) (totalRequests p) (activeWorkers p) (busyWorkers p).
Definition alloc_worker (x : Worker) p :=
  MkPool (workers p) (<[next_loc p := x]> (heap p)) (S (next_loc p)) (available p) (closed p)
    (nextID p) (cancelled p) (dones p) (next_done p) (totalRequests p) (activeWorkers p) (busyWorkers p).

Definition New : ProcPool := MkPool [] ∅ 0 [] false 0 false ∅ 0 0 0 0.

(** The command of a worker process: program, arguments and environment; [range] is the order
    in which the PHP settings are visited. *)
Record Cmd := MkCmd { cmd_Path : string; cmd_Args : list string; cmd_Env : list string }.

Definition buildEnv (range : gmap string string -> list (string * string)) (cfg : Config) : list string :=
  ((if MaxJobs (Pool cfg) >? 0
    then ["MAX_REQUESTS=" +:+ pretty (MaxJobs (Pool cfg))] else [])
   ++ map (fun '(k, v) => "PHP_INI_" +:+ k +:+ "=" +:+ v)
        (range (php_INI (PHP cfg))))%list.

Definition worker_command (range : gmap string string -> list (string * string)) (cfg : Config) : Cmd :=
  MkCmd (php_Binary (PHP cfg)) [php_Worker (PHP cfg)] (buildEnv range cfg).

Record PoolStats := MkStats {
  TotalWorkers : Z;
  ActiveWorkers : Z;
  BusyWorkers : Z;
  IdleWorkers : Z;
  TotalRequests : Z;
  QueueDepth : Z
}.

(** [Stats], when nobody runs between its reads. *)
Definition Stats (p : ProcPool) : PoolStats :=
  let total := Z.of_nat (length (workers p)) in
  MkStats total (activeWorkers p) (busyWorkers p) (total - busyWorkers p) (totalRequests p)
    (Z.of_nat (length (available p))).

(** ** Threads *)

(** Who called [spawnWorker], and what is left to do after the new worker is sent. *)
Inductive spawner :=
| ByStart (left : nat)
| ByReplace
| ByScale (total busy : Z)
| ByReload (left : nat) (old news : list loc).

(** Who calls [w.Stop], and what is left to do. *)
Inductive stopper :=
| ForReplace
| ForScaleDown
| ForDrain (rest : list loc)
| ForReloadFailed (rest : list loc)
| ForPoolStop (parent : nat).

Inductive panic := SendOnClosed | CloseOfClosed | NilWorker.

Inductive error :=
| SpawnFailed                          (** of [Start] and [Reload] *)
| NoAvailableWorker
| PoolShuttingDown
| RequestTimedOut
| WorkerExec (e : exec_error).

Inductive outcome :=
| Returned (e : option error)
| ExecResult (req : Frame) (r : result Frame error)
| ExecPanicked (why : panic)   (** in the goroutine of a request *)
| Panicked (why : panic).      (** in any other: the program dies *)

Inductive thread :=
| StartLoop (left : nat)
| SpawnNew (k : spawner)
| SpawnHandshake (w : loc) (k : spawner)
| SpawnAppend (w : loc) (k : spawner)
| SpawnSend (w : loc) (k : spawner)
(* [Pool.Exec] *)
| ExecCall (req : Frame)
| ExecSelect (req : Frame)
| ExecTaken (req : Frame) (w : option loc)
| ExecFork (req : Frame) (w : option loc)
| ExecWait (req : Frame) (w : option loc) (done : nat)
| ExecCheck (req : Frame) (w : loc) (resp : Frame)
| ExecReady (req : Frame) (w : loc) (resp : Frame)
| ExecSend (req : Frame) (w : loc) (resp : Frame)
| ExecReturn (req : Frame) (r : result Frame error)
| ExecUnwind (why : panic)
(* its goroutine, in [Worker.Exec] *)
| RunLock (w : option loc) (req : Frame) (done : nat)
| RunBusy (w : loc) (req : Frame) (done : nat)
| RunWrite (w : loc) (req : Frame) (done : nat)
| RunRead (w : loc) (req : Frame) (done : nat)
| RunIdle (w : loc) (req : Frame) (done : nat) (r : result Frame exec_error)
| RunCount (w : loc) (req : Frame) (done : nat) (r : result Frame exec_error)
| RunUnlock (w : loc) (req : Frame) (done : nat) (r : result Frame exec_error)
| RunSend (w : loc) (req : Frame) (done : nat) (r : result Frame exec_error)
(* [Worker.Stop] and its goroutine, and what its callers do next *)
| StopState (w : loc) (k : stopper)
| StopWrite (w : loc) (k : stopper)
| StopClose (w : loc) (k : stopper)
| StopWait (w : loc) (k : stopper)
| ReapWait (w : loc)
| RemoveWorker (w : loc) (k : stopper)
| ReplaceCheck
(* the watchdog *)
| WatchWait
| WatchCopy
| WatchState (ws : list loc)
| WatchAlive (w : loc) (ws : list loc)
| WatchTotal
| WatchBusy (total : Z)
| WatchUp (total busy : Z)
| WatchDown (total busy : Z)
(* [Reload] and its goroutine *)
| ReloadCopy
| ReloadLoop (left : nat) (old news : list loc)
| ReloadUndo (ws : list loc)
| DrainLoop (ws : list loc)
(* [Pool.Stop] *)
| PoolStopCancel
| PoolStopCopy
| PoolStopWait
| PoolStopClose
| Finished (o : outcome).

(** What a thread may be waiting for, or what the system answers: [Go] with the bytes a read
    from a closed pipe still gets. *)
Inductive choice := Go (k : nat) | Timeout | Done | Tick | Fails.

Definition busyPct (busy total : Z) : float64 := fmul (fdiv (f64 busy) (f64 total)) (f64 100).

(** [removeWorker]'s loop: the first worker with this ID goes. *)
Fixpoint remove_by_id (h : gmap loc Worker) (id : Z) (ws : list loc) : option (list loc) :=
  match ws with
  | [] => None
  | w :: ws =>
      if bool_decide (w_id <$> h !! w = Some id) then Some ws
      else cons w <$> remove_by_id h id ws
  end.

Definition removeWorker (w : loc) (p : ProcPool) : ProcPool :=
  match heap p !! w with
  | Some x =>
      match remove_by_id (heap p) (w_id x) (workers p) with
      | Some ws => add_active (-1) (set_workers ws p)
      | None => p
      end
  | None => p
  end.

Section Machine.
Variable php_may : list byte -> list byte -> bool.
Variable cfg : Config.

Definition maxw : Z := MaxWorkers (Pool cfg).
Definition minw : nat := Z.to_nat (MinWorkers (Pool cfg)).

Definition needsRecycle (w : Worker) : bool :=
  if (MaxJobs (Pool cfg) >? 0) && (w_jobs w >=? MaxJobs (Pool cfg)) then true else false.

(** What one action of a thread does: the pool, the thread, the goroutines it starts;
    [None] when the thread cannot take that action now. *)
Abbreviation result_of_step := (option (ProcPool * thread * list thread)) (only parsing).

(** [p.available <- w] of a thread that continues as [t]: blocks when full. *)
Definition send (p : ProcPool) (w : loc) (t crash : thread) : result_of_step :=
  if closed p then Some (p, crash, [])
  else if Z.of_nat (length (available p)) <? maxw
  then Some (set_available (available p ++ [w]) p, t, [])
  else None.

(** One action on a worker. *)
Definition on_worker (p : ProcPool) (w : loc) (f : Worker -> Worker) (t : thread) : result_of_step :=
  x ← heap p !! w; Some (set_worker w (f x) p, t, []).

Definition start_step (p : ProcPool) (t : thread) (c : choice) : result_of_step :=
  match t, c with
  | StartLoop O, Go _ => Some (p, Finished (Returned None), [WatchWait])
  | StartLoop (S n), Go _ => Some (p, SpawnNew (ByStart n), [])
  | _, _ => None
  end.

Definition after_send (w : loc) (k : spawner) : thread :=
  match k with
  | ByStart n => StartLoop n
  | ByReplace => Finished (Returned None)
  | ByScale t b => WatchDown t b
  | ByReload n old news => ReloadLoop n old (news ++ [w])
  end.

Definition spawn_failed (k : spawner) : thread :=
  match k with
  | ByStart _ => Finished (Returned (Some SpawnFailed))
  | ByReplace => Finished (Returned None)
  | ByScale _ _ => WatchWait
  | ByReload _ _ news => ReloadUndo news
  end.

(** [spawnWorker] with [NewWorker], and the send of the new worker by its caller. [Fails] is
    a process that cannot be started. *)
Definition spawn_step (p : ProcPool) (t : thread) (c : choice) : result_of_step :=
  match t, c with
  | SpawnNew k, Go _ =>
      let id := int32 (nextID p + 1) in
      Some (alloc_worker (NewWorker id) (set_nextID id p), SpawnHandshake (next_loc p) k, [])
  | SpawnNew k, Fails => Some (set_nextID (int32 (nextID p + 1)) p, spawn_failed k, [])
  | SpawnHandshake w k, Go n =>
      x ← heap p !! w;
      '(r, x) ← ReadFrame n x;
      if is_ready r then Some (set_worker w x p, SpawnAppend w k, [])
      else Some (set_worker w (Kill x) p, spawn_failed k, [])
  | SpawnAppend w k, Go _ =>
      Some (add_active 1 (set_workers (workers p ++ [w]) p), SpawnSend w k, [])
  | SpawnSend w k, Go _ => send p w (after_send w k) (Finished (Panicked SendOnClosed))
  | _, _ => None
  end.

(** [Pool.Exec]. *)
Definition exec_step (p : ProcPool) (t : thread) (c : choice) : result_of_step :=
  let timed := RequestTimeout (Pool cfg) >? 0 in
  match t, c with
  | ExecCall req, Go _ => Some (add_total 1 p, ExecSelect req, [])
  | ExecSelect req, Go _ =>
      match available p with
      | w :: av => Some (set_available av p, ExecTaken req (Some w), [])
      | [] => if closed p then Some (p, ExecTaken req None, []) else None
      end
  | ExecSelect req, Timeout => Some (p, Finished (ExecResult req (Err NoAvailableWorker)), [])
  | ExecSelect req, Done =>
      if cancelled p then Some (p, Finished (ExecResult req (Err PoolShuttingDown)), []) else None
  | ExecTaken req w, Go _ => Some (add_busy 1 p, ExecFork req w, [])
  | ExecFork req w, Go _ =>
      Some (make_done p, ExecWait req w (next_done p), [RunLock w req (next_done p)])
  | ExecWait req (Some w) d, Go _ =>
      match dones p !! d with
      | Some er =>
          let p := set_dones (delete d (dones p)) p in
          match er_result er with
          | Err e => Some (p, ExecReturn req (Err (WorkerExec e)), [StopState w ForReplace])
          | Ok resp => Some (p, ExecCheck req w resp, [])
          end
      | None => None
      end
  | ExecWait req (Some w) d, Timeout =>
      if timed then Some (p, ExecReturn req (Err RequestTimedOut), [StopState w ForReplace])
      else None
  | ExecWait req _ _, Done =>
      if timed && cancelled p then Some (p, ExecReturn req (Err PoolShuttingDown), []) else None
  | ExecCheck req w resp, Go _ =>
      x ← heap p !! w;
      if needsRecycle x then Some (p, ExecReturn req (Ok resp), [StopState w ForReplace])
      else Some (p, ExecReady req w resp, [])
  | ExecReady req w resp, Go n =>
      x ← heap p !! w;
      '(r, x) ← ReadFrame n x;
      if is_ready r then Some (set_worker w x p, ExecSend req w resp, [])
      else Some (set_worker w x p, ExecReturn req (Ok resp), [StopState w ForReplace])
  | ExecSend req w resp, Go _ => send p w (ExecReturn req (Ok resp)) (ExecUnwind SendOnClosed)
  | ExecReturn req r, Go _ => Some (add_busy (-1) p, Finished (ExecResult req r), [])
  | ExecUnwind why, Go _ => Some (add_busy (-1) p, Finished (ExecPanicked why), [])
  | _, _ => None
  end.

(** The goroutine of [Exec]: [Worker.Exec] action by action, and its result sent. *)
Definition run_step (p : ProcPool) (t : thread) (c : choice) : result_of_step :=
  match t, c with
  | RunLock None _ _, Go _ => Some (p, Finished (Panicked NilWorker), [])
  | RunLock (Some w) req d, Go _ =>
      x ← heap p !! w;
      if w_mu x then None else Some (set_worker w (set_mu true x) p, RunBusy w req d, [])
  | RunBusy w req d, Go _ => on_worker p w (set_state StateBusy) (RunWrite w req d)
  | RunWrite w req d, Go _ =>
      x ← heap p !! w;
      match write_frame req x with
      | (Some e, x) => Some (set_worker w x p, RunIdle w req d (Err (SendingRequest e)), [])
      | (None, x) => Some (set_worker w x p, RunRead w req d, [])
      end
  | RunRead w req d, Go n =>
      x ← heap p !! w;
      '(r, x) ← ReadFrame n x;
      Some (set_worker w x p, RunIdle w req d (map_err ReadingResponse r), [])
  | RunIdle w req d r, Go _ => on_worker p w (set_state StateIdle) (RunCount w req d r)
  | RunCount w req d r, Go _ => on_worker p w add_job (RunUnlock w req d r)
  | RunUnlock w req d r, Go _ => on_worker p w (set_mu false) (RunSend w req d r)
  | RunSend w req d r, Go _ =>
      Some (set_dones (<[d := MkResult w req r]> (dones p)) p, Finished (Returned None), [])
  | _, _ => None
  end.

(** What follows a [Stop]. *)
Definition after_stop (w : loc) (k : stopper) : thread :=
  match k with
  | ForPoolStop _ => Finished (Returned None)
  | ForReloadFailed rest => ReloadUndo rest
  | _ => RemoveWorker w k
  end.

Definition after_remove (k : stopper) : thread :=
  match k with
  | ForReplace => ReplaceCheck
  | ForDrain rest => DrainLoop rest
  | _ => Finished (Returned None)
  end.

(** [Worker.Stop], and [removeWorker] and [replaceWorker] after it. [cmd.Wait] runs in a
    goroutine of its own: it and the select that sees it done are one step, and after a time-out
    it goes on as [ReapWait]. *)
Definition stop_step (p : ProcPool) (t : thread) (c : choice) : result_of_step :=
  match t, c with
  | StopState w k, Go _ => on_worker p w (set_state StateStopped) (StopWrite w k)
  | StopWrite w k, Go _ => on_worker p w stop_write (StopClose w k)
  | StopClose w k, Go _ => on_worker p w stop_close (StopWait w k)
  | StopWait w k, Go _ =>
      x ← heap p !! w; x ← Wait x; Some (set_worker w x p, after_stop w k, [])
  | StopWait w k, Timeout =>
      x ← heap p !! w; Some (set_worker w (Kill x) p, after_stop w k, [ReapWait w])
  | ReapWait w, Go _ =>
      x ← heap p !! w; x ← Wait x; Some (set_worker w x p, Finished (Returned None), [])
  | RemoveWorker w k, Go _ => Some (removeWorker w p, after_remove k, [])
  | ReplaceCheck, Go _ =>
      Some (p, if cancelled p then Finished (Returned None) else SpawnNew ByReplace, [])
  | _, _ => None
  end.

(** [watchdog], [checkHealth] and [autoScale]. *)
Definition watch_step (p : ProcPool) (t : thread) (c : choice) : result_of_step :=
  match t, c with
  | WatchWait, Tick => Some (p, WatchCopy, [])
  | WatchWait, Done => if cancelled p then Some (p, Finished (Returned None), []) else None
  | WatchCopy, Go _ => Some (p, WatchState (workers p), [])
  | WatchState [], Go _ => Some (p, WatchTotal, [])
  | WatchState (w :: ws), Go _ =>
      x ← heap p !! w;
      Some (p, if bool_decide (w_state x = StateBusy) then WatchState ws else WatchAlive w ws, [])
  | WatchAlive w ws, Go _ =>
      x ← heap p !! w;
      Some (p, WatchState ws, if IsAlive x then [] else [StopState w ForReplace])
  | WatchTotal, Go _ => Some (p, WatchBusy (Z.of_nat (length (workers p))), [])
  | WatchBusy total, Go _ => Some (p, WatchUp total (busyWorkers p), [])
  | WatchUp total busy, Go _ =>
      if total >? 0 then
        if fle (f64 80) (busyPct busy total) && (total <? maxw)
        then Some (p, SpawnNew (ByScale total busy), [])
        else Some (p, WatchDown total busy, [])
      else Some (p, WatchWait, [])
  | WatchDown total busy, Go _ =>
      if fle (busyPct busy total) (f64 20) && (total >? MinWorkers (Pool cfg)) then
        match available p with
        | w :: av => Some (set_available av p, WatchWait, [StopState w ForScaleDown])
        | [] => Some (p, WatchWait, if closed p then [Finished (Panicked NilWorker)] else [])
        end
      else Some (p, WatchWait, [])
  | _, _ => None
  end.

Definition reload_step (p : ProcPool) (t : thread) (c : choice) : result_of_step :=
  match t, c with
  | ReloadCopy, Go _ => Some (p, ReloadLoop minw (workers p) [], [])
  | ReloadLoop O old _, Go _ => Some (p, Finished (Returned None), [DrainLoop old])
  | ReloadLoop (S n) old news, Go _ => Some (p, SpawnNew (ByReload n old news), [])
  | ReloadUndo [], Go _ => Some (p, Finished (Returned (Some SpawnFailed)), [])
  | ReloadUndo (w :: ws), Go _ => Some (p, StopState w (ForReloadFailed ws), [])
  | DrainLoop [], Go _ => Some (p, Finished (Returned None), [])
  | DrainLoop (w :: ws), Go _ =>
      x ← heap p !! w;
      Some (p, if bool_decide (w_state x = StateBusy) then DrainLoop (w :: ws)
               else StopState w (ForDrain ws), [])
  | _, _ => None
  end.

(** [Pool.Stop]: [tid] is the thread itself; [all_stopped] tells whether the goroutines it
    waits for ([wg.Wait]) are done. *)
Definition pool_stop_step (tid : nat) (all_stopped : bool) (p : ProcPool) (t : thread) (c : choice) :
    result_of_step :=
  match t, c with
  | PoolStopCancel, Go _ => Some (set_cancelled true p, PoolStopCopy, [])
  | PoolStopCopy, Go _ =>
      Some (p, PoolStopWait, map (fun w => StopState w (ForPoolStop tid)) (workers p))
  | PoolStopWait, Go _ => if all_stopped then Some (p, PoolStopClose, []) else None
  | PoolStopClose, Go _ =>
      if closed p then Some (p, Finished (Panicked CloseOfClosed), [])
      else Some (set_closed true p, Finished (Returned None), [])
  | _, _ => None
  end.

(** One action of a thread, by the function it is in. *)
Definition tstep (tid : nat) (all_stopped : bool) (p : ProcPool) (t : thread) (c : choice) :
    result_of_step :=
  match t with
  | StartLoop _ => start_step p t c
  | SpawnNew _ | SpawnHandshake _ _ | SpawnAppend _ _ | SpawnSend _ _ => spawn_step p t c
  | ExecCall _ | ExecSelect _ | ExecTaken _ _ | ExecFork _ _ | ExecWait _ _ _ | ExecCheck _ _ _
  | ExecReady _ _ _ | ExecSend _ _ _ | ExecReturn _ _ | ExecUnwind _ => exec_step p t c
  | RunLock _ _ _ | RunBusy _ _ _ | RunWrite _ _ _ | RunRead _ _ _ | RunIdle _ _ _ _
  | RunCount _ _ _ _ | RunUnlock _ _ _ _ | RunSend _ _ _ _ => run_step p t c
  | StopState _ _ | StopWrite _ _ | StopClose _ _ | StopWait _ _ | ReapWait _ | RemoveWorker _ _
  | ReplaceCheck => stop_step p t c
  | WatchWait | WatchCopy | WatchState _ | WatchAlive _ _ | WatchTotal | WatchBusy _
  | WatchUp _ _ | WatchDown _ _ => watch_step p t c
  | ReloadCopy | ReloadLoop _ _ _ | ReloadUndo _ | DrainLoop _ => reload_step p t c
  | PoolStopCancel | PoolStopCopy | PoolStopWait | PoolStopClose =>
      pool_stop_step tid all_stopped p t c
  | Finished _ => None
  end.

(** ** The machine *)

Record state := MkState { pool : ProcPool; threads : list thread }.

(** A call from outside, a step of a thread, or the process of a worker writing or ending. *)
Inductive event :=
| CallStart | CallExec (req : Frame) | CallReload | CallStop
| Run (tid : nat) (c : choice)
| PhpWrites (w : loc) (bs : list byte)
| PhpExits (w : loc) (k : exit_kind).

(** A goroutine [wg.Wait] of [tid] still waits for. *)
Definition stops_for (tid : nat) (t : thread) : bool :=
  match t with
  | StopState _ (ForPoolStop k) | StopWrite _ (ForPoolStop k) | StopClose _ (ForPoolStop k)
  | StopWait _ (ForPoolStop k) => Nat.eqb k tid
  | _ => false
  end.

(** What a process does; it writes only what [php_may] allows, given what it was sent. *)
Definition php_step (p : ProcPool) (w : loc) (f : Conn -> Conn) (writes : bool) : option ProcPool :=
  x ← heap p !! w;
  let c := f (w_conn x) in
  if bool_decide (c_exit (w_conn x) = None)
     && (negb writes || php_may (c_stdin c) (c_stdout c))
  then Some (set_worker w (set_conn c x) p) else None.

Definition call (s : state) (t : thread) : option state := Some (MkState (pool s) (threads s ++ [t])).

Definition step (s : state) (e : event) : option state :=
  match e with
  | CallStart => call s (StartLoop minw)
  | CallExec req => call s (ExecCall req)
  | CallReload => call s ReloadCopy
  | CallStop => call s PoolStopCancel
  | Run tid c =>
      t ← threads s !! tid;
      '(p, t', new) ← tstep tid (negb (existsb (stops_for tid) (threads s))) (pool s) t c;
      Some (MkState p (<[tid := t']> (threads s) ++ new))
  | PhpWrites w bs => p ← php_step (pool s) w (php_writes bs) true; Some (MkState p (threads s))
  | PhpExits w k => p ← php_step (pool s) w (php_exits k) false; Some (MkState p (threads s))
  end.

Fixpoint run (s : state) (es : list event) : option state :=
  match es with
  | [] => Some s
  | e :: es => s' ← step s e; run s' es
  end.

Definition init : state := MkState New [].

(** The states reached by events that satisfy [P]. *)
Inductive reachable (P : event -> Prop) : state -> Prop :=
| reach_init : reachable P init
| reach_step s e s' : reachable P s -> P e -> step s e = Some s' -> reachable P s'.
End Machine.

(** Case analysis on one step of a thread. *)
Ltac step_cases H t c :=
  destruct t, c; cbn -[Wait int32 f64 busyPct NewWorker] in H; try discriminate H;
  unfold send, on_worker in H; simplify_option_eq; repeat (case_match; simplify_option_eq).
