(* ===== verification/ProcPoolInv.v ===== *)
(** What holds of the pool of PHP processes under every interleaving: who converses with a
    worker, and that every answer is the answer to its request. *)
From S2P Require Import Prelude GoIO GoSlice Wire Config GoFloat ProcWorker ProcPool.
From stdpp Require Import gmap.
Local Open Scope Z_scope.

(** ** Who converses with a worker *)

Abbreviation token := (loc * phase)%type (only parsing).

(** What is left to say after the answer was read, or nothing after an error. *)
Definition answered (w : loc) (req : Frame) (r : result Frame exec_error) : list token :=
  match r with Ok f => [(w, Answered req f)] | Err _ => [] end.

(** The conversation a thread holds. *)
Definition talks (t : thread) : list token :=
  match t with
  | SpawnHandshake w _ => [(w, Started)]
  | SpawnAppend w _ | SpawnSend w _ => [(w, Ready)]
  | ExecTaken _ (Some w) | ExecFork _ (Some w) => [(w, Ready)]
  | ExecCheck req w resp | ExecReady req w resp => [(w, Answered req resp)]
  | ExecSend _ w _ => [(w, Ready)]
  | RunLock (Some w) _ _ | RunBusy w _ _ | RunWrite w _ _ => [(w, Ready)]
  | RunRead w req _ => [(w, Sent req)]
  | RunIdle w req _ r | RunCount w req _ r | RunUnlock w req _ r | RunSend w req _ r =>
      answered w req r
  | _ => []
  end.

(** The conversations of the channels: of idle workers, and of results not yet received. *)
Definition done_tokens (d : gmap nat execResult) : list token :=
  (map_to_list d) ≫= (fun e => answered (er_worker (snd e)) (er_req (snd e)) (er_result (snd e))).
Definition idle_tokens (av : list loc) : list token := map (fun w => (w, Ready)) av.
Definition pool_tokens (p : ProcPool) : list token := idle_tokens (available p) ++ done_tokens (dones p).
Definition tokens (s : state) : list token := pool_tokens (pool s) ++ (threads s ≫= talks).

Lemma done_tokens_insert d er m :
  done_tokens (<[d := er]> m)
  ⊆+ answered (er_worker er) (er_req er) (er_result er) ++ done_tokens m.
Proof.
  unfold done_tokens.
  assert (<[d := er]> m = <[d := er]> (delete d m)) as -> by (by rewrite insert_delete_eq).
  rewrite map_to_list_insert by apply lookup_delete_eq. cbn [mbind list_bind snd].
  apply submseteq_app; [done|].
  destruct (m !! d) as [er0|] eqn:E; [|by rewrite delete_id].
  rewrite <- (map_to_list_delete m d er0 E). cbn [mbind list_bind]. by apply submseteq_inserts_l.
Qed.

Lemma done_tokens_delete d er m :
  m !! d = Some er ->
  done_tokens m
  ≡ₚ answered (er_worker er) (er_req er) (er_result er) ++ done_tokens (delete d m).
Proof. intros E. unfold done_tokens. by rewrite <- (map_to_list_delete m d er E). Qed.

(** One word of a conversation: the greeting, a request, its answer, the word after it. *)
Inductive next_word : phase -> phase -> Prop :=
| nw_greeted : next_word Started Ready
| nw_asked req : next_word Ready (Sent req)
| nw_answered req resp : next_word (Sent req) (Answered req resp)
| nw_ready req resp : next_word (Answered req resp) Ready.

#[export] Hint Constructors next_word : maboo.

(** ** What a step does to the conversations *)

Section Inv.
Context (php_may : list byte -> list byte -> bool) (cfg : Config).
Context (answer : list Frame -> Frame) (answer_fits : forall h, fits (answer h)).

Abbreviation tstep := (tstep cfg).
Abbreviation step := (step php_may cfg).
Abbreviation reachable := (reachable php_may cfg).
Abbreviation conv := (conv answer).

(** A request the wire format can carry, and which does not stop the worker. *)
Definition good_req (req : Frame) : Prop := fits req /\ FType req <> TypeWorkerStop.

(** No conversation is disturbed. *)
Definition undisturbed (h h' : gmap loc Worker) : Prop :=
  forall w x ph, h !! w = Some x -> conv ph (w_conn x) ->
    exists x', h' !! w = Some x' /\ conv ph (w_conn x').

(** The conversations [T] become [T']: handed on; moved on by one word or given up; or
    begun. [ok] says the request is good. *)
Inductive change (ok : Prop) (p p' : ProcPool) (T T' : list token) : Prop :=
| ch_keep :
    next_loc p' = next_loc p -> undisturbed (heap p) (heap p') -> T' ⊆+ T ->
    change ok p p' T T'
| ch_move w ph x x' l R :
    next_loc p' = next_loc p -> heap p !! w = Some x -> heap p' = <[w := x']> (heap p) ->
    (w, ph) :: R ⊆+ T -> T' ⊆+ l ++ R ->
    l = [] \/ (exists ph', l = [(w, ph')] /\ next_word ph ph'
               /\ (ok -> conv ph (w_conn x) -> conv ph' (w_conn x'))) ->
    change ok p p' T T'
| ch_new x :
    next_loc p' = S (next_loc p) -> heap p' = <[next_loc p := x]> (heap p) ->
    conv Started (w_conn x) -> T' ⊆+ (next_loc p, Started) :: T ->
    change ok p p' T T'.

Lemma undisturbed_refl h : undisturbed h h.
Proof. intros w x ph. eauto. Qed.

Lemma undisturbed_set h w x x' :
  h !! w = Some x -> (forall ph, conv ph (w_conn x) -> conv ph (w_conn x')) ->
  undisturbed h (<[w := x']> h).
Proof.
  intros Hx Hc v y ph Hy Hcv. destruct (decide (v = w)) as [->|Hne].
  - rewrite lookup_insert_eq. simplify_eq. eauto.
  - rewrite lookup_insert_ne by done. eauto.
Qed.

Lemma conv_stop_write ph x : conv ph (w_conn x) -> conv ph (w_conn (stop_write x)).
Proof.
  intros Hc. unfold stop_write, write_frame.
  destruct (WriteFrame new_write_buf (w_conn x) NewWorkerStopFrame) as [[e c] b] eqn:E.
  by eapply (conv_send answer NewWorkerStopFrame); [|apply fits_stop|exact E|].
Qed.

Lemma conv_Wait ph x x' : Wait x = Some x' -> conv ph (w_conn x) -> conv ph (w_conn x').
Proof.
  unfold Wait. repeat case_match; intros [= <-]; [done|]. by apply conv_ext.
Qed.

Lemma conv_write_error f x e x' ph :
  write_frame f x = (Some e, x') -> conv ph (w_conn x) -> conv ph (w_conn x').
Proof.
  unfold write_frame. rewrite write_bytes. unfold write, conn_writer.
  destruct (c_in_closed _); [by intros [= _ <-]|]. destruct (c_exit _); [by intros [= _ <-]|done].
Qed.

Lemma conv_write_ok f x x' :
  good_req f -> write_frame f x = (None, x') -> conv Ready (w_conn x) -> conv (Sent f) (w_conn x').
Proof.
  intros [Hf Ht]. unfold write_frame.
  destruct (WriteFrame new_write_buf (w_conn x) f) as [[e c] b] eqn:E. intros [= -> <-] Hc.
  destruct (conv_send answer f Ready (w_conn x) None c b Hc Hf E) as [_ Hs]. by apply Hs.
Qed.

Lemma ReadFrame_conn k x r x' :
  ReadFrame k x = Some (r, x') -> conn_ReadFrame k (w_conn x) = Some (r, w_conn x').
Proof.
  unfold ReadFrame. destruct (conn_ReadFrame k (w_conn x)) as [[r' c]|]; [|done].
  by intros [= <- <-].
Qed.

Lemma removeWorker_same w p :
  heap (removeWorker w p) = heap p /\ next_loc (removeWorker w p) = next_loc p
  /\ pool_tokens (removeWorker w p) = pool_tokens p
  /\ next_done (removeWorker w p) = next_done p /\ dones (removeWorker w p) = dones p.
Proof. unfold removeWorker. repeat case_match; done. Qed.

(** The request a thread works for. *)
Definition req_of (t : thread) : option Frame :=
  match t with
  | ExecCall req | ExecSelect req | ExecTaken req _ | ExecFork req _ | ExecWait req _ _
  | ExecCheck req _ _ | ExecReady req _ _ | ExecSend req _ _ | ExecReturn req _
  | RunLock _ req _ | RunBusy _ req _ | RunWrite _ req _ | RunRead _ req _
  | RunIdle _ req _ _ | RunCount _ req _ _ | RunUnlock _ req _ _ | RunSend _ req _ _
  | Finished (ExecResult req _) => Some req
  | _ => None
  end.
Definition good_thread (t : thread) : Prop := forall req, req_of t = Some req -> good_req req.

Ltac tokens_cbn :=
  unfold pool_tokens, idle_tokens;
  repeat match goal with H : available _ = _ |- _ => rewrite H end;
  cbn [talks answered map app mbind list_bind available dones map_err
       set_workers set_available set_closed set_nextID set_cancelled set_dones make_done
       add_total add_active add_busy set_worker alloc_worker after_send spawn_failed
       after_stop after_remove];
  rewrite ?map_app, ?app_nil_r; cbn [map app].

Lemma after_send_talks w k : talks (after_send w k) = [].
Proof. by destruct k. Qed.
Lemma spawn_failed_talks k : talks (spawn_failed k) = [].
Proof. by destruct k. Qed.
Lemma after_stop_talks w k : talks (after_stop w k) = [].
Proof. by destruct k. Qed.
Lemma after_remove_talks k : talks (after_remove k) = [].
Proof. by destruct k. Qed.
Lemma pool_stop_talks tid ws :
  (map (fun w => StopState w (ForPoolStop tid)) ws ≫= talks) = [].
Proof. by induction ws. Qed.

Ltac tokens_solve :=
  rewrite ?after_send_talks, ?spawn_failed_talks, ?after_stop_talks, ?after_remove_talks,
    ?pool_stop_talks;
  tokens_cbn; solve_submseteq.
Ltac keep := apply ch_keep; [done|apply undisturbed_refl|tokens_solve].

Abbreviation changed t p p' t' new :=
  (change (good_thread t) p p' (pool_tokens p ++ talks t)
     (pool_tokens p' ++ talks t' ++ (new ≫= talks))).

(** A worker changes, its conversation does not. *)
Lemma keep_worker ok p w x x' T T' :
  heap p !! w = Some x -> (forall ph, conv ph (w_conn x) -> conv ph (w_conn x')) -> T' ⊆+ T ->
  change ok p (set_worker w x' p) T T'.
Proof. intros. apply ch_keep; [done|by eapply undisturbed_set|done]. Qed.

(** The conversation with [w] moves on to [l]. *)
Lemma move_worker ok p w ph x x' l T T' :
  heap p !! w = Some x ->
  l = [] \/ (exists ph', l = [(w, ph')] /\ next_word ph ph'
             /\ (ok -> conv ph (w_conn x) -> conv ph' (w_conn x'))) ->
  T = pool_tokens p ++ [(w, ph)] -> T' ⊆+ l ++ pool_tokens p ->
  change ok p (set_worker w x' p) T T'.
Proof.
  intros Hx Hl HT HT'. eapply (ch_move ok p _ T T' w ph x x' l (pool_tokens p)); try done.
  by rewrite HT, Permutation_app_comm.
Qed.


Lemma is_ready_Ok r : is_ready r = true -> exists f, r = Ok f.
Proof. destruct r; [by eexists|done]. Qed.

Lemma spawn_change p t c p' t' new :
  spawn_step cfg p t c = Some (p', t', new) -> changed t p p' t' new.
Proof.
  intros H. step_cases H t c; try keep.
  - eapply ch_new; [done|done|apply (conv_new answer)|tokens_solve].
  - match goal with Hr : is_ready _ = true |- _ => destruct (is_ready_Ok _ Hr) as [f ->] end.
    eapply move_worker; [done| |done|].
    + right. eexists. split; [done|]. split; [auto with maboo|]. intros _ Hc.
      eapply conv_read_fresh; [done|by eapply ReadFrame_conn].
    + tokens_solve.
  - eapply move_worker; [done|by left|done|tokens_solve].
Qed.

(** What arrives on a request's channel is the result of its own goroutine. *)
Definition own_result (p : ProcPool) (t : thread) : Prop :=
  forall req w d er, t = ExecWait req w d -> dones p !! d = Some er ->
    w = Some (er_worker er) /\ req = er_req er.

Lemma exec_change p t c p' t' new :
  own_result p t -> exec_step cfg p t c = Some (p', t', new) -> changed t p p' t' new.
Proof.
  intros Hown H. step_cases H t c; try keep.
  1, 2: match goal with He : dones _ !! _ = Some ?er |- _ =>
      destruct (Hown _ _ _ _ eq_refl He) as [[= ->] ->];
      pose proof (done_tokens_delete _ _ _ He) as Hd end;
    apply ch_keep; [done|apply undisturbed_refl|];
    unfold pool_tokens; cbn [dones set_dones available]; rewrite Hd;
    match goal with Hr : er_result _ = _ |- _ => rewrite Hr end; tokens_solve.
  - match goal with Hr : is_ready _ = true |- _ => destruct (is_ready_Ok _ Hr) as [f ->] end.
    eapply move_worker; [done| |done|].
    + right. eexists. split; [done|]. split; [auto with maboo|]. intros _ Hc.
      eapply conv_read_ready; [done|by eapply ReadFrame_conn].
    + tokens_solve.
  - eapply move_worker; [done|by left|done|tokens_solve].
Qed.

Lemma run_change p t c p' t' new :
  run_step p t c = Some (p', t', new) -> changed t p p' t' new.
Proof.
  intros H. step_cases H t c; try keep.
  all: try (eapply keep_worker; [done|done|tokens_solve]).
  - eapply move_worker; [done|by left|done|tokens_solve].
  - eapply move_worker; [done| |done|].
    + right. eexists. split; [done|]. split; [auto with maboo|]. intros Hg Hc. eapply conv_write_ok; [by apply Hg|done|done].
    + tokens_solve.
  - eapply move_worker with (l := answered w req (map_err ReadingResponse r)); [done| |done|].
    + destruct r as [f|e]; [right|by left]. eexists. split; [done|]. split; [auto with maboo|]. intros _ Hc.
      eapply (conv_read_sent answer answer_fits); [done|by eapply ReadFrame_conn].
    + tokens_solve.
  - apply ch_keep; [done|apply undisturbed_refl|].
    unfold pool_tokens. cbn [dones set_dones available talks mbind list_bind].
    rewrite !app_nil_r, <- app_assoc. apply submseteq_app; [done|].
    etrans; [apply done_tokens_insert|]. cbn [er_worker er_req er_result].
    by rewrite Permutation_app_comm.
Qed.

Lemma stop_change p t c p' t' new :
  stop_step p t c = Some (p', t', new) -> changed t p p' t' new.
Proof.
  intros H. step_cases H t c; try keep.
  all: try (eapply keep_worker;
            [done|intros ph Hc; first [ exact Hc | by apply conv_stop_write | by eapply conv_Wait
                                      | eapply conv_ext; [..|exact Hc]; done ]
            |tokens_solve]).
  destruct (removeWorker_same w p) as (Eh & En & Et & _).
  apply ch_keep; [done|rewrite Eh; apply undisturbed_refl|rewrite Et; tokens_solve].
Qed.

Lemma watch_change p t c p' t' new :
  watch_step cfg p t c = Some (p', t', new) -> changed t p p' t' new.
Proof. intros H. step_cases H t c; keep. Qed.

Lemma reload_change p t c p' t' new :
  reload_step cfg p t c = Some (p', t', new) -> changed t p p' t' new.
Proof. intros H. step_cases H t c; keep. Qed.

Lemma start_change p t c p' t' new :
  start_step p t c = Some (p', t', new) -> changed t p p' t' new.
Proof. intros H. step_cases H t c; keep. Qed.

Lemma pool_stop_change tid b p t c p' t' new :
  pool_stop_step tid b p t c = Some (p', t', new) -> changed t p p' t' new.
Proof. intros H. step_cases H t c; keep. Qed.

Lemma tstep_change tid b p t c p' t' new :
  own_result p t -> tstep tid b p t c = Some (p', t', new) -> changed t p p' t' new.
Proof.
  intros Hown. destruct t; cbn [ProcPool.tstep];
    first [ apply start_change | apply spawn_change | by apply exec_change | apply run_change
          | apply stop_change | apply watch_change | apply reload_change
          | apply pool_stop_change | done ].
Qed.
(** ** Nobody else converses with a worker *)

Definition distinct (n : nat) (T : list token) : Prop :=
  NoDup T.*1 /\ Forall (fun w => (w < n)%nat) T.*1.

Lemma distinct_sub n T T' : T' ⊆+ T -> distinct n T -> distinct n T'.
Proof.
  intros Hs%(fmap_submseteq fst) [H1 H2].
  split; [by eapply NoDup_submseteq_inv|by eapply Forall_submseteq].
Qed.

Lemma change_distinct ok p p' T T' :
  change ok p p' T T' -> distinct (next_loc p) T -> distinct (next_loc p') T'.
Proof.
  intros [-> _ Hs|w ph x x' l R -> _ _ Hs Hs' Hl|x -> _ _ Hs] H.
  - by eapply distinct_sub.
  - apply (distinct_sub _ _ _ Hs) in H. eapply distinct_sub; [exact Hs'|].
    destruct Hl as [->|(ph' & -> & _ & _)]; [|exact H].
    eapply distinct_sub; [|exact H]. by apply submseteq_cons.
  - eapply distinct_sub; [exact Hs|]. destruct H as [H1 H2]. split; cbn.
    + constructor; [|done]. intros Hin. rewrite Forall_forall in H2. apply H2 in Hin. lia.
    + constructor; [lia|]. eapply Forall_impl; [done|]. simpl. lia.
Qed.

Lemma change_frame ok p p' T T' R : change ok p p' T T' -> change ok p p' (T ++ R) (T' ++ R).
Proof.
  intros [E Hu Hs|w ph x x' l R' E Hx Eh Hs Hs' Hl|x E Eh Hc Hs].
  - apply ch_keep; [done|done|]. by apply submseteq_app.
  - eapply (ch_move ok p p' _ _ w ph x x' l (R' ++ R)); try done.
    + by apply (submseteq_app ((w, ph) :: R') T R R).
    + rewrite app_assoc. by apply submseteq_app.
  - eapply (ch_new ok p p' _ _ x); try done. rewrite app_comm_cons. by apply submseteq_app.
Qed.

(** A step of the machine is a call, a step of one thread among the others, or a process's. *)
Lemma proc_step_inv s e s' :
  step s e = Some s' ->
  (exists t, pool s' = pool s /\ threads s' ≡ₚ t :: threads s /\ talks t = []
             /\ match e with CallExec req => t = ExecCall req | _ => req_of t = None end)
  \/ (exists tid t b c t' new rest,
      tstep tid b (pool s) t c = Some (pool s', t', new)
      /\ threads s ≡ₚ t :: rest /\ threads s' ≡ₚ t' :: new ++ rest)
  \/ (exists w x c, heap (pool s) !! w = Some x /\ pool s' = set_worker w (set_conn c x) (pool s)
        /\ threads s' = threads s
        /\ ((exists bs, c = php_writes bs (w_conn x)
                        /\ php_may (c_stdin c) (c_stdout c) = true)
            \/ (exists k, c = php_exits k (w_conn x)))).
Proof.
  destruct e as [|req| | |tid c|w bs|w k]; cbn -[ProcPool.tstep].
  1-4: unfold call; intros [= <-]; left; eexists; simpl;
       (split; [done|split; [symmetry; apply Permutation_cons_append|done]]).
  - intros (t & Ht & H)%bind_Some. apply bind_Some in H as ([[p t'] new] & Hs & [= <-]).
    right; left. destruct (insert_Permutation _ _ t t' Ht) as (rest & H1 & H2).
    eexists tid, t, _, c, t', new, rest. split; [exact Hs|]. split; [done|].
    cbn [threads]. rewrite H2. simpl. by rewrite (Permutation_app_comm rest new).
  - intros (p & Hp & [= <-])%bind_Some. apply bind_Some in Hp as (x & Hx & H). cbn in H.
    destruct (bool_decide _ && php_may _ _) eqn:E; [|done]. injection H as <-.
    apply andb_true_iff in E as [_ E].
    right; right. exists w, x, (php_writes bs (w_conn x)). split_and!; [done..|].
    left. by exists bs.
  - intros (p & Hp & [= <-])%bind_Some. apply bind_Some in Hp as (x & Hx & H).
    cbn in H. rewrite andb_true_r in H.
    destruct (bool_decide _) eqn:E; [|done]. injection H as <-.
    right; right. exists w, x, (php_exits k (w_conn x)). split_and!; [done..|].
    right. by exists k.
Qed.

(** ** A result reaches the request it belongs to *)

(** The use of a [done] channel: for which worker and request. *)
Abbreviation use := (nat * (option loc * Frame))%type (only parsing).

Definition uses_of (t : thread) : list use :=
  match t with
  | ExecWait req w d => [(d, (w, req))]
  | RunLock w req d => [(d, (w, req))]
  | RunBusy w req d | RunWrite w req d | RunRead w req d | RunIdle w req d _
  | RunCount w req d _ | RunUnlock w req d _ | RunSend w req d _ => [(d, (Some w, req))]
  | _ => []
  end.
Definition in_channel (p : ProcPool) (u : use) : Prop :=
  exists er, dones p !! (fst u) = Some er /\ snd u = (Some (er_worker er), er_req er).
Definition used (p : ProcPool) (ts : list thread) (u : use) : Prop :=
  in_channel p u \/ u ∈ (ts ≫= uses_of).

Lemma after_send_uses w k : uses_of (after_send w k) = [].
Proof. by destruct k. Qed.
Lemma spawn_failed_uses k : uses_of (spawn_failed k) = [].
Proof. by destruct k. Qed.
Lemma after_stop_uses w k : uses_of (after_stop w k) = [].
Proof. by destruct k. Qed.
Lemma after_remove_uses k : uses_of (after_remove k) = [].
Proof. by destruct k. Qed.
Lemma pool_stop_uses tid ws :
  (map (fun w => StopState w (ForPoolStop tid)) ws ≫= uses_of) = [].
Proof. by induction ws. Qed.

Lemma used_received p d t0 new u t :
  uses_of t0 = [] -> (new ≫= uses_of) = [] ->
  used (set_dones (delete d (dones p)) p) (t0 :: new) u -> used p [t] u.
Proof.
  intros E1 E2 [(er & Hl & Hu)|Hu].
  - left. exists er. split; [|done]. cbn in Hl. by apply lookup_delete_Some in Hl as [_ ?].
  - cbn [mbind list_bind] in Hu. rewrite E1, E2 in Hu. by apply elem_of_nil in Hu.
Qed.

Lemma tstep_uses tid b p t c p' t' new :
  tstep tid b p t c = Some (p', t', new) ->
  (next_done p' = next_done p /\ forall u, used p' (t' :: new) u -> used p [t] u)
  \/ (next_done p' = S (next_done p) /\ exists a,
       forall u, used p' (t' :: new) u -> u = (next_done p, a) \/ used p [t] u).
Proof.
  intros H. step_cases H t c.
  all: repeat match goal with |- context [removeWorker ?w ?p] =>
    destruct (removeWorker_same w p) as (_ & _ & _ & -> & Ed) end.
  all: try (left; split; [done|]; intros u [Hc|Hu]; [left|right];
    [first [exact Hc | by rewrite Ed in Hc | idtac]|];
    cbn [mbind list_bind uses_of app] in *;
    rewrite ?after_send_uses, ?spawn_failed_uses, ?after_stop_uses, ?after_remove_uses,
      ?pool_stop_uses in Hu; cbn in *; first [done | by apply elem_of_nil in Hu]).
  - right. split; [done|]. exists (w, req). intros u [Hc|Hu]; [by right; left|].
    left. cbn in Hu. by rewrite !elem_of_cons, elem_of_nil in Hu; destruct Hu as [?|[?|[]]].
  - left. split; [done|]. intros u. by apply used_received.
  - left. split; [done|]. intros u. by apply used_received.
  - left. split; [done|]. intros u [(er & Hl & Hu)|Hu]; [|by apply elem_of_nil in Hu].
    destruct u as [d a]. cbn in Hl, Hu. subst a.
    destruct (decide (d = done)) as [->|Hne].
    + rewrite lookup_insert_eq in Hl. injection Hl as <-. right. by left.
    + rewrite lookup_insert_ne in Hl by done. left. by exists er.
  - left. split; [done|]. intros u [Hc|Hu].
    + left. unfold in_channel in *. by rewrite Ed in Hc.
    + cbn in Hu. rewrite after_remove_uses in Hu. by apply elem_of_nil in Hu.
Qed.

Definition one_use (s : state) : Prop :=
  (forall d a b, used (pool s) (threads s) (d, a) -> used (pool s) (threads s) (d, b) -> a = b)
  /\ (forall d a, used (pool s) (threads s) (d, a) -> (d < next_done (pool s))%nat).

Lemma used_cons p t ts u : used p (t :: ts) u <-> used p [t] u \/ u ∈ (ts ≫= uses_of).
Proof. unfold used. cbn [mbind list_bind]. rewrite app_nil_r, elem_of_app. tauto. Qed.

Lemma used_perm p ts ts' u : ts ≡ₚ ts' -> used p ts u -> used p ts' u.
Proof. unfold used. by intros ->. Qed.

Lemma used_app p ts us u : used p (ts ++ us) u <-> used p ts u \/ u ∈ (us ≫= uses_of).
Proof. unfold used. rewrite bind_app, elem_of_app. tauto. Qed.

Lemma one_use_step s e s' : one_use s -> step s e = Some s' -> one_use s'.
Proof.
  unfold one_use. intros [H1 H2] [(t & -> & Ht & _ & Hreq)|[(tid & t & b & c & t' & new & rest & Hs & E1 & E2)
    |(w & x & c & _ & -> & -> & _)]]%proc_step_inv; [| |done].
  - assert (uses_of t = []) as Hu by (destruct e; try (by subst t); by destruct t).
    assert (forall u, used (pool s) (threads s') u -> used (pool s) (threads s) u) as Hsub.
    { intros u Hin%(used_perm _ _ _ _ Ht). unfold used in *. cbn [mbind list_bind] in Hin.
      by rewrite Hu in Hin. }
    split; eauto.
  - assert (forall u, used (pool s') (threads s') u ->
              used (pool s') (t' :: new) u \/ u ∈ (rest ≫= uses_of)) as Hin.
    { intros u Hu%(used_perm _ _ _ _ E2). rewrite app_comm_cons in Hu. by apply used_app. }
    assert (forall u, used (pool s) [t] u \/ u ∈ (rest ≫= uses_of) ->
              used (pool s) (threads s) u) as Hout.
    { intros u Hu%used_cons. by eapply used_perm. }
    destruct (tstep_uses _ _ _ _ _ _ _ _ Hs) as [[-> Hold]|[-> [a Hnew]]].
    + assert (forall u, used (pool s') (threads s') u -> used (pool s) (threads s) u) as Hsub
        by (intros u [Hu|Hu]%Hin; apply Hout; auto).
      split; eauto.
    + assert (forall u, used (pool s') (threads s') u ->
                u = (next_done (pool s), a) \/ used (pool s) (threads s) u) as Hsub.
      { intros u [Hu|Hu]%Hin; [|right; auto]. destruct (Hnew u Hu) as [?|?]; [auto|right; auto]. }
      split.
      * intros d a1 a2 U1%Hsub U2%Hsub.
        destruct U1 as [U1|U1], U2 as [U2|U2]; simplify_eq;
          [done|apply H2 in U2; lia|apply H2 in U1; lia|by eapply H1].
      * intros d a1 [[= -> ->]|U1]%Hsub; [lia|]. apply H2 in U1. lia.
Qed.

Lemma one_use_own s tid t b c p' t' new rest :
  one_use s -> threads s ≡ₚ t :: rest ->
  tstep tid b (pool s) t c = Some (p', t', new) -> own_result (pool s) t.
Proof.
  intros [H1 _] Ht _ req w d er -> Hd.
  assert ((w, req) = (Some (er_worker er), er_req er)) as [= -> ->]; [|done].
  apply (H1 d).
  - eapply used_perm; [symmetry; exact Ht|]. right. cbn. by left.
  - left. by exists er.
Qed.

(** ** Nobody else converses with a worker *)

Definition linear (s : state) : Prop := one_use s /\ distinct (next_loc (pool s)) (tokens s).

Lemma tokens_thread p ts t rest :
  ts ≡ₚ t :: rest ->
  pool_tokens p ++ (ts ≫= talks) ≡ₚ (pool_tokens p ++ talks t) ++ (rest ≫= talks).
Proof. intros ->. cbn [mbind list_bind]. by rewrite app_assoc. Qed.

Lemma tokens_threads p ts t new rest :
  ts ≡ₚ t :: new ++ rest ->
  pool_tokens p ++ (ts ≫= talks)
  ≡ₚ (pool_tokens p ++ talks t ++ (new ≫= talks)) ++ (rest ≫= talks).
Proof. intros ->. rewrite bind_cons, bind_app. by rewrite !app_assoc. Qed.

Lemma distinct_perm n T T' : T ≡ₚ T' -> distinct n T -> distinct n T'.
Proof. intros E. apply distinct_sub. by rewrite E. Qed.

Lemma step_change s s' tid t b c t' new rest :
  one_use s -> tstep tid b (pool s) t c = Some (pool s', t', new) ->
  threads s ≡ₚ t :: rest -> threads s' ≡ₚ t' :: new ++ rest ->
  exists T T', T ≡ₚ tokens s /\ T' ≡ₚ tokens s'
               /\ change (good_thread t) (pool s) (pool s') T T'.
Proof.
  intros Hone Hs E1 E2.
  exists ((pool_tokens (pool s) ++ talks t) ++ (rest ≫= talks)),
    ((pool_tokens (pool s') ++ talks t' ++ (new ≫= talks)) ++ (rest ≫= talks)).
  split; [symmetry; by apply tokens_thread|]. split; [symmetry; by apply tokens_threads|].
  apply change_frame. eapply tstep_change; [by eapply one_use_own|done].
Qed.

Lemma linear_step s e s' : linear s -> step s e = Some s' -> linear s'.
Proof.
  intros [Hone Hd] Hs. split; [by eapply one_use_step|].
  destruct (proc_step_inv _ _ _ Hs) as [(t & Ep & Ht & Hn & _)|[(tid & t & b & c & t' & new & rest & Hts & E1 & E2)
    |(w & x & c & _ & Ep & Ets & _)]].
  - unfold tokens in *. rewrite Ep. eapply distinct_perm; [|exact Hd].
    rewrite Ht. cbn [mbind list_bind]. by rewrite Hn.
  - destruct (step_change _ _ _ _ _ _ _ _ _ Hone Hts E1 E2) as (T & T' & ET & ET' & Hc).
    apply (distinct_perm _ T' _ ET'), (change_distinct _ _ _ _ _ Hc).
    by apply (distinct_perm _ (tokens s)).
  - unfold tokens in *. by rewrite Ep, Ets.
Qed.

Lemma proc_linear_reachable P s : reachable P s -> linear s.
Proof.
  induction 1 as [|s e s' _ IH _ Hs]; [|by eapply linear_step].
  split; [split|split].
  - intros d a b [(er & Hl & _)|Hu]; [by apply (lookup_empty_Some d er) in Hl|by apply elem_of_nil in Hu].
  - intros d a [(er & Hl & _)|Hu]; [by apply (lookup_empty_Some d er) in Hl|by apply elem_of_nil in Hu].
  - constructor.
  - constructor.
Qed.
(** The worker a request or its goroutine converses with. *)
Definition conversing (t : thread) : option loc := fst <$> head (talks t).

Lemma conversing_talks t w : conversing t = Some w -> exists ph, talks t = [(w, ph)].
Proof.
  unfold conversing. destruct t; cbn; try done;
    try match goal with v : option _ |- _ => destruct v end;
    try match goal with r : result _ exec_error |- _ => destruct r end;
    cbn; intros [= <-]; by eexists.
Qed.

Lemma linear_exclusive s i j ti tj w :
  linear s -> threads s !! i = Some ti -> threads s !! j = Some tj ->
  conversing ti = Some w -> conversing tj = Some w -> i = j.
Proof.
  intros [_ [Hd _]] Hi Hj Ci Cj.
  unfold tokens in Hd. rewrite fmap_app, list_bind_fmap in Hd. apply NoDup_app in Hd as (_ & _ & Hd).
  apply (NoDup_bind_lookup _ (threads s) i j ti tj w Hd Hi Hj).
  - destruct (conversing_talks _ _ Ci) as [ph E]. cbn. rewrite E. by left.
  - destruct (conversing_talks _ _ Cj) as [ph E]. cbn. rewrite E. by left.
Qed.

Lemma linear_available s i t w :
  linear s -> threads s !! i = Some t -> conversing t = Some w -> w ∉ available (pool s).
Proof.
  intros [_ [Hd _]] Hi Ct Hin. unfold tokens, pool_tokens, idle_tokens in Hd.
  rewrite <- app_assoc, fmap_app in Hd. apply NoDup_app in Hd as (_ & Hd & _).
  destruct (conversing_talks _ _ Ct) as [ph E]. apply (Hd w).
  - apply list_elem_of_fmap. exists (w, Ready). split; [done|].
    apply list_elem_of_fmap. by exists w.
  - apply list_elem_of_fmap. exists (w, ph). split; [done|].
    apply elem_of_app. right. apply list_elem_of_bind. exists t. rewrite E.
    split; [by left|by eapply list_elem_of_lookup_2].
Qed.
End Inv.
