(* ===== verification/ProcPoolConv.v ===== *)
(** The conversations of the pool of PHP processes stay in step: with processes that answer
    in order, every request gets its own answer, under every interleaving, time-outs, reloads
    and shutdowns included. *)
From S2P Require Import Prelude GoIO GoSlice Wire Config GoFloat ProcWorker ProcPool ProcPoolInv.
From stdpp Require Import gmap.
Local Open Scope Z_scope.

(** The calls of [Exec] ask for something the wire can carry. *)
Definition good_event (e : event) : Prop :=
  match e with CallExec req => good_req req | _ => True end.

Section Conv.
Context (php_may : list byte -> list byte -> bool) (cfg : Config).
Context (answer : list Frame -> Frame) (answer_fits : forall h, fits (answer h)).
Context (php_answers : answers_in_order answer php_may).

Abbreviation tstep := (tstep cfg).
Abbreviation step := (step php_may cfg).
Abbreviation reachable := (reachable php_may cfg good_event).
Abbreviation conv := (conv answer).
Abbreviation change := (change answer).

(** Every token stands for a conversation that follows the protocol. *)
Definition convs (p : ProcPool) (T : list token) : Prop :=
  forall w ph, (w, ph) ∈ T -> exists x, heap p !! w = Some x /\ conv ph (w_conn x).

Lemma convs_sub p T T' : T' ⊆+ T -> convs p T -> convs p T'.
Proof. intros Hs H w ph Hin. by eapply H, elem_of_submseteq. Qed.

Lemma change_convs ok p p' T T' :
  change ok p p' T T' -> ok -> distinct (next_loc p) T -> convs p T -> convs p' T'.
Proof.
  intros Hc Hok Hd H. destruct Hc as [_ Hu Hs|w ph x x' l R _ Hx Eh Hs Hs' Hl|x _ Eh Hcv Hs].
  - apply (convs_sub _ _ _ Hs). intros w ph Hin. destruct (H _ _ Hin) as (x & Hx & Hcv).
    by apply (Hu w x).
  - apply (convs_sub _ _ _ Hs'). apply (convs_sub _ _ _ Hs) in H.
    apply (distinct_sub _ _ _ Hs) in Hd as [Hd _]. cbn in Hd. apply NoDup_cons in Hd as [Hw _].
    intros v ph0 [Hin|Hin]%elem_of_app; rewrite Eh.
    + destruct Hl as [->|(ph' & -> & _ & Hcv)]; [by apply elem_of_nil in Hin|].
      apply list_elem_of_singleton in Hin as [= -> ->]. rewrite lookup_insert_eq.
      exists x'. split; [done|]. apply Hcv; [done|].
      destruct (H w ph) as (y & Hy & Hyc); [by left|]. by simplify_eq.
    + rewrite lookup_insert_ne; [by apply H; right|]. intros ->. apply Hw.
      apply list_elem_of_fmap. by exists (v, ph0).
  - apply (convs_sub _ _ _ Hs). intros v ph [[= -> ->]|Hin]%elem_of_cons; rewrite Eh.
    + rewrite lookup_insert_eq. by exists x.
    + rewrite lookup_insert_ne; [by apply H|]. intros <-. destruct Hd as [_ Hd].
      rewrite Forall_forall in Hd.
      assert (next_loc p < next_loc p)%nat; [apply Hd|lia].
      apply list_elem_of_fmap. by exists (next_loc p, ph).
Qed.

(** A request that has been answered has its own answer: what the worker replies to it, after
    the requests it had before. *)
Definition right_answer (req resp : Frame) : Prop := exists h, resp = answer (h ++ [req]).

Definition right_thread (t : thread) : Prop :=
  match t with
  | ExecSend req _ resp | ExecReturn req (Ok resp) | Finished (ExecResult req (Ok resp)) =>
      right_answer req resp
  | _ => True
  end.

Lemma conv_right req resp c : conv (Answered req resp) c -> right_answer req resp.
Proof. intros [h Hc]. exists h. apply (cv_phase _ _ _ _ Hc). Qed.

(** The threads of a step are right, and work for good requests, when the thread was. *)
Definition fine (t : thread) : Prop := right_thread t /\ good_thread t.

Lemma quiet_fine t : req_of t = None -> right_thread t -> fine t.
Proof. intros Hr Hq. split; [done|]. intros req E. congruence. Qed.

Lemma idle_fine t : req_of t = None -> fine t.
Proof. intros Hr. apply quiet_fine; [done|]. destruct t; try done. by destruct o. Qed.

Lemma same_fine t t' : good_thread t -> req_of t' = req_of t -> right_thread t' -> fine t'.
Proof. intros Hg E Hr. split; [done|]. intros req Hq. apply Hg. congruence. Qed.

Lemma tstep_fine tid b p t c p' t' new :
  tstep tid b p t c = Some (p', t', new) -> convs p (talks t) -> fine t ->
  Forall fine (t' :: new).
Proof.
  intros H Hc [Hr Hg].
  assert (forall w req resp, (w, Answered req resp) ∈ talks t -> right_answer req resp) as Hans.
  { intros w req resp Hin. destruct (Hc _ _ Hin) as (x & _ & Hx). by eapply conv_right. }
  step_cases H t c.
  all: try match goal with k : spawner |- _ => destruct k | k : stopper |- _ => destruct k end.
  all: repeat (apply Forall_cons_2 || apply Forall_nil_2).
  all: try (by apply quiet_fine).
  all: try (apply (same_fine _ _ Hg); [done|]; first
    [ exact I | exact Hr | eapply Hans; by left ]).
  apply Forall_fmap, Forall_true. intros w. by apply quiet_fine.
Qed.

(** Everything that is claimed of the reachable states. *)
Record in_step (s : state) : Prop := MkInStep {
  is_linear : linear s;
  is_conv : convs (pool s) (tokens s);
  is_fine : Forall fine (threads s)
}.

Lemma convs_perm p T T' : T ≡ₚ T' -> convs p T -> convs p T'.
Proof. intros E. apply convs_sub. by rewrite E. Qed.

(** A process's own step keeps its conversation. *)
Lemma php_convs p w x c T :
  heap p !! w = Some x ->
  (exists bs, c = php_writes bs (w_conn x) /\ php_may (c_stdin c) (c_stdout c) = true)
  \/ (exists k, c = php_exits k (w_conn x)) ->
  convs p T -> convs (set_worker w (set_conn c x) p) T.
Proof.
  intros Hx Hphp H v ph Hin. destruct (H _ _ Hin) as (y & Hy & Hcv). cbn [heap set_worker].
  destruct (decide (v = w)) as [->|Hne]; [|rewrite lookup_insert_ne by done; eauto].
  rewrite lookup_insert_eq. eexists. split; [done|]. simplify_eq.
  destruct Hphp as [(bs & -> & Hm)|(k & ->)].
  - by apply (conv_php_writes answer php_may).
  - by eapply conv_ext; [..|exact Hcv].
Qed.

Lemma in_step_step s e s' : in_step s -> good_event e -> step s e = Some s' -> in_step s'.
Proof.
  intros [Hlin Hc Hf] He Hs. pose proof (linear_step _ _ answer answer_fits _ _ _ Hlin Hs) as Hlin'.
  destruct (proc_step_inv _ _ _ _ _ Hs) as [(t & Ep & Ht & Hn & Hreq)|[(tid & t & b & c & t' & new & rest & Hts & E1 & E2)
    |(w & x & c & Hx & Ep & Ets & Hphp)]].
  - constructor; [done| |].
    + rewrite Ep. eapply convs_perm; [|exact Hc]. unfold tokens. rewrite Ep, Ht.
      cbn [mbind list_bind]. by rewrite Hn.
    + rewrite Ht. constructor; [|done]. destruct e; subst; try (by apply idle_fine).
      split; [done|]. intros r [= <-]. exact He.
  - rewrite E1 in Hf. apply Forall_cons in Hf as [Hft Hfr].
    destruct (step_change cfg answer answer_fits _ _ _ _ _ _ _ _ _ (proj1 Hlin) Hts E1 E2)
      as (T & T' & ET & ET' & Hch).
    pose proof Hlin as [_ Hd].
    constructor; [done| |].
    + apply (convs_perm _ T' _ ET'). eapply (change_convs _ _ _ _ _ Hch); [apply Hft| |].
      * by apply (distinct_perm _ (tokens s)).
      * by apply (convs_perm _ (tokens s)).
    + rewrite E2. apply (tstep_fine _ _ _ _ _ _ _ _ Hts) in Hft; [|].
      * rewrite app_comm_cons. by apply Forall_app.
      * eapply convs_sub; [|exact Hc]. unfold tokens. rewrite E1. cbn [mbind list_bind].
        apply submseteq_inserts_l, submseteq_inserts_r. done.
  - constructor; [done| |by rewrite Ets].
    unfold tokens. rewrite Ets, Ep. by apply php_convs.
Qed.

Lemma in_step_reachable s : reachable s -> in_step s.
Proof.
  induction 1 as [|s e s' Hr IH He Hs]; [|by eapply in_step_step].
  constructor; [|by intros w ph ?%elem_of_nil|constructor].
  - by eapply (proc_linear_reachable php_may cfg answer answer_fits), (reach_init _ _ good_event).
Qed.

(** C5. Every answer is the answer to its own request: with processes that answer their
    requests in order and say when they are ready, a call of [Exec] that returns a response
    returns what the worker answers to that very request, under every interleaving of
    requests with time-outs, crashes, recycling, scaling, reloads and shutdowns. *)
Theorem own_answers (s : state) (req resp : Frame) :
  reachable s -> Finished (ExecResult req (Ok resp)) ∈ threads s ->
  exists h, resp = answer (h ++ [req]).
Proof.
  intros Hr Hin. apply in_step_reachable in Hr as [_ _ Hf].
  rewrite Forall_forall in Hf. by destruct (Hf _ Hin).
Qed.
End Conv.

(** Nobody else talks to a worker: whatever the processes do and however the calls
    interleave, two goroutines never converse with the same worker, and a worker in
    conversation is not in the channel of available workers. *)
Theorem exclusive_conversation (php_may : list byte -> list byte -> bool) (cfg : Config)
    (P : event -> Prop) (s : state) :
  reachable php_may cfg P s ->
  (forall i j t u w, threads s !! i = Some t -> threads s !! j = Some u ->
     conversing t = Some w -> conversing u = Some w -> i = j)
  /\ (forall i t w, threads s !! i = Some t -> conversing t = Some w ->
        w ∉ available (pool s)).
Proof.
  intros Hr. assert (linear s) as Hl.
  { by eapply (proc_linear_reachable php_may cfg (fun _ => NewWorkerReadyFrame) (fun _ => fits_ready)). }
  split; intros; [by eapply linear_exclusive|by eapply linear_available].
Qed.

(** ** At concrete inputs *)

(** A program that answers with a [Response] frame carrying the payload of the request. *)
Definition echo (h : list Frame) : Frame :=
  match last h with
  | Some req => MkFrame TypeResponse Byte.x00 0 [] (take 100 (Payload req))
  | None => NewWorkerReadyFrame
  end.

(** What it may have written, given the bytes it was sent. *)
Definition sent_frames (sin : list byte) : list Frame :=
  fst (fst (read_frames (length sin) (flat_reader sin EOF))).
Definition echo_may (sin out : list byte) : bool :=
  bool_decide (out `prefix_of` dialogue echo (requests (sent_frames sin))).

Lemma echo_fits h : fits (echo h).
Proof.
  unfold echo. destruct (last h) as [req|]; [|apply fits_ready].
  unfold fits. cbn [StreamID Headers Payload]. split_and!; [lia|done|cbn; lia|].
  rewrite length_take. lia.
Qed.

Lemma read_frames_all fs n r :
  Forall fits fs -> rd_bytes r = concat (map encode_frame fs) -> rd_end r = EOF ->
  (length fs <= n)%nat -> fst (fst (read_frames n r)) = fs.
Proof.
  intros Hfs. revert n r. induction Hfs as [|f fs Hf Hfs IH]; intros n r Hr He Hn.
  - destruct n as [|n]; [done|]. cbn [read_frames].
    pose proof (ReadFrame_parse r) as (Hp & _ & _). rewrite Hr, He in Hp.
    destruct (Wire.ReadFrame r) as [res r']. cbn in Hp. by subst.
  - destruct n as [|n]; [cbn in Hn; lia|]. cbn in Hr.
    destruct (ReadFrame_encode r f _ Hf Hr) as (r' & Er & Hb & He'). cbn [read_frames].
    rewrite Er. specialize (IH n r' Hb ltac:(congruence) ltac:(cbn in Hn; lia)).
    destruct (read_frames n r') as [[gs e] r'']. cbn in *. by rewrite IH.
Qed.

Lemma echo_answers : answers_in_order echo echo_may.
Proof.
  intros fs out Hfs Hm. apply bool_decide_eq_true in Hm.
  unfold sent_frames in Hm. rewrite (read_frames_all fs) in Hm; [done|done| |done|].
  - unfold flat_reader, rd_bytes. cbn [rd_chunks concat]. by rewrite app_nil_r.
  - clear. induction fs as [|f fs IH]; [cbn; lia|]. cbn [map concat length]. rewrite length_app.
    unfold encode_frame at 1. rewrite length_app, length_map, length_header_stores.
    unfold FrameHeaderSize. lia.
Qed.

Lemma proc_run_reachable php_may cfg (P : event -> Prop) es : forall s s',
  reachable php_may cfg P s -> Forall P es -> run php_may cfg s es = Some s' ->
  reachable php_may cfg P s'.
Proof.
  induction es as [|e es IH]; intros s s' Hr Hes; cbn [run]; [by intros [= <-]|].
  inversion_clear Hes. destruct (step php_may cfg s e) as [s1|] eqn:E; cbn; [|done].
  apply IH; [by eapply reach_step|done].
Qed.

(** The state a run of the echo pool reaches, the initial one when it is not a run. *)
Definition after (cfg : Config) (es : list event) : state :=
  default init (run echo_may cfg init es).

Lemma proc_after_reachable cfg P es : Forall P es -> reachable echo_may cfg P (after cfg es).
Proof.
  intros Hes. unfold after. destruct (run echo_may cfg init es) eqn:E; simpl; [|apply reach_init].
  eapply proc_run_reachable; [apply reach_init|done|exact E].
Qed.

Definition small_cfg (mn mx jobs timeout : Z) : Config :=
  MkConfig (Server Default) (PHP Default) (MkPoolConfig mn mx jobs "128M" 0 0 timeout)
    (App Default) (WebSocket Default) (Static Default) (Logging Default)
    (Metrics Default) (Watch Default) [].

Definition goes (tid n : nat) : list event := repeat (Run tid (Go 0)) n.
Definition ready_bytes : list byte := encode_frame NewWorkerReadyFrame.

(** [Start] of a pool of one: worker 0 is spawned and says it is ready; the watchdog is
    thread 1. *)
Definition start_one : list event :=
  [CallStart] ++ goes 0 2 ++ [PhpWrites 0 ready_bytes] ++ goes 0 4.

(** A request, thread [tid] with its goroutine [S tid], up to its wait for [WORKER_READY]. *)
Definition ask (tid : nat) (req : Frame) : list event :=
  [CallExec req] ++ goes tid 4 ++ goes (S tid) 3
    ++ [PhpWrites 0 (encode_frame (echo [req]))] ++ goes (S tid) 5 ++ goes tid 2.

Definition asked : list event :=
  start_one ++ ask 2 example_frame ++ [PhpWrites 0 ready_bytes] ++ goes 2 3.

Lemma example_good : good_req example_frame.
Proof. split; [unfold fits; vm_compute; done|discriminate]. Qed.

Lemma asked_good : Forall good_event asked.
Proof.
  unfold asked, start_one, ask, goes. cbn [repeat app].
  repeat (constructor; [first [exact I | exact example_good]|]). constructor.
Qed.

Lemma own_answers_witness : exists h, echo [example_frame] = echo (h ++ [example_frame]).
Proof.
  apply (own_answers echo_may (small_cfg 1 1 0 5) echo echo_fits echo_answers
           (after (small_cfg 1 1 0 5) asked) example_frame).
  - apply proc_after_reachable, asked_good.
  - apply (list_elem_of_lookup_2 _ 2). vm_compute. reflexivity.
Defined.

(** While the request converses with worker 0. *)
Lemma exclusive_conversation_witness :
  0%nat ∉ available (pool (after (small_cfg 1 1 0 5) (start_one ++ ask 2 example_frame))).
Proof.
  eapply (exclusive_conversation echo_may (small_cfg 1 1 0 5) (fun _ => True)) with (i := 2%nat).
  - apply proc_after_reachable. by apply Forall_true.
  - vm_compute. reflexivity.
  - vm_compute. reflexivity.
Defined.
