(* ===== verification/ProcPoolSpec.v ===== *)
(** What the pool of PHP processes promises, as an abstract system of conversations, and that
    the machine of [ProcPool] implements it. *)
From S2P Require Import Prelude GoIO GoSlice Wire Config GoFloat ProcWorker ProcPool.
From S2P Require Import ProcPoolInv ProcPoolConv.
From stdpp Require Import gmap.
Local Open Scope Z_scope.

(** ** The specification *)

(** How many workers have been made, and the conversations that are going on: with which
    worker, and at which word of the protocol. *)
Record system := MkSystem { made : nat; conversations : list token }.

(** A conversation is given up; begun, with a new worker; or moves on by one word. Others may be
    given up at the same time. *)
Inductive system_step : system -> system -> Prop :=
| sys_give_up A T' :
    T' ⊆+ conversations A -> system_step A (MkSystem (made A) T')
| sys_begin A T' :
    T' ⊆+ (made A, Started) :: conversations A -> system_step A (MkSystem (S (made A)) T')
| sys_say A w ph ph' R T' :
    (w, ph) :: R ⊆+ conversations A -> next_word ph ph' -> T' ⊆+ (w, ph') :: R ->
    system_step A (MkSystem (made A) T').

(** With a worker there is one conversation at most. *)
Definition well_formed (A : system) : Prop := distinct (made A) (conversations A).

Lemma system_step_wf A A' : well_formed A -> system_step A A' -> well_formed A'.
Proof.
  intros Hwf Hs. destruct Hs as [A T' Hs|A T' Hs|A w ph ph' R T' Hs Hn Hs'].
  - by eapply distinct_sub.
  - eapply distinct_sub; [exact Hs|]. destruct Hwf as [H1 H2]. split; cbn.
    + constructor; [|done]. intros Hin. rewrite Forall_forall in H2. apply H2 in Hin. lia.
    + constructor; [lia|]. eapply Forall_impl; [done|]. simpl. lia.
  - apply (distinct_sub _ _ _ Hs) in Hwf. by eapply distinct_sub.
Qed.

(** A worker whose conversation was given up never has one again. *)
Lemma system_step_retired A A' w :
  system_step A A' -> (w < made A)%nat -> w ∉ (conversations A).*1 ->
  (w < made A')%nat /\ w ∉ (conversations A').*1.
Proof.
  intros Hs Hlt Hw. destruct Hs as [A T' Hs|A T' Hs|A v ph ph' R T' Hs Hn Hs']; cbn.
  - split; [done|]. intros Hin. apply Hw.
    by eapply elem_of_submseteq, (fmap_submseteq fst).
  - split; [lia|]. intros Hin. eapply elem_of_submseteq in Hin; [|by apply (fmap_submseteq fst)].
    cbn in Hin. apply elem_of_cons in Hin as [->|Hin]; [lia|done].
  - split; [done|]. intros Hin. apply Hw.
    eapply elem_of_submseteq; [|by apply (fmap_submseteq fst)].
    eapply elem_of_submseteq in Hin; [|by apply (fmap_submseteq fst)]. exact Hin.
Qed.

(** ** The refinement *)

Section Refinement.
Context (php_may : list byte -> list byte -> bool) (cfg : Config).
Context (answer : list Frame -> Frame) (answer_fits : forall h, fits (answer h)).
Context (php_answers : answers_in_order answer php_may).

Abbreviation step := (step php_may cfg).
Abbreviation run := (run php_may cfg).
Abbreviation reachable := (reachable php_may cfg good_event).

(** The conversations of the system are those of the machine, and over the pipes of each worker
    exactly the words that lead to its phase have gone. *)
Record represents (s : state) (A : system) : Prop := MkRepresents {
  rep_made : made A = next_loc (pool s);
  rep_tokens : conversations A ≡ₚ tokens s;
  rep_wf : well_formed A;
  rep_conv w ph : (w, ph) ∈ conversations A ->
    exists x, heap (pool s) !! w = Some x /\ conv answer ph (w_conn x)
}.

Lemma in_step_represents s A :
  in_step answer s -> made A = next_loc (pool s) -> conversations A ≡ₚ tokens s -> represents s A.
Proof.
  intros [[_ Hd] Hc _] Em Et. constructor; [done|done| |].
  - unfold well_formed. rewrite Em. by eapply distinct_perm.
  - by apply (convs_perm answer _ (tokens s)).
Qed.

Lemma change_system ok p p' T T' A :
  change answer ok p p' T T' -> made A = next_loc p -> conversations A ≡ₚ T ->
  system_step A (MkSystem (next_loc p') T').
Proof.
  intros Hc Em Et. destruct Hc as [-> _ Hs|w ph x x' l R -> _ _ Hs Hs' Hl|x -> _ _ Hs]; rewrite <- Em.
  - apply sys_give_up. by rewrite Et.
  - destruct Hl as [->|(ph' & -> & Hn & _)].
    + apply sys_give_up. rewrite Et. etrans; [exact Hs'|]. etrans; [|exact Hs]. by apply submseteq_cons.
    + eapply (sys_say A w ph ph' R); [by rewrite Et|done|exact Hs'].
  - apply sys_begin. by rewrite Em, Et.
Qed.

(** A call and a process's own step leave the conversations alone. *)
Lemma quiet_system A T : conversations A ≡ₚ T -> system_step A (MkSystem (made A) T).
Proof. intros E. apply sys_give_up. by rewrite E. Qed.

Lemma step_system s e s' A :
  in_step answer s -> represents s A -> step s e = Some s' ->
  system_step A (MkSystem (next_loc (pool s')) (tokens s')).
Proof.
  intros [Hlin Hc Hf] [Em Et _ _] Hs.
  destruct (proc_step_inv _ _ _ _ _ Hs) as [(t & Ep & Ht & Hn & _)|[(tid & t & b & c & t' & new & rest & Hts & E1 & E2)
    |(w & x & c & Hx & Ep & Ets & _)]].
  - rewrite Ep, <- Em. apply quiet_system. unfold tokens in *. rewrite Ep, Ht. cbn [mbind list_bind].
    by rewrite Hn.
  - destruct (step_change cfg answer answer_fits _ _ _ _ _ _ _ _ _ (proj1 Hlin) Hts E1 E2)
      as (T & T' & ET & ET' & Hch).
    assert (system_step A (MkSystem (next_loc (pool s')) T')) as HA.
    { eapply change_system; [exact Hch|done|]. by rewrite Et, ET. }
    inversion HA; subst; [eapply sys_give_up|eapply sys_begin|eapply sys_say]; try done; by rewrite <- ET'.
  - rewrite Ep. cbn [next_loc set_worker]. rewrite <- Em. apply quiet_system.
    unfold tokens in *. by rewrite Ep, Ets.
Qed.

(** C6. The pool implements the protocol: with processes that answer in order, the machine is
    simulated by the system of conversations. At the start there is none; and whatever step
    the machine takes, by any goroutine or process, the system takes a step with it: one
    conversation moves on by one word (greeting, request, answer, ready), or begins with a
    new worker, or some are given up; all others are where they were, and on every pipe
    are exactly the words said. *)
Theorem implements_protocol :
  represents init (MkSystem 0 [])
  /\ forall s A e s',
       reachable s -> represents s A -> good_event e -> step s e = Some s' ->
       exists A', system_step A A' /\ represents s' A'.
Proof.
  split.
  - apply in_step_represents; [|done..]. apply (in_step_reachable php_may cfg answer answer_fits php_answers).
    apply reach_init.
  - intros s A e s' Hr HA He Hs.
    pose proof (in_step_reachable php_may cfg answer answer_fits php_answers s Hr) as Hin.
    eexists. split; [by eapply step_system|]. apply in_step_represents; [|done..].
    by eapply (in_step_step php_may cfg answer answer_fits php_answers).
Qed.

(** A worker given up is never used again: one that is neither available nor in conversation,
    after a time-out for instance, stays so. *)
Theorem retired_for_good (s s' : state) (es : list event) (w : loc) :
  reachable s -> Forall good_event es -> run s es = Some s' ->
  (w < next_loc (pool s))%nat -> w ∉ (tokens s).*1 -> w ∉ (tokens s').*1.
Proof.
  intros Hr Hes. revert s Hr. induction Hes as [|e es He _ IH]; intros s Hr; cbn; [by intros [= ->]|].
  destruct (step s e) as [s1|] eqn:Es; cbn; [|done]. intros Hrun Hlt Hw.
  pose proof (in_step_reachable php_may cfg answer answer_fits php_answers s Hr) as Hin.
  pose proof (in_step_represents s (MkSystem (next_loc (pool s)) (tokens s)) Hin eq_refl (reflexivity _)) as HA.
  destruct (system_step_retired _ _ w (step_system _ _ _ _ Hin HA Es) Hlt Hw) as [H1 H2].
  eapply (IH s1); [by eapply reach_step|done..].
Qed.
End Refinement.

(** ** At concrete inputs *)

(** A request up to the answer of the process, which its goroutine is about to read. *)
Definition sent_events : list event :=
  start_one ++ [CallExec example_frame] ++ goes 2 4 ++ goes 3 3
  ++ [PhpWrites 0 (encode_frame (echo [example_frame]))].
Definition before_answer : state := after (small_cfg 1 1 0 5) sent_events.
Definition after_answer : state := after (small_cfg 1 1 0 5) (sent_events ++ goes 3 1).

Lemma sent_good : Forall good_event sent_events.
Proof.
  unfold sent_events, start_one, goes. cbn [repeat app].
  repeat (constructor; [first [exact I | exact example_good]|]). constructor.
Qed.

Lemma before_represents :
  represents echo before_answer (MkSystem 1 [(0%nat, Sent example_frame)]).
Proof.
  apply in_step_represents; [|by vm_compute|by vm_compute].
  apply (in_step_reachable echo_may (small_cfg 1 1 0 5) echo echo_fits echo_answers).
  apply proc_after_reachable, sent_good.
Qed.

Lemma implements_protocol_witness :
  exists A', system_step (MkSystem 1 [(0%nat, Sent example_frame)]) A'
             /\ represents echo after_answer A'.
Proof.
  apply (proj2 (implements_protocol echo_may (small_cfg 1 1 0 5) echo echo_fits echo_answers)
           before_answer _ (Run 3 (Go 0))).
  - apply proc_after_reachable, sent_good.
  - exact before_represents.
  - exact I.
  - vm_compute. reflexivity.
Defined.
