(* ===== verification/ProcPoolLive.v ===== *)
(** Well-formedness and progress of the pool of PHP processes: nothing dangles, what a
    request can be kept waiting by, and which dead workers are noticed. *)
From S2P Require Import Prelude GoIO GoSlice Wire Config GoFloat ProcWorker ProcPool.
From S2P Require Import ProcPoolInv ProcPoolConv.
From stdpp Require Import gmap.
Local Open Scope Z_scope.

(** ** Locations *)

(** The workers a goroutine may still touch. *)
Definition mentions (t : thread) : list loc :=
  match t with
  | SpawnNew (ByReload _ old news) | ReloadLoop _ old news => old ++ news
  | SpawnHandshake w k | SpawnAppend w k | SpawnSend w k =>
      w :: match k with ByReload _ old news => old ++ news | _ => [] end
  | ExecTaken _ (Some w) | ExecFork _ (Some w) | ExecWait _ (Some w) _ | ExecCheck _ w _
  | ExecReady _ w _ | ExecSend _ w _ => [w]
  | RunLock (Some w) _ _ | RunBusy w _ _ | RunWrite w _ _ | RunRead w _ _ | RunIdle w _ _ _
  | RunCount w _ _ _ | RunUnlock w _ _ _ | RunSend w _ _ _ => [w]
  | StopState w k | StopWrite w k | StopClose w k | StopWait w k | RemoveWorker w k =>
      w :: match k with ForDrain ws | ForReloadFailed ws => ws | _ => [] end
  | ReapWait w => [w]
  | WatchState ws | ReloadUndo ws | DrainLoop ws => ws
  | WatchAlive w ws => w :: ws
  | _ => []
  end.

Definition below (n : nat) (ws : list loc) : Prop := Forall (fun w => (w < n)%nat) ws.

Lemma below_weaken n m ws : (n <= m)%nat -> below n ws -> below m ws.
Proof. intros. eapply Forall_impl; [done|]. simpl. lia. Qed.

#[export] Instance below_proper n : Proper (submseteq --> impl) (below n).
Proof. intros l k Hs H. by eapply Forall_submseteq. Qed.

Lemma below_app n l k : below n (l ++ k) <-> below n l /\ below n k.
Proof. apply Forall_app. Qed.
Lemma below_cons n w k : below n (w :: k) <-> (w < n)%nat /\ below n k.
Proof. unfold below. by rewrite list.Forall_cons. Qed.
Lemma below_nil n : below n [].
Proof. constructor. Qed.

(** ** How a worker evolves

    The process only writes more, the server only reads on; ends of pipes are closed and
    processes end once; and [cmd.Wait], which sets the process state, closes the pipe. *)
Record evolves (x x' : Worker) : Prop := MkEvolves {
  ev_out : (length (c_stdout (w_conn x)) <= length (c_stdout (w_conn x')))%nat;
  ev_unread : (length (c_unread (w_conn x')) + length (c_stdout (w_conn x))
               <= length (c_unread (w_conn x)) + length (c_stdout (w_conn x')))%nat;
  ev_exit : c_exit (w_conn x') = None -> c_exit (w_conn x) = None;
  ev_closed : c_out_closed (w_conn x') = false -> c_out_closed (w_conn x) = false;
  ev_stdin : c_in_closed (w_conn x') = false -> c_in_closed (w_conn x) = false;
  ev_pstate : c_in_closed (w_conn x') = false -> w_pstate x' = w_pstate x
}.

#[export] Instance evolves_preorder : PreOrder evolves.
Proof.
  split; [by intros x; constructor|]. intros x y z [] []. constructor; try lia; try tauto.
  intros Hz. rewrite ev_pstate1 by done. auto.
Qed.

Lemma evolves_conn x x' c :
  w_conn x' = c -> w_pstate x' = w_pstate x ->
  (length (c_stdout (w_conn x)) <= length (c_stdout c))%nat ->
  (length (c_unread c) + length (c_stdout (w_conn x))
   <= length (c_unread (w_conn x)) + length (c_stdout c))%nat ->
  (c_exit c = None -> c_exit (w_conn x) = None) ->
  (c_out_closed c = false -> c_out_closed (w_conn x) = false) ->
  (c_in_closed c = false -> c_in_closed (w_conn x) = false) -> evolves x x'.
Proof. intros <- Hp. by constructor. Qed.

(** What touches neither pipes nor process. *)
Lemma evolves_same x x' : w_conn x' = w_conn x -> w_pstate x' = w_pstate x -> evolves x x'.
Proof. intros E Hp. by apply (evolves_conn x x' (w_conn x)). Qed.

Lemma evolves_write f x e x' : write_frame f x = (e, x') -> evolves x x'.
Proof.
  unfold write_frame. rewrite write_bytes. unfold write, conn_writer.
  destruct (c_in_closed (w_conn x)) eqn:Ei; [intros [= _ <-]; by apply evolves_same|].
  destruct (c_exit (w_conn x)) eqn:Ee; intros [= _ <-]; [by apply evolves_same|].
  by eapply evolves_conn.
Qed.

Lemma parse_frame_rest bs e : (length (snd (parse_frame bs e)) <= length bs)%nat.
Proof.
  do 14 (destruct bs as [|? bs]; [cbn; lia|]). cbn [parse_frame length].
  repeat case_decide; cbn [snd length]; rewrite ?length_drop; lia.
Qed.

Lemma conn_ReadFrame_left k c r c' :
  conn_ReadFrame k c = Some (r, c') ->
  exists n, c' = c_left n c /\ (n <= length (c_unread c))%nat.
Proof.
  assert (forall bs e r rd, Wire.ReadFrame (flat_reader bs e) = (r, rd) ->
            (length (rd_bytes rd) <= length bs)%nat) as Hread.
  { intros bs e r0 rd E. pose proof (ReadFrame_parse (flat_reader bs e)) as (_ & Hb & _).
    rewrite E in Hb. cbn in Hb. rewrite app_nil_r in Hb. rewrite Hb. apply parse_frame_rest. }
  unfold conn_ReadFrame. destruct (c_out_closed c).
  - destruct (Wire.ReadFrame _) as [r0 rd] eqn:E. intros [= _ <-]. eexists. split; [done|].
    apply Hread in E. rewrite length_take in E. lia.
  - destruct (Wire.ReadFrame _) as [r0 rd] eqn:E. destruct (_ && _); [done|].
    intros [= _ <-]. eexists. split; [done|]. by apply Hread in E.
Qed.

Lemma evolves_read k x r x' : ReadFrame k x = Some (r, x') -> evolves x x'.
Proof.
  unfold ReadFrame. destruct (conn_ReadFrame k (w_conn x)) as [[r' c]|] eqn:E; [|done].
  intros [= _ <-]. apply conn_ReadFrame_left in E as (n & -> & Hn).
  eapply evolves_conn; [done..| |done|done|done].
  unfold c_unread in *. cbn in *. rewrite !length_drop in *. lia.
Qed.

Lemma evolves_Wait x x' : Wait x = Some x' -> evolves x x'.
Proof.
  unfold Wait. destruct (w_pstate x) eqn:Ep; [by intros [= <-]|].
  destruct (c_exit (w_conn x)) eqn:Ee; [|done]. intros [= <-]. constructor; cbn; try done.
Qed.

Lemma evolves_Kill x : evolves x (Kill x).
Proof. eapply evolves_conn; try done. cbn. by destruct (c_exit (w_conn x)). Qed.

Lemma evolves_close x : evolves x (stop_close x).
Proof. by eapply evolves_conn. Qed.

Lemma evolves_stop_write x : evolves x (stop_write x).
Proof. unfold stop_write. destruct (write_frame _ x) eqn:E. by eapply evolves_write. Qed.

Lemma evolves_php_writes x bs : evolves x (set_conn (php_writes bs (w_conn x)) x).
Proof.
  eapply evolves_conn; [done|done| | |done|done|done]; unfold c_unread; cbn;
    rewrite ?length_drop, length_app; lia.
Qed.

Lemma evolves_php_exits x k : evolves x (set_conn (php_exits k (w_conn x)) x).
Proof. eapply evolves_conn; try done. cbn. by destruct (c_exit (w_conn x)). Qed.

#[export] Hint Resolve evolves_Kill evolves_close evolves_stop_write evolves_php_writes
  evolves_php_exits evolves_Wait evolves_read evolves_write : maboo.

Section Live.
Context (php_may : list byte -> list byte -> bool) (cfg : Config).

Abbreviation tstep := (tstep cfg).
Abbreviation step := (step php_may cfg).
Abbreviation run := (run php_may cfg).
Abbreviation reachable := (reachable php_may cfg).

(** The heap holds the workers made so far, the list and the channel hold some of them, the
    channel within its capacity. *)
Record typed_pool (p : ProcPool) : Prop := MkTyped {
  ty_heap : forall w, is_Some (heap p !! w) <-> (w < next_loc p)%nat;
  ty_workers : below (next_loc p) (workers p);
  ty_available : below (next_loc p) (available p);
  ty_capacity : Z.of_nat (length (available p)) <= Z.max 0 (maxw cfg)
}.

Lemma typed_ext p p' :
  (forall w, is_Some (heap p' !! w) <-> is_Some (heap p !! w)) -> next_loc p' = next_loc p ->
  workers p' = workers p -> available p' = available p -> typed_pool p -> typed_pool p'.
Proof.
  intros Eh En Ew Ea [H1 H2 H3 H4]. constructor; rewrite ?En, ?Ew, ?Ea; [|done..].
  intros w. by rewrite Eh, H1.
Qed.

Lemma typed_set_worker p w x x' :
  heap p !! w = Some x -> typed_pool p -> typed_pool (set_worker w x' p).
Proof.
  intros Hx. apply typed_ext; [|done..]. intros v. cbn [heap set_worker].
  destruct (decide (v = w)) as [->|Hne]; [by rewrite lookup_insert_eq, Hx|by rewrite lookup_insert_ne].
Qed.

Lemma typed_send p w :
  Z.of_nat (length (available p)) < maxw cfg -> (w < next_loc p)%nat -> typed_pool p ->
  typed_pool (set_available (available p ++ [w]) p).
Proof.
  intros Hc Hw [H1 H2 H3 H4]. constructor; try done; cbn [available set_available next_loc].
  - apply below_app. split; [done|]. by constructor.
  - rewrite length_app. cbn. lia.
Qed.

Lemma typed_receive p w av :
  available p = w :: av -> typed_pool p ->
  typed_pool (set_available av p) /\ (w < next_loc p)%nat.
Proof.
  intros E [H1 H2 H3 H4]. rewrite E in H3, H4. apply below_cons in H3 as [Hw Hav].
  split; [|done]. constructor; try done. cbn in *. lia.
Qed.

Lemma typed_alloc p x :
  typed_pool p -> typed_pool (alloc_worker x p).
Proof.
  intros [H1 H2 H3 H4]. constructor; cbn [heap next_loc workers available alloc_worker].
  - intros w. destruct (decide (w = next_loc p)) as [->|Hne].
    + rewrite lookup_insert_eq. split; [lia|by eexists].
    + rewrite lookup_insert_ne, H1 by done. lia.
  - eapply below_weaken; [|done]. lia.
  - eapply below_weaken; [|done]. lia.
  - done.
Qed.

Lemma typed_append p w d :
  (w < next_loc p)%nat -> typed_pool p ->
  typed_pool (add_active d (set_workers (workers p ++ [w]) p)).
Proof.
  intros Hw [H1 H2 H3 H4]. constructor; try done. cbn [workers add_active set_workers next_loc].
  apply below_app. split; [done|]. by constructor.
Qed.

Lemma typed_remove p w : typed_pool p -> typed_pool (removeWorker w p).
Proof.
  intros H. assert (workers (removeWorker w p) ⊆+ workers p) as Hsub.
  { unfold removeWorker. destruct (heap p !! w) as [x|]; [|done].
    destruct (remove_by_id _ _ _) as [ws|] eqn:E; [|done]. cbn [workers add_active set_workers].
    revert ws E. induction (workers p) as [|v vs IH]; intros ws; cbn; [done|].
    case_bool_decide; [intros [= ->]; by apply submseteq_cons|].
    destruct (remove_by_id (heap p) (w_id x) vs); cbn; [|done]. intros [= <-].
    by apply submseteq_skip, IH. }
  destruct (removeWorker_same w p) as (Eh & En & _).
  assert (available (removeWorker w p) = available p) as Ea
    by (unfold removeWorker; repeat case_match; done).
  destruct H as [H1 H2 H3 H4]. constructor; rewrite ?Eh, ?En, ?Ea; try done.
  unfold below in *. by eapply Forall_submseteq.
Qed.

Lemma below_stops tid n ws :
  below n ws -> Forall (fun t => below n (mentions t)) (map (fun w => StopState w (ForPoolStop tid)) ws).
Proof. induction 1; constructor; [by repeat constructor|done]. Qed.

(** The bounds on the locations of a thread, from those of another. *)
Ltac below_solve :=
  repeat match goal with
    | |- Forall _ (_ :: _) => apply Forall_cons_2
    | |- Forall _ [] => apply Forall_nil_2
    end;
  cbn [mentions] in *;
  repeat match goal with
    | H : below _ (_ :: _) |- _ => apply below_cons in H as [? ?]
    | H : below _ (_ ++ _) |- _ => apply below_app in H as [? ?]
    end;
  repeat match goal with
    | |- below _ (_ :: _) => apply below_cons; split
    | |- below _ (_ ++ _) => apply below_app; split
    end;
  first [ done | apply below_nil | lia
        | by apply ty_workers | eapply below_weaken; [|done]; lia ].

Ltac typed_solve :=
  first [ done
        | by eapply typed_set_worker
        | by apply typed_remove
        | by apply typed_append; [below_solve|]
        | by eapply typed_receive
        | apply typed_send; [lia|below_solve|done]
        | apply typed_alloc; (eapply typed_ext; [..|done]; done)
        | eapply typed_ext; [..|done]; done ].

Lemma tstep_typed tid b p t c p' t' new :
  tstep tid b p t c = Some (p', t', new) -> typed_pool p -> below (next_loc p) (mentions t) ->
  (next_loc p <= next_loc p')%nat /\ typed_pool p'
  /\ Forall (fun t => below (next_loc p') (mentions t)) (t' :: new).
Proof.
  intros H Hp Ht. step_cases H t c.
  all: try match goal with k : spawner |- _ => destruct k | k : stopper |- _ => destruct k end.
  all: try match goal with |- context [removeWorker ?w ?p] =>
    destruct (removeWorker_same w p) as (_ & En & _); rewrite En end.
  all: try match goal with H : available _ = _ :: _ |- _ =>
    pose proof (proj2 (typed_receive _ _ _ H Hp)) end.
  all: split; [cbn; lia|split; [try typed_solve|cbn -[below mentions]; try below_solve]].
  constructor; [apply below_nil|]. by apply below_stops, ty_workers.
Qed.

Definition typed (s : state) : Prop :=
  typed_pool (pool s) /\ Forall (fun t => below (next_loc (pool s)) (mentions t)) (threads s).

Lemma typed_step s e s' : typed s -> step s e = Some s' -> typed s'.
Proof.
  intros [Hp Ht] Hs. destruct e as [|req| | |tid c|w bs|w k]; cbn -[ProcPool.tstep] in Hs.
  1-4: unfold call in Hs; injection Hs as <-; split; [done|];
       apply Forall_app; split; [done|repeat constructor].
  - apply bind_Some in Hs as (t & Hl & Hs). apply bind_Some in Hs as ([[p t'] new] & Hs & [= <-]).
    pose proof (Forall_lookup_1 _ _ _ _ Ht Hl) as Hb.
    destruct (tstep_typed _ _ _ _ _ _ _ _ Hs Hp Hb) as (Hn & Hp' & Hts).
    apply list.Forall_cons in Hts as [Ht' Hnew]. split; [done|]. cbn [threads pool].
    apply Forall_app. split; [|done]. apply Forall_insert; [|done].
    eapply Forall_impl; [done|]. intros u. by apply below_weaken.
  - apply bind_Some in Hs as (p & Hs & [= <-]). apply bind_Some in Hs as (x & Hx & Hs).
    cbn in Hs. destruct (bool_decide _ && _); [|done]. injection Hs as <-.
    split; [by eapply typed_set_worker|done].
  - apply bind_Some in Hs as (p & Hs & [= <-]). apply bind_Some in Hs as (x & Hx & Hs).
    cbn in Hs. destruct (bool_decide _ && _); [|done]. injection Hs as <-.
    split; [by eapply typed_set_worker|done].
Qed.

Lemma typed_reachable P s : reachable P s -> typed s.
Proof.
  induction 1 as [|s e s' _ IH _ Hs]; [|by eapply typed_step].
  split; [|constructor]. constructor; try constructor; cbn; try lia.
  intros [x Hx]. by apply lookup_empty_Some in Hx.
Qed.


(** ** Workers evolve *)

Definition heap_evolves (h h' : gmap loc Worker) : Prop :=
  forall w x, h !! w = Some x -> exists x', h' !! w = Some x' /\ evolves x x'.

Lemma heap_evolves_refl h : heap_evolves h h.
Proof. intros w x Hx. by exists x. Qed.

Lemma heap_evolves_set p w x x' :
  heap p !! w = Some x -> evolves x x' -> heap_evolves (heap p) (heap (set_worker w x' p)).
Proof.
  intros Hx He v y Hy. cbn [heap set_worker]. destruct (decide (v = w)) as [->|Hne].
  - rewrite lookup_insert_eq. simplify_eq. by exists x'.
  - rewrite lookup_insert_ne by done. by exists y.
Qed.

Lemma tstep_evolves tid b p t c p' t' new :
  tstep tid b p t c = Some (p', t', new) -> typed_pool p -> heap_evolves (heap p) (heap p').
Proof.
  intros H Hp. step_cases H t c.
  all: try apply heap_evolves_refl.
  all: try (eapply heap_evolves_set; [done|]; first
    [ by apply evolves_same
    | by eauto with maboo
    | etrans; [by eapply evolves_read|apply evolves_Kill] ]).
  - intros w x Hx. exists x. cbn [heap alloc_worker set_nextID].
    rewrite lookup_insert_ne; [done|]. intros <-.
    assert (next_loc p < next_loc p)%nat; [|lia]. apply (ty_heap p Hp). by exists x.
  - destruct (removeWorker_same w p) as (-> & _). apply heap_evolves_refl.
Qed.

Lemma step_evolves s e s' :
  typed s -> step s e = Some s' -> heap_evolves (heap (pool s)) (heap (pool s')).
Proof.
  intros [Hp _] [(t & -> & _)|[(tid & t & b & c & t' & new & rest & Hts & _)
    |(w & x & c & Hx & -> & _ & Hc)]]%proc_step_inv.
  - apply heap_evolves_refl.
  - by eapply tstep_evolves.
  - apply (heap_evolves_set _ _ x); [done|].
    destruct Hc as [(bs & -> & _)|(k & ->)]; auto with maboo.
Qed.

Lemma run_evolves es : forall s s',
  typed s -> run s es = Some s' -> heap_evolves (heap (pool s)) (heap (pool s')).
Proof.
  induction es as [|e es IH]; intros s s' Ht; cbn; [intros [= <-]; apply heap_evolves_refl|].
  destruct (step s e) as [s1|] eqn:Es; cbn; [|done]. intros Hr w x Hx.
  destruct (step_evolves _ _ _ Ht Es w x Hx) as (x1 & H1 & E1).
  destruct (IH s1 s' (typed_step _ _ _ Ht Es) Hr w x1 H1) as (x2 & H2 & E2).
  exists x2. split; [done|]. by transitivity x1.
Qed.

(** ** What keeps a request waiting *)

(** A thread moves only when it is scheduled. *)
Lemma step_other s e s' i t :
  step s e = Some s' -> (forall c, e <> Run i c) -> threads s !! i = Some t ->
  threads s' !! i = Some t.
Proof.
  intros Hs He Hi. destruct e as [|req| | |tid c|w bs|w k]; cbn -[ProcPool.tstep] in Hs.
  1-4: unfold call in Hs; injection Hs as <-; by apply lookup_app_l_Some.
  - apply bind_Some in Hs as (u & Hl & Hs). apply bind_Some in Hs as ([[p t'] new] & Hs & [= <-]).
    cbn [threads]. apply lookup_app_l_Some. rewrite list_lookup_insert_ne; [done|].
    intros ->. by eapply He.
  - by apply bind_Some in Hs as (p & _ & [= <-]).
  - by apply bind_Some in Hs as (p & _ & [= <-]).
Qed.

(** Nothing to read from a living process. *)
Definition silent (c : Conn) : Prop :=
  c_unread c = [] /\ c_exit c = None /\ c_out_closed c = false.

Lemma silent_blocks k c : silent c -> conn_ReadFrame k c = None.
Proof.
  intros (Hu & He & Ho). unfold conn_ReadFrame. rewrite Ho, Hu.
  pose proof (ReadFrame_parse (flat_reader [] EOF)) as (Hf & _ & _). cbn [flat_reader] in Hf.
  destruct (Wire.ReadFrame (flat_reader [] EOF)) as [r rd]. cbn in Hf. subst r.
  by rewrite bool_decide_true.
Qed.

Lemma ready_step s e s' i req w resp x :
  step s e = Some s' -> threads s !! i = Some (ExecReady req w resp) ->
  heap (pool s) !! w = Some x -> silent (w_conn x) ->
  threads s' !! i = Some (ExecReady req w resp).
Proof.
  intros Hs Hi Hx Hq.
  assert ((exists c, e = Run i c) \/ forall c, e <> Run i c) as [[c ->]|Hne].
  { destruct e as [| | | |tid c| |]; try (by right). destruct (decide (tid = i)) as [->|].
    - left. by eexists.
    - right. intros c' [= ? _]. done. }
  - exfalso. cbn -[ProcPool.tstep] in Hs. rewrite Hi in Hs. cbn in Hs.
    destruct c as [k| | | |]; try done. rewrite Hx in Hs. cbn in Hs.
    unfold ReadFrame in Hs. by rewrite (silent_blocks k _ Hq) in Hs.
  - by eapply step_other.
Qed.

(** The wait for [WORKER_READY] has no end: a request that has its response and waits
    for the worker to say it is ready goes on waiting, whatever else happens (its time-out, the
    shutdown of the pool, the watchdog, other requests), as long as the process lives and
    writes nothing and nobody closes its pipe; [RequestTimeout] does not cover it. *)
Theorem ready_wait_unbounded (P : event -> Prop) (s s' : state) (es : list event)
    (i : nat) (req resp : Frame) (w : loc) (x x' : Worker) :
  reachable P s -> threads s !! i = Some (ExecReady req w resp) ->
  heap (pool s) !! w = Some x -> c_unread (w_conn x) = [] ->
  run s es = Some s' ->
  heap (pool s') !! w = Some x' -> c_stdout (w_conn x') = c_stdout (w_conn x) ->
  c_exit (w_conn x') = None -> c_out_closed (w_conn x') = false ->
  threads s' !! i = Some (ExecReady req w resp).
Proof.
  intros Hr Hi Hx Hu Hes Hx' Eo He Hc. apply typed_reachable in Hr. apply (f_equal length) in Eo.
  revert s x Hr Hi Hx Hu Eo Hes.
  induction es as [|e es IH]; intros s x Ht Hi Hx Hu Eo; cbn; [by intros [= <-]|].
  destruct (step s e) as [s1|] eqn:Es; cbn; [|done]. intros Hes.
  pose proof (typed_step _ _ _ Ht Es) as Ht1.
  destruct (step_evolves _ _ _ Ht Es w x Hx) as (x1 & Hx1 & Hev1).
  destruct (run_evolves _ _ _ Ht1 Hes w x1 Hx1) as (x2 & Hx2 & Hev2).
  assert (x2 = x') as -> by congruence. pose proof Hev1 as [E1 E2 E3 E4 _ _].
  pose proof Hev2 as [F1 F2 F3 F4 _ _].
  apply (IH s1 x1); try done; [|rewrite Hu in E2; apply nil_length_inv; cbn in *; lia|lia].
  eapply ready_step; [done..|]. split_and!; auto.
Qed.

(** Only [cmd.Wait] sets the process state, and it closes the pipes. *)
Definition waited_closed (p : ProcPool) : Prop :=
  forall w x, heap p !! w = Some x -> c_in_closed (w_conn x) = false -> w_pstate x = None.

Lemma tstep_new_worker tid b p t c p' t' new w x' :
  tstep tid b p t c = Some (p', t', new) -> heap p !! w = None -> heap p' !! w = Some x' ->
  w_pstate x' = None.
Proof.
  intros H Hn Hx. step_cases H t c; try congruence;
    try (cbn [heap set_worker] in Hx; apply lookup_insert_Some in Hx as [[<- <-]|[_ Hx]];
         congruence).
  - cbn in Hx. apply lookup_insert_Some in Hx as [[<- <-]|[_ Hx]]; [done|congruence].
  - destruct (removeWorker_same w0 p) as (Eh & _). congruence.
Qed.

Lemma waited_closed_step s e s' :
  typed s -> waited_closed (pool s) -> step s e = Some s' -> waited_closed (pool s').
Proof.
  intros Ht Hw Hs w x' Hx' Hc. destruct (heap (pool s) !! w) as [x|] eqn:Hx.
  - destruct (step_evolves _ _ _ Ht Hs w x Hx) as (y & Hy & Hev). simplify_eq.
    rewrite (ev_pstate _ _ Hev Hc). eapply Hw; [done|]. by apply (ev_stdin _ _ Hev).
  - apply proc_step_inv in Hs as [(t & E & _)|[(tid & t & b & c & t' & new & rest & Hts & _)
      |(v & x & c & Hv & E & _)]].
    + rewrite E in Hx'. congruence.
    + by eapply tstep_new_worker.
    + rewrite E in Hx'. cbn in Hx'. apply lookup_insert_Some in Hx' as [[<- <-]|[_ Hx']]; congruence.
Qed.

(** A dead worker is not noticed: as long as nobody has stopped a worker, the watchdog's
    health check finds it alive and goes on without replacing it, whether or not its process
    has ended, since only [Stop] waits for the process. *)
Theorem dead_worker_unnoticed (P : event -> Prop) (s : state) (i : nat) (w : loc)
    (ws : list loc) (x : Worker) (k : nat) :
  reachable P s -> threads s !! i = Some (WatchAlive w ws) ->
  heap (pool s) !! w = Some x -> c_in_closed (w_conn x) = false ->
  step s (Run i (Go k)) = Some (MkState (pool s) (<[i := WatchState ws]> (threads s))).
Proof.
  intros Hr Hi Hx Hc. assert (waited_closed (pool s)) as Hw.
  { clear Hi Hx. induction Hr as [|s0 e s1 Hr IH _ Hs].
    - intros v y Hy. by apply (lookup_empty_Some v y) in Hy.
    - eapply waited_closed_step; [by eapply typed_reachable|done|done]. }
  cbn -[ProcPool.tstep]. rewrite Hi. cbn. rewrite Hx. cbn. unfold IsAlive.
  rewrite (Hw w x Hx Hc). by rewrite app_nil_r.
Qed.

(** ** Progress *)

(** A request that received nil, which only a closed channel gives. *)
Definition got_nil (t : thread) : bool :=
  match t with ExecTaken _ None | ExecFork _ None | ExecWait _ None _ => true | _ => false end.
Definition nil_closed (s : state) : Prop :=
  closed (pool s) = false -> Forall (fun t => got_nil t = false) (threads s).

Lemma tstep_nil tid b p t c p' t' new :
  tstep tid b p t c = Some (p', t', new) -> closed p' = false ->
  closed p = false /\ (got_nil t = false -> Forall (fun t => got_nil t = false) (t' :: new)).
Proof.
  intros H Hc. step_cases H t c.
  all: try match goal with k : spawner |- _ => destruct k | k : stopper |- _ => destruct k end.
  all: try (cbn in *; split; [done|intros; by repeat constructor]).
  all: try congruence.
  all: split; [first [done | unfold removeWorker in Hc; repeat case_match; done]|intros _].
  all: try (by repeat constructor).
  constructor; [done|]. apply Forall_fmap, Forall_true. done.
Qed.

Lemma nil_closed_reachable P s : reachable P s -> nil_closed s.
Proof.
  induction 1 as [|s e s' _ IH _ Hs]; [by intros _|]. intros Hc.
  destruct (proc_step_inv _ _ _ _ _ Hs) as [(t & E & Ht & _ & Hreq)|[(tid & t & b & c & t' & new & rest & Hts & E1 & E2)
    |(w & x & c & _ & E & Ets & _)]].
  - rewrite Ht. constructor; [|apply IH; congruence].
    destruct e; subst; try done; by destruct t.
  - rewrite E2, app_comm_cons.
    destruct (tstep_nil _ _ _ _ _ _ _ _ Hts Hc) as [Hc0 Hnil].
    specialize (IH Hc0). rewrite E1 in IH. inversion_clear IH. apply Forall_app. auto.
  - rewrite Ets. apply IH. by rewrite E in Hc.
Qed.

(** Thread [i] alone, in at most [n] actions, gets to a state that satisfies [Q]. *)
Inductive gets_to (i : nat) (Q : state -> Prop) : nat -> state -> Prop :=
| gets_done n s : Q s -> gets_to i Q n s
| gets_step n c s s' : step s (Run i c) = Some s' -> gets_to i Q n s' -> gets_to i Q (S n) s.

Lemma gets_tstep i Q n s t c p t' new :
  threads s !! i = Some t ->
  (forall b, tstep i b (pool s) t c = Some (p, t', new)) ->
  (forall s', pool s' = p -> threads s' !! i = Some t' -> gets_to i Q n s') ->
  gets_to i Q (S n) s.
Proof.
  intros Hi Ht Hk. eapply (gets_step i Q n c).
  - cbn -[ProcPool.tstep]. rewrite Hi. cbn -[ProcPool.tstep]. by rewrite Ht.
  - apply Hk; [done|]. cbn [threads]. apply lookup_app_l_Some.
    by apply list_lookup_insert_eq, (lookup_lt_Some _ _ _ Hi).
Qed.

(** What a request may have to wait for without a time-out: [WORKER_READY], or room in the
    channel for its worker. *)
Definition held_up (p : ProcPool) (t : thread) : Prop :=
  match t with
  | ExecReady _ w _ => exists x, heap p !! w = Some x /\ conn_ReadFrame 0 (w_conn x) = None
  | ExecSend _ _ _ => closed p = false /\ maxw cfg <= Z.of_nat (length (available p))
  | _ => False
  end.

Definition is_finished (t : thread) : bool := match t with Finished _ => true | _ => false end.

(** A call of [Exec] that has not returned. *)
Definition in_exec (t : thread) : bool :=
  match t with
  | ExecCall _ | ExecSelect _ | ExecTaken _ _ | ExecFork _ _ | ExecWait _ _ _ | ExecCheck _ _ _
  | ExecReady _ _ _ | ExecSend _ _ _ | ExecReturn _ _ | ExecUnwind _ => true
  | _ => false
  end.

Definition returns_or_waits (i : nat) (s : state) : Prop :=
  exists t, threads s !! i = Some t /\ (is_finished t = true \/ held_up (pool s) t).

Lemma finished_gets i n s o : threads s !! i = Some (Finished o) -> gets_to i (returns_or_waits i) n s.
Proof. intros Hi. apply gets_done. exists (Finished o). by split; [|left]. Qed.

Lemma return_gets i n s req r :
  threads s !! i = Some (ExecReturn req r) -> gets_to i (returns_or_waits i) (S n) s.
Proof.
  intros Hi. eapply (gets_tstep _ _ _ _ _ (Go 0)); [done|intros b; reflexivity|].
  intros s' _ Hi'. by eapply finished_gets.
Qed.

Lemma unwind_gets i n s why :
  threads s !! i = Some (ExecUnwind why) -> gets_to i (returns_or_waits i) (S n) s.
Proof.
  intros Hi. eapply (gets_tstep _ _ _ _ _ (Go 0)); [done|intros b; reflexivity|].
  intros s' _ Hi'. by eapply finished_gets.
Qed.

Lemma send_gets i n s req w resp :
  threads s !! i = Some (ExecSend req w resp) -> gets_to i (returns_or_waits i) (S (S n)) s.
Proof.
  intros Hi. destruct (closed (pool s)) eqn:Hc.
  - eapply (gets_tstep _ _ _ _ _ (Go 0)); [done|intros b; cbn; unfold send; rewrite Hc; reflexivity|].
    intros s' _ Hi'. by eapply unwind_gets.
  - destruct (Z.of_nat (length (available (pool s))) <? maxw cfg) eqn:Hl.
    + eapply (gets_tstep _ _ _ _ _ (Go 0));
        [done|intros b; cbn; unfold send; rewrite Hc, Hl; reflexivity|].
      intros s' _ Hi'. by eapply return_gets.
    + apply gets_done. eexists. split; [done|]. right. split; [done|].
      apply Z.ltb_ge in Hl. exact Hl.
Qed.

Lemma ready_gets i n s req w resp :
  is_Some (heap (pool s) !! w) -> threads s !! i = Some (ExecReady req w resp) ->
  gets_to i (returns_or_waits i) (S (S (S n))) s.
Proof.
  intros [x Hx] Hi. destruct (conn_ReadFrame 0 (w_conn x)) as [[r c]|] eqn:E.
  - assert (ReadFrame 0 x = Some (r, set_conn c x)) as Er by (unfold ReadFrame; by rewrite E).
    destruct (is_ready r) eqn:Hr;
      (eapply (gets_tstep _ _ _ _ _ (Go 0));
       [done|intros b; cbn -[ReadFrame]; rewrite Hx; cbn -[ReadFrame]; rewrite Er; cbn;
             rewrite Hr; reflexivity|]); intros s' _ Hi'.
    + by eapply send_gets.
    + by eapply return_gets.
  - apply gets_done. eexists. split; [done|]. right. by exists x.
Qed.

Lemma check_gets i n s req w resp :
  is_Some (heap (pool s) !! w) -> threads s !! i = Some (ExecCheck req w resp) ->
  gets_to i (returns_or_waits i) (S (S (S (S n)))) s.
Proof.
  intros [x Hx] Hi. destruct (needsRecycle cfg x) eqn:Hn;
    (eapply (gets_tstep _ _ _ _ _ (Go 0));
     [done|intros b; cbn -[needsRecycle]; rewrite Hx; cbn -[needsRecycle]; rewrite Hn; reflexivity|]);
    intros s' Ep Hi'.
  - by eapply return_gets.
  - eapply ready_gets; [|done]. rewrite Ep. by exists x.
Qed.

Lemma wait_gets i n s req w d :
  RequestTimeout (Pool cfg) > 0 -> threads s !! i = Some (ExecWait req (Some w) d) ->
  gets_to i (returns_or_waits i) (S (S n)) s.
Proof.
  intros Ht Hi. eapply (gets_tstep _ _ _ _ _ Timeout); [done|intros b; cbn|].
  - assert ((RequestTimeout (Pool cfg) >? 0) = true) as -> by lia. reflexivity.
  - intros s' _ Hi'. by eapply return_gets.
Qed.

End Live.

(** ** At concrete inputs *)

(** A pool of one with a request that has its answer, while the worker has not said that it
    is ready; the same after a shutdown has begun and the watchdog has looked around. *)
Definition waiting_state : state := after (small_cfg 1 1 0 5) (start_one ++ ask 2 example_frame).
Definition shutdown_begins : list event := [CallStop; Run 4 (Go 0); Run 1 Tick] ++ goes 1 3.
Definition later_state : state :=
  default init (run echo_may (small_cfg 1 1 0 5) waiting_state shutdown_begins).

Definition worker_of (s : state) (w : loc) : Worker :=
  default (NewWorker 0) (heap (pool s) !! w).

Lemma any_reachable cfg es : reachable echo_may cfg (fun _ => True) (after cfg es).
Proof. apply proc_after_reachable. by apply Forall_true. Qed.


Lemma ready_wait_unbounded_witness :
  cancelled (pool later_state) = true
  /\ threads later_state !! 2%nat = Some (ExecReady example_frame 0%nat (echo [example_frame])).
Proof.
  split; [by vm_compute|].
  apply (ready_wait_unbounded echo_may (small_cfg 1 1 0 5) (fun _ => True) waiting_state later_state
    shutdown_begins 2 example_frame (echo [example_frame]) 0 (worker_of waiting_state 0)
    (worker_of later_state 0) (any_reachable _ _)); by vm_compute.
Defined.

(** The process of the idle worker ends, and the watchdog comes to it. *)
Definition crashed_state : state :=
  after (small_cfg 1 1 0 5) (start_one ++ [PhpExits 0 Exited; Run 1 Tick] ++ goes 1 2).

Lemma dead_worker_unnoticed_witness :
  c_exit (w_conn (worker_of crashed_state 0)) = Some Exited
  /\ step echo_may (small_cfg 1 1 0 5) crashed_state (Run 1 (Go 0))
     = Some (MkState (pool crashed_state) (<[1%nat := WatchState []]> (threads crashed_state))).
Proof.
  split; [by vm_compute|].
  apply (dead_worker_unnoticed echo_may (small_cfg 1 1 0 5) (fun _ => True) crashed_state 1 0 []
    (worker_of crashed_state 0) 0 (any_reachable _ _)); by vm_compute.
Defined.

