(* ===== verification/ProcPoolSeq.v ===== *)
(** The pool of PHP processes run without interference: a request from beginning to end, in
    closed form. *)
From S2P Require Import Prelude GoIO GoSlice Wire Config GoFloat ProcWorker ProcPool ProcPoolConv.
From stdpp Require Import gmap.
Local Open Scope Z_scope.
#[local] Arguments encode_frame : simpl never.
#[local] Arguments int64 : simpl never.
#[local] Arguments int32 : simpl never.

(** ** One worker *)

(** A process that is waited for: alive, its pipes open, everything it wrote read. *)
Definition settled (c : Conn) : Prop :=
  c_in_closed c = false /\ c_out_closed c = false /\ c_exit c = None
  /\ c_pos c = length (c_stdout c).

(** After it was sent [fs] and wrote [bs], which was read. *)
Definition exchanged (sent wrote : list byte) (c : Conn) : Conn :=
  MkConn (c_stdin c ++ sent) false (c_stdout c ++ wrote) (length (c_stdout c ++ wrote)) false None.

Lemma write_settled f x :
  settled (w_conn x) ->
  write_frame f x
  = (None, set_conn (MkConn (c_stdin (w_conn x) ++ encode_frame f) false (c_stdout (w_conn x))
                       (c_pos (w_conn x)) false None) x).
Proof.
  intros (Hi & Ho & He & _). unfold write_frame. rewrite write_bytes.
  unfold write, conn_writer. by rewrite Hi, He, Ho.
Qed.

Lemma read_settled k f sin out :
  fits f ->
  conn_ReadFrame k (MkConn sin false (out ++ encode_frame f) (length out) false None)
  = Some (Ok f, MkConn sin false (out ++ encode_frame f) (length (out ++ encode_frame f)) false None).
Proof.
  intros Hf. unfold conn_ReadFrame, c_unread. cbn [c_out_closed c_pos c_stdout].
  rewrite drop_app_length.
  destruct (ReadFrame_encode (flat_reader (encode_frame f) EOF) f [] Hf) as (r & -> & Hb & _).
  { reflexivity. }
  rewrite Hb. cbn [short_read andb length]. unfold c_left. cbn [c_stdin c_in_closed c_stdout c_exit
    c_out_closed]. by rewrite Nat.sub_0_r.
Qed.

Lemma read_worker k f id st jobs mu sin out ps :
  fits f ->
  ReadFrame k (MkWorker id st jobs mu
                 (MkConn sin false (out ++ encode_frame f) (length out) false None) ps)
  = Some (Ok f, MkWorker id st jobs mu
                  (MkConn sin false (out ++ encode_frame f) (length (out ++ encode_frame f))
                     false None) ps).
Proof. intros Hf. unfold ReadFrame. cbn [w_conn]. by rewrite read_settled. Qed.

Lemma set_worker_twice w x y p : set_worker w y (set_worker w x p) = set_worker w y p.
Proof. unfold set_worker. cbn. by rewrite insert_insert_eq. Qed.

Lemma heap_set_worker w x p : heap (set_worker w x p) !! w = Some x.
Proof. apply lookup_insert_eq. Qed.

(** The current worker object, and one step on it. *)
Ltac norm :=
  rewrite set_worker_twice;
  lazy beta iota delta [set_conn php_writes set_mu set_state add_job
    w_conn w_id w_state w_jobs w_mu w_pstate
    c_stdin c_stdout c_pos c_in_closed c_out_closed c_exit].
Ltac on_worker_solve :=
  intros b; cbn -[set_worker int64]; unfold on_worker; rewrite heap_set_worker; reflexivity.

Section Seq.
Context (php_may : list byte -> list byte -> bool) (cfg : Config).

Abbreviation tstep := (tstep cfg).
Abbreviation run := (run php_may cfg).

(** One step of the thread between [ts] and [us]. *)
Lemma run_thread p ts t us c p' t' new es :
  (forall b, tstep (length ts) b p t c = Some (p', t', new)) ->
  run (MkState p (ts ++ t :: us)) (Run (length ts) c :: es)
  = run (MkState p' (ts ++ t' :: us ++ new)) es.
Proof.
  intros H. cbn -[ProcPool.tstep]. rewrite list_lookup_middle by done.
  cbn -[ProcPool.tstep]. rewrite H. cbn -[ProcPool.tstep].
  rewrite insert_app_r_alt, Nat.sub_diag by done. simpl. by rewrite <- app_assoc.
Qed.

Lemma run_thread_quiet p ts t us c p' t' es :
  (forall b, tstep (length ts) b p t c = Some (p', t', [])) ->
  run (MkState p (ts ++ t :: us)) (Run (length ts) c :: es)
  = run (MkState p' (ts ++ t' :: us)) es.
Proof. intros H. by rewrite (run_thread _ _ _ _ _ _ _ _ _ H), app_nil_r. Qed.

(** One step of the thread after the one at the end of [ts]. *)
Lemma run_second p ts a t c p' t' es :
  (forall b, tstep (S (length ts)) b p t c = Some (p', t', [])) ->
  run (MkState p (ts ++ [a; t])) (Run (S (length ts)) c :: es)
  = run (MkState p' (ts ++ [a; t'])) es.
Proof.
  intros H. change [a; t] with ([a] ++ [t]). change [a; t'] with ([a] ++ [t']).
  rewrite !app_assoc. pose proof (run_thread_quiet p (ts ++ [a]) t [] c p' t' es) as Hr.
  rewrite length_app, Nat.add_1_r in Hr. by apply Hr.
Qed.

Lemma run_php p ts w x bs es :
  heap p !! w = Some x -> c_exit (w_conn x) = None ->
  php_may (c_stdin (w_conn x)) (c_stdout (w_conn x) ++ bs) = true ->
  run (MkState p ts) (PhpWrites w bs :: es)
  = run (MkState (set_worker w (set_conn (php_writes bs (w_conn x)) x) p) ts) es.
Proof.
  intros Hx He Hm. cbn. unfold php_step. rewrite Hx. cbn. rewrite He, Hm.
  by rewrite bool_decide_true.
Qed.

Lemma proc_run_call p ts req es :
  run (MkState p ts) (CallExec req :: es) = run (MkState p (ts ++ [ExecCall req])) es.
Proof. done. Qed.

(** The events of one request: its thread is [i], its goroutine [S i], and the worker answers
    with [resp] and says it is ready. *)
Definition round (i : nat) (req : Frame) (w : loc) (resp : Frame) : list event :=
  [CallExec req] ++ goes i 4 ++ goes (S i) 3
  ++ [PhpWrites w (encode_frame resp)] ++ goes (S i) 5 ++ goes i 2
  ++ [PhpWrites w (encode_frame NewWorkerReadyFrame)] ++ goes i 3.

(** The worker after its answer, and after its [WORKER_READY]. *)
Definition answered_by (req resp : Frame) (x : Worker) : Worker :=
  MkWorker (w_id x) StateIdle (int64 (w_jobs x + 1)) false
    (exchanged (encode_frame req) (encode_frame resp) (w_conn x)) (w_pstate x).

(** The worker and the pool after it. *)
Definition served (req resp : Frame) (x : Worker) : Worker :=
  MkWorker (w_id x) StateIdle (int64 (w_jobs x + 1)) false
    (exchanged (encode_frame req) (encode_frame resp ++ encode_frame NewWorkerReadyFrame) (w_conn x))
    (w_pstate x).

Definition after_round (w : loc) (x' : Worker) (av : list loc) (p : ProcPool) : ProcPool :=
  MkPool (workers p) (<[w := x']> (heap p)) (next_loc p) (av ++ [w]) (closed p) (nextID p)
    (cancelled p) (dones p) (S (next_done p)) (int64 (totalRequests p + 1)) (activeWorkers p)
    (busyWorkers p).

Lemma round_pool w x av p :
  int32 (busyWorkers p) = busyWorkers p ->
  add_busy (-1) (set_available (av ++ [w]) (set_worker w x (set_dones (dones p)
    (make_done (add_busy 1 (set_available av (add_total 1 p))))))) = after_round w x av p.
Proof.
  intros Hb. destruct p as [ws h nl av0 cl ni ca ds nd tr ac bw]. cbn [busyWorkers] in Hb.
  unfold after_round.
  lazy beta iota delta [add_busy set_available set_worker set_dones make_done add_total workers heap
    next_loc available closed nextID cancelled dones next_done totalRequests activeWorkers busyWorkers].
  rewrite int32_add. replace (bw + 1 + -1) with bw by lia. by rewrite Hb.
Qed.

(** [Worker.Exec] in its goroutine, from the lock to the result, when the worker answers. *)
Lemma run_worker_exec p ts a d req resp w x es :
  heap p !! w = Some x -> w_mu x = false -> settled (w_conn x) -> fits resp ->
  php_may (c_stdin (w_conn x) ++ encode_frame req)
    (c_stdout (w_conn x) ++ encode_frame resp) = true ->
  run (MkState p (ts ++ [a; RunLock (Some w) req d]))
    (goes (S (length ts)) 3 ++ PhpWrites w (encode_frame resp) :: goes (S (length ts)) 5 ++ es)
  = run (MkState (set_dones (<[d := MkResult w req (Ok resp)]> (dones p))
                    (set_worker w (answered_by req resp x) p))
           (ts ++ [a; Finished (Returned None)])) es.
Proof.
  intros Hx Hmu Hset Hfit Hm1. unfold goes. cbn [repeat app].
  destruct x as [id st jobs mu [sin ic out pos oc ex] ps]. unfold settled in Hset.
  cbn [w_mu w_conn c_in_closed c_out_closed c_exit c_pos c_stdout c_stdin] in *.
  destruct Hset as (-> & -> & -> & ->). subst mu.
  erewrite run_second by (intros b; cbn; rewrite Hx; reflexivity).
  erewrite run_second by on_worker_solve. norm.
  erewrite run_second
    by (intros b; cbn -[set_worker write_frame]; rewrite heap_set_worker; cbn -[write_frame set_worker];
        rewrite write_settled by (by split_and!); reflexivity).
  norm.
  erewrite run_php by (apply heap_set_worker || reflexivity || exact Hm1). norm.
  erewrite run_second
    by (intros b; cbn -[set_worker ReadFrame]; rewrite heap_set_worker; cbn -[set_worker ReadFrame];
        rewrite read_worker by done; reflexivity).
  norm.
  do 3 (erewrite run_second by on_worker_solve; norm).
  erewrite run_second by (intros b; reflexivity). reflexivity.
Qed.

(** C24. A request with nobody interfering, from a worker that follows the protocol: it is
    written to the worker at the head of the channel, the worker's next frame is returned,
    the frame after it, [WORKER_READY], is read too, and the worker goes to the back of the
    channel with everything it wrote read; one job and one request are counted, and
    nothing else of the pool changes. *)
Theorem Exec_round (p : ProcPool) (ts : list thread) (req resp : Frame) (w : loc) (x : Worker)
    (av : list loc) :
  available p = w :: av -> heap p !! w = Some x -> closed p = false ->
  Z.of_nat (length (available p)) <= maxw cfg ->
  dones p !! next_done p = None -> int32 (busyWorkers p) = busyWorkers p ->
  w_mu x = false -> settled (w_conn x) -> fits resp ->
  needsRecycle cfg (served req resp x) = false ->
  php_may (c_stdin (w_conn x) ++ encode_frame req)
    (c_stdout (w_conn x) ++ encode_frame resp) = true ->
  php_may (c_stdin (w_conn x) ++ encode_frame req)
    ((c_stdout (w_conn x) ++ encode_frame resp) ++ encode_frame NewWorkerReadyFrame) = true ->
  run (MkState p ts) (round (length ts) req w resp)
  = Some (MkState (after_round w (served req resp x) av p)
            (ts ++ [Finished (ExecResult req (Ok resp)); Finished (Returned None)])).
Proof.
  intros Ha Hx Hc Hl Hd Hb Hmu Hset Hfit Hrec Hm1 Hm2. unfold round. cbn [app]. rewrite proc_run_call.
  unfold goes at 1. cbn [repeat]. rewrite <- !app_comm_cons, app_nil_l.
  do 3 (erewrite run_thread_quiet by (intros b; cbn -[int32 int64]; rewrite ?Ha; reflexivity)).
  erewrite run_thread by (intros b; reflexivity). cbn [app].
  rewrite (run_worker_exec _ _ _ _ _ _ _ x) by done.
  unfold goes. cbn [repeat app].
  erewrite run_thread_quiet
    by (intros b; cbn -[set_worker delete insert]; rewrite lookup_insert_eq; reflexivity).
  set (y := answered_by req resp x) in *.
  match goal with |- context [MkState ?q _] =>
    change q with (set_worker w y (set_dones (delete (next_done p) (<[next_done p := MkResult w req (Ok resp)]> (dones p)))
      (make_done (add_busy 1 (set_available av (add_total 1 p)))))) end.
  rewrite delete_insert_id by done.
  match goal with |- context [set_worker w y ?q] => remember q as p2 eqn:Ep2 end.
  erewrite run_thread_quiet
    by (intros b; cbn -[set_worker needsRecycle]; rewrite heap_set_worker;
        cbn -[set_worker needsRecycle]; change (needsRecycle cfg y) with (needsRecycle cfg (served req resp x));
        rewrite Hrec; reflexivity).
  destruct x as [id st jobs mu [sin ic out pos oc ex] ps]. destruct Hset as (Hs1 & Hs2 & Hs3 & Hs4).
  cbn [w_mu w_conn c_in_closed c_out_closed c_exit c_pos c_stdout c_stdin] in *. subst.
  erewrite run_php by (apply heap_set_worker || reflexivity || exact Hm2).
  unfold y, answered_by, exchanged. norm.
  erewrite run_thread_quiet
    by (intros b; cbn -[set_worker ReadFrame]; rewrite heap_set_worker; cbn -[set_worker ReadFrame];
        rewrite read_worker by apply fits_ready; reflexivity).
  norm.
  erewrite run_thread_quiet
    by (intros b; cbn -[set_worker]; unfold send;
        cbn -[Z.of_nat]; rewrite Hc; rewrite (proj2 (Z.ltb_lt _ _)) by (rewrite Ha in Hl; cbn in Hl; lia);
        reflexivity).
  erewrite run_thread_quiet by (intros b; reflexivity). cbn [run ProcPool.run].
  do 2 f_equal. rewrite <- round_pool by done. unfold served, exchanged. cbn. by rewrite !(app_assoc out).
Qed.

(** The worker [spawnWorker] makes, once it said it is ready. *)
Definition greeted (id : Z) : Worker :=
  MkWorker id StateIdle 0 false (exchanged [] (encode_frame NewWorkerReadyFrame) new_conn) None.

Lemma read_greeting k id :
  ReadFrame k (set_conn (php_writes (encode_frame NewWorkerReadyFrame) new_conn) (NewWorker id))
  = Some (Ok NewWorkerReadyFrame, greeted id).
Proof. exact (read_worker k NewWorkerReadyFrame id StateIdle 0 false [] [] None fits_ready). Qed.

Definition reload_events (i : nat) (w : loc) : list event :=
  [CallReload] ++ goes i 3 ++ [PhpWrites w (encode_frame NewWorkerReadyFrame)] ++ goes i 2.

(** Reloading a pool whose workers are all idle blocks: when the channel is full, as
    after [Start] with [MinWorkers] equal to [MaxWorkers], [Reload] spawns its first new
    worker, puts it on the list beyond [MaxWorkers] and then waits for room in the channel,
    which only a request or the watchdog can make; neither a time-out nor the shutdown of
    the pool ends the wait. *)
Theorem Reload_blocks_when_idle (p : ProcPool) (ts : list thread) :
  closed p = false -> Z.of_nat (length (available p)) = maxw cfg -> (0 < minw cfg)%nat ->
  php_may [] (encode_frame NewWorkerReadyFrame) = true ->
  exists p' t,
    run (MkState p ts) (reload_events (length ts) (next_loc p)) = Some (MkState p' (ts ++ [t]))
    /\ workers p' = workers p ++ [next_loc p] /\ available p' = available p
    /\ heap p' !! next_loc p = Some (greeted (int32 (nextID p + 1)))
    /\ forall q tid b c, available q = available p -> closed q = false -> tstep tid b q t c = None.
Proof.
  intros Hc Ha Hmin Hm. destruct (minw cfg) as [|n] eqn:En; [lia|].
  unfold reload_events, goes. cbn [repeat app].
  change (run (MkState p ts) (CallReload :: ?es)) with (run (MkState p (ts ++ [ReloadCopy])) es).
  eexists _, (SpawnSend (next_loc p) (ByReload n (workers p) [])).
  split; [|split; [|split; [|split]]].
  - erewrite run_thread_quiet by (intros b; cbn; rewrite En; reflexivity).
    erewrite run_thread_quiet by (intros b; reflexivity).
    erewrite run_thread_quiet by (intros b; reflexivity).
    erewrite run_php; [|apply lookup_insert_eq|done|done].
    erewrite run_thread_quiet.
    2:{ intros b. cbn -[set_worker ReadFrame]. rewrite heap_set_worker. cbn -[set_worker ReadFrame].
        rewrite read_greeting. reflexivity. }
    erewrite run_thread_quiet by (intros b; reflexivity). reflexivity.
  - reflexivity.
  - reflexivity.
  - cbn [add_active set_workers heap]. apply heap_set_worker.
  - intros q tid b c Eq Hq. cbn. destruct c; cbn; try done. unfold send.
    rewrite Hq, Eq. by rewrite (proj2 (Z.ltb_ge _ _)) by lia.
Qed.
End Seq.

(** ** Concrete runs *)

Definition idle_state : state := after (small_cfg 1 1 10 5) start_one.

Lemma Exec_round_witness :
  run echo_may (small_cfg 1 1 10 5) (MkState (pool idle_state) (threads idle_state)) (round 2 example_frame 0 (echo [example_frame]))
  = Some (MkState
      (after_round 0 (served example_frame (echo [example_frame]) (greeted 1)) [] (pool idle_state))
      (threads idle_state
         ++ [Finished (ExecResult example_frame (Ok (echo [example_frame])));
             Finished (Returned None)])).
Proof.
  refine (Exec_round echo_may (small_cfg 1 1 10 5) (pool idle_state) (threads idle_state)
    example_frame (echo [example_frame]) 0 (greeted 1) [] _ _ _ _ _ _ _ _ (echo_fits _) _ _ _);
    by vm_compute.
Defined.

Lemma Reload_blocks_when_idle_witness :
  exists p' t,
    run echo_may (small_cfg 1 1 10 5) (MkState (pool idle_state) (threads idle_state))
      (reload_events 2 1)
    = Some (MkState p' (threads idle_state ++ [t]))
    /\ length (workers p') = 2%nat /\ MaxWorkers (Pool (small_cfg 1 1 10 5)) = 1.
Proof.
  destruct (Reload_blocks_when_idle echo_may (small_cfg 1 1 10 5) (pool idle_state)
    (threads idle_state) ltac:(by vm_compute) ltac:(by vm_compute) ltac:(vm_compute; lia)
    ltac:(by vm_compute)) as (p' & t & Hr & Hw & _).
  exists p', t. split; [exact Hr|]. rewrite Hw. by vm_compute.
Defined.
