(* ===== verification/EmbWorker.v ===== *)
(** The embedded worker: [src/internal/worker/worker.go].

    The atomic steps of [Exec] are definitions of their own, because other
    goroutines run between them (the pool's machine uses them); [Exec] is their
    composition, as the code runs when nobody interferes. *)
From S2P Require Import Prelude Config Engine.
Local Open Scope string_scope.
Local Open Scope Z_scope.

Inductive WorkerState := StateIdle | StateBusy | StateStopped.

#[export] Instance WorkerState_eq_dec : EqDecision WorkerState.
Proof. solve_decision. Defined.

Record Worker := MkWorker {
  w_id : Z;
  w_engine : Engine;
  w_state : WorkerState;
  w_jobs : Z;
  w_maxJobs : Z
}.

Section Worker.
Variable placeholderHTML : string.
Variable ReadFile : string -> option (list byte).
Variable UnmarshalRequire : list byte -> option (gmap string string).

Definition NewWorker (id : Z) (cfg : Config) : result Worker engine_error :=
  let version := SelectVersion ReadFile UnmarshalRequire
                   (app_Root (App cfg)) (php_Version (PHP cfg)) in
  let? engine := NewEngine version in
  Ok (MkWorker id engine StateIdle 0 (MaxJobs (Pool cfg))).

Definition set_state (s : WorkerState) (w : Worker) : Worker :=
  MkWorker (w_id w) (w_engine w) s (w_jobs w) (w_maxJobs w).
Definition set_engine (e : Engine) (w : Worker) : Worker :=
  MkWorker (w_id w) e (w_state w) (w_jobs w) (w_maxJobs w).

Definition Start (w : Worker) : Worker :=
  let w := set_state StateIdle w in set_engine (Startup (w_engine w)) w.

(** [Stop]: the state first, then the engine. *)
Definition stop_engine (w : Worker) : Worker := set_engine (Shutdown (w_engine w)) w.
Definition Stop (w : Worker) : Worker := stop_engine (set_state StateStopped w).

(** [Exec]: store Busy; run the engine; count a success; the deferred store of Idle. *)
Definition exec_run (w : Worker) : result Response engine_error :=
  Execute placeholderHTML (w_engine w).
Definition exec_count (r : result Response engine_error) (w : Worker) : Worker :=
  match r with
  | Ok _ => MkWorker (w_id w) (w_engine w) (w_state w) (int64 (w_jobs w + 1)) (w_maxJobs w)
  | Err _ => w
  end.
Definition Exec (w : Worker) : result Response engine_error * Worker :=
  let w := set_state StateBusy w in
  let r := exec_run w in
  (r, set_state StateIdle (exec_count r w)).

Definition NeedsRecycle (w : Worker) : bool :=
  (w_maxJobs w >? 0) && (w_jobs w >=? w_maxJobs w).

(** ** Properties *)

(** [n] executions in a row. *)
Fixpoint exec_times (n : nat) (w : Worker) : Worker :=
  match n with O => w | S n => exec_times n (snd (Exec w)) end.

Definition started (w : Worker) : bool := eng_started (w_engine w).

Lemma Exec_started w :
  started w = true ->
  (exists resp, fst (Exec w) = Ok resp /\ resp_Status resp = 200)
  /\ snd (Exec w) = MkWorker (w_id w) (w_engine w) StateIdle (int64 (w_jobs w + 1)) (w_maxJobs w).
Proof.
  unfold started. intros Hs. unfold Exec, exec_run, Execute. simpl. rewrite Hs.
  split; [by eexists|done].
Qed.

Lemma Exec_stopped w :
  started w = false -> Exec w = (Err EngineNotStarted, set_state StateIdle w).
Proof. unfold started. intros Hs. unfold Exec, exec_run, Execute. simpl. by rewrite Hs. Qed.

Lemma exec_times_frame n w :
  w_engine (exec_times n w) = w_engine w /\ w_maxJobs (exec_times n w) = w_maxJobs w.
Proof.
  revert w. induction n as [|n IH]; intros w; cbn [exec_times]; [done|].
  destruct (IH (snd (Exec w))) as [-> ->]. 
  unfold Exec, exec_count. by destruct (exec_run _).
Qed.

Lemma exec_times_started n w :
  started w = true -> 0 <= w_jobs w -> w_jobs w + Z.of_nat n < 2 ^ 63 ->
  w_jobs (exec_times n w) = w_jobs w + Z.of_nat n.
Proof.
  revert w. induction n as [|n IH]; intros w Hs Hj Hn; cbn [exec_times]; [lia|].
  destruct (Exec_started w Hs) as [_ ->].
  rewrite IH; simpl; rewrite ?int64_id by lia; try done; lia.
Qed.

Lemma exec_times_stopped n w :
  started w = false -> w_jobs (exec_times n w) = w_jobs w.
Proof.
  revert w. induction n as [|n IH]; intros w Hs; cbn [exec_times]; [done|].
  rewrite (Exec_stopped w Hs). simpl. by rewrite IH.
Qed.

(** The recycling policy: a fresh worker that has been started answers every
    request with status 200 and asks to be recycled from its [MaxJobs]-th answer on,
    never with [MaxJobs] zero; one whose engine never started answers none, counts
    none and is never recycled. *)
Theorem worker_recycling (id : Z) (cfg : Config) (w : Worker) (n : nat) :
  NewWorker id cfg = Ok w -> 0 <= MaxJobs (Pool cfg) -> Z.of_nat n < 2 ^ 63 ->
  (exists resp, fst (Exec (exec_times n (Start w))) = Ok resp /\ resp_Status resp = 200)
  /\ NeedsRecycle (exec_times n (Start w))
     = (0 <? MaxJobs (Pool cfg)) && (MaxJobs (Pool cfg) <=? Z.of_nat n)
  /\ fst (Exec (exec_times n w)) = Err EngineNotStarted
  /\ NeedsRecycle (exec_times n w) = false.
Proof.
  unfold NewWorker. destruct (NewEngine _) as [e|] eqn:He; cbn [result_bind]; [|done].
  intros [= <-] Hmax Hn.
  assert (eng_started e = false) as Hst
    by (unfold NewEngine in He; case_match; simplify_eq; done).
  set (w := MkWorker id e StateIdle 0 (MaxJobs (Pool cfg))).
  assert (started (Start w) = true) as Hs by apply Startup_started.
  assert (started w = false) as Hu by done.
  destruct (exec_times_frame n (Start w)) as [Ee Em].
  destruct (exec_times_frame n w) as [Ee' Em'].
  split; [|split; [|split]].
  - apply Exec_started. unfold started in *. by rewrite Ee.
  - unfold NeedsRecycle. rewrite Em, exec_times_started by (simpl; done || lia).
    by rewrite Z.gtb_ltb, Z.geb_leb.
  - rewrite Exec_stopped; [done|]. unfold started in *. by rewrite Ee'.
  - unfold NeedsRecycle. rewrite Em', exec_times_stopped by done. simpl.
    destruct (Z.gtb_spec (MaxJobs (Pool cfg)) 0), (Z.geb_spec 0 (MaxJobs (Pool cfg)));
      simpl; lia || done.
Qed.
End Worker.

Definition example_worker : Worker := MkWorker 1 (MkEngine "8.3" false) StateIdle 0 10000.

Lemma worker_recycling_witness :
  NeedsRecycle (exec_times "" 3 (Start example_worker)) = false.
Proof.
  refine (eq_trans (proj1 (proj2 (worker_recycling "" (fun _ => None) (fun _ => None)
            1 Default example_worker 3 _ _ _))) _); by vm_compute.
Defined.
