(* ===== verification/EmbPool.v ===== *)
(** The embedded worker pool: [src/internal/worker/pool.go], as a machine.

    Every goroutine of the pool is a thread, a control point of one of the
    package's functions; a step of a thread is one shared-memory action of the
    code: an atomic, a critical section of [p.mu], a channel operation, a worker's
    or an engine's own critical section.  Actions on a worker no other goroutine
    can reach yet are part of the step that makes it.  There is one step function per function
    of the code, one match arm per control point; [step] adds the scheduler and the calls from
    outside, and everything is executable. *)
From S2P Require Import Prelude Config Engine GoFloat EmbWorker.
Local Open Scope string_scope.
Local Open Scope Z_scope.

(** ** State *)

(** A [*Worker]; [heap] holds the objects, [available] is the buffered channel, its
    head the next value received. *)
Abbreviation loc := nat (only parsing).

Record EmbPool := MkPool {
  workers : list loc;
  heap : gmap loc Worker;
  next_loc : loc;
  available : list loc;
  closed : bool;
  nextID : Z;
  cancelled : bool;
  totalRequests : Z;
  activeWorkers : Z;
  busyWorkers : Z
}.

Definition set_workers ws p := MkPool ws (heap p) (next_loc p) (available p) (closed p)
  (nextID p) (cancelled p) (totalRequests p) (activeWorkers p) (busyWorkers p).
Definition set_available av p := MkPool (workers p) (heap p) (next_loc p) av (closed p)
  (nextID p) (cancelled p) (totalRequests p) (activeWorkers p) (busyWorkers p).
Definition set_closed b p := MkPool (workers p) (heap p) (next_loc p) (available p) b
  (nextID p) (cancelled p) (totalRequests p) (activeWorkers p) (busyWorkers p).
Definition set_nextID n p := MkPool (workers p) (heap p) (next_loc p) (available p) (closed p)
  n (cancelled p) (totalRequests p) (activeWorkers p) (busyWorkers p).
Definition set_cancelled b p := MkPool (workers p) (heap p) (next_loc p) (available p) (closed p)
  (nextID p) b (totalRequests p) (activeWorkers p) (busyWorkers p).

(** [atomic.Int64.Add] and [atomic.Int32.Add] on the metrics. *)
Definition add_total d p := MkPool (workers p) (heap p) (next_loc p) (available p) (closed p)
  (nextID p) (cancelled p) (int64 (totalRequests p + d)) (activeWorkers p) (busyWorkers p).
Definition add_active d p := MkPool (workers p) (heap p) (next_loc p) (available p) (closed p)
  (nextID p) (cancelled p) (totalRequests p) (int32 (activeWorkers p + d)) (busyWorkers p).
Definition add_busy d p := MkPool (workers p) (heap p) (next_loc p) (available p) (closed p)
  (nextID p) (cancelled p) (totalRequests p) (activeWorkers p) (int32 (busyWorkers p + d)).

(** Storing into a worker object, and allocating one. *)
Definition upd_worker (w : loc) (f : Worker -> Worker) p :=
  MkPool (workers p) (alter f w (heap p)) (next_loc p) (available p) (closed p)
    (nextID p) (cancelled p) (totalRequests p) (activeWorkers p) (busyWorkers p).
Definition alloc_worker (x : Worker) p :=
  MkPool (workers p) (<[next_loc p := x]> (heap p)) (S (next_loc p)) (available p) (closed p)
    (nextID p) (cancelled p) (totalRequests p) (activeWorkers p) (busyWorkers p).

Definition NewPool : EmbPool := MkPool [] ∅ 0 [] false 0 false 0 0 0.

(** ** [Stats] *)

Record PoolStats := MkStats {
  st_totalWorkers : Z;
  st_activeWorkers : Z;
  st_busyWorkers : Z;
  st_idleWorkers : Z;
  st_totalRequests : Z
}.

Definition Stats (p : EmbPool) : PoolStats :=
  let total := Z.of_nat (length (workers p)) in
  MkStats total (activeWorkers p) (busyWorkers p) (total - busyWorkers p) (totalRequests p).

(** ** Threads *)

(** Who called [spawnWorker], and what is left to do after the new worker is sent. *)
Inductive spawner :=
| ByStart (left : nat)
| ByReplace
| ByScale (total busy : Z)
| ByReload (left : nat) (old : list loc).

(** Who calls [w.Stop]. *)
Inductive stopper :=
| ForReplace
| ForScaleDown
| ForDrain (rest : list loc)
| ForPoolStop (parent : nat).

Inductive panic := SendOnClosed | CloseOfClosed | NilWorker.

Inductive exec_error :=
| NoAvailableWorker
| PoolShuttingDown
| WorkerError (e : engine_error).

Inductive outcome :=
| Returned (e : option engine_error)
| ExecResult (r : result Response exec_error)
| ExecPanicked (why : panic)   (** in the goroutine of a request *)
| Panicked (why : panic).      (** in any other: the process dies *)

Inductive thread :=
| StartLoop (left : nat)
| SpawnNew (k : spawner)
| SpawnAppend (w : loc) (k : spawner)
| SpawnSend (w : loc) (k : spawner)
| ExecCall
| ExecSelect
| ExecTaken (w : option loc)
| ExecBegin (w : loc)
| ExecRun (w : loc)
| ExecCount (w : loc) (r : result Response engine_error)
| ExecEnd (w : loc) (r : result Response engine_error)
| ExecCheck (w : loc) (r : result Response engine_error)
| ExecSend (w : loc) (r : result Response engine_error)
| ExecReturn (r : result Response engine_error)
| ExecUnwind (why : panic)
| StopState (w : loc) (k : stopper)
| StopEngine (w : loc) (k : stopper)
| RemoveWorker (w : loc) (k : stopper)
| ReplaceCheck
| WatchWait
| WatchTotal
| WatchBusy (total : Z)
| WatchUp (total busy : Z)
| WatchDown (total busy : Z)
| ReloadCopy
| ReloadLoop (left : nat) (old : list loc)
| DrainLoop (ws : list loc)
| StopCancel
| StopCopy
| StopWait
| StopClose
| Finished (o : outcome).

(** What a thread may be waiting for: a [select] has several ready cases. *)
Inductive choice := Go | Timeout | Done | Tick.

(** [busyPct] of [autoScale]. *)
Definition busyPct (busy total : Z) : float64 := fmul (fdiv (f64 busy) (f64 total)) (f64 100).

(** [removeWorker]'s loop: the first worker with this ID goes. *)
Fixpoint remove_by_id (h : gmap loc Worker) (id : Z) (ws : list loc) : option (list loc) :=
  match ws with
  | [] => None
  | w :: ws =>
      if bool_decide (w_id <$> h !! w = Some id) then Some ws
      else cons w <$> remove_by_id h id ws
  end.

Section Machine.
Variable placeholderHTML : string.
Variable ReadFile : string -> option (list byte).
Variable UnmarshalRequire : list byte -> option (gmap string string).
Variable cfg : Config.

Definition maxw : Z := MaxWorkers (Pool cfg).
Definition minw : nat := Z.to_nat (MinWorkers (Pool cfg)).

(** [p.available <- w] of a thread that continues as [t]: blocks when full. *)
Definition send (p : EmbPool) (w : loc) (t crash : thread) : option (EmbPool * thread * list thread) :=
  if closed p then Some (p, crash, [])
  else if Z.of_nat (length (available p)) <? maxw
  then Some (set_available (available p ++ [w]) p, t, [])
  else None.

Definition after_send (k : spawner) : thread :=
  match k with
  | ByStart n => StartLoop n
  | ByReplace => Finished (Returned None)
  | ByScale t b => WatchDown t b
  | ByReload n old => ReloadLoop n old
  end.

Definition spawn_failed (k : spawner) (e : engine_error) : thread :=
  match k with
  | ByScale t b => WatchDown t b
  | ByReplace => Finished (Returned None)
  | _ => Finished (Returned (Some e))
  end.

Definition exec_result (r : result Response engine_error) : result Response exec_error :=
  map_err WorkerError r.

Definition removeWorker (w : loc) (p : EmbPool) : EmbPool :=
  match heap p !! w with
  | Some x =>
      match remove_by_id (heap p) (w_id x) (workers p) with
      | Some ws => add_active (-1) (set_workers ws p)
      | None => p
      end
  | None => p
  end.

Definition after_remove (k : stopper) : thread :=
  match k with
  | ForReplace => ReplaceCheck
  | ForDrain rest => DrainLoop rest
  | _ => Finished (Returned None)
  end.

(** What one action of a thread does: the pool, the thread, the goroutines it starts;
    [None] when the thread cannot take that action now. *)
Abbreviation result_of_step := (option (EmbPool * thread * list thread)) (only parsing).

Definition start_step (p : EmbPool) (t : thread) (c : choice) : result_of_step :=
  match t, c with
  | StartLoop O, Go => Some (p, Finished (Returned None), [WatchWait])
  | StartLoop (S n), Go => Some (p, SpawnNew (ByStart n), [])
  | _, _ => None
  end.

(** [spawnWorker], and the send of the new worker by its caller. *)
Definition spawn_step (p : EmbPool) (t : thread) (c : choice) : result_of_step :=
  match t, c with
  | SpawnNew k, Go =>
      let id := int32 (nextID p + 1) in
      let p := set_nextID id p in
      match NewWorker ReadFile UnmarshalRequire id cfg with
      | Err e => Some (p, spawn_failed k e, [])
      | Ok x =>
          let x := if bool_decide (php_Mode (PHP cfg) = "worker") then Start x else x in
          Some (alloc_worker x p, SpawnAppend (next_loc p) k, [])
      end
  | SpawnAppend w k, Go =>
      Some (add_active 1 (set_workers (workers p ++ [w]) p), SpawnSend w k, [])
  | SpawnSend w k, Go => send p w (after_send k) (Finished (Panicked SendOnClosed))
  | _, _ => None
  end.

Definition exec_step (p : EmbPool) (t : thread) (c : choice) : result_of_step :=
  match t, c with
  | ExecCall, Go => Some (add_total 1 p, ExecSelect, [])
  | ExecSelect, Go =>
      match available p with
      | w :: av => Some (set_available av p, ExecTaken (Some w), [])
      | [] => if closed p then Some (p, ExecTaken None, []) else None
      end
  | ExecSelect, Timeout => Some (p, Finished (ExecResult (Err NoAvailableWorker)), [])
  | ExecSelect, Done =>
      if cancelled p then Some (p, Finished (ExecResult (Err PoolShuttingDown)), []) else None
  | ExecTaken (Some w), Go => Some (add_busy 1 p, ExecBegin w, [])
  | ExecTaken None, Go => Some (add_busy 1 p, ExecUnwind NilWorker, [])
  | ExecBegin w, Go => Some (upd_worker w (set_state StateBusy) p, ExecRun w, [])
  | ExecRun w, Go =>
      match heap p !! w with
      | Some x => Some (p, ExecCount w (exec_run placeholderHTML x), [])
      | None => None
      end
  | ExecCount w r, Go => Some (upd_worker w (exec_count r) p, ExecEnd w r, [])
  | ExecEnd w r, Go => Some (upd_worker w (set_state StateIdle) p, ExecCheck w r, [])
  | ExecCheck w r, Go =>
      match heap p !! w with
      | Some x =>
          if NeedsRecycle x then Some (p, ExecReturn r, [StopState w ForReplace])
          else Some (p, ExecSend w r, [])
      | None => None
      end
  | ExecSend w r, Go => send p w (ExecReturn r) (ExecUnwind SendOnClosed)
  | ExecReturn r, Go => Some (add_busy (-1) p, Finished (ExecResult (exec_result r)), [])
  | ExecUnwind why, Go => Some (add_busy (-1) p, Finished (ExecPanicked why), [])
  | _, _ => None
  end.

(** [Worker.Stop], and what its caller does next. *)
Definition replace_step (p : EmbPool) (t : thread) (c : choice) : result_of_step :=
  match t, c with
  | StopState w k, Go => Some (upd_worker w (set_state StateStopped) p, StopEngine w k, [])
  | StopEngine w k, Go =>
      Some (upd_worker w stop_engine p,
            match k with
            | ForPoolStop _ => Finished (Returned None)
            | _ => RemoveWorker w k
            end, [])
  | RemoveWorker w k, Go => Some (removeWorker w p, after_remove k, [])
  | ReplaceCheck, Go =>
      Some (p, if cancelled p then Finished (Returned None) else SpawnNew ByReplace, [])
  | _, _ => None
  end.

Definition watch_step (p : EmbPool) (t : thread) (c : choice) : result_of_step :=
  match t, c with
  | WatchWait, Tick => Some (p, WatchTotal, [])
  | WatchWait, Done => if cancelled p then Some (p, Finished (Returned None), []) else None
  | WatchTotal, Go => Some (p, WatchBusy (Z.of_nat (length (workers p))), [])
  | WatchBusy total, Go => Some (p, WatchUp total (busyWorkers p), [])
  | WatchUp total busy, Go =>
      if total >? 0 then
        if fle (f64 80) (busyPct busy total) && (total <? maxw)
        then Some (p, SpawnNew (ByScale total busy), [])
        else Some (p, WatchDown total busy, [])
      else Some (p, WatchWait, [])
  | WatchDown total busy, Go =>
      if fle (busyPct busy total) (f64 20) && (total >? MinWorkers (Pool cfg)) then
        match available p with
        | w :: av => Some (set_available av p, WatchWait, [StopState w ForScaleDown])
        | [] => Some (p, WatchWait, if closed p then [Finished (Panicked NilWorker)] else [])
        end
      else Some (p, WatchWait, [])
  | _, _ => None
  end.

Definition reload_step (p : EmbPool) (t : thread) (c : choice) : result_of_step :=
  match t, c with
  | ReloadCopy, Go => Some (p, ReloadLoop minw (workers p), [])
  | ReloadLoop O old, Go => Some (p, Finished (Returned None), [DrainLoop old])
  | ReloadLoop (S n) old, Go => Some (p, SpawnNew (ByReload n old), [])
  | DrainLoop [], Go => Some (p, Finished (Returned None), [])
  | DrainLoop (w :: ws), Go =>
      match heap p !! w with
      | Some x =>
          Some (p, if bool_decide (w_state x = StateBusy) then DrainLoop (w :: ws)
                   else StopState w (ForDrain ws), [])
      | None => None
      end
  | _, _ => None
  end.

(** [tid] is the thread itself; [all_stopped] tells whether the goroutines it waits for
    ([wg.Wait]) are done. *)
Definition stop_step (tid : nat) (all_stopped : bool) (p : EmbPool) (t : thread) (c : choice) :
    result_of_step :=
  match t, c with
  | StopCancel, Go => Some (set_cancelled true p, StopCopy, [])
  | StopCopy, Go => Some (p, StopWait, map (fun w => StopState w (ForPoolStop tid)) (workers p))
  | StopWait, Go => if all_stopped then Some (p, StopClose, []) else None
  | StopClose, Go =>
      if closed p then Some (p, Finished (Panicked CloseOfClosed), [])
      else Some (set_closed true p, Finished (Returned None), [])
  | _, _ => None
  end.

(** One action of a thread, by the function it is in. *)
Definition tstep (tid : nat) (all_stopped : bool) (p : EmbPool) (t : thread) (c : choice) :
    result_of_step :=
  match t with
  | StartLoop _ => start_step p t c
  | SpawnNew _ | SpawnAppend _ _ | SpawnSend _ _ => spawn_step p t c
  | ExecCall | ExecSelect | ExecTaken _ | ExecBegin _ | ExecRun _ | ExecCount _ _ | ExecEnd _ _
  | ExecCheck _ _ | ExecSend _ _ | ExecReturn _ | ExecUnwind _ => exec_step p t c
  | StopState _ _ | StopEngine _ _ | RemoveWorker _ _ | ReplaceCheck => replace_step p t c
  | WatchWait | WatchTotal | WatchBusy _ | WatchUp _ _ | WatchDown _ _ => watch_step p t c
  | ReloadCopy | ReloadLoop _ _ | DrainLoop _ => reload_step p t c
  | StopCancel | StopCopy | StopWait | StopClose => stop_step tid all_stopped p t c
  | Finished _ => None
  end.

(** ** The machine *)

Record state := MkState { pool : EmbPool; threads : list thread }.

(** A call from outside, or a step of a thread. *)
Inductive event :=
| CallStart | CallExec | CallReload | CallStop
| Run (tid : nat) (c : choice).

Definition call_thread (e : event) : thread :=
  match e with
  | CallStart => StartLoop minw
  | CallExec => ExecCall
  | CallReload => ReloadCopy
  | CallStop => StopCancel
  | Run _ _ => Finished (Returned None)   (* not a call *)
  end.

(** A goroutine [wg.Wait] of [tid] still waits for. *)
Definition stops_for (tid : nat) (t : thread) : bool :=
  match t with
  | StopState _ (ForPoolStop k) | StopEngine _ (ForPoolStop k) => Nat.eqb k tid
  | _ => false
  end.

Definition step (s : state) (e : event) : option state :=
  match e with
  | Run tid c =>
      match threads s !! tid with
      | None => None
      | Some t =>
          match tstep tid (negb (existsb (stops_for tid) (threads s))) (pool s) t c with
          | None => None
          | Some (p, t', new) => Some (MkState p (<[tid := t']> (threads s) ++ new))
          end
      end
  | _ => Some (MkState (pool s) (threads s ++ [call_thread e]))
  end.

Fixpoint run (s : state) (es : list event) : option state :=
  match es with
  | [] => Some s
  | e :: es => match step s e with Some s' => run s' es | None => None end
  end.

Definition init : state := MkState NewPool [].

Inductive reachable : state -> Prop :=
| reach_init : reachable init
| reach_step s e s' : reachable s -> step s e = Some s' -> reachable s'.
End Machine.
