(* ===== verification/EmbPoolInv.v ===== *)
(** What holds of the embedded pool in every reachable state, under every
    interleaving: who may touch a worker, what the counters count, and that no
    worker is lost. *)
From S2P Require Import Prelude Config Engine GoFloat EmbWorker EmbPool.
Local Open Scope Z_scope.

(** ** Who holds a worker *)

(** A [Stop] on behalf of the pool's owner of the worker; the drain of [Reload] and
    the pool's own [Stop] act on workers they do not hold. *)
Definition stopper_owns (k : stopper) : bool :=
  match k with ForReplace | ForScaleDown => true | _ => false end.

(** The workers a thread has taken out of the channel or not yet put in. *)
Definition owned (t : thread) : list loc :=
  match t with
  | SpawnAppend w _ | SpawnSend w _ => [w]
  | ExecTaken (Some w) | ExecBegin w | ExecRun w | ExecCount w _ | ExecEnd w _
  | ExecCheck w _ | ExecSend w _ => [w]
  | StopState w k | StopEngine w k | RemoveWorker w k => if stopper_owns k then [w] else []
  | _ => []
  end.

(** The worker a thread has made and not yet registered. *)
Definition appending (t : thread) : list loc :=
  match t with SpawnAppend w _ => [w] | _ => [] end.

(** The worker a request is being executed on. *)
Definition executing (t : thread) : option loc :=
  match t with
  | ExecTaken (Some w) | ExecBegin w | ExecRun w | ExecCount w _ | ExecEnd w _
  | ExecCheck w _ | ExecSend w _ => Some w
  | _ => None
  end.

(** Between [busyWorkers.Add(1)] and the deferred [busyWorkers.Add(-1)]. *)
Definition is_busy (t : thread) : bool :=
  match t with
  | ExecBegin _ | ExecRun _ | ExecCount _ _ | ExecEnd _ _ | ExecCheck _ _ | ExecSend _ _
  | ExecReturn _ | ExecUnwind _ => true
  | _ => false
  end.

(** A call of [Exec] that has been counted. *)
Definition is_request (t : thread) : bool :=
  match t with
  | ExecSelect | ExecTaken _ | ExecBegin _ | ExecRun _ | ExecCount _ _ | ExecEnd _ _
  | ExecCheck _ _ | ExecSend _ _ | ExecReturn _ | ExecUnwind _
  | Finished (ExecResult _) | Finished (ExecPanicked _) => true
  | _ => false
  end.

Definition is_panic (t : thread) : bool :=
  match t with
  | Finished (Panicked _) | Finished (ExecPanicked _) | ExecUnwind _ => true
  | _ => false
  end.

(** The workers that are in the channel or held by a thread. *)
Definition holdings (s : state) : list loc := available (pool s) ++ (threads s ≫= owned).

Definition count (f : thread -> bool) (ts : list thread) : nat := length (filter f ts).

Lemma count_cons f t ts : count f (t :: ts) = ((if f t then 1 else 0) + count f ts)%nat.
Proof. unfold count. rewrite filter_cons. destruct (f t); by rewrite ?decide_True, ?decide_False by auto. Qed.

Lemma count_app f ts us : count f (ts ++ us) = (count f ts + count f us)%nat.
Proof. unfold count. by rewrite filter_app, length_app. Qed.

#[export] Instance count_perm f : Proper ((≡ₚ) ==> (=)) (count f).
Proof. intros ts us H. unfold count. by rewrite H. Qed.

(** The threads a [Stop] of the pool starts hold nothing and count nowhere. *)
Lemma stop_threads_nil tid ws :
  (map (fun w => StopState w (ForPoolStop tid)) ws ≫= owned) = []
  /\ (map (fun w => StopState w (ForPoolStop tid)) ws ≫= appending) = [].
Proof. by induction ws. Qed.
Lemma stop_threads_count f tid ws :
  (forall w, f (StopState w (ForPoolStop tid)) = false) ->
  count f (map (fun w => StopState w (ForPoolStop tid)) ws) = 0%nat.
Proof. intros Hf. induction ws as [|w ws IH]; [done|]. cbn [map]. by rewrite count_cons, Hf. Qed.

Lemma remove_by_id_sub h id ws ws' :
  remove_by_id h id ws = Some ws' ->
  exists l w r, ws = l ++ w :: r /\ ws' = l ++ r /\ w_id <$> h !! w = Some id.
Proof.
  revert ws'. induction ws as [|w ws IH]; intros ws'; simpl; [done|].
  case_bool_decide as Hw.
  - intros [= <-]. by exists [], w, ws.
  - destruct (remove_by_id h id ws) as [ws1|]; simpl; [|done]. intros [= <-].
    destruct (IH _ eq_refl) as (l & w' & r & -> & -> & ?). by exists (w :: l), w', r.
Qed.

Lemma remove_by_id_None h id ws :
  remove_by_id h id ws = None -> forall w, w ∈ ws -> w_id <$> h !! w <> Some id.
Proof.
  induction ws as [|w ws IH]; simpl; [by intros _ w ?%elem_of_nil|].
  case_bool_decide as Hw; [done|]. destruct (remove_by_id h id ws); [done|].
  intros _ w' [->|Hin]%elem_of_cons; [done|]. by apply IH.
Qed.

(** Case analysis on one step of a thread. *)
Ltac tstep_cases H :=
  match type of H with
  | EmbPool.tstep _ _ _ _ _ _ _ ?t ?c = _ => destruct t, c; cbn -[Start NewWorker int32 f64 busyPct] in H;
      try discriminate H
  end;
  unfold send in H; repeat (case_match; try discriminate H); simplify_eq.

Section Inv.
Context (placeholderHTML : string) (ReadFile : string -> option (list byte)).
Context (UnmarshalRequire : list byte -> option (gmap string string)) (cfg : Config).

Abbreviation tstep := (tstep placeholderHTML ReadFile UnmarshalRequire cfg).
Abbreviation step := (step placeholderHTML ReadFile UnmarshalRequire cfg).
Abbreviation reachable := (reachable placeholderHTML ReadFile UnmarshalRequire cfg).
Abbreviation call_thread := (call_thread cfg).

(** A step of the machine is a call, or a step of one thread among the others. *)
Lemma step_inv s e s' :
  step s e = Some s' ->
  (pool s' = pool s /\ threads s' ≡ₚ call_thread e :: threads s)
  \/ exists tid t b c t' new rest,
      tstep tid b (pool s) t c = Some (pool s', t', new)
      /\ threads s ≡ₚ t :: rest /\ threads s' ≡ₚ t' :: new ++ rest.
Proof.
  destruct e as [| | | |tid c]; cbn -[EmbPool.tstep];
    try (intros [= <-]; left; simpl; split; [done|by rewrite Permutation_app_comm]).
  destruct (threads s !! tid) as [t|] eqn:Ht; [|done].
  destruct (tstep _ _ _ _ _) as [[[p t'] new]|] eqn:Hs; [|done]. intros [= <-]. right.
  destruct (insert_Permutation _ _ t t' Ht) as (rest & H1 & H2).
  eexists tid, t, _, c, t', new, rest. split; [exact Hs|]. split; [done|].
  cbn [threads]. rewrite H2. simpl. by rewrite (Permutation_app_comm rest new).
Qed.

(** ** Linear resources

    A multiset of workers, some from the pool and some from each thread, that no
    step duplicates: a step hands on what was there and adds at most the worker it
    has just allocated. *)

Definition linear (base : EmbPool -> list loc) (f : thread -> list loc) : Prop :=
  base NewPool = [] /\ (forall e, f (call_thread e) = [])
  /\ forall tid b p t c p' t' new,
      tstep tid b p t c = Some (p', t', new) ->
      (next_loc p' = next_loc p /\ base p' ++ f t' ++ (new ≫= f) ⊆+ base p ++ f t)
      \/ (next_loc p' = S (next_loc p)
          /\ base p' ++ f t' ++ (new ≫= f) ⊆+ next_loc p :: base p ++ f t).

Definition resources (base : EmbPool -> list loc) (f : thread -> list loc) (s : state) : list loc :=
  base (pool s) ++ (threads s ≫= f).

Lemma resources_step base f s e s' :
  linear base f -> step s e = Some s' ->
  (next_loc (pool s') = next_loc (pool s) /\ resources base f s' ⊆+ resources base f s)
  \/ (next_loc (pool s') = S (next_loc (pool s))
      /\ resources base f s' ⊆+ next_loc (pool s) :: resources base f s).
Proof.
  unfold resources.
  intros (_ & Hcall & Hlin) [[Hp Ht]|(tid & t & b & c & t' & new & rest & Hs & H1 & H2)]%step_inv.
  - left. rewrite Hp, Ht, bind_cons, Hcall. done.
  - rewrite H1, H2, !bind_cons, bind_app.
    destruct (Hlin _ _ _ _ _ _ _ _ Hs) as [[-> Hsub]|[-> Hsub]]; [left|right];
      (split; [done|]); rewrite ?app_comm_cons, !app_assoc, ?app_comm_cons in *;
      by apply submseteq_app.
Qed.

Lemma linear_reachable base f s :
  linear base f -> reachable s ->
  NoDup (resources base f s)
  /\ Forall (fun w => (w < next_loc (pool s))%nat) (resources base f s).
Proof.
  intros Hlin. induction 1 as [|s e s' _ [IH1 IH2] Hs].
  { unfold resources. destruct Hlin as [E _]. cbn. rewrite E. split; constructor. }
  destruct (resources_step _ _ s e s' Hlin Hs) as [[-> Hsub]|[-> Hsub]].
  - split; [by eapply NoDup_submseteq_inv|by eapply Forall_submseteq].
  - split.
    + eapply NoDup_submseteq_inv; [done|]. constructor; [|done].
      intros Hin. rewrite Forall_forall in IH2. apply IH2 in Hin. lia.
    + eapply Forall_submseteq; [done|]. constructor; [lia|].
      eapply Forall_impl; [done|]. simpl. lia.
Qed.

Lemma call_thread_nil e : owned (call_thread e) = [] /\ appending (call_thread e) = [].
Proof. by destruct e. Qed.
Lemma after_send_nil k : owned (after_send k) = [] /\ appending (after_send k) = [].
Proof. by destruct k. Qed.
Lemma spawn_failed_nil k e : owned (spawn_failed k e) = [] /\ appending (spawn_failed k e) = [].
Proof. by destruct k. Qed.
Lemma after_remove_nil k : owned (after_remove k) = [] /\ appending (after_remove k) = [].
Proof. by destruct k. Qed.

(** [removeWorker] touches the list of workers and its counter only. *)
Lemma removeWorker_frame w p :
  heap (removeWorker w p) = heap p /\ next_loc (removeWorker w p) = next_loc p
  /\ available (removeWorker w p) = available p /\ closed (removeWorker w p) = closed p
  /\ nextID (removeWorker w p) = nextID p /\ cancelled (removeWorker w p) = cancelled p
  /\ totalRequests (removeWorker w p) = totalRequests p
  /\ busyWorkers (removeWorker w p) = busyWorkers p.
Proof. unfold removeWorker. repeat case_match; done. Qed.

(** ... and takes one worker off the list, or none. *)
Lemma removeWorker_workers w p :
  (workers (removeWorker w p) = workers p /\ activeWorkers (removeWorker w p) = activeWorkers p)
  \/ (exists l v r, workers p = l ++ v :: r /\ workers (removeWorker w p) = l ++ r
       /\ activeWorkers (removeWorker w p) = int32 (activeWorkers p + -1)).
Proof.
  unfold removeWorker. repeat case_match; try by left. right.
  match goal with H : remove_by_id _ _ _ = Some _ |- _ =>
    destruct (remove_by_id_sub _ _ _ _ H) as (l' & v' & r' & ? & ? & _) end.
  by exists l', v', r'.
Qed.

Lemma removeWorker_sub w p : workers (removeWorker w p) ⊆+ workers p.
Proof.
  destruct (removeWorker_workers w p) as [[-> _]|(l & v & r & -> & -> & _)]; [done|].
  by apply submseteq_app, submseteq_cons.
Qed.

Ltac linear_solve :=
  rewrite ?(proj1 (after_send_nil _)), ?(proj1 (spawn_failed_nil _ _)),
    ?(proj1 (after_remove_nil _)), ?(proj2 (after_send_nil _)),
    ?(proj2 (spawn_failed_nil _ _)), ?(proj2 (after_remove_nil _));
  repeat match goal with H : available _ = [] |- _ => rewrite H end;
  first [ left; split; [done|]; simpl; solve_submseteq
        | right; split; [done|]; simpl; solve_submseteq ].

(** The workers in the channel or held by a thread. *)
Lemma linear_holdings : linear available owned.
Proof.
  split; [done|]. split; [intros e; apply call_thread_nil|].
  intros tid b p t c p' t' new H. tstep_cases H.
  all: try match goal with |- context [removeWorker ?w ?p] =>
    destruct (removeWorker_frame w p) as (_ & -> & -> & _) end.
  all: rewrite ?(proj1 (stop_threads_nil _ _)).
  all: linear_solve.
Qed.

(** The workers on the list or about to be put there. *)
Lemma linear_known : linear workers appending.
Proof.
  split; [done|]. split; [intros e; apply call_thread_nil|].
  intros tid b p t c p' t' new H. tstep_cases H.
  all: try match goal with |- context [removeWorker ?w ?p] =>
    destruct (removeWorker_frame w p) as (_ & -> & _);
    left; split; [done|]; rewrite (proj2 (after_remove_nil _)); simpl;
    rewrite !app_nil_r; apply removeWorker_sub end.
  all: rewrite ?(proj2 (stop_threads_nil _ _)).
  all: linear_solve.
Qed.

Lemma reachable_holdings s :
  reachable s -> NoDup (holdings s) /\ Forall (fun w => (w < next_loc (pool s))%nat) (holdings s).
Proof. apply (linear_reachable available owned), linear_holdings. Qed.

Lemma reachable_known s :
  reachable s ->
  NoDup (workers (pool s)) /\ Forall (fun w => (w < next_loc (pool s))%nat) (workers (pool s)).
Proof.
  intros H. destruct (linear_reachable workers appending s linear_known H) as [H1 H2].
  apply NoDup_app in H1 as [H1 _]. apply Forall_app in H2 as [H2 _]. done.
Qed.

(** ** Counters *)

(** A counter that follows the number of threads at certain points. *)
Definition tracks (f : thread -> bool) (wrap : Z -> Z) (v v' : Z) (t t' : thread)
    (new : list thread) : Prop :=
  (v' = v /\ count f (t' :: new) = count f [t])
  \/ exists d, v' = wrap (v + d)
      /\ Z.of_nat (count f (t' :: new)) = Z.of_nat (count f [t]) + d.

Lemma tracks_step f wrap v v' t t' new rest ts ts' :
  (forall a b, wrap (wrap a + b) = wrap (a + b)) ->
  tracks f wrap v v' t t' new -> ts ≡ₚ t :: rest -> ts' ≡ₚ t' :: new ++ rest ->
  v = wrap (Z.of_nat (count f ts)) -> v' = wrap (Z.of_nat (count f ts')).
Proof.
  intros Hw Htr H1 H2 Hv. rewrite H1 in Hv. rewrite H2. clear H1 H2.
  rewrite app_comm_cons, count_app. rewrite count_cons in Hv.
  destruct Htr as [[-> Hc]|(d & -> & Hc)]; rewrite (count_cons f t []) in Hc;
    unfold count in Hc at 2; simpl in Hc.
  - rewrite Hv. f_equal. lia.
  - rewrite Hv, Hw. f_equal. lia.
Qed.

Ltac tracks_solve :=
  first [ left; split; [reflexivity|]; cbn; reflexivity
        | right; exists 1; split; reflexivity
        | right; exists (-1); split; reflexivity ].

Lemma tstep_busy tid b p t c p' t' new :
  tstep tid b p t c = Some (p', t', new) ->
  tracks is_busy int32 (busyWorkers p) (busyWorkers p') t t' new.
Proof.
  intros H. tstep_cases H.
  all: try match goal with |- context [removeWorker ?w ?p] =>
    destruct (removeWorker_frame w p) as (_ & _ & _ & _ & _ & _ & _ & ->) end.
  all: try match goal with k : spawner |- _ => destruct k | k : stopper |- _ => destruct k end.
  all: try tracks_solve.
  all: left; (split; [done|]); by rewrite count_cons, stop_threads_count.
Qed.

Lemma tstep_total tid b p t c p' t' new :
  tstep tid b p t c = Some (p', t', new) ->
  tracks is_request int64 (totalRequests p) (totalRequests p') t t' new.
Proof.
  intros H. tstep_cases H.
  all: try match goal with |- context [removeWorker ?w ?p] =>
    destruct (removeWorker_frame w p) as (_ & _ & _ & _ & _ & _ & -> & _) end.
  all: try match goal with k : spawner |- _ => destruct k | k : stopper |- _ => destruct k end.
  all: try tracks_solve.
  all: left; (split; [done|]); by rewrite count_cons, stop_threads_count.
Qed.
Lemma tstep_active tid b p t c p' t' new :
  tstep tid b p t c = Some (p', t', new) ->
  activeWorkers p = int32 (Z.of_nat (length (workers p))) ->
  activeWorkers p' = int32 (Z.of_nat (length (workers p'))).
Proof.
  intros H Ha. tstep_cases H; try exact Ha; cbn -[int32].
  - rewrite Ha, int32_add, length_app. f_equal. simpl. lia.
  - destruct (removeWorker_workers w p) as [[-> ->]|(l & v & r & E & -> & ->)]; [done|].
    rewrite Ha, E, int32_add, !length_app. f_equal. simpl. lia.
Qed.

(** ** The registered workers *)

Context (Hcfg : valid_config cfg).

Lemma NewWorker_valid id :
  exists v, NewWorker ReadFile UnmarshalRequire id cfg
            = Ok (MkWorker id (MkEngine v false) StateIdle 0 (MaxJobs (Pool cfg))).
Proof.
  unfold NewWorker. destruct (NewEngine_valid ReadFile UnmarshalRequire cfg Hcfg) as [v ->].
  by exists v.
Qed.

(** IDs are the allocation numbers, as 32-bit integers. *)
Record ids_ok (p : EmbPool) : Prop := {
  ids_next : nextID p = int32 (Z.of_nat (next_loc p));
  ids_heap w : (w < next_loc p)%nat ->
               w_id <$> heap p !! w = Some (int32 (Z.of_nat (S w)))
}.

Lemma alter_id f w v (h : gmap loc Worker) :
  (forall x, w_id (f x) = w_id x) -> w_id <$> alter f w h !! v = w_id <$> h !! v.
Proof.
  intros Hf. rewrite lookup_alter. case_decide; [subst|done].
  destruct (h !! v); simpl; by rewrite ?Hf.
Qed.

Lemma exec_count_id r x : w_id (exec_count r x) = w_id x.
Proof. by destruct r. Qed.

Lemma tstep_ids tid b p t c p' t' new :
  tstep tid b p t c = Some (p', t', new) -> ids_ok p -> ids_ok p'.
Proof.
  intros H [Hn Hh].
  assert (forall x, w_id x = int32 (nextID p + 1) ->
          ids_ok (alloc_worker x (set_nextID (int32 (nextID p + 1)) p))) as Halloc.
  { intros x Hx. split; cbn -[int32].
    - rewrite Hn, int32_add. f_equal. lia.
    - intros w Hw. rewrite lookup_insert. case_decide as Hc; [|apply Hh; lia].
      subst. cbn -[int32]. rewrite Hx, Hn, int32_add. do 2 f_equal. lia. }
  tstep_cases H; try done.
  all: try (destruct (NewWorker_valid (int32 (nextID p + 1))) as [v Hv];
            rewrite Hv in *; simplify_eq; by apply Halloc).
  all: try (destruct (removeWorker_frame w p) as (E1 & E2 & _ & _ & E3 & _);
            split; [by rewrite E2, E3|intros v; rewrite E1, E2; apply Hh]).
  all: split; cbn -[int32]; [done|]; intros v Hv; rewrite alter_id; auto using exec_count_id.
Qed.

Lemma ids_inj p v w :
  ids_ok p -> Z.of_nat (next_loc p) < 2 ^ 32 ->
  (v < next_loc p)%nat -> (w < next_loc p)%nat ->
  w_id <$> heap p !! v = w_id <$> heap p !! w -> v = w.
Proof.
  intros [_ Hh] Hb Hv Hw. rewrite !Hh by done. intros [= E].
  apply int32_inj in E; lia.
Qed.

(** ** No worker is lost *)

Lemma removeWorker_removes w p :
  ids_ok p -> Z.of_nat (next_loc p) < 2 ^ 32 -> (w < next_loc p)%nat ->
  NoDup (workers p) -> Forall (fun v => (v < next_loc p)%nat) (workers p) ->
  w ∉ workers (removeWorker w p).
Proof.
  intros Hids Hb Hw Hnd Hal. unfold removeWorker.
  pose proof (ids_heap _ Hids w Hw) as Hid.
  destruct (heap p !! w) as [x|] eqn:Ex; [|done]. simpl in Hid.
  destruct (remove_by_id (heap p) (w_id x) (workers p)) as [ws|] eqn:Er; cbn [workers].
  - apply remove_by_id_sub in Er as (l & v & r & E & -> & Hv). rewrite E in *.
    assert (v = w) as ->.
    { apply (ids_inj p); [done..| | |by rewrite Hv, Ex].
      - rewrite Forall_app, Forall_cons in Hal. tauto.
      - done. }
    apply NoDup_app in Hnd as (_ & Hl & [Hr _]%NoDup_cons).
    intros [H|H]%elem_of_app; [|done]. apply (Hl w H). by left.
  - intros Hin. apply (remove_by_id_None _ _ _ Er w Hin). by rewrite Ex.
Qed.

(** What a thread gives up: only a worker it takes off the list, or in a panic. *)
Lemma tstep_keeps tid b p t c p' t' new v :
  tstep tid b p t c = Some (p', t', new) ->
  v ∈ available p ++ owned t ->
  v ∈ available p' ++ owned t' ++ (new ≫= owned)
  \/ existsb is_panic (t' :: new) = true
  \/ p' = removeWorker v p.
Proof.
  intros H Hv. tstep_cases H; cbn in Hv |- *.
  all: try match goal with k : stopper |- _ => destruct k; cbn in Hv |- * end.
  all: try match goal with |- context [removeWorker ?w ?p] =>
    destruct (removeWorker_frame w p) as (_ & _ & -> & _) end.
  all: repeat match goal with H : available _ = _ |- _ => rewrite H in Hv end.
  all: set_unfold; intuition (subst; auto).
Qed.

Lemma tstep_panic tid b p t c p' t' new :
  tstep tid b p t c = Some (p', t', new) -> is_panic t = true ->
  existsb is_panic (t' :: new) = true.
Proof. intros H Ht. by tstep_cases H. Qed.

Lemma tstep_appends tid b p t c p' t' new w :
  tstep tid b p t c = Some (p', t', new) -> w ∈ workers p' -> w ∈ workers p \/ w ∈ owned t.
Proof.
  intros H Hw. tstep_cases H; try (by left); cbn in Hw.
  - set_unfold. tauto.
  - left. eapply elem_of_submseteq; [exact Hw|apply removeWorker_sub].
Qed.

Lemma reachable_ids s : reachable s -> ids_ok (pool s).
Proof.
  induction 1 as [|s e s' _ IH Hs]; [split; [done|]; cbn; lia|].
  destruct (step_inv _ _ _ Hs) as [[-> _]|(tid & t & b & c & t' & new & rest & Ht & _)]; [done|].
  by eapply tstep_ids.
Qed.

#[local] Instance existsb_perm (f : thread -> bool) : Proper ((≡ₚ) ==> (=)) (existsb f).
Proof.
  induction 1; simpl; try congruence. by rewrite !orb_assoc, (orb_comm (f y)).
Qed.

Lemma reachable_held s :
  reachable s -> Z.of_nat (next_loc (pool s)) < 2 ^ 32 ->
  existsb is_panic (threads s) = false ->
  forall w, w ∈ workers (pool s) -> w ∈ holdings s.
Proof.
  induction 1 as [|s e s' Hr IH Hs]; [by intros _ _ w ?%elem_of_nil|].
  intros Hb Hnp w Hw.
  assert (next_loc (pool s) <= next_loc (pool s'))%nat as Hn
    by (destruct (resources_step _ _ s e s' linear_holdings Hs) as [[-> _]|[-> _]]; lia).
  unfold holdings in *.
  destruct (step_inv _ _ _ Hs) as [[Hp Ht]|(tid & t & b & c & t' & new & rest & Ht & H1 & H2)].
  { rewrite Ht, Hp in *. cbn [existsb] in Hnp. apply orb_false_iff in Hnp as [_ Hnp].
    rewrite bind_cons, (proj1 (call_thread_nil e)). by apply IH; [lia|..]. }
  rewrite H2, app_comm_cons, existsb_app in Hnp. apply orb_false_iff in Hnp as [Hnt Hnr].
  destruct (reachable_known s Hr) as [K1 K2]. destruct (reachable_holdings s Hr) as [_ K3].
  unfold holdings in K3. rewrite H1, H2, !bind_cons, !bind_app, ?app_assoc in *.
  apply Forall_app in K3 as [K3 _]. rewrite Forall_forall in K3.
  assert (w ∈ (available (pool s) ++ owned t) ++ (rest ≫= owned)) as Hin.
  { destruct (tstep_appends _ _ _ _ _ _ _ _ _ Ht Hw) as [Hw'|Hw']; [|set_solver].
    assert ((threads s ≫= owned) ≡ₚ owned t ++ (rest ≫= owned)) as E
      by (by rewrite H1, bind_cons).
    rewrite <- app_assoc, <- E. apply IH; [lia| |done]. cbn [existsb].
    apply orb_false_iff. split; [|done].
    apply not_true_is_false. intros Hpt.
    by rewrite (tstep_panic _ _ _ _ _ _ _ _ Ht Hpt) in Hnt. }
  apply elem_of_app in Hin as [Hin|Hin]; [|set_unfold; tauto].
  destruct (tstep_keeps _ _ _ _ _ _ _ _ _ Ht Hin) as [H|[H|H]];
    [clear -H; set_unfold; tauto|congruence|].
  exfalso. rewrite H in Hw. revert Hw.
  apply removeWorker_removes; auto using reachable_ids; lia.
Qed.

(** ** Properties *)

Lemma executing_owned t w : executing t = Some w -> owned t = [w].
Proof. intros H. by destruct t as [| | | | | |[|]| | | | | | | | | | | | | | | | | | | | | | | | |];
  simplify_eq/=. Qed.

(** C2. Exclusive execution: whatever the interleaving of requests, scaling, reloads
    and shutdowns, two goroutines never execute requests on the same worker, and a
    worker executing a request is not in the channel of available workers. *)
Theorem exclusive_execution s :
  reachable s ->
  (forall i j t u w, threads s !! i = Some t -> threads s !! j = Some u ->
     executing t = Some w -> executing u = Some w -> i = j)
  /\ (forall i t w, threads s !! i = Some t -> executing t = Some w ->
        w ∉ available (pool s)).
Proof.
  intros Hr. destruct (reachable_holdings s Hr) as [Hnd _].
  apply NoDup_app in Hnd as (_ & Hd & Hn). split.
  - intros i j t u w Hi Hj Ht%executing_owned Hu%executing_owned.
    apply (NoDup_bind_lookup owned (threads s) i j t u w); rewrite ?Ht, ?Hu; auto; by left.
  - intros i t w Hi Ht%executing_owned Hin. apply (Hd w Hin), list_elem_of_bind.
    exists t. rewrite Ht. split; [by left|]. by eapply list_elem_of_lookup_2.
Qed.

(** The counters of requests follow the threads. *)
Lemma reachable_requests s :
  reachable s ->
  busyWorkers (pool s) = int32 (Z.of_nat (count is_busy (threads s)))
  /\ totalRequests (pool s) = int64 (Z.of_nat (count is_request (threads s))).
Proof.
  induction 1 as [|s e s' _ [IH1 IH2] Hs]; [done|].
  destruct (step_inv _ _ _ Hs) as [[Hp Ht]|(tid & t & b & c & t' & new & rest & Ht & H1 & H2)].
  - rewrite Hp, Ht, !count_cons.
    assert (is_busy (call_thread e) = false) as -> by (by destruct e).
    by assert (is_request (call_thread e) = false) as -> by (by destruct e).
  - split; eapply tracks_step; eauto using tstep_busy, tstep_total, int32_add, int64_add.
Qed.

(** C34. The metrics are what they say, at their width: [activeWorkers] the number of
    registered workers, [busyWorkers] the number of requests between taking a worker
    and returning, [totalRequests] the number of calls of [Exec]. *)
Theorem counters_exact s :
  reachable s ->
  activeWorkers (pool s) = int32 (Z.of_nat (length (workers (pool s))))
  /\ busyWorkers (pool s) = int32 (Z.of_nat (count is_busy (threads s)))
  /\ totalRequests (pool s) = int64 (Z.of_nat (count is_request (threads s))).
Proof.
  intros Hr. split; [|by apply reachable_requests].
  induction Hr as [|s e s' _ IH Hs]; [done|].
  destruct (step_inv _ _ _ Hs) as [[Hp Ht]|(tid & t & b & c & t' & new & rest & Ht & H1 & H2)].
  - by rewrite Hp.
  - by eapply tstep_active.
Qed.

(** C7. No worker is lost: as long as nothing has panicked and fewer than 2^32 workers
    have been made, every registered worker is in the channel or held by a goroutine;
    once no goroutine holds one, all of them are available. *)
Theorem no_worker_lost s :
  reachable s -> Z.of_nat (next_loc (pool s)) < 2 ^ 32 ->
  existsb is_panic (threads s) = false ->
  (forall w, w ∈ workers (pool s) ->
     w ∈ available (pool s) \/ exists t, t ∈ threads s /\ w ∈ owned t)
  /\ (Forall (fun t => owned t = []) (threads s) ->
        workers (pool s) ⊆+ available (pool s)).
Proof.
  intros Hr Hb Hp. split.
  - intros w Hw. pose proof (reachable_held s Hr Hb Hp w Hw) as Hin.
    apply elem_of_app in Hin as [Hin|Hin]; [by left|right].
    apply list_elem_of_bind in Hin as (t & ? & ?). by exists t.
  - intros Hq. destruct (reachable_known s Hr) as [Hnd _].
    apply NoDup_submseteq; [done|]. intros w Hw.
    pose proof (reachable_held s Hr Hb Hp w Hw) as Hin.
    apply elem_of_app in Hin as [Hin|Hin]; [done|].
    apply list_elem_of_bind in Hin as (t & Hw' & Ht).
    rewrite Forall_forall in Hq. rewrite (Hq t Ht) in Hw'. by apply elem_of_nil in Hw'.
Qed.
End Inv.

(** ** An example run

    Two workers; a request is executing on the first, one has taken the second, and
    one has returned. *)

Definition tiny_cfg (mode : string) (mn mx jobs : Z) : Config :=
  MkConfig (Server Default) (MkPHPConfig "8.3" mode "" "" ∅)
    (MkPoolConfig mn mx jobs "128M" 0 0 0)
    (App Default) (WebSocket Default) (Static Default) (Logging Default)
    (Metrics Default) (Watch Default) [].

Definition no_file : string -> option (list byte) := fun _ => None.
Definition no_json : list byte -> option (gmap string string) := fun _ => None.

Definition goes (tid n : nat) : list event := repeat (Run tid Go) n.

Lemma run_reachable h R U cfg es : forall s s',
  reachable h R U cfg s -> run h R U cfg s es = Some s' -> reachable h R U cfg s'.
Proof.
  induction es as [|e es IH]; intros s s' Hr; cbn [run]; [by intros [= <-]|].
  destruct (step h R U cfg s e) as [s1|] eqn:E; [|done]. apply IH. by eapply reach_step.
Qed.

(** The state a run reaches, the initial one when it is not a run. *)
Definition after (cfg : Config) (es : list event) : state :=
  default init (run "" no_file no_json cfg init es).

Lemma after_reachable cfg es : reachable "" no_file no_json cfg (after cfg es).
Proof.
  unfold after. destruct (run "" no_file no_json cfg init es) eqn:E; simpl; [|apply reach_init].
  eapply run_reachable; [apply reach_init|exact E].
Qed.

Definition busy_state : state :=
  after (tiny_cfg "worker" 2 3 10)
    ([CallStart] ++ goes 0 9 ++ [CallExec; CallExec; CallExec]
       ++ goes 2 10 ++ goes 3 3 ++ goes 4 2).

Lemma tiny_cfg_valid : valid_config (tiny_cfg "worker" 2 3 10).
Proof. by apply Validate_valid; vm_compute. Defined.

Lemma exclusive_execution_witness :
  executing <$> threads busy_state !! 3%nat = Some (Some 1%nat)
  /\ 1%nat ∉ available (pool busy_state).
Proof.
  split; [by vm_compute|].
  exact (proj2 (exclusive_execution "" no_file no_json _ busy_state
    (after_reachable _ _)) 3%nat (ExecBegin 1%nat) 1%nat ltac:(by vm_compute) eq_refl).
Defined.

Lemma counters_exact_witness :
  busyWorkers (pool busy_state) = 1 /\ totalRequests (pool busy_state) = 3.
Proof.
  destruct (counters_exact "" no_file no_json _ busy_state (after_reachable _ _)) as (_ & -> & ->).
  by vm_compute.
Defined.

Lemma no_worker_lost_witness :
  1%nat ∈ available (pool busy_state)
  \/ exists t, t ∈ threads busy_state /\ 1%nat ∈ owned t.
Proof.
  apply (proj1 (no_worker_lost "" no_file no_json _ tiny_cfg_valid busy_state
    (after_reachable _ _) ltac:(by vm_compute) ltac:(by vm_compute)) 1%nat).
  by apply (bool_decide_unpack (1%nat ∈ workers (pool busy_state))); vm_compute.
Defined.
