(* ===== verification/EmbPoolSeq.v ===== *)
(** The embedded pool run by one goroutine at a time: what [Start] and [Exec] compute
    when nothing interferes, as closed forms of the resulting state. *)
From S2P Require Import Prelude Config Engine EmbWorker EmbPool EmbPoolInv.
Local Open Scope Z_scope.

Section Seq.
Context (placeholderHTML : string) (ReadFile : string -> option (list byte)).
Context (UnmarshalRequire : list byte -> option (gmap string string)) (cfg : Config).

Abbreviation tstep := (tstep placeholderHTML ReadFile UnmarshalRequire cfg).
Abbreviation step := (step placeholderHTML ReadFile UnmarshalRequire cfg).
Abbreviation run := (run placeholderHTML ReadFile UnmarshalRequire cfg).

Lemma run_app s es fs :
  run s (es ++ fs) = match run s es with Some s' => run s' fs | None => None end.
Proof.
  revert s. induction es as [|e es IH]; intros s; cbn [app EmbPool.run]; [done|].
  by destruct (step s e).
Qed.

(** One step of the thread between [ts] and [us]. *)
Lemma run_go p ts t us p' t' new es :
  (forall b, tstep (length ts) b p t Go = Some (p', t', new)) ->
  run (MkState p (ts ++ t :: us)) (Run (length ts) Go :: es)
  = run (MkState p' (ts ++ t' :: us ++ new)) es.
Proof.
  intros H. cbn [EmbPool.run EmbPool.step threads pool].
  rewrite list_lookup_middle by done. rewrite H.
  rewrite insert_app_r_alt, Nat.sub_diag by done. simpl. by rewrite <- app_assoc.
Qed.

Lemma run_go_quiet p ts t us p' t' es :
  (forall b, tstep (length ts) b p t Go = Some (p', t', [])) ->
  run (MkState p (ts ++ t :: us)) (Run (length ts) Go :: es)
  = run (MkState p' (ts ++ t' :: us)) es.
Proof. intros H. by rewrite (run_go _ _ _ _ _ _ _ _ H), app_nil_r. Qed.

Lemma run_call p ts es :
  run (MkState p ts) (CallExec :: es) = run (MkState p (ts ++ [ExecCall])) es.
Proof. done. Qed.

Context (Hcfg : valid_config cfg).

Definition worker_mode : bool := bool_decide (php_Mode (PHP cfg) = "worker"%string).

(** A worker as [spawnWorker] leaves it. *)
Definition spawned (id : Z) : Worker :=
  match NewWorker ReadFile UnmarshalRequire id cfg with
  | Ok x => if worker_mode then Start x else x
  | Err _ => MkWorker id (MkEngine ""%string false) StateStopped 0 0
  end.

Lemma spawned_valid id :
  exists v, spawned id = MkWorker id (MkEngine v worker_mode) StateIdle 0 (MaxJobs (Pool cfg)).
Proof.
  unfold spawned. destruct (NewWorker_valid ReadFile UnmarshalRequire cfg Hcfg id) as [v ->].
  exists v. by destruct worker_mode.
Qed.

Lemma tstep_SpawnNew tid b p k :
  tstep tid b p (SpawnNew k) Go
  = Some (alloc_worker (spawned (int32 (nextID p + 1))) (set_nextID (int32 (nextID p + 1)) p),
          SpawnAppend (next_loc p) k, []).
Proof.
  cbn -[int32 NewWorker Start]. unfold spawned, worker_mode.
  by destruct (NewWorker_valid ReadFile UnmarshalRequire cfg Hcfg (int32 (nextID p + 1)))
    as [v ->].
Qed.

(** The pool after making, registering and sending one worker. *)
Definition spawn_pool (p : EmbPool) : EmbPool :=
  let id := int32 (nextID p + 1) in
  MkPool (workers p ++ [next_loc p]) (<[next_loc p := spawned id]> (heap p)) (S (next_loc p))
    (available p ++ [next_loc p]) (closed p) id (cancelled p) (totalRequests p)
    (int32 (activeWorkers p + 1)) (busyWorkers p).

(** [spawnWorker] and the send of its worker, when the channel has room. *)
Lemma run_spawn p ts k us es :
  closed p = false -> Z.of_nat (length (available p)) < maxw cfg ->
  run (MkState p (ts ++ SpawnNew k :: us)) (goes (length ts) 3 ++ es)
  = run (MkState (spawn_pool p) (ts ++ after_send k :: us)) es.
Proof.
  intros Hc Hl. cbn [goes repeat app].
  rewrite (run_go_quiet _ _ _ _ _ _ _ (fun b => tstep_SpawnNew _ b p k)).
  do 2 (erewrite run_go_quiet by (intros b; cbn -[int32 Z.of_nat]; unfold send;
    cbn -[int32 Z.of_nat Z.ltb]; rewrite ?Hc, ?(proj2 (Z.ltb_lt _ _) Hl); reflexivity)).
  done.
Qed.

(** ** [Start] *)

(** The pool with its first [k] workers, all of them available. *)
Record fresh_pool (k : nat) (p : EmbPool) : Prop := {
  fp_workers : workers p = seq 0 k;
  fp_available : available p = seq 0 k;
  fp_loc : next_loc p = k;
  fp_id : nextID p = int32 (Z.of_nat k);
  fp_active : activeWorkers p = int32 (Z.of_nat k);
  fp_busy : busyWorkers p = 0;
  fp_total : totalRequests p = 0;
  fp_open : closed p = false /\ cancelled p = false;
  fp_heap w : (w < k)%nat -> heap p !! w = Some (spawned (int32 (Z.of_nat (S w))))
}.

Lemma fresh_spawn k p : fresh_pool k p -> fresh_pool (S k) (spawn_pool p).
Proof.
  intros [Hw Ha Hl Hi Hac Hb Ht Ho Hh].
  split; cbn -[int32 seq Z.of_nat spawned]; rewrite ?Hw, ?Ha, ?Hl, ?Hi, ?Hac, ?Hb, ?Ht;
    try done; try (by rewrite seq_S); try (rewrite int32_add; f_equal; lia).
  intros w Hlt. rewrite lookup_insert. case_decide as E; [|apply Hh; lia].
  subst w. rewrite int32_add. do 3 f_equal. lia.
Qed.

Lemma run_start n : forall k p,
  fresh_pool k p -> Z.of_nat (k + n) <= maxw cfg ->
  exists p', run (MkState p [StartLoop n]) (goes 0 (4 * n + 1))
             = Some (MkState p' [Finished (Returned None); WatchWait])
             /\ fresh_pool (k + n) p'.
Proof.
  induction n as [|n IH]; intros k p Hp Hm.
  { exists p. by rewrite Nat.add_0_r. }
  destruct (IH (S k) (spawn_pool p) (fresh_spawn k p Hp) ltac:(lia)) as (p' & Hrun & Hp').
  exists p'. split; [|by rewrite Nat.add_succ_r].
  replace (4 * S n + 1)%nat with (1 + (3 + (4 * n + 1)))%nat by lia.
  revert Hrun. generalize (4 * n + 1)%nat. intros m Hrun.
  etransitivity; [exact (run_go_quiet p [] (StartLoop (S n)) [] p _ _ (fun b => eq_refl))|].
  etransitivity; [|exact Hrun].
  refine (run_spawn p [] (ByStart n) [] (goes 0 m) _ _); [apply Hp|].
  rewrite (fp_available _ _ Hp), length_seq. lia.
Qed.

(** [Start] with a valid configuration never blocks and never fails: after four
    steps for each of the [MinWorkers] workers and one more it has returned nil, its
    watchdog is running, and exactly [MinWorkers] workers are registered and available,
    numbered from 1, their engines started in worker mode. *)
Theorem Start_completes :
  exists p, run init (CallStart :: goes 0 (4 * minw cfg + 1))
            = Some (MkState p [Finished (Returned None); WatchWait])
    /\ workers p = seq 0 (minw cfg) /\ available p = seq 0 (minw cfg)
    /\ Stats p = MkStats (MinWorkers (Pool cfg)) (int32 (MinWorkers (Pool cfg))) 0
                   (MinWorkers (Pool cfg)) 0
    /\ forall w, (w < minw cfg)%nat -> exists v,
         heap p !! w = Some (MkWorker (int32 (Z.of_nat (S w))) (MkEngine v worker_mode)
                               StateIdle 0 (MaxJobs (Pool cfg))).
Proof.
  destruct Hcfg as [[H1 H2 H3] _ _ _ _ _].
  assert (Z.of_nat (minw cfg) = MinWorkers (Pool cfg)) as Hm by (unfold minw; lia).
  destruct (run_start (minw cfg) 0 NewPool) as (p & Hrun & Hp).
  { split; cbn; done || lia. }
  { simpl. unfold maxw. lia. }
  exists p. split; [exact Hrun|]. destruct Hp as [Hw Ha Hl Hi Hac Hb Ht Ho Hh].
  split; [done|]. split; [done|]. split.
  - unfold Stats. rewrite Hw, Hac, Hb, Ht, length_seq, Nat.add_0_l, Hm. f_equal. lia.
  - intros w Hlt. rewrite (Hh w Hlt).
    destruct (spawned_valid (int32 (Z.of_nat (S w)))) as [v ->]. by exists v.
Qed.

(** ** [Exec] *)

Lemma alter_to_insert (f : Worker -> Worker) w x (h : gmap loc Worker) :
  h !! w = Some x -> alter f w h = <[w := f x]> h.
Proof.
  intros Hx. apply map_eq. intros v. rewrite lookup_alter, lookup_insert.
  case_decide; [subst; by rewrite Hx|done].
Qed.

(** The pool after [w], holding [x], has served a request: its channel is [av]. *)
Definition served (p : EmbPool) (w : loc) (x : Worker) (av : list loc) : EmbPool :=
  MkPool (workers p) (<[w := snd (Exec placeholderHTML x)]> (heap p)) (next_loc p) av (closed p)
    (nextID p) (cancelled p) (int64 (totalRequests p + 1)) (activeWorkers p)
    (int32 (busyWorkers p)).

(** ... and after it has been replaced. *)
Definition recycled (p : EmbPool) (w : loc) : EmbPool :=
  spawn_pool (removeWorker w (upd_worker w Stop p)).

Lemma add_busy_back q b :
  busyWorkers q = int32 b -> add_busy (-1) (add_busy 1 q) = q.
Proof.
  intros Hb. destruct q as [q1 q2 q3 q4 q5 q6 q7 q8 q9 qb]. cbn [busyWorkers] in Hb. subst qb.
  unfold add_busy. cbn -[int32]. f_equal.
  rewrite int32_add, <- Z.add_assoc, int32_add. f_equal. lia.
Qed.

Ltac go := erewrite run_go_quiet by (intros b; cbn -[int32 int64]; reflexivity).

(** The way of a request through a worker, up to the recycling decision. *)
Lemma run_exec p ts w x av es :
  available p = w :: av -> heap p !! w = Some x ->
  run (MkState p ts) (CallExec :: goes (length ts) 7 ++ es)
  = run (MkState (add_busy 1 (served p w x av))
           (ts ++ [ExecCheck w (fst (Exec placeholderHTML x))])) es.
Proof.
  intros Ha Hx. rewrite run_call. cbn [goes repeat app]. go.
  erewrite run_go_quiet by (intros b; cbn -[int32 int64]; rewrite Ha; reflexivity).
  do 2 go.
  erewrite run_go_quiet by (intros b; cbn -[int32 int64];
    rewrite lookup_alter_eq, Hx; reflexivity).
  do 2 go. f_equal. f_equal. unfold served, add_busy, upd_worker, set_available, add_total.
  cbn -[int32 int64]. f_equal; [|by rewrite <- (Z.add_0_l 1), int32_add].
  rewrite (alter_to_insert _ _ _ _ Hx), !alter_insert_eq. done.
Qed.

(** [replaceWorker] from its goroutine's start to its end. *)
Lemma run_recycle p ts t w x :
  closed p = false -> Z.of_nat (length (available p)) < maxw cfg ->
  heap p !! w = Some x -> cancelled p = false ->
  run (MkState p (ts ++ [t; StopState w ForReplace])) (goes (S (length ts)) 7)
  = Some (MkState (recycled p w) (ts ++ [t; Finished (Returned None)])).
Proof.
  intros Hc Hl Hx Hca.
  change ([t; StopState w ForReplace]) with ([t] ++ [StopState w ForReplace])%list.
  change ([t; Finished (Returned None)]) with ([t] ++ [Finished (Returned None)])%list.
  rewrite !app_assoc. replace (S (length ts)) with (length (ts ++ [t]))
    by (rewrite length_app; simpl; lia).
  change (goes (length (ts ++ [t])) 7)
    with (goes (length (ts ++ [t])) 4 ++ goes (length (ts ++ [t])) 3)%list.
  cbn [goes repeat app]. do 3 go.
  destruct (removeWorker_frame w (upd_worker w stop_engine (upd_worker w (set_state StateStopped) p)))
    as (_ & _ & Eav & Ecl & _ & Eca & _ & _).
  erewrite run_go_quiet by (intros b; cbn -[int32 int64 removeWorker]; rewrite Eca;
    cbn -[removeWorker]; rewrite Hca; reflexivity).
  etransitivity; [refine (run_spawn _ (ts ++ [t]) ByReplace [] [] _ _)|].
  - by rewrite Ecl.
  - by rewrite Eav.
  - cbn [EmbPool.run after_send]. unfold recycled. do 4 f_equal.
    unfold upd_worker. cbn [workers heap next_loc available closed nextID cancelled
      totalRequests activeWorkers busyWorkers]. f_equal.
    by rewrite !(alter_to_insert _ _ _ _ Hx), alter_insert_eq.
Qed.

(** A request by a worker that is not due, and by one that is. *)
Lemma run_request p ts w x av :
  available p = w :: av -> heap p !! w = Some x -> closed p = false ->
  Z.of_nat (length (available p)) <= maxw cfg ->
  NeedsRecycle (snd (Exec placeholderHTML x)) = false ->
  run (MkState p ts) (CallExec :: goes (length ts) 10)
  = Some (MkState (served p w x (av ++ [w]))
            (ts ++ [Finished (ExecResult (exec_result (fst (Exec placeholderHTML x))))])).
Proof.
  intros Ha Hx Hc Hl En. rewrite Ha in Hl. simpl length in Hl.
  assert (heap (served p w x av) !! w = Some (snd (Exec placeholderHTML x))) as Hx'
    by apply lookup_insert_eq.
  change (goes (length ts) 10) with (goes (length ts) 7 ++ goes (length ts) 3)%list.
  rewrite (run_exec p ts w x av) by done. cbn [goes repeat app].
  erewrite run_go_quiet by (intros b; cbn -[int32 int64 served]; rewrite Hx', En; reflexivity).
  erewrite run_go_quiet by (intros b; cbn -[int32 int64 Z.of_nat]; unfold send;
    cbn -[int32 int64 Z.of_nat]; rewrite Hc, (proj2 (Z.ltb_lt _ _)) by lia; reflexivity).
  go. exact (f_equal (fun q => Some (MkState q _))
         (add_busy_back (served p w x (av ++ [w])) (busyWorkers p) eq_refl)).
Qed.

Lemma run_due_request p ts w x av es :
  available p = w :: av -> heap p !! w = Some x ->
  NeedsRecycle (snd (Exec placeholderHTML x)) = true ->
  run (MkState p ts) (CallExec :: goes (length ts) 9 ++ es)
  = run (MkState (served p w x av)
            (ts ++ [Finished (ExecResult (exec_result (fst (Exec placeholderHTML x))));
                    StopState w ForReplace])) es.
Proof.
  intros Ha Hx En.
  assert (heap (served p w x av) !! w = Some (snd (Exec placeholderHTML x))) as Hx'
    by apply lookup_insert_eq.
  change (goes (length ts) 9) with (goes (length ts) 7 ++ goes (length ts) 2)%list.
  rewrite <- app_assoc, (run_exec p ts w x av) by done. cbn [goes repeat app].
  erewrite run_go by (intros b; cbn -[int32 int64 served]; rewrite Hx', En; reflexivity).
  go. by rewrite (add_busy_back _ (busyWorkers p)) by done.
Qed.

Lemma run_last_request p ts w x av :
  available p = w :: av -> heap p !! w = Some x -> closed p = false ->
  Z.of_nat (length (available p)) <= maxw cfg ->
  NeedsRecycle (snd (Exec placeholderHTML x)) = true -> cancelled p = false ->
  run (MkState p ts) (CallExec :: goes (length ts) 9 ++ goes (S (length ts)) 7)
  = Some (MkState (recycled (served p w x av) w)
            (ts ++ [Finished (ExecResult (exec_result (fst (Exec placeholderHTML x))));
                    Finished (Returned None)])).
Proof.
  intros Ha Hx Hc Hl En Hca. rewrite (run_due_request p ts w x av) by done.
  rewrite Ha in Hl. simpl length in Hl.
  refine (run_recycle (served p w x av) ts _ w _ _ _ (lookup_insert_eq _ _ _) _); [done| |done].
  cbn -[Z.of_nat]. lia.
Qed.

(** C12. A request with nobody interfering: it is answered by the worker at the head
    of the channel, with what [Worker.Exec] returns. Unless that worker is due for
    recycling it goes to the back of the channel; otherwise it is stopped, taken off the
    list, and a new one started, registered and made available in its place. Nothing
    else of the pool changes but the request count. *)
Theorem Exec_in_order p ts w x av :
  available p = w :: av -> heap p !! w = Some x -> closed p = false ->
  Z.of_nat (length (available p)) <= maxw cfg ->
  let '(r, x') := Exec placeholderHTML x in
  let done_ := Finished (ExecResult (exec_result r)) in
  if NeedsRecycle x'
  then cancelled p = false ->
       run (MkState p ts) (CallExec :: goes (length ts) 9 ++ goes (S (length ts)) 7)
       = Some (MkState (recycled (served p w x av) w)
                 (ts ++ [done_; Finished (Returned None)]))
  else run (MkState p ts) (CallExec :: goes (length ts) 10)
       = Some (MkState (served p w x (av ++ [w])) (ts ++ [done_])).
Proof.
  intros Ha Hx Hc Hl. pose proof (run_request p ts w x av Ha Hx Hc Hl) as H1.
  pose proof (run_last_request p ts w x av Ha Hx Hc Hl) as H2.
  destruct (Exec placeholderHTML x) as [r x']. cbn zeta.
  destruct (NeedsRecycle x') eqn:En; [by apply H2|by apply H1].
Qed.
End Seq.

(** ** Concrete runs *)

Lemma Start_completes_witness :
  exists p, run "" no_file no_json (tiny_cfg "worker" 2 3 10) init (CallStart :: goes 0 9)
            = Some (MkState p [Finished (Returned None); WatchWait]) /\ workers p = [0; 1]%nat.
Proof.
  destruct (Start_completes "" no_file no_json _ tiny_cfg_valid) as (p & H & Hw & _).
  exists p. split; [exact H|]. rewrite Hw. by vm_compute.
Defined.

Definition one_shot : Config := tiny_cfg "worker" 1 2 1.
Definition ready : state := after one_shot (CallStart :: goes 0 5).

Lemma Exec_in_order_witness :
  run "" no_file no_json one_shot ready (CallExec :: goes 2 9 ++ goes 3 7)
  = Some (MkState
      (recycled no_file no_json one_shot
         (served "" (pool ready) 0 (spawned no_file no_json one_shot 1) []) 0)
      (threads ready ++
         [Finished (ExecResult (exec_result (fst (Exec "" (spawned no_file no_json one_shot 1)))));
          Finished (Returned None)])).
Proof.
  refine (Exec_in_order "" no_file no_json one_shot _ (pool ready) (threads ready) 0%nat
    (spawned no_file no_json one_shot 1) [] _ _ _ _ _); [|by vm_compute..].
  by apply Validate_valid; vm_compute.
Defined.
