(* ===== verification/EmbPoolMode.v ===== *)
(** The embedded pool in its two modes, under every interleaving.

    In worker mode, as long as nobody reloads or stops the pool, every request that
    gets a worker is answered. In request mode none is: no engine is ever started. *)
From S2P Require Import Prelude Config Engine EmbWorker EmbPool EmbPoolInv.
Local Open Scope Z_scope.

(** The result a thread carries, or has returned. *)
Definition carries (t : thread) : option (result Response exec_error) :=
  match t with
  | ExecCount _ r | ExecEnd _ r | ExecCheck _ r | ExecSend _ r | ExecReturn r => Some (exec_result r)
  | Finished (ExecResult r) => Some r
  | _ => None
  end.

Definition answered (r : result Response exec_error) : Prop :=
  exists resp, r = Ok resp /\ resp_Status resp = 200.

Section Mode.
Context (placeholderHTML : string) (ReadFile : string -> option (list byte)).
Context (UnmarshalRequire : list byte -> option (gmap string string)) (cfg : Config).

Abbreviation tstep := (tstep placeholderHTML ReadFile UnmarshalRequire cfg).
Abbreviation step := (step placeholderHTML ReadFile UnmarshalRequire cfg).
Abbreviation run := (run placeholderHTML ReadFile UnmarshalRequire cfg).
Abbreviation reachable := (reachable placeholderHTML ReadFile UnmarshalRequire cfg).

(** ** Worker mode *)

Definition calm_event (e : event) : bool :=
  match e with CallReload | CallStop => false | _ => true end.

Definition calm_spawner (k : spawner) : bool :=
  match k with ByReload _ _ => false | _ => true end.

(** The threads of a pool nobody reloads or stops. *)
Definition calm_thread (t : thread) : bool :=
  match t with
  | SpawnNew k | SpawnAppend _ k | SpawnSend _ k => calm_spawner k
  | StopState _ k | StopEngine _ k | RemoveWorker _ k => stopper_owns k
  | ExecTaken None | ExecUnwind _ | ReloadCopy | ReloadLoop _ _ | DrainLoop _
  | StopCancel | StopCopy | StopWait | StopClose
  | Finished (ExecPanicked _) | Finished (Panicked _) => false
  | _ => true
  end.

Definition good_result (r : result Response exec_error) : Prop :=
  answered r \/ r = Err NoAvailableWorker.

Definition good_thread (t : thread) : Prop :=
  calm_thread t = true /\ forall r, carries t = Some r -> good_result r.

(** The workers of a thread whose engines must be running. *)
Definition live (t : thread) : list loc :=
  match t with
  | StopState _ _ | StopEngine _ _ | RemoveWorker _ _ => []
  | _ => owned t
  end.

Definition started_at (p : EmbPool) (w : loc) : Prop :=
  exists x, heap p !! w = Some x /\ started x = true.

Lemma started_at_alter p f w v :
  (forall x, started (f x) = started x) -> started_at p v -> started_at (upd_worker w f p) v.
Proof.
  intros Hf (x & Hx & Hs). unfold started_at. cbn. rewrite lookup_alter.
  case_decide; [subst w; rewrite Hx; exists (f x); by rewrite Hf|by exists x].
Qed.

Lemma started_at_ne p f w v : v <> w -> started_at p v -> started_at (upd_worker w f p) v.
Proof. intros Hne (x & ? & ?). exists x. cbn. by rewrite lookup_alter_ne. Qed.

Lemma started_at_alloc p q x v :
  heap q = heap p -> started x = true -> started_at p v -> started_at (alloc_worker x q) v.
Proof.
  intros Hq Hx (y & Hy & Hs). unfold started_at. cbn. rewrite lookup_insert, Hq.
  case_decide; [by exists x|by exists y].
Qed.

Lemma started_exec_count r x : started (exec_count r x) = started x.
Proof. by destruct r. Qed.

Lemma started_at_remove p w v : started_at p v -> started_at (removeWorker w p) v.
Proof. unfold started_at. destruct (removeWorker_frame w p) as [-> _]. done. Qed.

(** Only its own [Worker.Stop] stops a worker. *)
Lemma tstep_frame tid b p t c p' t' new v :
  php_Mode (PHP cfg) = "worker"%string ->
  tstep tid b p t c = Some (p', t', new) -> (forall k, t <> StopEngine v k) ->
  started_at p v -> started_at p' v.
Proof.
  intros Hm H Hv Hs. tstep_cases H; try exact Hs.
  all: try (by rewrite bool_decide_true in * by done).
  all: try (eapply started_at_alloc; [| |exact Hs]; [done|apply Startup_started]).
  all: try (by apply started_at_remove).
  all: try (by apply started_at_alter; [auto using started_exec_count|]).
  all: apply started_at_ne; [intros ->; by eapply Hv|done].
Qed.

(** The workers that must run after a step had to before, or are new and started. *)
Lemma tstep_live tid b p t c p' t' new v :
  php_Mode (PHP cfg) = "worker"%string ->
  tstep tid b p t c = Some (p', t', new) -> calm_thread t = true ->
  v ∈ available p' ++ live t' ++ (new ≫= live) ->
  v ∈ available p ++ live t \/ started_at p' v.
Proof.
  intros Hm H Hc Hv. tstep_cases H; try discriminate Hc.
  all: try (by rewrite bool_decide_true in * by done).
  all: try (destruct (removeWorker_frame w p) as (_ & _ & Ea & _); rewrite Ea in Hv).
  all: try match goal with k : spawner |- _ => destruct k; try discriminate Hc end.
  all: try match goal with k : stopper |- _ => destruct k; try discriminate Hc end.
  all: cbn in Hv |- *; repeat match goal with H : available _ = _ |- _ => rewrite H in *; clear H end.
  all: set_unfold; try tauto.
  all: assert (v = next_loc p \/ v ∈ available p) as [->|Hin] by tauto; [right|tauto].
  all: eexists; split; [apply lookup_insert_eq|apply Startup_started].
Qed.

Lemma answered_run x : started x = true -> answered (exec_result (exec_run placeholderHTML x)).
Proof.
  intros Hs. unfold exec_run, Execute. unfold started in Hs. rewrite Hs. by eexists.
Qed.

Lemma good_no_result t : calm_thread t = true -> carries t = None -> good_thread t.
Proof. intros Hc Hn. split; [done|]. by rewrite Hn. Qed.

(** A step of a good thread makes good threads only. *)
Lemma tstep_good tid b p t c p' t' new :
  tstep tid b p t c = Some (p', t', new) ->
  closed p = false -> cancelled p = false -> good_thread t ->
  Forall (started_at p) (live t) ->
  closed p' = false /\ cancelled p' = false /\ Forall good_thread (t' :: new).
Proof.
  intros H Hcl Hca [Hc Hr] Hst.
  tstep_cases H; try discriminate Hc.
  all: try match goal with |- context [removeWorker ?w ?p] =>
    destruct (removeWorker_frame w p) as (_ & _ & _ & -> & _ & -> & _) end.
  all: split; [done|split; [done|]].
  all: try match goal with k : spawner |- _ => destruct k; try discriminate Hc end.
  all: try match goal with k : stopper |- _ => destruct k; try discriminate Hc end.
  all: repeat (apply Forall_cons; split); try apply Forall_nil_2; try (by apply good_no_result).
  all: split; [done|]; intros r'; cbn; intros [= <-]; try (by apply Hr); try (by right).
  left. apply Forall_inv in Hst as (x & Hx & Hs). simplify_eq. by apply answered_run.
Qed.

Definition calm (s : state) : Prop :=
  closed (pool s) = false /\ cancelled (pool s) = false /\ Forall good_thread (threads s)
  /\ Forall (started_at (pool s)) (available (pool s) ++ (threads s ≫= live)).

Lemma live_owned t v : v ∈ live t -> v ∈ owned t.
Proof. destruct t; try done; by intros ?%elem_of_nil. Qed.

Lemma calm_perm s ts : threads s ≡ₚ ts -> calm (MkState (pool s) ts) -> calm s.
Proof.
  intros E (Hcl & Hca & Hg & Hst). cbn in *. split; [done|split; [done|split]].
  - eapply Forall_submseteq; [by apply Permutation_submseteq|done].
  - eapply Forall_submseteq; [|done]. by apply Permutation_submseteq, Permutation_app, bind_Permutation.
Qed.

Lemma calm_step s e s' :
  php_Mode (PHP cfg) = "worker"%string -> calm_event e = true ->
  reachable s -> calm s -> step s e = Some s' -> calm s'.
Proof.
  intros Hm He Hr (Hcl & Hca & Hg & Hst) Hs.
  destruct (step_inv _ _ _ _ _ _ _ Hs)
    as [[Hp Ht]|(tid & t & b & c & t' & new & rest & Ht & H1 & H2)].
  { apply (calm_perm _ _ Ht). rewrite Hp. split; [done|split; [done|split]]; cbn [threads pool].
    - apply Forall_cons. split; [|done]. by destruct e; try discriminate He; apply good_no_result.
    - by destruct e. }
  pose proof (reachable_holdings _ _ _ _ s Hr) as [Hnd _]. unfold holdings in Hnd.
  apply (calm_perm _ _ H2). unfold calm. cbn [threads pool].
  eapply Forall_submseteq in Hg; [|by apply Permutation_submseteq].
  eapply Forall_submseteq in Hst; [|by apply Permutation_submseteq, Permutation_app, bind_Permutation].
  rewrite H1 in Hnd. rewrite !bind_cons, ?bind_app in *.
  apply Forall_cons in Hg as [Hgt Hg].
  assert (Forall (started_at (pool s)) (available (pool s) ++ live t)) as Hst1
    by (rewrite app_assoc in Hst; by apply Forall_app in Hst as [? _]).
  destruct (tstep_good _ _ _ _ _ _ _ _ Ht Hcl Hca Hgt) as (Hcl' & Hca' & Hg');
    [by apply Forall_app in Hst1 as [_ ?]|].
  split; [done|split; [done|split]].
  { rewrite app_comm_cons. by apply Forall_app. }
  rewrite Forall_forall in Hst |- *. intros v Hv.
  assert (v ∈ (available (pool s') ++ live t' ++ (new ≫= live)) \/ v ∈ (rest ≫= live)) as Hv'
    by (revert Hv; clear; set_unfold; tauto).
  assert (v ∈ (available (pool s) ++ live t) \/ v ∈ (rest ≫= live) \/ started_at (pool s') v)
    as Hin.
  { destruct Hv' as [Hv'|?]; [|tauto].
    destruct (tstep_live _ _ _ _ _ _ _ _ _ Hm Ht (proj1 Hgt) Hv'); tauto. }
  destruct Hin as [Hin|[Hin|?]]; [..|done].
  all: assert (started_at (pool s) v) as Hsv by (apply Hst; revert Hin; clear; set_unfold; tauto).
  all: eapply tstep_frame; [exact Hm|exact Ht| |exact Hsv].
  all: intros k ->; destruct Hgt as [Hk _]; cbn in Hk, Hin, Hnd; rewrite Hk in Hnd.
  - rewrite app_nil_r in Hin. apply NoDup_app in Hnd as (_ & Hd & _). by apply (Hd v Hin); left.
  - apply NoDup_app in Hnd as (_ & _ & Hnd). apply NoDup_cons in Hnd as [Hd _].
    apply Hd. apply list_elem_of_bind in Hin as (u & Hu & Hur).
    apply list_elem_of_bind. exists u. split; [by apply live_owned|done].
Qed.

(** C11. Worker mode, nobody reloading or stopping the pool: under every interleaving of
    requests, recycling and scaling, a call of [Exec] that returns has an answer with
    status 200 or found no worker in time; it never fails for any other reason, and
    nothing panics. *)
Theorem worker_mode_answers es s t :
  php_Mode (PHP cfg) = "worker"%string -> forallb calm_event es = true ->
  run init es = Some s -> t ∈ threads s ->
  (forall r, t = Finished (ExecResult r) -> answered r \/ r = Err NoAvailableWorker)
  /\ is_panic t = false.
Proof.
  intros Hm He Hs Ht.
  assert (calm s) as (_ & _ & Hg & _).
  { assert (forall es s0, reachable s0 -> calm s0 -> forallb calm_event es = true ->
            run s0 es = Some s -> calm s) as Hgen.
    { clear es He Hs. induction es as [|e es IH]; intros s0 Hr Hc; cbn [EmbPool.run forallb].
      - by intros _ [= <-].
      - intros [He Hes]%andb_prop. destruct (step s0 e) as [s1|] eqn:E; [|done].
        apply IH; [by eapply reach_step|by eapply calm_step|done]. }
    apply (Hgen es init); [apply reach_init| |done|done]. split; [done|split; [done|]].
    split; constructor. }
  rewrite Forall_forall in Hg. destruct (Hg t Ht) as [Hc Hr]. split.
  - intros r ->. by apply Hr.
  - by destruct t as [| | | | | |[]| | | | | | | | | | | | | | | | | | | | | | | | |[]].
Qed.

(** ** Request mode *)

Definition stopped_heap (p : EmbPool) : Prop :=
  forall w x, heap p !! w = Some x -> started x = false.
Definition unanswered (t : thread) : Prop := forall r, carries t = Some r -> is_ok r = false.

Lemma stopped_heap_upd p f w :
  (forall x, started x = false -> started (f x) = false) ->
  stopped_heap p -> stopped_heap (upd_worker w f p).
Proof.
  intros Hf Hh v x. cbn. rewrite lookup_alter. case_decide; [|exact (Hh v x)].
  destruct (heap p !! w) eqn:E; simpl; [|done]. subst v. intros [= <-]. eauto.
Qed.

Lemma NewWorker_stopped id x :
  NewWorker ReadFile UnmarshalRequire id cfg = Ok x -> started x = false.
Proof.
  unfold NewWorker, NewEngine. case_match; [done|]. by intros [= <-].
Qed.

Lemma tstep_stopped tid b p t c p' t' new :
  php_Mode (PHP cfg) <> "worker"%string ->
  tstep tid b p t c = Some (p', t', new) -> stopped_heap p -> stopped_heap p'.
Proof.
  intros Hm H Hh. tstep_cases H; try exact Hh.
  all: try (by rewrite bool_decide_false in * by done).
  - intros v x. cbn. rewrite lookup_insert. destruct (decide (next_loc p = v)); [|exact (Hh v x)].
    intros [= <-]. by eapply NewWorker_stopped.
  - by apply stopped_heap_upd.
  - apply stopped_heap_upd; [|done]. intros x. by rewrite started_exec_count.
  - by apply stopped_heap_upd.
  - by apply stopped_heap_upd.
  - apply stopped_heap_upd; [|done]. intros x _. apply Shutdown_stopped.
  - apply stopped_heap_upd; [|done]. intros x _. apply Shutdown_stopped.
  - apply stopped_heap_upd; [|done]. intros x _. apply Shutdown_stopped.
  - apply stopped_heap_upd; [|done]. intros x _. apply Shutdown_stopped.
  - intros v x. destruct (removeWorker_frame w p) as [-> _]. exact (Hh v x).
Qed.

Lemma tstep_unanswered tid b p t c p' t' new :
  tstep tid b p t c = Some (p', t', new) -> stopped_heap p -> unanswered t ->
  Forall unanswered (t' :: new).
Proof.
  intros H Hh Ht. tstep_cases H.
  all: try match goal with k : spawner |- _ => destruct k end.
  all: try match goal with k : stopper |- _ => destruct k end.
  all: apply Forall_cons; split; try (by intros r' [=]); try exact Ht.
  all: try (apply Forall_cons; split); try apply Forall_nil_2; try (by intros r' [=]).
  all: try (by intros r' [= <-]).
  - intros r' [= <-]. unfold exec_run, Execute. unfold stopped_heap, started in Hh.
    match goal with H : heap _ !! _ = Some _ |- _ => by rewrite (Hh _ _ H) end.
  - apply Forall_map, Forall_true. by intros w r' [=].
Qed.

(** C39. In request mode (any mode but "worker") the pool never answers: whatever the
    interleaving, no call of [Exec] returns a response, because no engine is ever
    started and [Worker.Exec] does not start one. *)
Theorem request_mode_never_answers s t r :
  php_Mode (PHP cfg) <> "worker"%string -> reachable s ->
  t ∈ threads s -> t = Finished (ExecResult r) -> is_ok r = false.
Proof.
  intros Hm Hr Ht ->.
  assert (stopped_heap (pool s) /\ Forall unanswered (threads s)) as [_ Hu].
  { clear Ht. induction Hr as [|s e s' _ [IH1 IH2] Hs]; [split; [done|constructor]|].
    destruct (step_inv _ _ _ _ _ _ _ Hs)
      as [[Hp Ht]|(tid & t & b & c & t' & new & rest & Ht & H1 & H2)].
    - rewrite Hp, Ht. split; [done|]. apply Forall_cons. split; [by destruct e|done].
    - rewrite H1 in IH2. apply Forall_cons in IH2 as [Hu1 Hu2].
      split; [by eapply tstep_stopped|]. rewrite H2, app_comm_cons.
      apply Forall_app. split; [by eapply tstep_unanswered|done]. }
  rewrite Forall_forall in Hu. by apply (Hu _ Ht).
Qed.
End Mode.

(** ** Concrete runs *)

Definition one_answer (mode : string) : list event :=
  [CallStart] ++ goes 0 9 ++ [CallExec] ++ goes 2 10.

Lemma worker_mode_answers_witness :
  let s := after (tiny_cfg "worker" 2 3 10) (one_answer "worker") in
  exists r, threads s !! 2%nat = Some (Finished (ExecResult r))
            /\ (answered r \/ r = Err NoAvailableWorker).
Proof.
  eexists. split; [by vm_compute|].
  eapply (proj1 (worker_mode_answers "" no_file no_json (tiny_cfg "worker" 2 3 10)
    (one_answer "worker") _ _ eq_refl eq_refl ltac:(by vm_compute) ltac:(right; right; by left)) _).
  reflexivity.
Defined.

Lemma request_mode_never_answers_witness :
  let s := after (tiny_cfg "request" 2 3 10) (one_answer "request") in
  exists r, threads s !! 2%nat = Some (Finished (ExecResult r)) /\ is_ok r = false.
Proof.
  eexists. split; [by vm_compute|].
  eapply (request_mode_never_answers "" no_file no_json (tiny_cfg "request" 2 3 10) _ _ _
    ltac:(done) (after_reachable _ (one_answer "request")) ltac:(vm_compute; right; right; by left)).
  reflexivity.
Defined.
