(* ===== verification/EmbPoolFaults.v ===== *)
(** Runs of the embedded pool that go wrong, and the arithmetic of its scaling.

    Each fault is a run of the machine from its initial state, checked by evaluation. *)
From S2P Require Import Prelude Config Engine GoFloat EmbWorker EmbPool EmbPoolInv.
Local Open Scope Z_scope.

(** What thread [tid] has returned to its caller. *)
Definition returned (s : state) (tid : nat) : option outcome :=
  match threads s !! tid with Some (Finished o) => Some o | _ => None end.

Definition exec_fails (e : engine_error) : outcome := ExecResult (Err (WorkerError e)).

(** A request and all its steps, as thread [tid]. *)
Definition request (tid : nat) : list event := CallExec :: goes tid 10.

Definition is_answer (o : option outcome) : bool :=
  match o with Some (ExecResult (Ok _)) => true | _ => false end.

(** [Start], then [Reload] and the whole drain of the old workers, with the default
    configuration: thread 2 is [Reload], thread 3 the drain. *)
Definition reloaded : list event :=
  [CallStart] ++ goes 0 17 ++ [CallReload] ++ goes 2 18 ++ goes 3 17.

(** A reload breaks the pool it reloads: with the default configuration, when it has
    finished the old workers are off the list with their engines stopped, but still in
    the channel ahead of the new ones; the next requests fail on them, one after the
    other, and a failing worker goes back to the channel. *)
Theorem Reload_leaves_stopped_workers :
  let s := after Default reloaded in
  reachable "" no_file no_json Default s
  /\ returned s 3 = Some (Returned None)
  /\ workers (pool s) = [4; 5; 6; 7]%nat
  /\ available (pool s) = [0; 1; 2; 3; 4; 5; 6; 7]%nat
  /\ let s' := after Default (reloaded ++ request 4 ++ request 5 ++ request 6 ++ request 7
                                ++ request 8) in
     map (returned s') [4; 5; 6; 7]%nat = repeat (Some (exec_fails EngineNotStarted)) 4
     /\ is_answer (returned s' 8) = true
     /\ available (pool s') = [5; 6; 7; 0; 1; 2; 3; 4]%nat.
Proof. split; [apply after_reachable|]. vm_compute. repeat split. Qed.

(** One worker, one request in flight on it when [Stop] runs to its end. *)
Definition stopped_under_request : list event :=
  [CallStart] ++ goes 0 5 ++ [CallExec] ++ goes 2 3 ++ [CallStop] ++ goes 3 2 ++ goes 4 2
  ++ goes 3 2.

(** A replacement that has passed its check of the context when [Stop] runs. *)
Definition stopped_under_replacement : list event :=
  [CallStart] ++ goes 0 5 ++ [CallExec] ++ goes 2 9 ++ goes 3 6 ++ [CallStop] ++ goes 4 2 ++ goes 5 2
  ++ goes 4 2.

(** [Stop] closes the channel others still send to and receive from: a request that
    was in flight panics instead of answering, a request that comes after may take nil
    from the closed channel and panic, and a worker being replaced panics in a goroutine
    of its own, which ends the process. *)
Theorem Stop_panics :
  let cfg := tiny_cfg "worker" 1 2 10 in
  returned (after cfg (stopped_under_request ++ goes 2 7)) 2 = Some (ExecPanicked SendOnClosed)
  /\ returned (after cfg (stopped_under_request ++ [CallExec] ++ goes 5 4)) 5
     = Some (ExecPanicked NilWorker)
  /\ let cfg := tiny_cfg "worker" 1 2 1 in
     returned (after cfg (stopped_under_replacement ++ goes 3 1)) 3
     = Some (Panicked SendOnClosed).
Proof. vm_compute. repeat split. Qed.

(** [MaxWorkers] does not bound the workers: the watchdog counts them while one is
    being replaced and scales up after the replacement has arrived. *)
Theorem MaxWorkers_exceeded :
  let cfg := tiny_cfg "worker" 2 2 1 in
  let s := after cfg ([CallStart] ++ goes 0 9 ++ [CallExec] ++ goes 2 9 ++ [CallExec] ++ goes 4 4
             ++ goes 3 3 ++ [Run 1 Tick] ++ goes 1 2 ++ goes 3 3 ++ goes 1 3) in
  reachable "" no_file no_json cfg s
  /\ Z.of_nat (length (workers (pool s))) = MaxWorkers (Pool cfg) + 1.
Proof. split; [apply after_reachable|]. by vm_compute. Qed.

(** ** The thresholds of [autoScale] *)

Definition thresholds_exact (busy total : Z) : bool :=
  Bool.eqb (fle (f64 80) (busyPct busy total)) (80 * total <=? 100 * busy)
  && Bool.eqb (fle (busyPct busy total) (f64 20)) (100 * busy <=? 20 * total).

(** The floating-point tests of [autoScale] are exact: for every pool of up to 64
    workers, the computed percentage passes 80 or 20 exactly when the true one does. *)
Theorem autoScale_thresholds (busy total : Z) :
  1 <= total <= 64 -> 0 <= busy <= total ->
  fle (f64 80) (busyPct busy total) = (80 * total <=? 100 * busy)
  /\ fle (busyPct busy total) (f64 20) = (100 * busy <=? 20 * total).
Proof.
  intros Ht Hb.
  assert (forallb (fun t => forallb (fun b => thresholds_exact (Z.of_nat b) (Z.of_nat t)) (seq 0 (S t)))
            (seq 1 64) = true) as H by (by vm_compute).
  rewrite forallb_forall in H. specialize (H (Z.to_nat total)).
  rewrite <- list_elem_of_In, elem_of_seq, forallb_forall in H. specialize (H ltac:(lia) (Z.to_nat busy)).
  rewrite <- list_elem_of_In, elem_of_seq in H. specialize (H ltac:(lia)).
  rewrite !Z2Nat.id in H by lia. apply andb_prop in H as [H1 H2]. by rewrite !Bool.eqb_true_iff in *.
Qed.

Lemma autoScale_thresholds_witness : fle (f64 80) (busyPct 4 5) = true.
Proof. rewrite (proj1 (autoScale_thresholds 4 5 ltac:(lia) ltac:(lia))). reflexivity. Defined.
