(* ===== verification/EmbPoolLive.v ===== *)
(** A call of [Exec] of the embedded pool comes to an end: however its steps and those of
    the other goroutines interleave it takes at most ten, and nothing holds it up but a full
    channel when it gives its worker back. *)
From S2P Require Import Prelude Config Engine GoFloat EmbWorker EmbPool EmbPoolInv.
Local Open Scope Z_scope.

(** A goroutine in a call of [Exec], or one that has returned from it. *)
Definition in_call (t : thread) : bool :=
  match t with ExecCall => true | _ => is_request t end.

Definition has_returned (t : thread) : bool :=
  match t with Finished _ => true | _ => false end.

(** How many steps the call may still take. *)
Definition steps_left (t : thread) : nat :=
  match t with
  | ExecCall => 10
  | ExecSelect => 9
  | ExecTaken _ => 8
  | ExecBegin _ => 7
  | ExecRun _ => 6
  | ExecCount _ _ => 5
  | ExecEnd _ _ => 4
  | ExecCheck _ _ => 3
  | ExecSend _ _ => 2
  | ExecReturn _ | ExecUnwind _ => 1
  | _ => 0
  end.

(** The steps of thread [i] in a run. *)
Definition is_own (i : nat) (e : event) : bool :=
  match e with Run j _ => Nat.eqb j i | _ => false end.
Definition own_steps (i : nat) (es : list event) : nat := length (filter (is_own i) es).

Lemma is_own_true i e : is_own i e = true -> exists c, e = Run i c.
Proof. destruct e as [| | | |j c]; try done. intros ->%Nat.eqb_eq. by exists c. Qed.
Lemma is_own_false i e : is_own i e = false -> forall c, e <> Run i c.
Proof. intros H c ->. cbn in H. by rewrite Nat.eqb_refl in H. Qed.

Lemma in_call_steps_left t : in_call t = true -> steps_left t = 0%nat -> has_returned t = true.
Proof. by destruct t. Qed.

Lemma in_call_owned t w : in_call t = true -> w ∈ owned t -> executing t = Some w.
Proof. destruct t as [| | | | | |[]| | | | | | | | | | | | | | | | | | | | | | | | |]; cbn;
  intros; set_unfold; naive_solver. Qed.

Section Live.
Context (placeholderHTML : string) (ReadFile : string -> option (list byte)).
Context (UnmarshalRequire : list byte -> option (gmap string string)) (cfg : Config).
Context (Hcfg : valid_config cfg).

Abbreviation tstep := (tstep placeholderHTML ReadFile UnmarshalRequire cfg).
Abbreviation step := (step placeholderHTML ReadFile UnmarshalRequire cfg).
Abbreviation run := (run placeholderHTML ReadFile UnmarshalRequire cfg).
Abbreviation reachable := (reachable placeholderHTML ReadFile UnmarshalRequire cfg).

(** A step of a call of [Exec] uses up one of those it has left, and stays in the call. *)
Lemma tstep_steps_left tid b p t c p' t' new :
  tstep tid b p t c = Some (p', t', new) -> in_call t = true ->
  (steps_left t' < steps_left t)%nat /\ in_call t' = true.
Proof. intros H Ht. tstep_cases H; (split; [cbn; lia|done]). Qed.

(** A thread moves only when it is scheduled. *)
Lemma emb_step_other s e s' i t :
  step s e = Some s' -> (forall c, e <> Run i c) -> threads s !! i = Some t ->
  threads s' !! i = Some t.
Proof.
  intros Hs He Hi. destruct e as [| | | |tid c]; cbn -[EmbPool.tstep] in Hs;
    try (injection Hs as <-; by apply lookup_app_l_Some).
  destruct (threads s !! tid) as [u|]; [|done].
  destruct (EmbPool.tstep _ _ _ _ _ _ _ _ _) as [[[p t'] new]|]; [|done]. injection Hs as <-.
  cbn [threads]. apply lookup_app_l_Some. rewrite list_lookup_insert_ne; [done|].
  intros ->. by eapply He.
Qed.

Lemma emb_step_own s c s' i t :
  step s (Run i c) = Some s' -> threads s !! i = Some t ->
  exists b p t' new, tstep i b (pool s) t c = Some (p, t', new) /\ threads s' !! i = Some t'.
Proof.
  intros Hs Hi. cbn -[EmbPool.tstep] in Hs. rewrite Hi in Hs.
  destruct (EmbPool.tstep _ _ _ _ _ _ _ _ _) as [[[p t'] new]|] eqn:Et; [|done]. injection Hs as <-.
  eexists _, p, t', new. split; [exact Et|]. cbn [threads].
  apply lookup_app_l_Some, list_lookup_insert_eq. by eapply lookup_lt_Some.
Qed.

Lemma run_steps_left es : forall s s' i t,
  run s es = Some s' -> threads s !! i = Some t -> in_call t = true ->
  exists t', threads s' !! i = Some t' /\ in_call t' = true
             /\ (own_steps i es + steps_left t' <= steps_left t)%nat.
Proof.
  induction es as [|e es IH]; intros s s' i t; cbn [EmbPool.run]; [intros [= <-] ? ?; by exists t|].
  destruct (step s e) as [s1|] eqn:Es; [|done]. intros Hr Hi Hc.
  unfold own_steps. rewrite filter_cons. destruct (is_own i e) eqn:He.
  - rewrite decide_True by done. apply is_own_true in He as [c ->].
    destruct (emb_step_own _ _ _ _ _ Es Hi) as (b & p & t1 & new & Ht & H1).
    destruct (tstep_steps_left _ _ _ _ _ _ _ _ Ht Hc) as [Hlt Hc1].
    destruct (IH _ _ _ _ Hr H1 Hc1) as (t' & H' & Hc' & Hle). exists t'. split_and!; [done..|].
    unfold own_steps in Hle. cbn [length]. lia.
  - rewrite decide_False by (by intros []). pose proof (is_own_false _ _ He) as Hne.
    eapply (IH _ _ _ _ Hr); [|done]. exact (emb_step_other _ _ _ _ _ Es Hne Hi).
Qed.

(** ** What may hold a call up *)

(** The call has its result and waits for a place in the channel for its worker; then the
    channel is full of workers other than its own. *)
Definition withheld (p : EmbPool) (t : thread) : Prop :=
  exists w r, t = ExecSend w r /\ closed p = false
    /\ maxw cfg <= Z.of_nat (length (available p)) /\ NoDup (w :: available p)
    /\ Forall (fun v => is_Some (heap p !! v)) (w :: available p).

Definition can_move (s : state) (i : nat) : Prop := exists c s', step s (Run i c) = Some s'.

Lemma reachable_heap s w : reachable s -> (w < next_loc (pool s))%nat -> is_Some (heap (pool s) !! w).
Proof.
  intros Hr Hw. pose proof (ids_heap _ (reachable_ids _ _ _ _ Hcfg _ Hr) _ Hw) as H.
  by destruct (heap (pool s) !! w).
Qed.

(** A worker in the hands of a thread is in the heap and not in the channel. *)
Lemma reachable_own s i t w :
  reachable s -> threads s !! i = Some t -> w ∈ owned t ->
  NoDup (w :: available (pool s))
  /\ Forall (fun v => is_Some (heap (pool s) !! v)) (w :: available (pool s)).
Proof.
  intros Hr Hi Hw. destruct (reachable_holdings _ _ _ _ s Hr) as [Hnd Hlt].
  assert (w ∈ threads s ≫= owned) as Hin.
  { apply list_elem_of_bind. exists t. split; [done|]. by eapply list_elem_of_lookup_2. }
  unfold holdings in *. apply NoDup_app in Hnd as (Hnd & Hd & _).
  apply Forall_app in Hlt as [Ha Ho]. split.
  - constructor; [|done]. intros Hav. by apply (Hd w Hav).
  - rewrite Forall_forall in Ho. constructor; [by apply reachable_heap, Ho|].
    eapply Forall_impl; [done|]. intros v. by apply reachable_heap.
Qed.

Lemma tstep_can_move s i t c :
  threads s !! i = Some t -> (forall b, is_Some (tstep i b (pool s) t c)) -> can_move s i.
Proof.
  intros Hi Ht. exists c. cbn -[EmbPool.tstep]. rewrite Hi.
  destruct (Ht (negb (existsb (stops_for i) (threads s)))) as [[[p t'] new] ->]. by eexists.
Qed.

(** The step is taken whatever it depends on. *)
Ltac moves c Hi :=
  eapply (tstep_can_move _ _ _ c); [exact Hi|]; intros b; cbn -[NewWorker Start int32 busyPct f64];
  unfold send; repeat (case_match; try done); by eexists.

Lemma send_moves s i w r :
  reachable s -> threads s !! i = Some (ExecSend w r) ->
  can_move s i \/ withheld (pool s) (ExecSend w r).
Proof.
  intros Hr Hi. destruct (closed (pool s)) eqn:Hc; [left; moves Go Hi|].
  destruct (Z.of_nat (length (available (pool s))) <? maxw cfg) eqn:Hl; [left; moves Go Hi|right].
  exists w, r. apply Z.ltb_ge in Hl.
  destruct (reachable_own s i _ w Hr Hi) as [H1 H2]; [by left|]. by split_and!.
Qed.

Lemma call_moves s i t :
  reachable s -> threads s !! i = Some t -> in_call t = true ->
  has_returned t = true \/ can_move s i \/ withheld (pool s) t.
Proof.
  intros Hr Hi Hc.
  assert (forall w, w ∈ owned t -> is_Some (heap (pool s) !! w)) as Hh.
  { intros w Hw. destruct (reachable_own s i t w Hr Hi Hw) as [_ H]. by inversion H. }
  destruct t; try done; try (by left); right; try (by apply send_moves); left.
  all: try moves Go Hi.
  - moves Timeout Hi.
  - destruct (Hh w) as [x Hx]; [by left|]. moves Go Hi.
  - destruct (Hh w) as [x Hx]; [by left|]. moves Go Hi.
Qed.

(** C8. Every call of [Exec] of the embedded pool returns. From any reachable state on, in
    every run, whatever the other requests, the watchdog, reloads and shutdowns do in
    between, the goroutine of the call takes at most ten steps, and when it has none left it
    has returned; until then it can always take one (its time-out counts), unless it already
    has its result and waits for a place in the channel to give its worker back, and then
    the channel holds [MaxWorkers] workers all different from its own. *)
Theorem request_returns s i t :
  reachable s -> threads s !! i = Some t -> in_call t = true ->
  (steps_left t <= 10)%nat
  /\ forall es s', run s es = Some s' ->
     exists t', threads s' !! i = Some t'
       /\ (own_steps i es + steps_left t' <= steps_left t)%nat
       /\ (steps_left t' = 0%nat -> has_returned t' = true)
       /\ (has_returned t' = true \/ can_move s' i \/ withheld (pool s') t').
Proof.
  intros Hr Hi Hc. split; [destruct t; cbn; lia|]. intros es s' Hes.
  destruct (run_steps_left _ _ _ _ _ Hes Hi Hc) as (t' & Hi' & Hc' & Hle).
  exists t'. split_and!; [done|done|by apply in_call_steps_left|].
  apply call_moves; [|done..]. by eapply run_reachable.
Qed.

(** ** No goroutine is stuck *)

(** The old workers a reload has copied and not yet stopped. *)
Definition to_drain (t : thread) : list loc :=
  match t with
  | ReloadLoop _ old | SpawnNew (ByReload _ old) | SpawnAppend _ (ByReload _ old)
  | SpawnSend _ (ByReload _ old) => old
  | DrainLoop ws | StopState _ (ForDrain ws) | StopEngine _ (ForDrain ws) | RemoveWorker _ (ForDrain ws) => ws
  | _ => []
  end.

Definition made (p : EmbPool) (ws : list loc) : Prop := Forall (fun w => (w < next_loc p)%nat) ws.

Lemma tstep_to_drain tid b p t c p' t' new :
  tstep tid b p t c = Some (p', t', new) -> made p (workers p) -> made p (to_drain t) ->
  (next_loc p <= next_loc p')%nat /\ Forall (fun t => made p (to_drain t)) (t' :: new).
Proof.
  intros H Hw Ht. assert (made p []) as Hn by constructor. tstep_cases H.
  all: try match goal with k : spawner |- _ => destruct k | k : stopper |- _ => destruct k end.
  all: try match goal with |- context [removeWorker ?w ?p] =>
    destruct (removeWorker_frame w p) as (_ & -> & _) end.
  all: (split; [cbn; lia|]).
  all: rewrite ?list.Forall_cons, ?list.Forall_nil; split_and?; try done.
  all: try (apply list.Forall_cons in Ht as [_ Ht]; exact Ht).
  all: apply Forall_fmap, Forall_true; done.
Qed.

Lemma reachable_to_drain s : reachable s -> Forall (fun t => made (pool s) (to_drain t)) (threads s).
Proof.
  induction 1 as [|s e s' Hr IH Hs]; [constructor|].
  destruct (step_inv _ _ _ _ _ _ _ Hs) as [[Hp Ht]|(tid & t & b & c & t' & new & rest & Ht & H1 & H2)].
  - rewrite Ht, Hp. constructor; [|done]. destruct e; constructor.
  - rewrite H1 in IH. apply list.Forall_cons in IH as [IHt IHr].
    destruct (reachable_known _ _ _ _ _ Hr) as [_ Hk].
    destruct (tstep_to_drain _ _ _ _ _ _ _ _ Ht Hk IHt) as [Hle Hnew].
    assert (forall ws, made (pool s) ws -> made (pool s') ws) as Hmono
      by (intros ws Hws; eapply Forall_impl; [exact Hws|]; cbn; lia).
    rewrite H2, app_comm_cons. apply Forall_app. split.
    + eapply Forall_impl; [exact Hnew|]. intros u. apply Hmono.
    + eapply Forall_impl; [exact IHr|]. intros u. apply Hmono.
Qed.

(** A place in the channel is what a goroutine waits for that gives a worker to it. *)
Definition awaits_room (p : EmbPool) (t : thread) : Prop :=
  (exists w k, t = SpawnSend w k) \/ (exists w r, t = ExecSend w r).

(** [wg.Wait] waits for a goroutine that stops a worker. *)
Definition awaits_stop (s : state) (i : nat) (t : thread) : Prop :=
  t = StopWait /\ exists j u, threads s !! j = Some u /\ stops_for i u = true /\ can_move s j.

Lemma stop_moves s j u i : threads s !! j = Some u -> stops_for i u = true -> can_move s j.
Proof. intros Hj Hu. destruct u; try done; moves Go Hj. Qed.

Lemma all_stopped_or s i :
  negb (existsb (stops_for i) (threads s)) = true
  \/ exists j u, threads s !! j = Some u /\ stops_for i u = true /\ can_move s j.
Proof.
  destruct (existsb (stops_for i) (threads s)) eqn:E; [right|by left].
  apply existsb_exists in E as (u & Hin & Hu). rewrite <- list_elem_of_In in Hin.
  apply list_elem_of_lookup in Hin as [j Hj]. exists j, u. split_and!; [done..|]. by eapply stop_moves.
Qed.

(** C9. The pool has no deadlock of its own: in every reachable state, under every interleaving
    of requests, scaling, reloads, replacements and shutdowns, each goroutine has ended, can
    take a step, waits for a place in the full channel to give a worker to it, or is the shutdown
    waiting for goroutines that stop workers, each of which can take a step. *)
Theorem pool_progress s i t :
  reachable s -> threads s !! i = Some t ->
  has_returned t = true \/ can_move s i
  \/ (awaits_room (pool s) t /\ closed (pool s) = false
      /\ maxw cfg <= Z.of_nat (length (available (pool s))))
  \/ awaits_stop s i t.
Proof.
  intros Hr Hi. destruct (in_call t) eqn:Hc.
  { destruct (call_moves s i t Hr Hi Hc) as [?|[?|(w & r & -> & H1 & H2 & _)]]; [by left|by right; left|].
    right; right; left. split; [right; by eexists _, _|done]. }
  pose proof (Forall_lookup_1 _ _ _ _ (reachable_to_drain s Hr) Hi) as Hd.
  destruct t as [[|n]|k|w k|w k| | | | | | | | | | | |w k|w k|w k| | | | | | | |[|n] old|[|w ws]| | | | |o];
    try done; try (by left); right.
  all: try (left; moves Go Hi).
  - destruct (closed (pool s)) eqn:Hcl; [left; moves Go Hi|].
    destruct (Z.of_nat (length (available (pool s))) <? maxw cfg) eqn:Hl; [left; moves Go Hi|].
    right; left. split; [left; by eexists _, _|]. split; [done|]. by apply Z.ltb_ge in Hl.
  - left. moves Tick Hi.
  - left. apply list.Forall_cons in Hd as [Hw _]. destruct (reachable_heap s w Hr Hw) as [x Hx].
    moves Go Hi.
  - destruct (all_stopped_or s i) as [Hall|Hst]; [left|by right; right].
    exists Go. cbn -[EmbPool.tstep]. rewrite Hi, Hall. by eexists.
Qed.
End Live.


(** ** Concrete runs *)

(** With as many workers as the channel has places, [Reload] takes the place of a worker
    that is at work: thread 2 is the reload, thread 3 the request. *)
Definition reload_during_request : list event :=
  [CallStart] ++ goes 0 9 ++ [CallReload] ++ goes 2 4 ++ [CallExec] ++ goes 3 8 ++ goes 2 1.

Definition blocked (cfg : Config) (s : state) (i : nat) : Prop :=
  forall c, step "" no_file no_json cfg s (Run i c) = None.

(** The response that is ready is not sent: two workers, both idle, and a reload, which
    waits with its first new worker for a place in the channel; a request takes a worker,
    the reload puts its own in the place, and the request, its response 200 computed, cannot
    return; no other request is there to take a worker, and neither can the reload go on. *)
Theorem response_withheld :
  let cfg := tiny_cfg "worker" 2 2 10 in
  let s := after cfg reload_during_request in
  reachable "" no_file no_json cfg s
  /\ (exists w resp, threads s !! 3%nat = Some (ExecSend w (Ok resp)) /\ resp_Status resp = 200)
  /\ withheld cfg (pool s) (default ExecCall (threads s !! 3%nat))
  /\ blocked cfg s 3
  /\ (let s' := after cfg (reload_during_request ++ goes 2 3) in
      busyWorkers (pool s') = 1 /\ blocked cfg s' 2 /\ blocked cfg s' 3).
Proof.
  cbn zeta. split; [apply after_reachable|]. split; [|split; [|split]].
  - by eexists _, _; vm_compute.
  - eexists _, _. split; [by vm_compute|]. split; [by vm_compute|]. split; [by vm_compute|]. split.
    + by apply (bool_decide_unpack _); vm_compute.
    + by apply (bool_decide_unpack _); vm_compute.
  - intros []; by vm_compute.
  - split; [by vm_compute|]. split; intros []; by vm_compute.
Qed.

Lemma request_returns_witness :
  let s := after (tiny_cfg "worker" 2 3 10) ([CallStart] ++ goes 0 9 ++ [CallExec]) in
  exists t', threads (after (tiny_cfg "worker" 2 3 10) ([CallStart] ++ goes 0 9 ++ [CallExec]
               ++ goes 2 10)) !! 2%nat = Some t' /\ has_returned t' = true.
Proof.
  cbn zeta.
  destruct (request_returns "" no_file no_json _ tiny_cfg_valid
    (after (tiny_cfg "worker" 2 3 10) ([CallStart] ++ goes 0 9 ++ [CallExec])) 2 ExecCall
    (after_reachable _ _) ltac:(by vm_compute) eq_refl) as [_ H].
  destruct (H (goes 2 10)
    (after (tiny_cfg "worker" 2 3 10) ([CallStart] ++ goes 0 9 ++ [CallExec] ++ goes 2 10)))
    as (t' & Ht & Hle & Hz & _); [by vm_compute|].
  exists t'. split; [exact Ht|]. apply Hz.
  assert (own_steps 2 (goes 2 10) = 10%nat) as E by reflexivity. rewrite E in Hle.
  cbn in Hle. lia.
Defined.

Lemma pool_progress_witness :
  let cfg := tiny_cfg "worker" 2 3 10 in
  has_returned (ExecBegin 1) = true \/ can_move "" no_file no_json cfg busy_state 3
  \/ (awaits_room (pool busy_state) (ExecBegin 1) /\ closed (pool busy_state) = false
      /\ maxw cfg <= Z.of_nat (length (available (pool busy_state))))
  \/ awaits_stop "" no_file no_json cfg busy_state 3 (ExecBegin 1).
Proof.
  exact (pool_progress "" no_file no_json _ tiny_cfg_valid busy_state 3 (ExecBegin 1)
           (after_reachable _ _) ltac:(by vm_compute)).
Defined.
