(* ===== verification/Main.v ===== *)
(** The command: [src/cmd/maboo/main.go].

    The dispatch on the arguments is a function. [serve] is a machine around the machine of
    the embedded pool: the main goroutine, the one that serves HTTP, the one that reloads, the
    two signal channels, and the requests the server has accepted. The pool's goroutines are
    threads of [EmbPool]; a call of the pool by [serve] is a call event of that machine, and
    the caller waits until its thread is finished. What [http.Server] promises (a listener
    that fails or is closed, a shutdown that waits for the requests it knows of, or gives
    up) is in the guards of the steps. *)
From stdpp Require Import gmap.
From S2P Require Import Prelude Config Engine EmbWorker EmbPool EmbPoolInv EmbPoolSeq.
Local Open Scope string_scope.
Local Open Scope Z_scope.
Local Open Scope list_scope.

(** ** The command line *)

Definition version : string := "0.2.0-dev".

Definition usage : string := "maboo - Embedded PHP Application Server

Usage:
  maboo <command> [options]

Commands:
  serve [config]   Start the server (default config: maboo.yaml)
  start [config]   Alias for serve
  version          Show version
  help             Show this help

Signals:
  SIGUSR1          Graceful worker reload (zero-downtime)
  SIGINT/SIGTERM   Graceful shutdown

Examples:
  maboo serve
  maboo serve /etc/maboo/maboo.yaml
  maboo version
  kill -USR1 $(pidof maboo)   # Reload workers

Embedded PHP Version: 7.4, 8.0, 8.1, 8.2, 8.3, 8.4
".

(** What a command prints, and the exit status; or the server, with its configuration file. *)
Inductive command :=
| Prints (stdout stderr : string) (status : Z)
| Serves (cfgPath : string).

Definition newline : string := String (Ascii.ascii_of_nat 10) "".

(** [main], on the arguments after the program's name. *)
Definition main (args : list string) : command :=
  match args with
  | [] => Prints usage "" 1
  | arg :: rest =>
      if bool_decide (arg = "serve") || bool_decide (arg = "start")
      then Serves (match rest with path :: _ => path | [] => "maboo.yaml" end)
      else if bool_decide (arg = "version")
      then Prints (String.append "maboo v" (String.append version newline)) "" 0
      else if bool_decide (arg = "help") then Prints usage "" 0
      else Prints usage (String.append "Unknown command: " (String.append arg newline)) 1
  end.

(** ** The logger *)

Inductive slog_Level := LevelDebug | LevelInfo | LevelWarn | LevelError.
Inductive slog_Handler := TextHandler | JSONHandler.

Definition setupLogger (level format : string) : slog_Level * slog_Handler :=
  (if bool_decide (level = "debug") then LevelDebug
   else if bool_decide (level = "warn") then LevelWarn
   else if bool_decide (level = "error") then LevelError
   else LevelInfo,
   if bool_decide (format = "text") then TextHandler else JSONHandler).

(** The calls of the logger, without their attributes. *)
Inductive log_call := Info (msg : string) | Error (msg : string).

(** ** [serve] *)

(** The main goroutine, from the start of the pool on. *)
Inductive main_thread :=
| StartPool
| PoolStarting (tid : nat)
| NotifyQuit
| NotifyReload
| GoServer
| LogReady
| Serving                     (** [<-quit] *)
| StopServer
| Stopping                    (** in [srv.Stop], its listeners closed *)
| StopPool
| PoolStopping (tid : nat)
| Exit (status : Z)
| Killed.                     (** by a signal nobody is notified of *)

(** The goroutine of [srv.Start]. *)
Inductive server_thread :=
| NoServer
| SrvStart                    (** not listening yet *)
| SrvListen
| SrvReturned                 (** [Start] has returned an error, as it always does *)
| SrvSignal                   (** at [quit <- syscall.SIGTERM] *)
| SrvDone.

Inductive reload_thread := NoReloader | WaitReload | CallPoolReload | Reloading (tid : nat).

(** [quit] and [reload] are the channels of capacity one, [quit_on] and [reload_on] their
    registrations with [signal.Notify]. [pending] counts the requests the server has
    accepted and tracks whose handlers have not called [Exec] yet, [untracked] those it does
    not track; [requests] are the pool's threads of the tracked ones. [drained] says that
    [srv.Stop] has returned nil. *)
Record process := MkProcess {
  emb : state;
  main_pc : main_thread;
  server_pc : server_thread;
  reload_pc : reload_thread;
  quit : bool;
  quit_on : bool;
  reload : bool;
  reload_on : bool;
  pending : nat;
  untracked : nat;
  requests : list nat;
  drained : bool;
  logged : list log_call
}.

Definition set_emb s st := MkProcess s (main_pc st) (server_pc st) (reload_pc st) (quit st) (quit_on st)
  (reload st) (reload_on st) (pending st) (untracked st) (requests st) (drained st) (logged st).
Definition set_main m st := MkProcess (emb st) m (server_pc st) (reload_pc st) (quit st) (quit_on st)
  (reload st) (reload_on st) (pending st) (untracked st) (requests st) (drained st) (logged st).
Definition set_server v st := MkProcess (emb st) (main_pc st) v (reload_pc st) (quit st) (quit_on st)
  (reload st) (reload_on st) (pending st) (untracked st) (requests st) (drained st) (logged st).
Definition set_reloader r st := MkProcess (emb st) (main_pc st) (server_pc st) r (quit st) (quit_on st)
  (reload st) (reload_on st) (pending st) (untracked st) (requests st) (drained st) (logged st).
Definition set_quit b st := MkProcess (emb st) (main_pc st) (server_pc st) (reload_pc st) b (quit_on st)
  (reload st) (reload_on st) (pending st) (untracked st) (requests st) (drained st) (logged st).
Definition set_quit_on b st := MkProcess (emb st) (main_pc st) (server_pc st) (reload_pc st) (quit st) b
  (reload st) (reload_on st) (pending st) (untracked st) (requests st) (drained st) (logged st).
Definition set_reload b st := MkProcess (emb st) (main_pc st) (server_pc st) (reload_pc st) (quit st)
  (quit_on st) b (reload_on st) (pending st) (untracked st) (requests st) (drained st) (logged st).
Definition set_reload_on b st := MkProcess (emb st) (main_pc st) (server_pc st) (reload_pc st) (quit st)
  (quit_on st) (reload st) b (pending st) (untracked st) (requests st) (drained st) (logged st).
Definition set_requests n u rs st := MkProcess (emb st) (main_pc st) (server_pc st) (reload_pc st)
  (quit st) (quit_on st) (reload st) (reload_on st) n u rs (drained st) (logged st).
Definition set_drained b st := MkProcess (emb st) (main_pc st) (server_pc st) (reload_pc st) (quit st)
  (quit_on st) (reload st) (reload_on st) (pending st) (untracked st) (requests st) b (logged st).
Definition log (l : log_call) st := MkProcess (emb st) (main_pc st) (server_pc st) (reload_pc st) (quit st)
  (quit_on st) (reload st) (reload_on st) (pending st) (untracked st) (requests st) (drained st)
  (logged st ++ [l]).

Definition booted : process :=
  MkProcess init StartPool NoServer NoReloader false false false false 0 0 [] false
    [Info "maboo starting"].

Definition returned (t : option thread) : option (option engine_error) :=
  match t with Some (Finished (Returned e)) => Some e | _ => None end.

Definition is_finished (t : option thread) : bool :=
  match t with Some (Finished _) => true | _ => false end.

(** Whether [srv.Stop] has been called. *)
Definition shutting (m : main_thread) : bool :=
  match m with Stopping | StopPool | PoolStopping _ | Exit _ | Killed => true | _ => false end.

(** A panic in a goroutine other than a request's ends the process; [net/http] and
    [CoreMiddleware] recover those of the requests. *)
Definition panicked (t : thread) : bool :=
  match t with Finished (Panicked _) => true | _ => false end.
Definition crashed (st : process) : bool := existsb panicked (threads (emb st)).

Inductive signal := SIGINT | SIGTERM | SIGUSR1.

(** [Stop] of the server returns nil, or the error of its context or of a listener. *)
Inductive answer := Nil | Fails.

Inductive prog_event :=
| MainStep (a : answer)
| ServerStep (a : answer)        (** [Fails]: listening or accepting fails *)
| ReloadStep
| PoolStep (tid : nat) (c : choice)
| Signal (s : signal)
| Accept (tracked : bool)        (** a request reaches the handler *)
| Handle (tracked : bool).       (** ... which calls the pool *)

Section Program.
Context (placeholderHTML : string) (ReadFile : string -> option (list byte)).
Context (UnmarshalRequire : list byte -> option (gmap string string)) (cfg : Config).

Abbreviation step := (step placeholderHTML ReadFile UnmarshalRequire cfg).

(** A call of the pool: the new thread, and the state with it. *)
Definition call_pool (e : event) (st : process) : option (nat * process) :=
  s ← step (emb st) e; Some (length (threads (emb st)), set_emb s st).

Definition main_step (a : answer) (st : process) : option process :=
  match main_pc st with
  | StartPool => '(tid, st) ← call_pool CallStart st; Some (set_main (PoolStarting tid) st)
  | PoolStarting tid =>
      match returned (threads (emb st) !! tid) with
      | Some None => Some (set_main NotifyQuit st)
      | Some (Some _) => Some (set_main (Exit 1) (log (Error "failed to start worker pool") st))
      | None => None
      end
  | NotifyQuit => Some (set_main NotifyReload (set_quit_on true st))
  | NotifyReload => Some (set_main GoServer (set_reloader WaitReload (set_reload_on true st)))
  | GoServer => Some (set_main LogReady (set_server SrvStart st))
  | LogReady => Some (set_main Serving (log (Info "maboo ready") st))
  | Serving =>
      if quit st
      then Some (set_main StopServer (log (Info "shutdown signal received") (set_quit false st)))
      else None
  | StopServer => Some (set_main Stopping st)
  | Stopping =>
      match a with
      | Nil =>
          if Nat.eqb (pending st) 0
             && forallb (fun tid => is_finished (threads (emb st) !! tid)) (requests st)
          then Some (set_main StopPool (set_drained true st)) else None
      | Fails => Some (set_main StopPool (log (Error "server shutdown error") st))
      end
  | StopPool => '(tid, st) ← call_pool CallStop st; Some (set_main (PoolStopping tid) st)
  | PoolStopping tid =>
      match returned (threads (emb st) !! tid) with
      | Some None => Some (set_main (Exit 0) (log (Info "maboo stopped") st))
      | Some (Some _) =>
          Some (set_main (Exit 0) (log (Info "maboo stopped") (log (Error "pool shutdown error") st)))
      | None => None
      end
  | Exit _ | Killed => None
  end.

(** [srv.Start] listens until it fails or the server is shut down, and its error is logged
    either way. *)
Definition server_step (a : answer) (st : process) : option process :=
  match server_pc st with
  | NoServer | SrvDone => None
  | SrvStart =>
      match a with
      | Fails => Some (set_server SrvReturned st)
      | Nil => Some (set_server (if shutting (main_pc st) then SrvReturned else SrvListen) st)
      end
  | SrvListen =>
      match a with
      | Fails => Some (set_server SrvReturned st)
      | Nil => if shutting (main_pc st) then Some (set_server SrvReturned st) else None
      end
  | SrvReturned => Some (set_server SrvSignal (log (Error "server error") st))
  | SrvSignal => if quit st then None else Some (set_server SrvDone (set_quit true st))
  end.

Definition reloader_step (st : process) : option process :=
  match reload_pc st with
  | NoReloader => None
  | WaitReload =>
      if reload st
      then Some (set_reloader CallPoolReload
             (log (Info "SIGUSR1 received, reloading workers") (set_reload false st)))
      else None
  | CallPoolReload => '(tid, st) ← call_pool CallReload st; Some (set_reloader (Reloading tid) st)
  | Reloading tid =>
      match returned (threads (emb st) !! tid) with
      | Some None => Some (set_reloader WaitReload st)
      | Some (Some _) => Some (set_reloader WaitReload (log (Error "reload failed") st))
      | None => None
      end
  end.

(** [signal.Notify] sends without blocking. Unregistered, [SIGUSR1] is ignored and the other
    two end the process. *)
Definition signal_step (s : signal) (st : process) : process :=
  match s with
  | SIGUSR1 => if reload_on st then set_reload true st else st
  | _ => if quit_on st then set_quit true st else set_main Killed st
  end.

(** The server may accept until [srv.Stop] returns, on connections it has even when it no
    longer listens. Requests over connections it has handed over
    (HTTP/2 without TLS) or does not own (HTTP/3) it does not track. *)
Definition accept_step (tracked : bool) (st : process) : option process :=
  match server_pc st, main_pc st with
  | (NoServer | SrvStart), _ | _, (StopPool | PoolStopping _ | Exit _ | Killed) => None
  | _, _ =>
      Some (if tracked then set_requests (S (pending st)) (untracked st) (requests st) st
            else set_requests (pending st) (S (untracked st)) (requests st) st)
  end.

Definition handle_step (tracked : bool) (st : process) : option process :=
  '(tid, st') ← call_pool CallExec st;
  if tracked then
    match pending st with
    | O => None
    | S n => Some (set_requests n (untracked st) (requests st ++ [tid]) st')
    end
  else
    match untracked st with
    | O => None
    | S n => Some (set_requests (pending st) n (requests st) st')
    end.

Definition prog_step (st : process) (e : prog_event) : option process :=
  if crashed st then None
  else match main_pc st with
  | Exit _ | Killed => None
  | _ =>
      match e with
      | MainStep a => main_step a st
      | ServerStep a => server_step a st
      | ReloadStep => reloader_step st
      | PoolStep tid c => s ← step (emb st) (Run tid c); Some (set_emb s st)
      | Signal s => Some (signal_step s st)
      | Accept tracked => accept_step tracked st
      | Handle tracked => handle_step tracked st
      end
  end.

Fixpoint prog_run (st : process) (es : list prog_event) : option process :=
  match es with
  | [] => Some st
  | e :: es => st' ← prog_step st e; prog_run st' es
  end.

Inductive prog_reachable : process -> Prop :=
| prog_init : prog_reachable booted
| prog_next st e st' : prog_reachable st -> prog_step st e = Some st' -> prog_reachable st'.
End Program.

(** [serve], up to the start of the pool: the exit status and the log, or the configuration. *)
Definition boot {E} (ReadFile : string -> result (list byte) E)
    (Unmarshal : list byte -> Config -> result Config E) (cfgPath : string) :
    (Z * list log_call) + Config :=
  match Load ReadFile Unmarshal cfgPath with
  | Err _ => inl (1, [Info "maboo starting"; Error "failed to load config"])
  | Ok cfg => inr cfg
  end.

(** ** The pool before its shutdown *)

(** No part of the pool's [Stop], and nothing that only happens after it. *)
Definition undisturbed (t : thread) : bool :=
  match t with
  | StopCancel | StopCopy | StopWait | StopClose
  | StopState _ (ForPoolStop _) | StopEngine _ (ForPoolStop _) | RemoveWorker _ (ForPoolStop _)
  | ExecTaken None | ExecUnwind _ | Finished (ExecPanicked _) | Finished (Panicked _) => false
  | _ => true
  end.

Record running_pool (s : state) : Prop := MkRunning {
  run_open : closed (pool s) = false;
  run_threads : Forall (fun t => undisturbed t = true) (threads s)
}.

Section Proofs.
Context (placeholderHTML : string) (ReadFile : string -> option (list byte)).
Context (UnmarshalRequire : list byte -> option (gmap string string)) (cfg : Config).

Abbreviation tstep := (tstep placeholderHTML ReadFile UnmarshalRequire cfg).
Abbreviation step := (step placeholderHTML ReadFile UnmarshalRequire cfg).
Abbreviation prog_step := (prog_step placeholderHTML ReadFile UnmarshalRequire cfg).
Abbreviation prog_run := (prog_run placeholderHTML ReadFile UnmarshalRequire cfg).
Abbreviation prog_reachable := (prog_reachable placeholderHTML ReadFile UnmarshalRequire cfg).

Lemma tstep_undisturbed tid b p t c p' t' new :
  tstep tid b p t c = Some (p', t', new) -> closed p = false -> undisturbed t = true ->
  closed p' = false /\ Forall (fun t => undisturbed t = true) (t' :: new).
Proof.
  intros H Hc Ht. tstep_cases H; cbn in Ht; try done.
  all: try match goal with k : spawner |- _ => destruct k end.
  all: try match goal with k : stopper |- _ => destruct k end; try done.
  all: try match goal with |- context [removeWorker ?w ?q] =>
    destruct (removeWorker_frame w q) as (_ & _ & _ & -> & _) end.
  all: try (split; [done|by repeat constructor]).
  all: congruence.
Qed.

Lemma running_step s e s' :
  running_pool s -> e <> CallStop -> step s e = Some s' -> running_pool s'.
Proof.
  intros [Hc Ht] He Hs.
  destruct (step_inv _ _ _ _ _ _ _ Hs) as [[Ep Et]|(tid & t & b & c & t' & new & rest & Hts & H1 & H2)].
  - split; [by rewrite Ep|]. rewrite Et. constructor; [|done]. by destruct e.
  - rewrite H1 in Ht. apply Forall_cons in Ht as [Ht Hr].
    destruct (tstep_undisturbed _ _ _ _ _ _ _ _ Hts Hc Ht) as [Hc' Hn]. split; [done|].
    rewrite H2, app_comm_cons. by apply Forall_app.
Qed.

(** A thread of a request stays one, and what is finished stays. *)
Definition request_thread (t : thread) : bool :=
  match t with ExecCall => true | _ => is_request t end.

Lemma tstep_request tid b p t c p' t' new :
  tstep tid b p t c = Some (p', t', new) -> request_thread t = true -> request_thread t' = true.
Proof. intros H Ht. by tstep_cases H. Qed.

Lemma step_thread s e s' i t :
  step s e = Some s' -> threads s !! i = Some t ->
  exists t', threads s' !! i = Some t'
    /\ (t' = t \/ exists b c p' new, tstep i b (pool s) t c = Some (p', t', new)).
Proof.
  intros Hs Hi. destruct e as [| | | |tid c]; cbn -[EmbPool.tstep] in Hs;
    try (injection Hs as <-; exists t; split; [by apply lookup_app_l_Some|by left]).
  destruct (threads s !! tid) as [u|] eqn:Hu; [|done].
  destruct (tstep _ _ _ u c) as [[[p' u'] new]|] eqn:Ht; [|done]. injection Hs as <-. cbn.
  destruct (decide (tid = i)) as [->|Hne].
  - simplify_eq. exists u'. split; [|right; by repeat eexists].
    apply lookup_app_l_Some, list_lookup_insert_eq. by eapply lookup_lt_Some.
  - exists t. split; [|by left]. apply lookup_app_l_Some. by rewrite list_lookup_insert_ne.
Qed.

(** ** The invariant of the program *)

Definition pool_runs (m : main_thread) : bool :=
  match m with PoolStopping _ | Exit _ | Killed => false | _ => true end.
Definition server_stopped (m : main_thread) : bool :=
  match m with StopPool | PoolStopping _ | Exit _ | Killed => true | _ => false end.

Record consistent (s : state) (m : main_thread) (n : nat) (rs : list nat) (d : bool) : Prop := {
  ok_pool : reachable placeholderHTML ReadFile UnmarshalRequire cfg s;
  ok_running : pool_runs m = true -> running_pool s;
  ok_requests : Forall (fun i => exists t, threads s !! i = Some t /\ request_thread t = true) rs;
  ok_drained : d = true -> server_stopped m = true /\ n = 0%nat
    /\ Forall (fun i => exists r, threads s !! i = Some (Finished (ExecResult r))) rs
}.

Lemma consistent_pool s e s' m m' n rs d :
  consistent s m n rs d -> step s e = Some s' ->
  (pool_runs m' = true -> pool_runs m = true /\ e <> CallStop) ->
  (server_stopped m = true -> server_stopped m' = true) ->
  consistent s' m' n rs d.
Proof.
  intros [Hp Hr Hrs Hd] Hs H1 H2. constructor.
  - by eapply reach_step.
  - intros Hm'. destruct (H1 Hm') as [Hm He]. eapply running_step; eauto.
  - eapply Forall_impl; [done|]. intros i (t & Hi & Ht).
    destruct (step_thread _ _ _ _ _ Hs Hi) as (t' & Hi' & [->|(b & c & p' & new & Hts)]);
      [by exists t|]. exists t'. split; [done|]. by eapply tstep_request.
  - intros Hdr. destruct (Hd Hdr) as (Hm & Hn & Hall). split_and!; [auto..|].
    eapply Forall_impl; [done|]. intros i (r & Hi). exists r.
    destruct (step_thread _ _ _ _ _ Hs Hi) as (t' & Hi' & [->|(b & c & p' & new & Hts)]); [done|].
    by destruct c.
Qed.

Lemma consistent_main s m m' n rs d :
  consistent s m n rs d ->
  (pool_runs m' = true -> pool_runs m = true) ->
  (server_stopped m = true -> server_stopped m' = true) ->
  consistent s m' n rs d.
Proof.
  intros [Hp Hr Hrs Hd] H1 H2. constructor; [done|auto|done|].
  intros Hdr. destruct (Hd Hdr) as (Hm & Hn & Hall). auto.
Qed.

Definition ok (st : process) : Prop :=
  consistent (emb st) (main_pc st) (pending st) (requests st) (drained st).

Lemma call_pool_inv e st tid st' :
  call_pool placeholderHTML ReadFile UnmarshalRequire cfg e st = Some (tid, st') ->
  exists s, step (emb st) e = Some s /\ st' = set_emb s st /\ tid = length (threads (emb st)).
Proof. unfold call_pool. intros. simplify_option_eq. by eexists. Qed.

(** When [srv.Stop] returns nil, all the requests it tracks have their results. *)
Lemma drained_results st :
  ok st -> main_pc st = Stopping ->
  forallb (fun tid => is_finished (threads (emb st) !! tid)) (requests st) = true ->
  Forall (fun i => exists r, threads (emb st) !! i = Some (Finished (ExecResult r))) (requests st).
Proof.
  intros [_ Hr Hrs _] Hm Hf. destruct (Hr ltac:(by rewrite Hm)) as [_ Ht].
  rewrite forallb_forall in Hf. rewrite Forall_forall in Hrs |- *. intros i Hi.
  destruct (Hrs i Hi) as (t & Hti & Hreq). apply list_elem_of_In, Hf in Hi. rewrite Hti in Hi |- *.
  pose proof (Forall_lookup_1 _ _ _ _ Ht Hti) as Hu.
  destruct t as [| | | | | | | | | | | | | | | | | | | | | | | | | | | | | | |[]]; try done. by eexists.
Qed.

Ltac pool_call Hc :=
  apply call_pool_inv in Hc as (? & ? & -> & ->); eapply consistent_pool; [done|done|..];
  cbn; repeat match goal with H : main_pc _ = _ |- _ => rewrite H end; done.

Lemma main_step_ok a st st' :
  ok st -> main_step placeholderHTML ReadFile UnmarshalRequire cfg a st = Some st' -> ok st'.
Proof.
  intros Hok Hs. unfold main_step in Hs. destruct (main_pc st) eqn:Hm; try done.
  all: try (destruct (call_pool _ _ _ _ _ _) as [[tid st1]|] eqn:Hc in Hs; [|done];
    cbn in Hs; injection Hs as <-; pool_call Hc).
  all: try (destruct (returned _) as [[e|]|]; [| |done]; injection Hs as <-;
    (eapply consistent_main; [exact Hok|by rewrite Hm..])).
  all: try (injection Hs as <-; eapply consistent_main; [exact Hok|by rewrite Hm..]).
  - destruct (quit st); [|done]. injection Hs as <-. eapply consistent_main; [exact Hok|by rewrite Hm..].
  - destruct a.
    + destruct (Nat.eqb_spec (pending st) 0) as [Hn|]; [|done].
      destruct (forallb _ _) eqn:Hf in Hs; [|done]. injection Hs as <-.
      pose proof (drained_results st Hok Hm Hf) as Hall. destruct Hok as [Hp Hr Hrs _].
      constructor; try done. intros _. apply Hr. by rewrite Hm.
    + injection Hs as <-. eapply consistent_main; [exact Hok|by rewrite Hm..].
Qed.

Lemma reloader_step_ok st st' :
  ok st -> reloader_step placeholderHTML ReadFile UnmarshalRequire cfg st = Some st' -> ok st'.
Proof.
  intros Hok Hs. unfold reloader_step in Hs. destruct (reload_pc st); try done.
  - destruct (reload st); [|done]. by injection Hs as <-.
  - destruct (call_pool _ _ _ _ _ _) as [[tid st1]|] eqn:Hc in Hs; [|done]. cbn in Hs. injection Hs as <-.
    apply call_pool_inv in Hc as (? & ? & -> & ->). by eapply consistent_pool.
  - destruct (returned _) as [[e|]|]; [| |done]; by injection Hs as <-.
Qed.

Lemma handle_step_ok tracked st st' :
  ok st -> handle_step placeholderHTML ReadFile UnmarshalRequire cfg tracked st = Some st' -> ok st'.
Proof.
  intros Hok Hs. unfold handle_step in Hs.
  destruct (call_pool _ _ _ _ _ _) as [[tid st1]|] eqn:Hc in Hs; [|done]. cbn in Hs.
  apply call_pool_inv in Hc as (s & Es & -> & ->).
  assert (ok (set_emb s st)) as Hok1 by (by eapply consistent_pool).
  destruct tracked; simplify_option_eq; repeat (case_match; simplify_option_eq); try done.
  destruct Hok1 as [Hp Hr Hrs Hd]. constructor; cbn; try done.
  - apply Forall_app. split; [done|]. apply Forall_singleton. exists ExecCall. split; [|done].
    cbn. by rewrite lookup_app_r, Nat.sub_diag.
  - intros Hdr. destruct (Hd Hdr) as (_ & Hn & _). cbn in Hn. congruence.
Qed.

Lemma accept_step_ok tracked st st' : ok st -> accept_step tracked st = Some st' -> ok st'.
Proof.
  intros [Hp Hr Hrs Hd] Hs. assert (server_stopped (main_pc st) = false) as Hm
    by (unfold accept_step in Hs; by destruct (server_pc st), (main_pc st)).
  assert (exists n u, st' = set_requests n u (requests st) st) as (n & u & ->).
  { unfold accept_step in Hs. destruct (server_pc st), (main_pc st), tracked; try done;
      injection Hs as <-; by eexists _, _. }
  constructor; try done. intros Hdr. destruct (Hd Hdr) as (Hm' & _). congruence.
Qed.

Lemma prog_ok st : prog_reachable st -> ok st.
Proof.
  induction 1 as [|st e st' _ IH Hs].
  - constructor; [by constructor|by intros _; constructor|by constructor|done].
  - unfold Main.prog_step in Hs. destruct (crashed st); [done|].
    assert (forall x : option process, match main_pc st with Exit _ | Killed => None | _ => x end = Some st'
              -> x = Some st') as Hx by (intros x; by destruct (main_pc st)).
    apply Hx in Hs. destruct e as [a|a| |tid c|sg|tr|tr].
    + by eapply main_step_ok.
    + unfold server_step in Hs. repeat (case_match; simplify_eq); done.
    + by eapply reloader_step_ok.
    + destruct (step _ _) as [s|] eqn:Es in Hs; [|done]. injection Hs as <-. by eapply consistent_pool.
    + injection Hs as <-. unfold signal_step. clear Hx. destruct sg, (quit_on st), (reload_on st); try exact IH;
        (eapply consistent_main; [exact IH|done..]).
    + by eapply accept_step_ok.
    + by eapply handle_step_ok.
Qed.

(** ** With a valid configuration, starting does not fail *)

Definition failed (t : thread) : bool :=
  match t with Finished (Returned (Some _)) => true | _ => false end.

Lemma tstep_no_error tid b p t c p' t' new :
  valid_config cfg -> tstep tid b p t c = Some (p', t', new) ->
  existsb failed (t' :: new) = false.
Proof.
  intros Hcfg H. tstep_cases H; try done.
  all: try match goal with
    | E : NewWorker _ _ _ _ = Err _ |- _ =>
        destruct (NewWorker_valid ReadFile UnmarshalRequire cfg Hcfg (int32 (nextID p + 1))); congruence
    | k : spawner |- _ => by destruct k
    | k : stopper |- _ => by destruct k
    end.
  cbn. by induction (workers _).
Qed.

Lemma pool_no_error s :
  valid_config cfg -> reachable placeholderHTML ReadFile UnmarshalRequire cfg s ->
  Forall (fun t => failed t = false) (threads s).
Proof.
  intros Hcfg. induction 1 as [|s e s' _ IH Hs]; [constructor|].
  destruct (step_inv _ _ _ _ _ _ _ Hs) as [[_ Et]|(tid & t & b & c & t' & new & rest & Hts & H1 & H2)].
  - rewrite Et. constructor; [|done]. by destruct e.
  - rewrite H1 in IH. apply Forall_cons in IH as [_ Hr]. rewrite H2, app_comm_cons.
    apply Forall_app. split; [|done]. apply Forall_forall. intros u Hu.
    pose proof (tstep_no_error _ _ _ _ _ _ _ _ Hcfg Hts) as Hn.
    destruct (failed u) eqn:Ef; [|done]. exfalso. apply not_true_iff_false in Hn. apply Hn.
    apply existsb_exists. exists u. by rewrite <- list_elem_of_In.
Qed.

(** Only the main goroutine and a signal move the main goroutine. *)
Lemma server_main a st st' : server_step a st = Some st' -> main_pc st' = main_pc st.
Proof. unfold server_step. intros Hs. repeat (case_match; simplify_eq); done. Qed.
Lemma accept_main tr st st' : accept_step tr st = Some st' -> main_pc st' = main_pc st.
Proof. unfold accept_step. intros Hs. repeat (case_match; simplify_eq); done. Qed.
Lemma reloader_main st st' :
  reloader_step placeholderHTML ReadFile UnmarshalRequire cfg st = Some st' -> main_pc st' = main_pc st.
Proof.
  unfold reloader_step. intros Hs. destruct (reload_pc st); [done|by case_match; simplify_eq| |].
  - destruct (call_pool _ _ _ _ _ _) as [[i st1]|] eqn:Hc; [|done]. cbn in Hs. injection Hs as <-.
    by apply call_pool_inv in Hc as (s & _ & -> & _).
  - by repeat (case_match; simplify_eq).
Qed.
Lemma handle_main tr st st' :
  handle_step placeholderHTML ReadFile UnmarshalRequire cfg tr st = Some st' -> main_pc st' = main_pc st.
Proof.
  unfold handle_step. intros Hs. destruct (call_pool _ _ _ _ _ _) as [[i st1]|] eqn:Hc; [|done].
  apply call_pool_inv in Hc as (s & _ & -> & _). cbn in Hs. by repeat (case_match; simplify_eq).
Qed.

Definition good_exit (m : main_thread) : Prop := match m with Exit status => status = 0 | _ => True end.

Lemma exit_reachable st : valid_config cfg -> prog_reachable st -> good_exit (main_pc st).
Proof.
  intros Hcfg. induction 1 as [|st e st' Hr IH Hs]; [done|].
  pose proof (pool_no_error _ Hcfg (ok_pool _ _ _ _ _ (prog_ok _ Hr))) as Hne.
  unfold Main.prog_step in Hs. destruct (crashed st); [done|].
  assert (forall x : option process, match main_pc st with Exit _ | Killed => None | _ => x end = Some st'
            -> x = Some st' /\ match main_pc st with Exit _ | Killed => False | _ => True end) as Hx
    by (intros x; by destruct (main_pc st)).
  apply Hx in Hs as [Hs Hm]. clear Hx.
  destruct e as [a|a| |tid c|sg|tr|tr].
  - unfold main_step in Hs. destruct (main_pc st) eqn:Em; try done.
    all: try (destruct (call_pool _ _ _ _ _ _) as [[i st1]|] in Hs; [|done]; cbn in Hs; by injection Hs as <-).
    all: try by injection Hs as <-.
    + destruct (threads (emb st) !! tid) as [t|] eqn:Et; [|done].
      pose proof (Forall_lookup_1 _ _ _ _ Hne Et) as Hf.
      destruct (returned (Some t)) as [[e|]|] eqn:Er; [| |done]; injection Hs as <-; [|done].
      destruct t as [| | | | | | | | | | | | | | | | | | | | | | | | | | | | | | |[]]; simplify_eq/=.
    + by destruct (quit st); simplify_eq.
    + destruct a; [destruct (Nat.eqb _ _ && forallb _ _); [|done]|]; by injection Hs as <-.
    + destruct (returned _) as [[e|]|]; [| |done]; by injection Hs as <-.
  - by rewrite (server_main _ _ _ Hs).
  - by rewrite (reloader_main _ _ Hs).
  - destruct (step _ _) as [s|]; [|done]. by injection Hs as <-.
  - injection Hs as <-. unfold signal_step.
    by destruct sg, (quit_on st), (reload_on st); cbn; destruct (main_pc st).
  - by rewrite (accept_main _ _ _ Hs).
  - by rewrite (handle_main _ _ _ Hs).
Qed.

(** ** The way out *)

Abbreviation run := (run placeholderHTML ReadFile UnmarshalRequire cfg).

(** The goroutines of [Pool.Stop], one after the other: [n] of them, from thread [j] on. *)
Fixpoint stop_workers (j n : nat) : list event :=
  match n with O => [] | S n => goes j 2 ++ stop_workers (S j) n end.

Definition stopped_worker (p : EmbPool) (w : loc) : Prop :=
  forall x, heap p !! w = Some x -> eng_started (w_engine x) = false.

Lemma stopped_upd p w v f :
  (forall x, eng_started (w_engine x) = false -> eng_started (w_engine (f x)) = false) ->
  stopped_worker p w -> stopped_worker (upd_worker v f p) w.
Proof.
  intros Hf Hw x. cbn. rewrite lookup_alter. case_decide as E; [subst v|by apply Hw].
  destruct (heap p !! w) as [y|] eqn:Ey; [|done]. intros [= <-]. by apply Hf, Hw.
Qed.

Lemma run_stop_workers i ws : forall p ts es,
  exists p',
    run (MkState p (ts ++ map (fun w => StopState w (ForPoolStop i)) ws))
        (stop_workers (length ts) (length ws) ++ es)
    = run (MkState p' (ts ++ replicate (length ws) (Finished (Returned None)))) es
    /\ closed p' = closed p /\ (forall w, w ∈ ws \/ stopped_worker p w -> stopped_worker p' w).
Proof.
  induction ws as [|w ws IH]; intros p ts es; cbn [map length replicate stop_workers].
  { exists p. split; [done|]. split; [done|]. intros w [Hw|Hw]; [by apply not_elem_of_nil in Hw|done]. }
  rewrite <- app_assoc. unfold goes. cbn [repeat app].
  erewrite run_go_quiet by (intros b; reflexivity).
  erewrite run_go_quiet by (intros b; reflexivity).
  rewrite cons_middle, app_assoc.
  replace (S (length ts)) with (length (ts ++ [Finished (Returned None)])) by (rewrite length_app; cbn; lia).
  match goal with |- context [MkState ?q _] => set (p1 := q) end.
  destruct (IH p1 (ts ++ [Finished (Returned None)]) es) as (p' & Hrun & Hc & Hw).
  exists p'. rewrite Hrun, <- app_assoc. split; [done|]. split; [done|].
  assert (stopped_worker p1 w) as Hw1.
  { intros x. unfold p1. cbn. rewrite lookup_alter_eq. destruct (_ !! w) as [y|]; [|done].
    intros [= <-]. apply Shutdown_stopped. }
  intros v [[->|Hv]%elem_of_cons|Hv]; [by apply Hw; right|by apply Hw; left|].
  apply Hw. right. apply stopped_upd; [intros; apply Shutdown_stopped|]. by apply stopped_upd.
Qed.

(** Nobody else is waited for. *)
Lemma no_other_stops i ts n :
  Forall (fun t => undisturbed t = true) ts ->
  existsb (stops_for i) (ts ++ StopWait :: replicate n (Finished (Returned None))) = false.
Proof.
  intros Hts. rewrite existsb_app. apply orb_false_iff. split.
  - induction Hts as [|t ts Ht _ IH]; [done|]. cbn. rewrite IH, orb_false_r.
    by destruct t as [| | | | | | | | | | | | | | |? []|? []| | | | | | | | | | | | | | |].
  - cbn. by induction n.
Qed.

Definition stop_events (i n : nat) : list event := goes i 2 ++ stop_workers (S i) n ++ goes i 2.

Lemma run_pool_stop s :
  running_pool s ->
  let i := length (threads s) in
  exists p',
    run (MkState (pool s) (threads s ++ [StopCancel])) (stop_events i (length (workers (pool s))))
    = Some (MkState p' (threads s ++ Finished (Returned None)
                          :: replicate (length (workers (pool s))) (Finished (Returned None))))
    /\ forall w, w ∈ workers (pool s) -> stopped_worker p' w.
Proof.
  destruct s as [p ts]. intros [Hc Hts] i. cbn [pool threads] in *. unfold stop_events.
  unfold goes at 1. cbn [repeat app].
  erewrite (run_go_quiet _ _ _ _ _ ts) by (intros b; reflexivity).
  erewrite (run_go _ _ _ _ _ ts) by (intros b; reflexivity).
  cbn [app workers set_cancelled]. rewrite cons_middle, app_assoc.
  replace (S i) with (length (ts ++ [StopWait])) by (rewrite length_app; cbn; lia).
  destruct (run_stop_workers i (workers p) (set_cancelled true p) (ts ++ [StopWait]) (goes i 2))
    as (p' & Hrun & Hc' & Hw). exists (set_closed true p').
  split; [|by intros w Hin x Hx; apply (Hw w (or_introl Hin) x)].
  etransitivity; [exact Hrun|]. rewrite <- app_assoc. cbn [app goes repeat].
  cbn [EmbPool.run EmbPool.step threads pool]. unfold i.
  rewrite list_lookup_middle by done. rewrite no_other_stops by done. cbn [EmbPool.tstep EmbPool.stop_step negb].
  rewrite insert_app_r_alt, Nat.sub_diag by done. cbn [list_insert insert app].
  rewrite app_nil_r. cbn [EmbPool.run EmbPool.step threads pool].
  rewrite list_lookup_middle by done. cbn [EmbPool.tstep EmbPool.stop_step]. rewrite Hc'. cbn [closed set_cancelled].
  rewrite Hc, insert_app_r_alt, Nat.sub_diag by done. cbn. by rewrite app_nil_r.
Qed.

Lemma crashed_step s e s' :
  step s e = Some s' -> existsb panicked (threads s) = true -> existsb panicked (threads s') = true.
Proof.
  rewrite !existsb_exists. intros Hs (t & [i Hi]%list_elem_of_In%list_elem_of_lookup_1 & Ht).
  destruct (step_thread _ _ _ _ _ Hs Hi) as (t' & Hi' & [->|(b & c & p' & new & Hts)]).
  - exists t. split; [|done]. apply list_elem_of_In. by eapply list_elem_of_lookup_2.
  - destruct t as [| | | | | | | | | | | | | | | | | | | | | | | | | | | | | | |o]; done.
Qed.

Lemma crashed_run es : forall s s',
  run s es = Some s' -> existsb panicked (threads s') = false -> existsb panicked (threads s) = false.
Proof.
  induction es as [|e es IH]; intros s s'; cbn; [by intros [= ->]|].
  destruct (step s e) as [s1|] eqn:Es; [|done]. intros Hr Hn. specialize (IH _ _ Hr Hn).
  destruct (existsb panicked (threads s)) eqn:E; [|done]. by rewrite (crashed_step _ _ _ Es E) in IH.
Qed.

(** A run of the pool's threads is a run of the program, if it does not end in a crash. *)
Definition alive_main (m : main_thread) : bool := match m with Exit _ | Killed => false | _ => true end.
Definition pool_step (e : event) : prog_event :=
  match e with Run tid c => PoolStep tid c | _ => ReloadStep end.
Definition is_run (e : event) : bool := match e with Run _ _ => true | _ => false end.

Lemma prog_run_pool es : forall st s',
  forallb is_run es = true -> alive_main (main_pc st) = true ->
  run (emb st) es = Some s' -> existsb panicked (threads s') = false ->
  prog_run st (map pool_step es) = Some (set_emb s' st).
Proof.
  induction es as [|e es IH]; intros st s' Hes Hm Hr Hn; cbn [map Main.prog_run].
  { injection Hr as <-. by destruct st. }
  cbn in Hes. apply andb_prop in Hes as [He Hes].
  pose proof (crashed_run (e :: es) _ _ Hr Hn) as Hc.
  cbn [EmbPool.run] in Hr. destruct (step (emb st) e) as [s1|] eqn:Es; [|done].
  assert (prog_step st (pool_step e) = Some (set_emb s1 st)) as ->.
  { destruct e as [| | | |tid c]; try done. unfold Main.prog_step, crashed. rewrite Hc.
    cbn [pool_step]. rewrite Es. by destruct (main_pc st). }
  cbn. by rewrite (IH (set_emb s1 st) s').
Qed.

Lemma prog_run_app es fs : forall st,
  prog_run st (es ++ fs) = match prog_run st es with Some st' => prog_run st' fs | None => None end.
Proof.
  induction es as [|e es IH]; intros st; cbn [app Main.prog_run]; [done|].
  destruct (prog_step st e); cbn; [apply IH|done].
Qed.

Lemma stop_workers_run n : forall j, forallb is_run (stop_workers j n) = true /\ length (stop_workers j n) = (2 * n)%nat.
Proof.
  induction n as [|n IH]; intros j; [done|]. destruct (IH (S j)) as [H1 H2].
  split; [exact H1|]. cbn. rewrite H2. lia.
Qed.

Lemma running_not_crashed s : running_pool s -> existsb panicked (threads s) = false.
Proof.
  intros [_ Hts]. induction Hts as [|t ts Ht _ IH]; [done|]. cbn. rewrite IH, orb_false_r.
  by destruct t as [| | | | | | | | | | | | | | | | | | | | | | | | | | | | | | |[]].
Qed.

(** From the signal on: the events of a shutdown that nothing else delays. *)
Definition shutdown_events (st : process) : list prog_event :=
  let i := length (threads (emb st)) in
  [MainStep Nil; MainStep Nil; MainStep Fails; MainStep Nil]
  ++ map pool_step (stop_events i (length (workers (pool (emb st))))) ++ [MainStep Nil].

Lemma shutdown_runs st :
  ok st -> main_pc st = Serving -> quit st = true ->
  exists st', prog_run st (shutdown_events st) = Some st' /\ main_pc st' = Exit 0
    /\ forall w, w ∈ workers (pool (emb st)) -> stopped_worker (pool (emb st')) w.
Proof.
  intros [_ Hr _ _] Hm Hq. specialize (Hr ltac:(by rewrite Hm)).
  pose proof (running_not_crashed _ Hr) as Hc. destruct (run_pool_stop _ Hr) as (p' & Hrun & Hw).
  destruct st as [[p ts] m sv rl q qo re ro pe un rq dr lg]. cbn in Hm, Hq, Hc. subst m q.
  unfold shutdown_events. rewrite prog_run_app.
  match goal with |- context [prog_run ?s [MainStep Nil; _; _; _]] =>
    assert (exists lg', prog_run s [MainStep Nil; MainStep Nil; MainStep Fails; MainStep Nil]
      = Some (MkProcess (MkState p (ts ++ [StopCancel])) (PoolStopping (length ts)) sv rl false qo re ro
                pe un rq dr lg')) as [lg' ->] end.
  { eexists. unfold Main.prog_run. cbn. unfold Main.prog_step, crashed. cbn. rewrite Hc. cbn. rewrite Hc. cbn.
    rewrite Hc. cbn. rewrite Hc. reflexivity. }
  cbn [emb pool threads].
  assert (existsb panicked (ts ++ Finished (Returned None) :: replicate (length (workers p)) (Finished (Returned None))) = false) as Hc'.
  { rewrite existsb_app. cbn in Hc. rewrite Hc. generalize (length (workers p)). clear. intros n. cbn. by induction n. }
  rewrite prog_run_app. erewrite prog_run_pool; [|..|exact Hrun|exact Hc']; [|..|done].
  - eexists. split; [|split].
    + cbn. unfold Main.prog_step, crashed. cbn. rewrite Hc'. unfold main_step. cbn.
      rewrite list_lookup_middle by done. reflexivity.
    + done.
    + exact Hw.
  - unfold stop_events. rewrite !forallb_app, (proj1 (stop_workers_run _ _)). done.
Qed.

(** C10. A graceful shutdown loses no request: until the pool is stopped no goroutine has
    panicked, whatever signals arrive, requests come in and reloads run; and when [srv.Stop]
    has returned nil, every request the server tracked has called the pool and has its
    result, from then on. (Not those it does not track, over HTTP/2 without TLS or HTTP/3.) *)
Theorem graceful_shutdown (st : process) :
  prog_reachable st ->
  (pool_runs (main_pc st) = true ->
     crashed st = false /\ Forall (fun t => is_panic t = false) (threads (emb st)))
  /\ (drained st = true ->
        pending st = 0%nat
        /\ Forall (fun i => exists r, threads (emb st) !! i = Some (Finished (ExecResult r))) (requests st)).
Proof.
  intros Hr. destruct (prog_ok st Hr) as [_ Hrun _ Hd]. split.
  - intros Hm. specialize (Hrun Hm). split; [by apply running_not_crashed|].
    eapply Forall_impl; [apply Hrun|]. intros t Ht.
    by destruct t as [| | | | | | | | | | | | | | | | | | | | | | | | | | | | | | |[]].
  - intros Hdr. by destruct (Hd Hdr) as (_ & Hn & Hall).
Qed.

End Proofs.

(** The exit status does not tell whether the server could serve: it is 1 when the
    configuration cannot be loaded or is not valid, and in every other case in which the main
    goroutine ends it is 0, whatever the server did, the failure of its listener
    included. *)
Theorem exit_status {E} (ReadFile' : string -> result (list byte) E)
    (Unmarshal : list byte -> Config -> result Config E) (cfgPath : string) :
  match boot ReadFile' Unmarshal cfgPath with
  | inl (status, _) => status = 1
  | inr cfg =>
      forall placeholderHTML ReadFile UnmarshalRequire st status,
        prog_reachable placeholderHTML ReadFile UnmarshalRequire cfg st ->
        main_pc st = Exit status -> status = 0
  end.
Proof.
  unfold boot, Load. destruct (ReadFile' cfgPath) as [data|]; cbn; [|done].
  destruct (Unmarshal data Default) as [cfg|]; cbn; [|done].
  destruct (Validate cfg) eqn:Hv; [done|]. intros h R U st status Hr Hm.
  apply Validate_valid in Hv. pose proof (exit_reachable h R U cfg st Hv Hr) as He.
  by rewrite Hm in He.
Qed.

(** ** Concrete runs *)

Lemma prog_run_reachable h R U cfg es : forall st st',
  prog_reachable h R U cfg st -> prog_run h R U cfg st es = Some st' -> prog_reachable h R U cfg st'.
Proof.
  induction es as [|e es IH]; intros st st' Hr; cbn; [by intros [= <-]|].
  destruct (prog_step _ _ _ _ _ _) as [s|] eqn:Es; [|done]. apply IH. by eapply prog_next.
Qed.

Definition prog_after (cfg : Config) (es : list prog_event) : process :=
  default booted (prog_run "" no_file no_json cfg booted es).

Lemma prog_after_reachable cfg es : prog_reachable "" no_file no_json cfg (prog_after cfg es).
Proof.
  unfold prog_after. destruct (prog_run _ _ _ _ _ _) as [st|] eqn:E; [|constructor].
  eapply prog_run_reachable; [|exact E]. constructor.
Qed.

Definition two_workers : Config := tiny_cfg "worker" 2 3 10.

Definition starts : list prog_event :=
  MainStep Nil :: repeat (PoolStep 0 Go) 9 ++ repeat (MainStep Nil) 5.

(** The address is in use. *)
Definition listen_fails : list prog_event :=
  starts ++ [ServerStep Fails; ServerStep Nil; ServerStep Nil]
  ++ shutdown_events (prog_after two_workers starts).

Example listen_fails_status :
  main_pc (prog_after two_workers listen_fails) = Exit 0
  /\ logged (prog_after two_workers listen_fails)
     = [Info "maboo starting"; Info "maboo ready"; Error "server error"; Info "shutdown signal received";
        Error "server shutdown error"; Info "maboo stopped"].
Proof. by vm_compute. Qed.

Definition example_boot : (Z * list log_call) + Config :=
  boot (E := unit) (fun _ => Ok []) (fun _ _ => Ok two_workers) "maboo.yaml".

Lemma exit_status_witness :
  example_boot = inr two_workers
  /\ forall status, main_pc (prog_after two_workers listen_fails) = Exit status -> status = 0.
Proof.
  split; [by vm_compute|]. intros status.
  exact (exit_status (E := unit) (fun _ => Ok []) (fun _ _ => Ok two_workers) "maboo.yaml"
           "" no_file no_json _ status (prog_after_reachable two_workers listen_fails)).
Defined.

(** Two requests, one of which is in the pool when the signal arrives and ends before
    [srv.Stop] does. *)
Definition two_requests : list prog_event :=
  starts ++ [ServerStep Nil; Accept true; Handle true; Accept true; Signal SIGTERM; Signal SIGINT;
             MainStep Nil; MainStep Nil; Handle true]
  ++ repeat (PoolStep 2 Go) 10 ++ repeat (PoolStep 3 Go) 10 ++ [MainStep Nil].

Lemma graceful_shutdown_witness :
  requests (prog_after two_workers two_requests) = [2; 3]%nat
  /\ Forall (fun i => exists r, threads (emb (prog_after two_workers two_requests)) !! i
                                = Some (Finished (ExecResult r))) [2; 3]%nat.
Proof.
  split; [by vm_compute|].
  apply (proj2 (graceful_shutdown "" no_file no_json two_workers _
                  (prog_after_reachable two_workers two_requests))). by vm_compute.
Defined.

Definition asked_to_stop : process := prog_after two_workers (starts ++ [ServerStep Nil; Signal SIGTERM]).


(** A request the server does not track meets the closed channel. *)
Definition untracked_request : list prog_event :=
  starts ++ [ServerStep Nil; Accept false; Handle false]
  ++ repeat (PoolStep 2 Go) 7
  ++ [Signal SIGTERM; MainStep Nil; MainStep Nil; MainStep Nil; MainStep Nil]
  ++ repeat (PoolStep 3 Go) 2 ++ repeat (PoolStep 4 Go) 2 ++ repeat (PoolStep 5 Go) 2
  ++ repeat (PoolStep 3 Go) 2 ++ repeat (PoolStep 2 Go) 3.

Example untracked_request_panics :
  drained (prog_after two_workers untracked_request) = true
  /\ threads (emb (prog_after two_workers untracked_request)) !! 2%nat
     = Some (Finished (ExecPanicked SendOnClosed)).
Proof. by vm_compute. Qed.

(** After a shutdown in order the server's goroutine still logs an error. *)
Example clean_exit_logs_error :
  let st := prog_after two_workers (two_requests ++ [ServerStep Nil; ServerStep Nil]) in
  drained st = true /\ logged st = [Info "maboo starting"; Info "maboo ready";
                                    Info "shutdown signal received"; Error "server error"].
Proof. by vm_compute. Qed.
