(* ===== verification/Messages.v ===== *)
(** The messages carried by the frames: [src/internal/protocol/request.go],
    [response.go], [stream.go] and [msgpack.go].

    MessagePack is a third-party library: a class with the law the code relies on, one
    instance per header type. [Message] is what the three kinds of message share; its
    laws are discharged by the code's encoders and decoders and used for the end-to-end
    theorem. *)
From S2P Require Import Prelude GoIO GoSlice Wire.
From stdpp Require Import strings gmap.
Local Open Scope Z_scope.
Local Open Scope list_scope.

(** ** MessagePack *)

(** [MarshalMsgpack] and [UnmarshalMsgpack] at a header type, and the documented law:
    what was marshalled unmarshals to the same value. *)
Class Msgpack (E A : Type) := {
  MarshalMsgpack : A -> result (list byte) E;
  UnmarshalMsgpack : list byte -> result A E
}.
Class MsgpackLaw (E A : Type) `{!Msgpack E A} : Prop :=
  Unmarshal_Marshal (a : A) (bs : list byte) : MarshalMsgpack a = Ok bs -> UnmarshalMsgpack bs = Ok a.

(** ** Data *)

Record RequestHeader := MkRequestHeader {
  req_Method : string;
  req_URI : string;
  req_QueryString : string;
  req_Headers : gmap string string;
  req_RemoteAddr : string;
  req_ServerName : string;
  req_ServerPort : string;
  req_Protocol : string
}.

Record ResponseHeader := MkResponseHeader {
  rsp_Status : Z;
  rsp_Headers : gmap string string
}.

Record StreamHeader := MkStreamHeader {
  ConnectionID : string;
  Event : string;
  Room : string
}.

Inductive message_error (E : Type) :=
| Encoding (e : E)
| WrongType (t : byte)
| Decoding (e : E).
Arguments Encoding {E}. Arguments WrongType {E}. Arguments Decoding {E}.

(** ** Operations *)

Section Messages.
Context {E : Type} `{!Msgpack E RequestHeader, !Msgpack E ResponseHeader, !Msgpack E StreamHeader}.

Definition EncodeRequest (req : RequestHeader) (body : list byte) : result Frame (message_error E) :=
  let? headers := map_err Encoding (MarshalMsgpack req) in
  Ok (MkFrame TypeRequest Byte.x00 0 headers body).

Definition DecodeRequest (f : Frame) : result (RequestHeader * list byte) (message_error E) :=
  if negb (bool_decide (FType f = TypeRequest)) then Err (WrongType (FType f))
  else
    let? req := map_err Decoding (UnmarshalMsgpack (Headers f)) in
    Ok (req, Payload f).

Definition EncodeResponse (resp : ResponseHeader) (body : list byte) :
    result Frame (message_error E) :=
  let? headers := map_err Encoding (MarshalMsgpack resp) in
  Ok (MkFrame TypeResponse Byte.x00 0 headers body).

Definition DecodeResponse (f : Frame) : result (ResponseHeader * list byte) (message_error E) :=
  if negb (bool_decide (FType f = TypeResponse)) then Err (WrongType (FType f))
  else
    let? resp := map_err Decoding (UnmarshalMsgpack (Headers f)) in
    Ok (resp, Payload f).

Definition EncodeStreamData (streamID : Z) (header : StreamHeader) (data : list byte) :
    result Frame (message_error E) :=
  let? headers := map_err Encoding (MarshalMsgpack header) in
  Ok (MkFrame TypeStreamData Byte.x00 streamID headers data).

Definition DecodeStreamData (f : Frame) : result (StreamHeader * list byte) (message_error E) :=
  if negb (bool_decide (FType f = TypeStreamData)) then Err (WrongType (FType f))
  else
    let? header := map_err Decoding (UnmarshalMsgpack (Headers f)) in
    Ok (header, Payload f).

Definition EncodeStreamClose (streamID : Z) (connID : string) : result Frame (message_error E) :=
  let header := MkStreamHeader connID "close" "" in
  let? headers := map_err Encoding (MarshalMsgpack header) in
  Ok (MkFrame TypeStreamClose Byte.x00 streamID headers []).
End Messages.

(** ** What the kinds of message share *)

Class Message (E H : Type) := {
  msg_type : byte;
  msg_encode : H -> list byte -> result Frame (message_error E);
  msg_decode : Frame -> result (H * list byte) (message_error E)
}.

Class MessageLaws (E H : Type) `{!Message E H} : Prop := {
  msg_encode_frame h body f :
    msg_encode h body = Ok f ->
    FType f = msg_type /\ StreamID f = 0 /\ Payload f = body /\ msg_decode f = Ok (h, body);
  msg_decode_type f : FType f <> msg_type -> msg_decode f = Err (WrongType (FType f))
}.

Section Instances.
Context {E : Type} `{!Msgpack E RequestHeader, !Msgpack E ResponseHeader, !Msgpack E StreamHeader}.

#[export] Instance request_message : Message E RequestHeader :=
  {| msg_type := TypeRequest; msg_encode := EncodeRequest; msg_decode := DecodeRequest |}.
#[export] Instance response_message : Message E ResponseHeader :=
  {| msg_type := TypeResponse; msg_encode := EncodeResponse; msg_decode := DecodeResponse |}.
#[export] Instance stream_message : Message E StreamHeader :=
  {| msg_type := TypeStreamData; msg_encode := EncodeStreamData 0; msg_decode := DecodeStreamData |}.

Context `{!MsgpackLaw E RequestHeader, !MsgpackLaw E ResponseHeader, !MsgpackLaw E StreamHeader}.

(** Both laws, by running the encoder and the decoder. *)
Ltac run_messages :=
  cbv [msg_encode msg_type msg_decode request_message response_message stream_message
       EncodeRequest EncodeResponse EncodeStreamData
       DecodeRequest DecodeResponse DecodeStreamData result_bind map_err].
Ltac message_laws :=
  split; run_messages;
  [ intros h body f; destruct (MarshalMsgpack h) as [bs|] eqn:Hm; [|done];
    intros [= <-]; do 3 (split; [done|]); cbn [FType Headers Payload];
    rewrite bool_decide_true by done; cbn [negb]; by rewrite (Unmarshal_Marshal _ _ Hm)
  | intros f Hf; by rewrite bool_decide_false by done ].

#[export] Instance request_laws : MessageLaws E RequestHeader.
Proof. message_laws. Qed.
#[export] Instance response_laws : MessageLaws E ResponseHeader.
Proof. message_laws. Qed.
#[export] Instance stream_laws : MessageLaws E StreamHeader.
Proof. message_laws. Qed.
End Instances.

(** ** Properties *)

(** C27. Messages survive the wire, proved against the interface and so for requests,
    responses and stream messages alike: an encoded message whose frame fits the format,
    written with any stale buffer and read from any chunking with anything following, is
    decoded to the same header and body, and what follows is left to be read. *)
Theorem message_roundtrip {E H} `{MessageLaws E H} (h : H) (body : list byte) (f : Frame)
    (bp : slice) (r : reader) (rest : list byte) :
  msg_encode h body = Ok f -> fits f ->
  rd_bytes r = pipe_bytes (snd (fst (WriteFrame bp (MkPipe []) f))) ++ rest ->
  fst (fst (WriteFrame bp (MkPipe []) f)) = None
  /\ exists f' r', ReadFrame r = (Ok f', r') /\ rd_bytes r' = rest
                  /\ FType f' = msg_type /\ msg_decode f' = Ok (h, body).
Proof.
  intros He Hf Hr. destruct (msg_encode_frame h body f He) as (Ht & _ & _ & Hd).
  destruct (WriteFrame_pipe bp (MkPipe []) f) as [buf Hw]. rewrite Hw in *. simpl in Hr.
  split; [done|]. destruct (ReadFrame_encode r f rest Hf Hr) as (r' & -> & Hr' & _).
  by exists f, r'.
Qed.

(** The decoders tell the kinds of frames apart: each accepts frames of its own type
    only and names the type it got otherwise, so no frame is decoded as two kinds, and a
    STREAM_CLOSE frame as none, although its headers are those of a stream message. *)
Theorem decoders_disjoint {E} `{!Msgpack E RequestHeader, !Msgpack E ResponseHeader,
    !Msgpack E StreamHeader} (f : Frame) :
  (FType f <> TypeRequest -> DecodeRequest f = Err (WrongType (FType f)))
  /\ (FType f <> TypeResponse -> DecodeResponse f = Err (WrongType (FType f)))
  /\ (FType f <> TypeStreamData -> DecodeStreamData f = Err (WrongType (FType f)))
  /\ is_ok (DecodeRequest f) && is_ok (DecodeResponse f) = false
  /\ is_ok (DecodeRequest f) && is_ok (DecodeStreamData f) = false
  /\ is_ok (DecodeResponse f) && is_ok (DecodeStreamData f) = false
  /\ (forall id c, EncodeStreamClose id c = Ok f ->
       [is_ok (DecodeRequest f); is_ok (DecodeResponse f); is_ok (DecodeStreamData f)]
       = [false; false; false]).
Proof.
  unfold DecodeRequest, DecodeResponse, DecodeStreamData.
  split_and!; try (intros Hf; by rewrite bool_decide_false by done).
  1-3: by do 2 case_bool_decide; cbn [negb is_ok]; rewrite ?andb_false_r; try done;
    unfold TypeRequest, TypeResponse, TypeStreamData in *; congruence.
  intros id c. unfold EncodeStreamClose. destruct (MarshalMsgpack _); simpl; [|done].
  by intros [= <-].
Qed.

(** ** A concrete codec *)

(** Any countable header type, as the bits of its number. *)
Fixpoint bits_of (p : positive) : list byte :=
  match p with
  | xH => []
  | xO p => Byte.x00 :: bits_of p
  | xI p => Byte.x01 :: bits_of p
  end.
Fixpoint of_bits (bs : list byte) : positive :=
  match bs with
  | [] => xH
  | b :: bs => if bool_decide (b = Byte.x00) then xO (of_bits bs) else xI (of_bits bs)
  end.
Lemma of_bits_of p : of_bits (bits_of p) = p.
Proof. induction p as [p IH|p IH|]; simpl; by rewrite ?IH. Qed.

Definition bits_codec {A} `{Countable A} : Msgpack unit A :=
  {| MarshalMsgpack a := Ok (bits_of (encode a));
     UnmarshalMsgpack bs :=
       match decode (of_bits bs) with Some a => Ok a | None => Err tt end |}.

Lemma bits_codec_law {A} `{Countable A} : MsgpackLaw (Msgpack0 := bits_codec) unit A.
Proof. intros a bs [= <-]. simpl. by rewrite of_bits_of, decode_encode. Qed.

#[export] Instance StreamHeader_eq_dec : EqDecision StreamHeader.
Proof. solve_decision. Defined.
#[export] Instance StreamHeader_countable : Countable StreamHeader.
Proof.
  refine (inj_countable' (fun h => (ConnectionID h, Event h, Room h))
            (fun '(c, e, r) => MkStreamHeader c e r) _). by intros [].
Defined.
#[export] Instance stream_codec : Msgpack unit StreamHeader := bits_codec.
#[export] Instance stream_codec_law : MsgpackLaw unit StreamHeader := bits_codec_law.

Definition example_header : StreamHeader := MkStreamHeader "abc" "message" "lobby".

Lemma message_roundtrip_witness :
  exists f r', DecodeStreamData f = Ok (example_header, [Byte.x68; Byte.x69])
    /\ ReadFrame (MkReader (map (fun b => [b]) (pipe_bytes (snd (fst (WriteFrame (sl_make 0 256)
         (MkPipe []) f))))) EOF) = (Ok f, r').
Proof.
  pose (f := MkFrame TypeStreamData Byte.x00 0 (bits_of (encode example_header)) [Byte.x68; Byte.x69]).
  pose (r := MkReader (map (fun b => [b]) (pipe_bytes (snd (fst (WriteFrame (sl_make 0 256)
         (MkPipe []) f))))) EOF).
  destruct (message_roundtrip example_header [Byte.x68; Byte.x69] f (sl_make 0 256) r []
    ltac:(by vm_compute) ltac:(by apply (bool_decide_unpack _); vm_compute) ltac:(by vm_compute))
    as (_ & f' & r' & Hr & _ & _ & Hd).
  assert (f' = f) as -> by (vm_compute in Hr; by injection Hr).
  exists f, r'. split; [exact Hd|exact Hr].
Defined.

