(* ===== verification/WebSocket.v ===== *)
(** The WebSocket manager and handler: [src/internal/websocket/manager.go] and
    [handler.go].

    The clients are objects of a heap, because the table of clients, the rooms and the
    connection's own goroutine share them. [Spec] is the abstract service, the connected
    identifiers and who is in which room; [refines] relates the two, and every operation
    preserves it. Writing to a connection, the PHP forwarder and the order in which Go
    ranges over a map are not the program's: effects, and parameters. *)
From S2P Require Import Prelude Wire Messages GoStr.
From stdpp Require Import strings gmap.
Local Open Scope Z_scope.
Local Open Scope list_scope.

(** ** State *)

Abbreviation cloc := nat (only parsing).

(** A [*Client]; its [Conn] is identified with its location. [Rooms] is a
    [map[string]bool] that only ever holds [true]. *)
Record Client := MkClient { ID : string; RemoteAddr : string; Rooms : gset string }.

Record Manager := MkManager {
  clients : gmap string cloc;
  rooms : gmap string (gmap string cloc);
  objects : gmap cloc Client;
  next_client : cloc
}.

Definition NewManager : Manager := MkManager ∅ ∅ ∅ 0.

(** [generateConnID], for the bytes [rand.Read] gives. *)
Definition generateConnID (random : list byte) : string := hex_encode (take 16 random).

Lemma generateConnID_inj b c : length b = 16%nat -> length c = 16%nat -> generateConnID b = generateConnID c -> b = c.
Proof. unfold generateConnID. intros Hb Hc H%hex_encode_inj. by rewrite !take_ge in H by lia. Qed.

(** What an operation does outside the manager, in order. *)
Inductive effect :=
| Forward (f : option Frame)           (** call of [phpForward] *)
| WriteMessage (c : cloc) (data : list byte)
| CloseConn (c : cloc).

Definition set_rooms_of (rs : gset string -> gset string) (c : Client) : Client :=
  MkClient (ID c) (RemoteAddr c) (rs (Rooms c)).

(** [delete(members, id)], and the room with it when nobody is left. *)
Definition leave (id room : string) (rms : gmap string (gmap string cloc)) :
    gmap string (gmap string cloc) :=
  match rms !! room with
  | Some members =>
      let members := delete id members in
      if Nat.eqb (size members) 0 then delete room rms else <[room := members]> rms
  | None => rms
  end.

Section Manager.
Context {E : Type} `{!Msgpack E StreamHeader}.
(** [m.phpForward], [None] for nil. *)
Variable phpForward : option (option Frame -> result (option Frame) E).
(** The order in which [range] visits a map. *)
Variable range : gmap string cloc -> list (string * cloc).

(** The frame of an event without data; a failed encoding is ignored and nil sent. *)
Definition notify (id event : string) : list effect :=
  match phpForward with
  | None => []
  | Some _ =>
      [Forward match EncodeStreamData 0 (MkStreamHeader id event "") [] with
               | Ok f => Some f
               | Err _ => None
               end]
  end.

(** [id] is what [generateConnID] returned. *)
Definition AddConnection (id addr : string) (m : Manager) : cloc * Manager * list effect :=
  let c := next_client m in
  (c, MkManager (<[id := c]> (clients m)) (rooms m)
        (<[c := MkClient id addr ∅]> (objects m)) (S c),
   notify id "connect").

Definition rooms_of (m : Manager) (c : cloc) : gset string :=
  match objects m !! c with Some x => Rooms x | None => ∅ end.

Definition RemoveConnection (id : string) (m : Manager) : Manager * list effect :=
  match clients m !! id with
  | None => (m, [])
  | Some c =>
      (MkManager (delete id (clients m)) (foldr (leave id) (rooms m) (elements (rooms_of m c)))
         (objects m) (next_client m),
       notify id "close")
  end.

Definition JoinRoom (clientID room : string) (m : Manager) : Manager :=
  match clients m !! clientID with
  | None => m
  | Some c =>
      let rms := match rooms m !! room with
                 | Some _ => rooms m
                 | None => <[room := ∅]> (rooms m)
                 end in
      MkManager (clients m) (alter (<[clientID := c]>) room rms)
        (alter (set_rooms_of (union {[room]})) c (objects m)) (next_client m)
  end.

Definition LeaveRoom (clientID room : string) (m : Manager) : Manager :=
  match clients m !! clientID with
  | None => m
  | Some c =>
      MkManager (clients m) (leave clientID room (rooms m))
        (alter (set_rooms_of (fun rs => rs ∖ {[room]})) c (objects m)) (next_client m)
  end.

(** [c.ID != excludeID], for a client of a table. *)
Definition client_ID (m : Manager) (c : cloc) : string :=
  match objects m !! c with Some x => ID x | None => "" end.

(** The copy taken under the lock: everybody of a table but [excludeID]. *)
Definition targets (m : Manager) (members : gmap string cloc) (excludeID : string) : list cloc :=
  filter (fun c => client_ID m c <> excludeID) (snd <$> range members).

(** The sends; an error is logged and the next client served. *)
Definition send_all (data : list byte) (cs : list cloc) : list effect :=
  map (fun c => WriteMessage c data) cs.

Definition BroadcastToRoom (room : string) (data : list byte) (excludeID : string) (m : Manager) :
    list effect :=
  match rooms m !! room with
  | None => []
  | Some members => send_all data (targets m members excludeID)
  end.

Definition SendToClient (clientID : string) (data : list byte) (m : Manager) : list effect :=
  match clients m !! clientID with
  | None => []
  | Some c => send_all data [c]
  end.

Definition Broadcast (data : list byte) (excludeID : string) (m : Manager) : list effect :=
  send_all data (targets m (clients m) excludeID).

Record ManagerStats := MkManagerStats { TotalConnections : nat; TotalRooms : nat }.
Definition Stats (m : Manager) : ManagerStats := MkManagerStats (size (clients m)) (size (rooms m)).

(** Routing of PHP's reply. *)
Definition route (resp : option Frame) (m : Manager) : list effect :=
  match resp with
  | Some f =>
      if bool_decide (FType f = TypeStreamData) then
        match DecodeStreamData f with
        | Err _ => []
        | Ok (h, data) =>
            if negb (bool_decide (Room h = "")) then BroadcastToRoom (Room h) data "" m
            else if negb (bool_decide (ConnectionID h = ""))
            then SendToClient (ConnectionID h) data m
            else []
        end
      else []
  | None => []
  end.

Definition HandleMessage (c : cloc) (message : list byte) (m : Manager) : list effect :=
  match phpForward with
  | None => []
  | Some forward =>
      match EncodeStreamData 0 (MkStreamHeader (client_ID m c) "message" "") message with
      | Err _ => []
      | Ok frame =>
          Forward (Some frame) ::
          match forward (Some frame) with
          | Err _ => []
          | Ok resp => route resp m
          end
      end
  end.

(** [readPump]: [incoming] are the messages [ReadMessage] delivers before its error;
    the deferred function removes and closes the connection. *)
Fixpoint readPump (c : cloc) (incoming : list (list byte)) (m : Manager) : Manager * list effect :=
  match incoming with
  | [] =>
      let '(m, fx) := RemoveConnection (client_ID m c) m in
      (m, fx ++ [CloseConn c])
  | message :: incoming =>
      let fx := HandleMessage c message m in
      let '(m, fx') := readPump c incoming m in
      (m, fx ++ fx')
  end.

(** [ServeHTTP] after a successful upgrade, and the goroutine it starts. *)
Definition ServeHTTP (id addr : string) (incoming : list (list byte)) (m : Manager) :
    Manager * list effect :=
  let '(c, m, fx) := AddConnection id addr m in
  let '(m, fx') := readPump c incoming m in
  (m, fx ++ fx').

(** [upgrader], and [ServeHTTP] with its upgrade: [Upgrade] gives the messages of the new
    connection, or fails, and then nothing happens. *)
Record Upgrader (R : Type) := MkUpgrader {
  ReadBufferSize : Z; WriteBufferSize : Z; CheckOrigin : R -> bool
}.
Definition upgrader {R} : Upgrader R := MkUpgrader R 1024 1024 (fun _ => true).

Definition Handler_ServeHTTP {R} (Upgrade : Upgrader R -> R -> option (list (list byte)))
    (id addr : string) (r : R) (m : Manager) : Manager * list effect :=
  match Upgrade upgrader r with
  | None => (m, [])
  | Some incoming => ServeHTTP id addr incoming m
  end.
End Manager.

(** ** Membership *)

Definition mem (rms : gmap string (gmap string cloc)) (room id : string) : option cloc :=
  rms !! room ≫= fun members => members !! id.

Definition no_empty (rms : gmap string (gmap string cloc)) : Prop :=
  forall room members, rms !! room = Some members -> members <> ∅.

Lemma mem_leave id room rms r i :
  mem (leave id room rms) r i = if decide (r = room /\ i = id) then None else mem rms r i.
Proof.
  unfold mem, leave. destruct (rms !! room) as [members|] eqn:Hr.
  - destruct (Nat.eqb_spec (size (delete id members)) 0) as [Hs|Hs].
    + apply map_size_empty_inv in Hs. rewrite lookup_delete. case_decide as H1; case_decide as H2.
      * done.
      * subst r. rewrite Hr. simpl. rewrite <- (lookup_delete_ne members id i) by naive_solver.
        by rewrite Hs.
      * naive_solver.
      * done.
    + rewrite lookup_insert. case_decide as H1; case_decide as H2; subst; simpl.
      * destruct H2 as [_ ->]. by rewrite lookup_delete_eq.
      * rewrite lookup_delete_ne by naive_solver. by rewrite Hr.
      * naive_solver.
      * done.
  - case_decide as H2; [|done]. destruct H2 as [-> ->]. by rewrite Hr.
Qed.

Lemma no_empty_leave id room rms : no_empty rms -> no_empty (leave id room rms).
Proof.
  unfold leave. intros Hn r ms. destruct (rms !! room) as [members|] eqn:Hr; [|apply Hn].
  destruct (Nat.eqb_spec (size (delete id members)) 0) as [Hs|Hs].
  - rewrite lookup_delete. case_decide; [done|apply Hn].
  - rewrite lookup_insert. case_decide; [|apply Hn]. intros [= <-] He.
    apply Hs. by rewrite He, map_size_empty.
Qed.

Lemma mem_leave_all id rs rms r i :
  mem (foldr (leave id) rms rs) r i = if decide (i = id /\ r ∈ rs) then None else mem rms r i.
Proof.
  induction rs as [|x rs IH]; simpl.
  - rewrite decide_False; [done|]. by intros [_ ?%elem_of_nil].
  - rewrite mem_leave, IH. repeat case_decide; try done; exfalso; set_solver.
Qed.

Lemma no_empty_leave_all id rs rms : no_empty rms -> no_empty (foldr (leave id) rms rs).
Proof. intros Hn. induction rs as [|x rs IH]; simpl; auto using no_empty_leave. Qed.

Definition join (id room : string) (c : cloc) (rms : gmap string (gmap string cloc)) :
    gmap string (gmap string cloc) :=
  alter (<[id := c]>) room
    (match rms !! room with Some _ => rms | None => <[room := ∅]> rms end).

Lemma lookup_join id room c rms r :
  join id room c rms !! r
  = if decide (r = room) then Some (<[id := c]> (default ∅ (rms !! room))) else rms !! r.
Proof.
  unfold join. rewrite lookup_alter. case_decide as H1; case_decide as H2; try congruence.
  - subst. destruct (rms !! r) eqn:Hr; simpl; [by rewrite Hr|by rewrite lookup_insert_eq].
  - destruct (rms !! room); [done|]. by rewrite lookup_insert_ne.
Qed.

Lemma mem_join id room c rms r i :
  mem (join id room c rms) r i = if decide (r = room /\ i = id) then Some c else mem rms r i.
Proof.
  unfold mem. rewrite lookup_join. case_decide as H1; [subst r; simpl|by rewrite decide_False by tauto].
  rewrite lookup_insert. repeat case_decide; try naive_solver.
  destruct (rms !! room); simpl; [done|]. apply lookup_empty.
Qed.

Lemma no_empty_join id room c rms : no_empty rms -> no_empty (join id room c rms).
Proof.
  intros Hn r ms. rewrite lookup_join. case_decide; [|apply Hn].
  intros [= <-]. apply insert_non_empty.
Qed.

(** ** The invariant *)

(** The three views of membership agree: the table, the rooms, and each client's own
    record; and no room is kept empty. *)
Record wf (m : Manager) : Prop := {
  wf_clients id c : clients m !! id = Some c ->
    (c < next_client m)%nat /\ exists x, objects m !! c = Some x /\ ID x = id;
  wf_rooms r id c : mem (rooms m) r id = Some c <->
    clients m !! id = Some c /\ r ∈ rooms_of m c;
  wf_no_empty : no_empty (rooms m)
}.

Lemma wf_inj m i j c : wf m -> clients m !! i = Some c -> clients m !! j = Some c -> i = j.
Proof.
  intros Hw Hi Hj. destruct (wf_clients _ Hw _ _ Hi) as (_ & x & Hx & <-).
  destruct (wf_clients _ Hw _ _ Hj) as (_ & y & Hy & <-). congruence.
Qed.

Lemma wf_client_ID m id c : wf m -> clients m !! id = Some c -> client_ID m c = id.
Proof.
  intros Hw Hc. unfold client_ID. by destruct (wf_clients _ Hw _ _ Hc) as (_ & x & -> & ->).
Qed.

Lemma wf_new : wf NewManager.
Proof.
  split; unfold NewManager, mem, rooms_of; simpl.
  - intros id c. by rewrite lookup_empty.
  - intros r id c. rewrite lookup_empty. simpl. split; [done|]. intros [H _]. by rewrite lookup_empty in H.
  - intros r ms. by rewrite lookup_empty.
Qed.

(** Changing the rooms of one connected client, in its record and in the tables alike. *)
Lemma wf_update m id c rms f :
  wf m -> clients m !! id = Some c -> no_empty rms ->
  (forall r i d, mem rms r i = Some d <->
     if decide (i = id) then d = c /\ r ∈ f (rooms_of m c) else mem (rooms m) r i = Some d) ->
  wf (MkManager (clients m) rms (alter (set_rooms_of f) c (objects m)) (next_client m)).
Proof.
  intros Hw Hc Hn Hmem. split; simpl; [| |done].
  - intros i d Hd. destruct (wf_clients _ Hw _ _ Hd) as (Hlt & x & Hx & Hi). split; [done|].
    rewrite lookup_alter. case_decide; [subst d; rewrite Hx; by eexists|by exists x].
  - intros r i d. rewrite Hmem. unfold rooms_of. simpl. rewrite lookup_alter.
    destruct (wf_clients _ Hw _ _ Hc) as (_ & x & Hx & _).
    case_decide as H1; [subst i|].
    + split; [intros [-> H]|intros [Hd H]]; [split; [done|]|].
      * rewrite decide_True by done. by rewrite Hx in *.
      * assert (d = c) as -> by congruence. split; [done|].
        rewrite decide_True in H by done. by rewrite Hx in *.
    + rewrite (wf_rooms _ Hw). destruct (decide (c = d)) as [->|Hne]; [|done].
      split; intros [Hd _]; exfalso; apply H1; by eapply wf_inj.
Qed.

Section Operations.
Context {E : Type} `{!Msgpack E StreamHeader}.
Context (phpForward : option (option Frame -> result (option Frame) E)).

Abbreviation AddConnection := (AddConnection phpForward).
Abbreviation RemoveConnection := (RemoveConnection phpForward).

Lemma wf_add m id addr :
  wf m -> clients m !! id = None -> wf (snd (fst (AddConnection id addr m))).
Proof.
  intros Hw Hid. split; simpl.
  - intros i d. rewrite lookup_insert. case_decide.
    + subst i. intros [= <-]. rewrite lookup_insert_eq. split; [lia|by eexists].
    + intros Hd. destruct (wf_clients _ Hw _ _ Hd) as (Hlt & x & Hx & Hi). split; [lia|].
      rewrite lookup_insert_ne by lia. by exists x.
  - intros r i d. rewrite (wf_rooms _ Hw), lookup_insert. unfold rooms_of. simpl.
    case_decide as H1; [subst i|].
    + rewrite Hid. split; [by intros [? _]|]. intros [[= <-] Hin].
      by rewrite lookup_insert_eq in Hin.
    + destruct (decide (d = next_client m)) as [->|Hne]; [|by rewrite lookup_insert_ne].
      split; intros [Hd _]; destruct (wf_clients _ Hw _ _ Hd); lia.
  - apply (wf_no_empty _ Hw).
Qed.

Lemma wf_join m id room : wf m -> wf (JoinRoom id room m).
Proof.
  intros Hw. unfold JoinRoom. destruct (clients m !! id) as [c|] eqn:Hc; [|done].
  apply (wf_update m id c (join id room c (rooms m))); [done..| |].
  - apply no_empty_join, (wf_no_empty _ Hw).
  - intros r i d. rewrite mem_join.
    destruct (decide (i = id)) as [->|Hne]; [|by rewrite decide_False by tauto].
    rewrite elem_of_union, elem_of_singleton. destruct (decide (r = room)) as [->|Hr].
    + rewrite decide_True by done. split; [by intros [= <-]; auto|by intros [-> _]].
    + rewrite decide_False by tauto. rewrite (wf_rooms _ Hw), Hc. naive_solver.
Qed.

Lemma wf_leave m id room : wf m -> wf (LeaveRoom id room m).
Proof.
  intros Hw. unfold LeaveRoom. destruct (clients m !! id) as [c|] eqn:Hc; [|done].
  apply (wf_update m id c (leave id room (rooms m))); [done..| |].
  - apply no_empty_leave, (wf_no_empty _ Hw).
  - intros r i d. rewrite mem_leave.
    destruct (decide (i = id)) as [->|Hne]; [|by rewrite decide_False by tauto].
    rewrite elem_of_difference, elem_of_singleton. destruct (decide (r = room)) as [->|Hr].
    + rewrite decide_True by done. split; [done|by intros (_ & _ & ?)].
    + rewrite decide_False by tauto. rewrite (wf_rooms _ Hw), Hc. naive_solver.
Qed.

Lemma mem_removed m id c r i :
  wf m -> clients m !! id = Some c ->
  mem (foldr (leave id) (rooms m) (elements (rooms_of m c))) r i
  = if decide (i = id) then None else mem (rooms m) r i.
Proof.
  intros Hw Hc. rewrite mem_leave_all.
  destruct (decide (i = id)) as [->|Hne]; [|by rewrite decide_False by tauto].
  case_decide as Hd; [done|]. destruct (mem (rooms m) r id) as [d|] eqn:Hm; [|done].
  apply (wf_rooms _ Hw) in Hm as [Hd' Hin]. exfalso. apply Hd. split; [done|].
  rewrite elem_of_elements. congruence.
Qed.

Lemma wf_remove m id : wf m -> wf (fst (RemoveConnection id m)).
Proof.
  intros Hw. unfold WebSocket.RemoveConnection.
  destruct (clients m !! id) as [c|] eqn:Hc; [|done]. split; simpl.
  - intros i d. rewrite lookup_delete. case_decide; [done|]. apply (wf_clients _ Hw).
  - intros r i d. rewrite (mem_removed m id c) by done. rewrite lookup_delete.
    destruct (decide (i = id)) as [->|Hne].
    + rewrite decide_True by done. by split; [|intros [? _]].
    + rewrite decide_False by done. apply (wf_rooms _ Hw).
  - apply no_empty_leave_all, (wf_no_empty _ Hw).
Qed.

(** ** The abstract service *)

(** Who is connected, and the pairs of a room and a member. *)
Record Spec := MkSpec { conns : gset string; joined : gset (string * string) }.

Inductive op :=
| Connect (id addr : string)
| Disconnect (id : string)
| Join (id room : string)
| Leave (id room : string).

Definition spec_op (S : Spec) (o : op) : Spec :=
  match o with
  | Connect id _ => MkSpec ({[id]} ∪ conns S) (joined S)
  | Disconnect id => MkSpec (conns S ∖ {[id]}) (filter (fun p => p.2 <> id) (joined S))
  | Join id room =>
      MkSpec (conns S) (if decide (id ∈ conns S) then {[(room, id)]} ∪ joined S else joined S)
  | Leave id room => MkSpec (conns S) (joined S ∖ {[(room, id)]})
  end.

Definition apply_op (m : Manager) (o : op) : Manager :=
  match o with
  | Connect id addr => snd (fst (AddConnection id addr m))
  | Disconnect id => fst (RemoveConnection id m)
  | Join id room => JoinRoom id room m
  | Leave id room => LeaveRoom id room m
  end.

(** Identifiers are 128 random bits: a new connection's is not in use. *)
Definition fresh_op (S : Spec) (o : op) : Prop :=
  match o with Connect id _ => id ∉ conns S | _ => True end.

Fixpoint fresh_ops (S : Spec) (os : list op) : Prop :=
  match os with
  | [] => True
  | o :: os => fresh_op S o /\ fresh_ops (spec_op S o) os
  end.

Record refines (m : Manager) (S : Spec) : Prop := {
  rf_wf : wf m;
  rf_conns id : id ∈ conns S <-> is_Some (clients m !! id);
  rf_joined r id : (r, id) ∈ joined S <-> is_Some (mem (rooms m) r id)
}.

Lemma mem_conn m r id : wf m -> is_Some (mem (rooms m) r id) -> is_Some (clients m !! id).
Proof. intros Hw [c Hc]. apply (wf_rooms _ Hw) in Hc as [? _]. by exists c. Qed.

Lemma refines_step m S o : refines m S -> fresh_op S o -> refines (apply_op m o) (spec_op S o).
Proof.
  intros [Hw Hc Hj] Hf. destruct o as [id addr|id|id room|id room]; simpl in *.
  - rewrite Hc, <- eq_None_not_Some in Hf. split; simpl; [by apply (wf_add m id addr)| |done].
    intros i. rewrite elem_of_union, elem_of_singleton, Hc, lookup_insert.
    case_decide; [subst; naive_solver|naive_solver].
  - split; [by apply wf_remove| |]; unfold WebSocket.RemoveConnection;
      destruct (clients m !! id) as [c|] eqn:Hid; simpl.
    + intros i. rewrite elem_of_difference, elem_of_singleton, Hc, lookup_delete.
      case_decide; [subst; naive_solver|naive_solver].
    + intros i. rewrite elem_of_difference, elem_of_singleton, Hc. split; [naive_solver|].
      intros Hi. split; [done|]. intros ->. rewrite Hid in Hi. by destruct Hi.
    + intros r i. rewrite (mem_removed m id c) by done. rewrite elem_of_filter, Hj. simpl.
      case_decide; naive_solver.
    + intros r i. rewrite elem_of_filter, Hj. simpl. split; [naive_solver|].
      intros Hi. split; [|done]. intros ->. apply (mem_conn m r id Hw) in Hi.
      rewrite Hid in Hi. by destruct Hi.
  - split; [by apply wf_join| |]; unfold JoinRoom;
      destruct (clients m !! id) as [c|] eqn:Hid; simpl; try done.
    + intros r i. rewrite decide_True by (apply Hc; by exists c).
      change (alter _ room _) with (join id room c (rooms m)).
      rewrite mem_join, elem_of_union, elem_of_singleton, Hj. case_decide; naive_solver.
    + intros r i. rewrite decide_False; [apply Hj|]. rewrite Hc, Hid. by intros [].
  - split; [by apply wf_leave| |]; unfold LeaveRoom;
      destruct (clients m !! id) as [c|] eqn:Hid; simpl; try done.
    + intros r i. rewrite mem_leave, elem_of_difference, elem_of_singleton, Hj.
      case_decide; naive_solver.
    + intros r i. rewrite elem_of_difference, elem_of_singleton, Hj. split; [naive_solver|].
      intros Hi. split; [done|]. intros [= -> ->]. apply (mem_conn m room id Hw) in Hi.
      rewrite Hid in Hi. by destruct Hi.
Qed.

Lemma refines_new : refines NewManager (MkSpec ∅ ∅).
Proof.
  split; [apply wf_new|..]; simpl; unfold mem; simpl.
  - intros id. rewrite lookup_empty. split; [set_solver|by intros []].
  - intros r id. rewrite lookup_empty. simpl. split; [set_solver|by intros []].
Qed.

Lemma refines_ops m S os :
  refines m S -> fresh_ops S os -> refines (foldl apply_op m os) (foldl spec_op S os).
Proof.
  revert m S. induction os as [|o os IH]; intros m S Hr; simpl; [done|].
  intros [Hf Hfs]. apply IH; [by apply refines_step|done].
Qed.

(** ** Properties *)

(** C20. The manager implements the abstract service: after any sequence of connections
    (with identifiers not in use), disconnections, joins and leaves, the connected
    clients and the members of every room are exactly the service's, the client records
    agree with the rooms, and no empty room is kept; a connection's end takes it out of
    every room. *)
Theorem manager_refines_spec (os : list op) :
  fresh_ops (MkSpec ∅ ∅) os ->
  let m := foldl apply_op NewManager os in
  let S := foldl spec_op (MkSpec ∅ ∅) os in
  (forall id, id ∈ conns S <-> is_Some (clients m !! id))
  /\ (forall r id, (r, id) ∈ joined S <->
        exists c, clients m !! id = Some c /\ r ∈ rooms_of m c /\ mem (rooms m) r id = Some c)
  /\ (forall r, is_Some (rooms m !! r) <-> exists id, (r, id) ∈ joined S)
  /\ TotalConnections (Stats m) = size (conns S).
Proof.
  intros Hf. destruct (refines_ops _ _ os refines_new Hf) as [Hw Hc Hj].
  cbv zeta. split; [done|split; [|split]].
  - intros r id. rewrite Hj. split.
    + intros [c Hm]. exists c. by apply (wf_rooms _ Hw) in Hm as Hm'; destruct Hm'.
    + intros (c & _ & _ & Hm). by exists c.
  - intros r. split.
    + intros [ms Hr]. destruct (map_choose ms (wf_no_empty _ Hw _ _ Hr)) as (id & c & Hm).
      exists id. apply Hj. exists c. unfold mem. by rewrite Hr.
    + intros [id Hid]. apply Hj in Hid as [c Hm]. unfold mem in Hm.
      destruct (rooms _ !! r); [by eexists|done].
  - simpl. rewrite <- size_dom. f_equal. apply set_eq. intros id. by rewrite elem_of_dom, Hc.
Qed.
End Operations.

Section Delivery.
Context {E : Type} `{!Msgpack E StreamHeader, !MsgpackLaw E StreamHeader}.
Context (range : gmap string cloc -> list (string * cloc)).
Context (range_perm : forall ms, range ms ≡ₚ map_to_list ms).

Lemma elem_of_targets m ms ex c :
  c ∈ targets range m ms ex <-> client_ID m c <> ex /\ exists id, ms !! id = Some c.
Proof.
  unfold targets. rewrite list_elem_of_filter. apply and_iff_compat_l.
  rewrite list_elem_of_fmap. split.
  - intros ([id d] & -> & Hin). exists id. rewrite range_perm in Hin. by apply elem_of_map_to_list.
  - intros [id Hid]. exists (id, c). split; [done|]. rewrite range_perm. by apply elem_of_map_to_list.
Qed.

Lemma NoDup_targets m ms ex :
  (forall i j c, ms !! i = Some c -> ms !! j = Some c -> i = j) -> NoDup (targets range m ms ex).
Proof.
  intros Hinj. unfold targets. apply NoDup_filter. rewrite range_perm.
  apply NoDup_fmap_2_strong; [|apply NoDup_map_to_list].
  intros [i c] [j d] Hi%elem_of_map_to_list Hj%elem_of_map_to_list Heq. simpl in Heq. subst d.
  by rewrite (Hinj i j c).
Qed.


(** PHP routes: the reply to a message is sent to a whole room when its header names
    one, the sender included, else to the one connection it names, if connected, else to
    nobody; a reply that is no stream frame, or nil, or an error, sends nothing. *)
Theorem HandleMessage_routes (m : Manager) (c : cloc) (msg data : list byte) (h : StreamHeader)
    (reply frame : Frame) (forward : option Frame -> result (option Frame) E) :
  EncodeStreamData 0 (MkStreamHeader (client_ID m c) "message" "") msg = Ok frame ->
  EncodeStreamData 0 h data = Ok reply ->
  (forward (Some frame) = Ok (Some reply) ->
   HandleMessage (Some forward) range c msg m
   = Forward (Some frame) ::
     if decide (Room h <> "") then BroadcastToRoom range (Room h) data "" m
     else if decide (ConnectionID h = "") then []
     else match clients m !! ConnectionID h with
          | Some d => [WriteMessage d data]
          | None => []
          end)
  /\ (match forward (Some frame) with Ok (Some f) => FType f <> TypeStreamData | _ => True end ->
      HandleMessage (Some forward) range c msg m = [Forward (Some frame)]).
Proof.
  intros He Hr. unfold HandleMessage. rewrite He. split.
  - intros ->. f_equal.
    destruct (msg_encode_frame (Message0 := stream_message) h data reply Hr) as (Ht & _ & _ & Hd).
    unfold route. rewrite bool_decide_true by done. simpl in Hd. rewrite Hd.
    unfold SendToClient. repeat case_bool_decide; repeat case_decide; simpl; done || congruence.
  - intros Hf. f_equal. destruct (forward (Some frame)) as [[f|]|]; try done.
    unfold route. by rewrite bool_decide_false by done.
Qed.

(** ** A whole session *)

Definition forwarded (fx : list effect) : list (option Frame) :=
  omap (fun e => match e with Forward f => Some f | _ => None end) fx.

Definition stream_frame (id event : string) (data : list byte) : option Frame :=
  match EncodeStreamData 0 (MkStreamHeader id event "") data with Ok f => Some f | Err _ => None end.

Lemma forwarded_app fx gx : forwarded (fx ++ gx) = forwarded fx ++ forwarded gx.
Proof. apply omap_app. Qed.

Lemma forwarded_send_all data cs : forwarded (send_all data cs) = [].
Proof. by induction cs. Qed.

Lemma forwarded_route f m : forwarded (route (E := E) range f m) = [].
Proof.
  unfold route, BroadcastToRoom, SendToClient.
  repeat case_match; rewrite ?forwarded_send_all; done.
Qed.

Lemma readPump_spec forward c incoming m :
  let '(m', fx) := readPump (Some forward) range c incoming m in
  let id := client_ID m c in
  m' = fst (RemoveConnection (Some forward) id m)
  /\ last fx = Some (CloseConn c)
  /\ forwarded fx
     = map Some (omap (stream_frame id "message") incoming)
       ++ forwarded (snd (RemoveConnection (Some forward) id m)).
Proof.
  induction incoming as [|msg incoming IH]; cbn [readPump].
  - destruct (RemoveConnection _ _ m) as [m' fx]. simpl.
    rewrite last_snoc, forwarded_app, app_nil_r. done.
  - destruct (readPump _ _ c incoming m) as [m' fx]. destruct IH as (-> & Hl & Hf).
    split; [done|]. split; [by rewrite last_app, Hl|].
    rewrite forwarded_app, Hf. unfold HandleMessage, stream_frame.
    cbn [omap list_omap]. destruct (EncodeStreamData _ _ msg) as [f|]; [|done].
    cbn [forwarded omap list_omap map app]. f_equal.
    destruct (forward (Some f)) as [resp|]; [|done].
    by rewrite forwarded_route.
Qed.

(** A session from upgrade to close, for a connection that joins no room: PHP is told
    of the connection, of each message in the order received, and of the close, in that
    order and nothing else; the socket is closed last; and the manager's tables are what
    they were before. *)
Theorem session_events (forward : option Frame -> result (option Frame) E) (m m' : Manager)
    (id addr : string) (incoming : list (list byte)) (fx : list effect) :
  clients m !! id = None ->
  ServeHTTP (Some forward) range id addr incoming m = (m', fx) ->
  forwarded fx
  = [stream_frame id "connect" []]
    ++ map Some (omap (stream_frame id "message") incoming)
    ++ [stream_frame id "close" []]
  /\ last fx = Some (CloseConn (next_client m))
  /\ clients m' = clients m /\ rooms m' = rooms m.
Proof.
  intros Hid. unfold ServeHTTP. cbn [AddConnection].
  set (m1 := MkManager _ _ _ _). set (c := next_client m).
  pose proof (readPump_spec forward c incoming m1) as Hp.
  destruct (readPump _ _ c incoming m1) as [m2 fx2]. cbv zeta in Hp.
  assert (client_ID m1 c = id) as E1 by (unfold client_ID, m1; simpl; by rewrite lookup_insert_eq).
  rewrite E1 in Hp. destruct Hp as (-> & Hl & Hf). intros [= <- <-].
  assert (clients m1 !! id = Some c) as E2 by (apply lookup_insert_eq).
  unfold RemoveConnection in *. rewrite E2 in *. simpl in Hf |- *.
  split; [|split; [|split]].
  - unfold stream_frame. by rewrite Hf.
  - by rewrite last_cons, Hl.
  - by apply delete_insert_id.
  - unfold rooms_of, m1. simpl. rewrite lookup_insert_eq. simpl. by rewrite elements_empty.
Qed.
End Delivery.

(** ** Concrete runs *)

Definition ops_example : list op :=
  [Connect "a" "1.2.3.4:5"; Connect "b" "1.2.3.4:6"; Join "a" "lobby"; Join "b" "lobby";
   Join "ghost" "lobby"; Leave "a" "other"; Disconnect "b"; Connect "c" "1.2.3.4:7";
   Join "c" "lobby"].

Definition no_php : option (option Frame -> result (option Frame) unit) := None.
Definition ws_example : Manager := foldl (apply_op no_php) NewManager ops_example.
Definition ws_spec : Spec := foldl spec_op (MkSpec ∅ ∅) ops_example.

Lemma ops_example_fresh : fresh_ops (MkSpec ∅ ∅) ops_example.
Proof. unfold ops_example. repeat split; apply (bool_decide_unpack _); vm_compute; exact I. Qed.

Lemma manager_refines_spec_witness : TotalConnections (Stats ws_example) = 2%nat.
Proof.
  refine (eq_trans (proj2 (proj2 (proj2 (manager_refines_spec no_php ops_example
    ops_example_fresh)))) _).
  by vm_compute.
Defined.


Definition reply_to_room : Frame :=
  MkFrame TypeStreamData Byte.x00 0 (bits_of (encode (MkStreamHeader "" "" "lobby"))) [Byte.x21].
Definition msg_from_a : Frame :=
  MkFrame TypeStreamData Byte.x00 0 (bits_of (encode (MkStreamHeader "a" "message" ""))) [].

Lemma HandleMessage_routes_witness :
  HandleMessage (Some (fun _ => Ok (Some reply_to_room))) map_to_list 0 [] ws_example
  = Forward (Some msg_from_a) :: BroadcastToRoom map_to_list "lobby" [Byte.x21] "" ws_example.
Proof.
  refine (eq_trans (proj1 (HandleMessage_routes map_to_list ws_example 0 [] [Byte.x21]
    (MkStreamHeader "" "" "lobby") reply_to_room msg_from_a (fun _ => Ok (Some reply_to_room))
    _ _) eq_refl) _); by vm_compute.
Defined.

Lemma session_events_witness :
  forwarded (snd (ServeHTTP (Some (fun _ => Ok None)) map_to_list "z" "1.2.3.4:9" [[Byte.x21]] ws_example))
  = [stream_frame "z" "connect" []; stream_frame "z" "message" [Byte.x21]; stream_frame "z" "close" []].
Proof.
  exact (proj1 (session_events map_to_list (fun _ => Ok None) ws_example _ "z" "1.2.3.4:9"
    [[Byte.x21]] _ ltac:(by vm_compute) (surjective_pairing _))).
Defined.
