(* ===== verification/WebSocketConc.v ===== *)
(** The WebSocket service under load: the sessions of [src/internal/websocket/handler.go] as
    goroutines over one manager.

    Every connection has its goroutine, which registers the client, tells PHP, forwards the
    messages and sends what PHP answers, and unregisters; other goroutines join and leave
    rooms and broadcast. A step is one critical section of the manager's lock, one call of the
    forwarder, or one write to a connection; PHP's answers are the environment's. *)
From S2P Require Import Prelude Wire Messages WebSocket.
From stdpp Require Import strings gmap.
Local Open Scope Z_scope.
Local Open Scope list_scope.

Section Sessions.
Context {E : Type} `{!Msgpack E StreamHeader}.
(** Whether a forwarder is set. *)
Variable php : bool.
Variable range : gmap string cloc -> list (string * cloc).

(** ** State *)

(** A forwarder, for the operations that only ask whether there is one. *)
Definition forwarder : option (option Frame -> result (option Frame) E) :=
  if php then Some (fun _ => Ok None) else None.

(** Where a goroutine is. *)
Inductive pc :=
| Registering (addr : string) (incoming : list (list byte))   (** [AddConnection], under the lock *)
| Announcing (c : cloc) (incoming : list (list byte))          (** "connect" *)
| Reading (c : cloc) (incoming : list (list byte))             (** [ReadMessage] *)
| Forwarding (c : cloc) (frame : Frame) (incoming : list (list byte))
| Routing (c : cloc) (resp : option Frame) (incoming : list (list byte))
| Sending (c : cloc) (fx : list effect) (incoming : list (list byte))
| Removing (c : cloc)                      (** [RemoveConnection], under the lock *)
| Leaving (c : cloc) (fx : list effect)    (** "close" *)
| Closing (c : cloc)
| Copying (room : option string) (data : list byte) (excludeID : string)   (** a broadcast *)
| Telling (fx : list effect)
| Told
| Over.

(** A goroutine: for a session, the identifier and the messages of the connection. *)
Record thread := MkThread { t_id : string; t_messages : list (list byte); t_pc : pc }.

(** The manager, the goroutines, and what they have done outside it, in order. *)
Record state := MkState {
  mgr : Manager;
  threads : list thread;
  trace : list (nat * effect)
}.

Definition init : state := MkState NewManager [] [].

(** ** Steps *)

(** One action: the manager, the control point, and the effect if there is one. *)
Definition tstep (m : Manager) (t : thread) (reply : result (option Frame) E) :
    option (Manager * pc * list effect) :=
  match t_pc t with
  | Registering addr incoming =>
      let '(c, m, _) := AddConnection forwarder (t_id t) addr m in
      Some (m, Announcing c incoming, [])
  | Announcing c incoming => Some (m, Reading c incoming, notify forwarder (t_id t) "connect")
  | Reading c [] => Some (m, Removing c, [])
  | Reading c (message :: incoming) =>
      if php then
        match EncodeStreamData 0 (MkStreamHeader (client_ID m c) "message" "") message with
        | Err _ => Some (m, Reading c incoming, [])
        | Ok frame => Some (m, Forwarding c frame incoming, [])
        end
      else Some (m, Reading c incoming, [])
  | Forwarding c frame incoming =>
      Some (m, match reply with Err _ => Reading c incoming | Ok resp => Routing c resp incoming end,
            [Forward (Some frame)])
  | Routing c resp incoming => Some (m, Sending c (route (E := E) range resp m) incoming, [])
  | Sending c [] incoming => Some (m, Reading c incoming, [])
  | Sending c (e :: fx) incoming => Some (m, Sending c fx incoming, [e])
  | Removing c =>
      let '(m', fx) := RemoveConnection forwarder (client_ID m c) m in Some (m', Leaving c fx, [])
  | Leaving c [] => Some (m, Closing c, [])
  | Leaving c (e :: fx) => Some (m, Leaving c fx, [e])
  | Closing c => Some (m, Over, [CloseConn c])
  | Copying room data ex =>
      Some (m, Telling match room with
                       | Some room => BroadcastToRoom range room data ex m
                       | None => Broadcast range data ex m
                       end, [])
  | Telling (e :: fx) => Some (m, Telling fx, [e])
  | Telling [] => Some (m, Told, [])
  | Told | Over => None
  end.

Inductive event :=
| Open (random : list byte) (addr : string) (incoming : list (list byte))
    (** an upgraded connection, and the bytes its identifier is made of *)
| Join (id room : string)
| Leave (id room : string)
| Tell (room : option string) (data : list byte) (excludeID : string)
| Run (i : nat) (reply : result (option Frame) E).

Definition step (s : state) (e : event) : option state :=
  match e with
  | Open random addr incoming =>
      let id := generateConnID random in
      Some (MkState (mgr s) (threads s ++ [MkThread id incoming (Registering addr incoming)]) (trace s))
  | Join id room => Some (MkState (JoinRoom id room (mgr s)) (threads s) (trace s))
  | Leave id room => Some (MkState (LeaveRoom id room (mgr s)) (threads s) (trace s))
  | Tell room data ex =>
      Some (MkState (mgr s) (threads s ++ [MkThread "" [] (Copying room data ex)]) (trace s))
  | Run i reply =>
      match threads s !! i with
      | Some t =>
          match tstep (mgr s) t reply with
          | Some (m, p, fx) =>
              Some (MkState m (<[i := MkThread (t_id t) (t_messages t) p]> (threads s))
                      (trace s ++ map (pair i) fx))
          | None => None
          end
      | None => None
      end
  end.

Fixpoint run (s : state) (es : list event) : option state :=
  match es with
  | [] => Some s
  | e :: es => match step s e with Some s => run s es | None => None end
  end.

(** ** Sessions *)

(** The client of a session from its registration to its removal. *)
Definition registered (t : thread) : option cloc :=
  match t_pc t with
  | Announcing c _ | Reading c _ | Forwarding c _ _ | Routing c _ _ | Sending c _ _ | Removing c => Some c
  | _ => None
  end.

Definition is_session (t : thread) : bool :=
  match t_pc t with Copying _ _ _ | Telling _ | Told => false | _ => true end.

(** The identifiers of the sessions, begun or over. *)
Definition session_ids (ts : list thread) : list string :=
  ts ≫= fun t => if is_session t then [t_id t] else [].

(** What PHP is still to be told by a session. *)
Definition messages_of (id : string) (incoming : list (list byte)) : list (option Frame) :=
  if php then map Some (omap (stream_frame id "message") incoming) else [].
Definition told (id event : string) : list (option Frame) :=
  if php then [stream_frame id event []] else [].

Definition remaining (t : thread) : list (option Frame) :=
  let id := t_id t in
  match t_pc t with
  | Registering _ incoming | Announcing _ incoming =>
      told id "connect" ++ messages_of id incoming ++ told id "close"
  | Reading _ incoming | Routing _ _ incoming => messages_of id incoming ++ told id "close"
  | Sending _ fx incoming => forwarded fx ++ messages_of id incoming ++ told id "close"
  | Forwarding _ frame incoming => Some frame :: messages_of id incoming ++ told id "close"
  | Removing _ => told id "close"
  | Leaving _ fx => forwarded fx
  | _ => []
  end.

(** What PHP is told by a whole session. *)
Definition session_story (t : thread) : list (option Frame) :=
  told (t_id t) "connect" ++ messages_of (t_id t) (t_messages t) ++ told (t_id t) "close".

(** The effects of one goroutine. *)
Definition effects_of (i : nat) (s : state) : list effect :=
  snd <$> filter (fun ie => fst ie = i) (trace s).

(** ** Invariants *)

Lemma forwarded_notify id ev : forwarded (notify forwarder id ev) = told id ev.
Proof. unfold notify, forwarder, told. by destruct php. Qed.

Definition set_pc (t : thread) (p : pc) : thread := MkThread (t_id t) (t_messages t) p.

(** What an action tells PHP, it has no longer to tell. *)
Lemma tstep_story m t reply m' p fx :
  tstep m t reply = Some (m', p, fx) -> is_session t = true ->
  (forall c, registered t = Some c -> clients m !! t_id t = Some c /\ client_ID m c = t_id t) ->
  forwarded fx ++ remaining (set_pc t p) = remaining t.
Proof.
  unfold tstep, remaining, registered, is_session. cbn [set_pc t_pc t_id]. intros H Hs Hc.
  destruct (t_pc t) as [addr inc|c inc|c [|msg inc]|c f inc|c resp inc|c [|e fx'] inc|c|c [|e fx']|c|room data ex|[|e fx']| |] eqn:Ep;
    
    cbn [WebSocket.AddConnection] in H; try done; try (injection H as <- <- <-); try done.
  - by rewrite forwarded_notify.
  - unfold messages_of. by destruct php.
  - destruct php eqn:Eh.
    + destruct (Hc c eq_refl) as [_ Hid]. rewrite Hid in H. unfold messages_of. rewrite Eh.
      cbn [omap list_omap].
      destruct (EncodeStreamData _ _ msg) as [f|e] eqn:Ee; injection H as <- <- <-.
      * assert (stream_frame (t_id t) "message" msg = Some f) as -> by (unfold stream_frame; by rewrite Ee). done.
      * assert (stream_frame (t_id t) "message" msg = None) as -> by (unfold stream_frame; by rewrite Ee). done.
    + injection H as <- <- <-. unfold messages_of. by rewrite Eh.
  - by destruct reply.
  - by rewrite forwarded_route.
  - by destruct e.
  - destruct (Hc c eq_refl) as [Hl Hid]. rewrite Hid in H. unfold WebSocket.RemoveConnection in H.
    rewrite Hl in H. injection H as <- <- <-. by rewrite forwarded_notify.
  - by destruct e.
Qed.

Lemma tstep_session m t reply m' p fx :
  tstep m t reply = Some (m', p, fx) -> is_session (set_pc t p) = is_session t.
Proof.
  unfold tstep, is_session. cbn [set_pc t_pc]. intros H.
  destruct (t_pc t) as [addr inc|c inc|c [|msg inc]|c f inc|c resp inc|c [|e fx'] inc|c|c [|e fx']|c|room data ex|[|e fx']| |];
    cbn [WebSocket.AddConnection] in H; repeat case_match; try (by injection H as <- <- <-); try done.
Qed.

Record sessions_ok (s : state) : Prop := {
  so_wf : wf (mgr s);
  so_ids : NoDup (session_ids (threads s));
  so_clients id c : clients (mgr s) !! id = Some c <->
    exists i t, threads s !! i = Some t /\ t_id t = id /\ registered t = Some c;
  so_trace : Forall (fun ie => (fst ie < length (threads s))%nat) (trace s);
  so_story i t : threads s !! i = Some t -> is_session t = true ->
    forwarded (effects_of i s) ++ remaining t = session_story t;
  so_closed i t : threads s !! i = Some t -> t_pc t = Over ->
    exists c, last (effects_of i s) = Some (CloseConn c)
}.

Lemma tstep_over m t reply m' fx :
  tstep m t reply = Some (m', Over, fx) -> exists c, fx = [CloseConn c].
Proof.
  unfold tstep. intros H. repeat case_match; simplify_eq. by eexists.
Qed.

(** What an action does to the table of clients. *)
Lemma tstep_tables m t reply m' p fx :
  tstep m t reply = Some (m', p, fx) ->
  (m' = m /\ registered (set_pc t p) = registered t)
  \/ (exists addr, m' = snd (fst (AddConnection forwarder (t_id t) addr m)) /\ is_session t = true
      /\ registered t = None /\ registered (set_pc t p) = Some (next_client m))
  \/ (exists c, m' = fst (RemoveConnection forwarder (client_ID m c) m)
      /\ registered t = Some c /\ registered (set_pc t p) = None).
Proof.
  unfold tstep, is_session, registered. cbn [set_pc t_pc]. intros H.
  destruct (t_pc t) as [addr inc|c inc|c [|msg inc]|c f inc|c resp inc|c [|e fx'] inc|c|c [|e fx']|c|room data ex|[|e fx']| |];
    try discriminate H.
  1: right; left; exists addr; by injection H as <- <- <-.
  8: { right. right. exists c. destruct (RemoveConnection _ _ _) as [m1 fx1]. by injection H as <- <- <-. }
  all: left; repeat case_match; by simplify_eq.
Qed.

Lemma effects_of_step i j fx s m ts :
  effects_of j (MkState m ts (trace s ++ map (pair i) fx))
  = effects_of j s ++ if decide (i = j) then fx else [].
Proof.
  unfold effects_of. cbn [trace]. rewrite filter_app, fmap_app. f_equal.
  induction fx as [|e fx IH]; [by case_decide|]. cbn [map]. rewrite filter_cons. cbn [fst].
  case_decide; [|done]. cbn. f_equal. exact IH.
Qed.

(** The table after a step, from the table before it and the sessions. *)
Lemma clients_insert (ts : list thread) i t t1 (tbl tbl' : gmap string cloc) :
  ts !! i = Some t -> t_id t1 = t_id t ->
  (forall id c, tbl !! id = Some c <-> exists j u, ts !! j = Some u /\ t_id u = id /\ registered u = Some c) ->
  (forall id, id <> t_id t -> tbl' !! id = tbl !! id) ->
  (forall j u, ts !! j = Some u -> t_id u = t_id t -> is_Some (registered u) -> j = i) ->
  tbl' !! t_id t = registered t1 ->
  forall id c, tbl' !! id = Some c <->
    exists j u, <[i := t1]> ts !! j = Some u /\ t_id u = id /\ registered u = Some c.
Proof.
  intros Ht Hid Htbl Hne Huniq Hnew id c. pose proof (lookup_lt_Some _ _ _ Ht) as Hlt. split.
  - intros Hc. destruct (decide (id = t_id t)) as [->|Hd].
    + exists i, t1. rewrite list_lookup_insert_eq by done. split_and!; [done|done|congruence].
    + rewrite Hne in Hc by done. apply Htbl in Hc as (j & u & Hj & Hu & Hr).
      exists j, u. rewrite list_lookup_insert_ne; [done|]. intros ->. congruence.
  - intros (j & u & Hj & Hu & Hr). apply list_lookup_insert_Some in Hj as [(<- & <- & _)|[Hij Hj]].
    + rewrite <- Hu, Hid. congruence.
    + destruct (decide (id = t_id t)) as [->|Hd].
      * exfalso. apply Hij. symmetry. apply (Huniq j u Hj Hu). by eexists.
      * rewrite Hne by done. apply Htbl. by exists j, u.
Qed.

Lemma registered_session t c : registered t = Some c -> is_session t = true.
Proof. unfold registered, is_session. by destruct (t_pc t). Qed.

Lemma unique_session s i j t u :
  sessions_ok s -> threads s !! i = Some t -> threads s !! j = Some u ->
  is_session t = true -> is_session u = true -> t_id t = t_id u -> i = j.
Proof.
  intros Hok Hi Hj Ht Hu He. eapply (NoDup_bind_lookup _ _ _ _ _ _ (t_id t) (so_ids _ Hok) Hi Hj).
  - rewrite Ht. by left.
  - rewrite Hu, He. by left.
Qed.

Lemma bind_insert_same {A B} (f : A -> list B) l i x y :
  l !! i = Some x -> f y = f x -> <[i := y]> l ≫= f = l ≫= f.
Proof.
  revert i. induction l as [|z l IH]; intros [|i] Hx Hf; try done; cbn in *.
  - injection Hx as ->. by rewrite Hf.
  - f_equal. by apply IH.
Qed.

Lemma registered_client s i t c :
  sessions_ok s -> threads s !! i = Some t -> registered t = Some c ->
  clients (mgr s) !! t_id t = Some c /\ client_ID (mgr s) c = t_id t.
Proof.
  intros Hok Ht Hc. assert (clients (mgr s) !! t_id t = Some c) as H by (apply Hok; by exists i, t).
  split; [done|]. apply wf_client_ID; [apply Hok|done].
Qed.

Lemma run_tables s i t reply m p fx :
  threads s !! i = Some t -> tstep (mgr s) t reply = Some (m, p, fx) -> sessions_ok s ->
  wf m /\ forall id c, clients m !! id = Some c <->
    exists j u, <[i := set_pc t p]> (threads s) !! j = Some u /\ t_id u = id /\ registered u = Some c.
Proof.
  intros Ht Hs Hok. pose proof Hok as [Hw _ Hcl _ _ _]. pose proof (lookup_lt_Some _ _ _ Ht) as Hlt.
  assert (forall j u, threads s !! j = Some u -> is_session t = true -> t_id u = t_id t ->
          is_Some (registered u) -> j = i) as Huniq.
  { intros j u Hj Hts Hu [c Hc]. eapply (unique_session s j i u t Hok); try done. by eapply registered_session. }
  destruct (tstep_tables _ _ _ _ _ _ Hs) as [[-> He]|[(addr & -> & Hts & E0 & He)|(c & -> & E0 & He)]].
  - split; [done|]. intros id c. rewrite Hcl. split; intros (j & u & Hj & Hu & Hr).
    + destruct (decide (j = i)) as [->|Hne].
      * exists i, (set_pc t p). rewrite list_lookup_insert_eq by done. rewrite He. simplify_eq. done.
      * exists j, u. by rewrite list_lookup_insert_ne.
    + apply list_lookup_insert_Some in Hj as [(<- & Eu & _)|[_ Hj]]; [|by exists j, u].
      exists i, t. subst u. rewrite He in Hr. done.
  - assert (clients (mgr s) !! t_id t = None) as Hnone.
    { apply eq_None_not_Some. intros [c Hc]. apply Hcl in Hc as (j & u & Hj & Hu & Hr).
      assert (j = i) as -> by (by eapply Huniq). simplify_eq. }
    split; [by apply wf_add|]. eapply clients_insert; [exact Ht|done|exact Hcl| |by eauto|].
    + intros id Hid. cbn. by rewrite lookup_insert_ne.
    + cbn. by rewrite He, lookup_insert_eq.
  - destruct (registered_client _ _ _ _ Hok Ht E0) as [Hc Hid]. split; [by apply wf_remove|].
    eapply clients_insert; [exact Ht|done|exact Hcl| | |].
    + intros id Hne. unfold WebSocket.RemoveConnection. rewrite Hid, Hc. cbn. by rewrite lookup_delete_ne.
    + intros j u Hj Hu Hr. eapply Huniq; try done. by eapply registered_session.
    + unfold WebSocket.RemoveConnection. rewrite Hid, Hc. cbn. by rewrite lookup_delete_eq, He.
Qed.

Lemma run_sessions_ok s i t reply m p fx :
  threads s !! i = Some t -> tstep (mgr s) t reply = Some (m, p, fx) -> sessions_ok s ->
  sessions_ok (MkState m (<[i := set_pc t p]> (threads s)) (trace s ++ map (pair i) fx)).
Proof.
  intros Ht Hs Hok. destruct (run_tables _ _ _ _ _ _ _ Ht Hs Hok) as [Hw' Hcl'].
  pose proof Hok as [Hw Hids Hcl Htr Hst Hov]. pose proof (lookup_lt_Some _ _ _ Ht) as Hlt.
  pose proof (tstep_session _ _ _ _ _ _ Hs) as Hse.
  split; cbn [mgr threads]; [done| |done| | |].
  - unfold session_ids. rewrite (bind_insert_same _ _ _ t); [done|done|]. rewrite Hse. done.
  - cbn [trace]. rewrite length_insert. apply Forall_app. split; [done|].
    apply Forall_forall. by intros [j e] (e' & [= -> ->] & _)%list_elem_of_fmap.
  - intros j u Hj Hu. rewrite effects_of_step. apply list_lookup_insert_Some in Hj as [(<- & <- & _)|[Hij Hj]].
    + rewrite decide_True by done. rewrite forwarded_app, <- app_assoc. rewrite Hse in Hu.
      rewrite (tstep_story _ _ _ _ _ _ Hs Hu (fun c => registered_client s _ t c Hok Ht)). exact (Hst _ _ Ht Hu).
    + rewrite decide_False by done. rewrite app_nil_r. by apply Hst.
  - intros j u Hj Hu. rewrite effects_of_step. apply list_lookup_insert_Some in Hj as [(<- & <- & _)|[Hij Hj]].
    + rewrite decide_True by done. cbn in Hu. subst p. apply tstep_over in Hs as [c ->].
      exists c. by rewrite last_snoc.
    + rewrite decide_False by done. rewrite app_nil_r. by eapply Hov.
Qed.

(** Changes of the rooms and new goroutines. *)
Lemma rooms_sessions_ok s m :
  wf m -> clients m = clients (mgr s) -> sessions_ok s -> sessions_ok (MkState m (threads s) (trace s)).
Proof. intros Hw He [Hw0 Hids Hcl Htr Hst Hov]. split; cbn [mgr threads]; rewrite ?He; done. Qed.

Lemma clients_JoinRoom id room m : clients (JoinRoom id room m) = clients m.
Proof. unfold JoinRoom. by destruct (clients m !! id). Qed.

Lemma clients_LeaveRoom id room m : clients (LeaveRoom id room m) = clients m.
Proof. unfold LeaveRoom. by destruct (clients m !! id). Qed.

Lemma effects_of_fresh s : Forall (fun ie => (fst ie < length (threads s))%nat) (trace s) ->
  effects_of (length (threads s)) s = [].
Proof.
  unfold effects_of. intros H. induction H as [|[j e] l Hj _ IH]; [done|].
  rewrite filter_cons, decide_False; [done|]. cbn in *. lia.
Qed.

Lemma spawn_sessions_ok s t :
  sessions_ok s -> NoDup (session_ids (threads s ++ [t])) -> registered t = None ->
  remaining t = session_story t \/ is_session t = false -> t_pc t <> Over ->
  sessions_ok (MkState (mgr s) (threads s ++ [t]) (trace s)).
Proof.
  intros [Hw Hids Hcl Htr Hst Hov] Hn Hr Hrem Hpc. split; cbn [mgr threads]; [done|done| | | |].
  - intros id c. rewrite Hcl. split; intros (j & u & Hj & Hu & Hc); exists j, u.
    + split; [by apply lookup_app_l_Some|done].
    + apply lookup_app_Some in Hj as [Hj|[_ Hj]]; [done|].
      apply list_lookup_singleton_Some in Hj as [_ <-]. by rewrite Hr in Hc.
  - eapply Forall_impl; [exact Htr|]. intros ie H. rewrite length_app. apply Nat.lt_lt_add_r, H.
  - intros j u Hj Hu. apply lookup_app_Some in Hj as [Hj|[Hlen Hj]]; [by apply Hst|].
    apply list_lookup_singleton_Some in Hj as [Hz <-]. assert (j = length (threads s)) as -> by lia.
    change (effects_of _ _) with (effects_of (length (threads s)) s).
    rewrite effects_of_fresh by done. destruct Hrem as [Hrem|Hrem]; [exact Hrem|congruence].
  - intros j u Hj Hu. apply lookup_app_Some in Hj as [Hj|[_ Hj]]; [by eapply Hov|].
    apply list_lookup_singleton_Some in Hj as [_ <-]. done.
Qed.

(** The random bytes a run draws, and the identifiers of the connections it opens. *)
Definition drawn (es : list event) : list (list byte) :=
  omap (fun e => match e with Open random _ _ => Some random | _ => None end) es.
Definition opened (es : list event) : list string := map generateConnID (drawn es).

Lemma opened_app es es' : opened (es ++ es') = opened es ++ opened es'.
Proof. unfold opened, drawn. by rewrite omap_app, map_app. Qed.

Lemma opened_distinct es :
  NoDup (drawn es) -> Forall (fun random => length random = 16%nat) (drawn es) -> NoDup (opened es).
Proof.
  unfold opened. generalize (drawn es). intros bs Hn Hl. induction Hn as [|b bs Hb Hn IH]; [constructor|].
  apply Forall_cons in Hl as [Hlb Hl]. cbn [map]. constructor; [|by apply IH].
  intros (c & He & Hc)%list_elem_of_fmap. rewrite Forall_forall in Hl. apply Hb.
  by rewrite (generateConnID_inj b c Hlb (Hl c Hc) He).
Qed.

Lemma session_ids_app ts us : session_ids (ts ++ us) = session_ids ts ++ session_ids us.
Proof. apply bind_app. Qed.

Lemma step_ids s e s' :
  step s e = Some s' -> session_ids (threads s') = session_ids (threads s) ++ opened [e].
Proof.
  destruct e as [rnd addr inc|id room|id room|room data ex|i reply]; cbn [step opened drawn omap list_omap map].
  1,4: intros [= <-]; cbn [threads]; by rewrite session_ids_app.
  1,2: intros [= <-]; by rewrite app_nil_r.
  destruct (threads s !! i) as [t|] eqn:Ht; [|done].
  destruct (tstep (mgr s) t reply) as [[[m p] fx]|] eqn:Hs; [|done]. intros [= <-].
  cbn [threads]. rewrite app_nil_r. apply (bind_insert_same _ _ _ t); [done|].
  change (MkThread _ _ p) with (set_pc t p). by rewrite (tstep_session _ _ _ _ _ _ Hs).
Qed.

Lemma step_sessions_ok s e s' :
  sessions_ok s -> NoDup (session_ids (threads s) ++ opened [e]) -> step s e = Some s' -> sessions_ok s'.
Proof.
  intros Hok Hn Hs. pose proof (step_ids _ _ _ Hs) as Hids. rewrite <- Hids in Hn.
  destruct e as [rnd addr inc|id room|id room|room data ex|i reply]; cbn [step] in Hs.
  - injection Hs as <-. apply spawn_sessions_ok; try done. by left.
  - injection Hs as <-. apply rooms_sessions_ok; [by apply wf_join, Hok|apply clients_JoinRoom|done].
  - injection Hs as <-. apply rooms_sessions_ok; [by apply wf_leave, Hok|apply clients_LeaveRoom|done].
  - injection Hs as <-. apply spawn_sessions_ok; try done. by right.
  - destruct (threads s !! i) as [t|] eqn:Ht; [|done].
    destruct (tstep (mgr s) t reply) as [[[m p] fx]|] eqn:Hs'; [|done]. injection Hs as <-.
    by eapply run_sessions_ok.
Qed.

Lemma run_preserves s es s' :
  sessions_ok s -> NoDup (session_ids (threads s) ++ opened es) -> run s es = Some s' -> sessions_ok s'.
Proof.
  revert s. induction es as [|e es IH]; intros s Hok Hn H; cbn [run] in H; [by simplify_eq|].
  destruct (step s e) as [s1|] eqn:Hs; [|done].
  change (e :: es) with ([e] ++ es) in Hn. rewrite opened_app in Hn.
  apply (IH s1); [|by rewrite (step_ids _ _ _ Hs), <- app_assoc|done].
  eapply step_sessions_ok; [done| |done]. rewrite app_assoc in Hn. by apply NoDup_app in Hn as [? _].
Qed.

(** ** Every goroutine comes to its end *)

Definition finished (t : thread) : bool :=
  match t_pc t with Told | Over => true | _ => false end.

(** What is left of a goroutine: the control points ahead, and the sends at this one. *)
Definition rank (t : thread) : nat * nat :=
  match t_pc t with
  | Registering _ inc => (4 * length inc + 10, 0)
  | Announcing _ inc => (4 * length inc + 9, 0)
  | Forwarding _ _ inc => (4 * length inc + 9, 0)
  | Routing _ _ inc => (4 * length inc + 8, 0)
  | Sending _ fx inc => (4 * length inc + 7, length fx)
  | Reading _ inc => (4 * length inc + 6, 0)
  | Removing _ => (4, 0)
  | Leaving _ fx => (3, length fx)
  | Closing _ => (2, 0)
  | Copying _ _ _ => (2, 0)
  | Telling fx => (1, length fx)
  | Told | Over => (0, 0)
  end%nat.

Lemma sessions_tstep_total m t reply : finished t = false -> is_Some (tstep m t reply).
Proof.
  unfold finished, tstep. intros H.
  destruct (t_pc t) as [addr inc|c inc|c [|msg inc]|c f inc|c resp inc|c [|e fx] inc|c|c [|e fx]|c|room data ex|[|e fx]| |];
    try discriminate H; repeat case_match; by eexists.
Qed.

Lemma tstep_rank m t reply m' p fx :
  tstep m t reply = Some (m', p, fx) ->
  ((rank (set_pc t p)).1 < (rank t).1 \/ (rank (set_pc t p)).1 = (rank t).1 /\ (rank (set_pc t p)).2 < (rank t).2)%nat.
Proof.
  unfold tstep, rank. cbn [set_pc t_pc]. intros H.
  destruct (t_pc t) as [addr inc|c inc|c [|msg inc]|c f inc|c resp inc|c [|e fx'] inc|c|c [|e fx']|c|room data ex|[|e fx']| |];
    try discriminate H; cbn [WebSocket.AddConnection] in H; repeat case_match; simplify_eq; cbn [fst snd length]; lia.
Qed.

Lemma sessions_run_app s es es' : run s (es ++ es') = match run s es with Some s => run s es' | None => None end.
Proof. revert s. induction es as [|e es IH]; intros s; [done|]. cbn [run app]. by destruct (step s e). Qed.

Lemma finish_one i n k s t :
  threads s !! i = Some t -> rank t = (n, k) ->
  exists es s' t', opened es = [] /\ run s es = Some s' /\ finished t' = true
    /\ threads s' = <[i := t']> (threads s).
Proof.
  revert k s t. induction n as [n IHn] using lt_wf_ind. intros k. induction k as [k IHk] using lt_wf_ind.
  intros s t Ht Hr. destruct (finished t) eqn:Hf.
  { exists [], s, t. by rewrite list_insert_id. }
  destruct (sessions_tstep_total (mgr s) t (Ok None) Hf) as [[[m p] fx] Hs].
  set (s1 := MkState m (<[i := set_pc t p]> (threads s)) (trace s ++ map (pair i) fx)).
  assert (threads s1 !! i = Some (set_pc t p)) as H1.
  { apply list_lookup_insert_eq. by apply lookup_lt_Some in Ht. }
  assert (exists es s' t', opened es = [] /\ run s1 es = Some s' /\ finished t' = true
    /\ threads s' = <[i := t']> (threads s1)) as (es & s' & t' & Ho & Hrun & Hf' & Hts).
  { destruct (rank (set_pc t p)) as [n1 k1] eqn:E1. apply tstep_rank in Hs. rewrite E1, Hr in Hs.
    cbn [fst snd] in Hs. destruct Hs as [Hn|[-> Hk]]; [by eapply IHn|by eapply (IHk k1)]. }
  exists (Run i (Ok None) :: es), s', t'. split_and!; [exact Ho| |done|].
  - cbn [run step]. rewrite Ht, Hs. exact Hrun.
  - rewrite Hts. apply list_insert_insert_eq.
Qed.

Lemma finish_all s : exists es s', opened es = [] /\ run s es = Some s'
  /\ Forall (fun t => finished t = true) (threads s').
Proof.
  enough (forall j, (j <= length (threads s))%nat -> exists es s', opened es = [] /\ run s es = Some s'
    /\ length (threads s') = length (threads s)
    /\ forall i t, (i < j)%nat -> threads s' !! i = Some t -> finished t = true) as H.
  { destruct (H _ (le_n _)) as (es & s' & Ho & Hr & Hl & Hall). exists es, s'. split_and!; [done..|].
    apply Forall_lookup. intros i t Ht. apply (Hall i t); [|done].
    apply lookup_lt_Some in Ht. by rewrite Hl in Ht. }
  induction j as [|j IH]; intros Hj; [exists [], s; split_and!; [done..|lia]|].
  destruct IH as (es & s1 & Ho & Hr & Hl & Hall); [lia|].
  destruct (lookup_lt_is_Some_2 (threads s1) j) as [t Ht]; [lia|].
  destruct (rank t) as [n k] eqn:Ek.
  destruct (finish_one _ _ _ _ _ Ht Ek) as (es2 & s2 & t' & Ho2 & Hr2 & Hf & Hts).
  exists (es ++ es2), s2. split_and!.
  - by rewrite opened_app, Ho, Ho2.
  - by rewrite sessions_run_app, Hr.
  - by rewrite Hts, length_insert.
  - intros i u Hi Hu. rewrite Hts in Hu. apply list_lookup_insert_Some in Hu as [(_ & <- & _)|[Hne Hu]]; [done|].
    apply (Hall i u); [lia|done].
Qed.

Lemma sessions_ok_init : sessions_ok init.
Proof.
  split; cbn; [exact wf_new|constructor| |constructor|done|done].
  intros id c. rewrite lookup_empty. split; [done|by intros (i & t & ? & _)].
Qed.

(** When nobody is left, nothing is. *)
Lemma all_over s :
  sessions_ok s -> Forall (fun t => finished t = true) (threads s) ->
  clients (mgr s) = ∅ /\ rooms (mgr s) = ∅.
Proof.
  intros Hok Hall. assert (clients (mgr s) = ∅) as Hc.
  { apply map_empty. intros id. apply eq_None_not_Some. intros [c Hc].
    apply Hok in Hc as (i & t & Ht & _ & Hr). apply (Forall_lookup_1 _ _ _ _ Hall) in Ht.
    unfold finished, registered in *. by destruct (t_pc t). }
  split; [done|]. apply map_empty. intros r. apply eq_None_not_Some. intros [ms Hr].
  destruct (map_choose ms (wf_no_empty _ (so_wf _ Hok) _ _ Hr)) as (id & c & Hm).
  assert (mem (rooms (mgr s)) r id = Some c) as H by (unfold mem; by rewrite Hr).
  apply (wf_rooms _ (so_wf _ Hok)) in H as [H _]. rewrite Hc in H. by rewrite lookup_empty in H.
Qed.

(** C17. Sessions that run at the same time, with connections joining and leaving rooms and
    broadcasting meanwhile, in any interleaving of their critical sections and with any
    replies of PHP, as long as no sixteen random
    bytes are drawn twice: the connected clients are at every moment the sessions between their
    registration and their removal, with the rooms consistent; each session tells PHP its
    own story, the connection, its messages in the order received, and the close, whatever
    the others do; a session that is over closed its socket last; no goroutine is ever
    stuck, all can be run to their end, and when all are over no client and no room is left
    and every story has been told in full. *)
Theorem concurrent_sessions (es : list event) (s : state) :
  NoDup (drawn es) -> Forall (fun random => length random = 16%nat) (drawn es) -> run init es = Some s ->
  wf (mgr s)
  /\ (forall id, is_Some (clients (mgr s) !! id) <->
        exists i t, threads s !! i = Some t /\ t_id t = id /\ is_Some (registered t))
  /\ (forall i t, threads s !! i = Some t -> is_session t = true ->
        forwarded (effects_of i s) ++ remaining t = session_story t)
  /\ (forall i t, threads s !! i = Some t -> t_pc t = Over ->
        exists c, last (effects_of i s) = Some (CloseConn c))
  /\ exists es' s', opened es' = [] /\ run s es' = Some s'
       /\ Forall (fun t => finished t = true) (threads s')
       /\ clients (mgr s') = ∅ /\ rooms (mgr s') = ∅
       /\ forall i t, threads s' !! i = Some t -> is_session t = true ->
            forwarded (effects_of i s') = session_story t.
Proof.
  intros Hd Hl Hr. pose proof (run_preserves _ _ _ sessions_ok_init (opened_distinct _ Hd Hl) Hr) as Hok.
  split_and!; [apply Hok| |apply Hok|apply Hok|].
  - intros id. split.
    + intros [c Hc]. apply Hok in Hc as (i & t & Ht & Hid & Hc). exists i, t. by rewrite Hc.
    + intros (i & t & Ht & <- & [c Hc]). exists c. apply Hok. by exists i, t.
  - destruct (finish_all s) as (es' & s' & Ho & Hr' & Hall). exists es', s'.
    assert (sessions_ok s') as Hok'.
    { eapply run_preserves; [exact Hok| |exact Hr']. rewrite Ho, app_nil_r. apply Hok. }
    destruct (all_over s' Hok' Hall) as [Hc Hrm]. split_and!; try done.
    intros i t Ht Hse. rewrite <- (so_story _ Hok' i t Ht Hse).
    apply (Forall_lookup_1 _ _ _ _ Hall) in Ht. unfold finished, is_session, remaining in *.
    destruct (t_pc t); try discriminate; by rewrite app_nil_r.
Qed.
End Sessions.

(** ** A concrete run *)

Definition rand_a : list byte := replicate 16 Byte.x0a.
Definition rand_b : list byte := replicate 16 Byte.x0b.

Definition chat : list (event (E := unit)) :=
  let go i := Run i (Ok None) in
  [Open rand_a "1.2.3.4:5" [[Byte.x21]]; Open rand_b "1.2.3.4:6" []; go 0%nat; go 1%nat;
   Join (generateConnID rand_a) "lobby"; Join (generateConnID rand_b) "lobby"; go 1%nat; go 0%nat;
   Tell (Some "lobby") [Byte.x3f] (generateConnID rand_a); go 2%nat; go 0%nat; go 1%nat; go 1%nat; go 2%nat; go 0%nat].
Abbreviation chat_state := (run true map_to_list init chat).

Lemma chat_runs : exists s, chat_state = Some s /\ size (clients (mgr s)) = 1%nat.
Proof. eexists. split; vm_compute; reflexivity. Qed.

Lemma chat_drawn : NoDup (drawn chat).
Proof. apply (bool_decide_unpack _). vm_compute. exact I. Qed.

Lemma concurrent_sessions_witness :
  exists s s' es', chat_state = Some s /\ size (clients (mgr s)) = 1%nat
    /\ run true map_to_list s es' = Some s' /\ clients (mgr s') = ∅.
Proof.
  destruct chat_runs as (s & Hr & Hc). exists s.
  destruct (concurrent_sessions true map_to_list chat s chat_drawn ltac:(by repeat constructor) Hr)
    as (_ & _ & _ & _ & es' & s' & _ & Hr' & _ & He & _).
  exists s', es'. split_and!; [exact Hr|exact Hc|exact Hr'|exact He].
Defined.
