(* ===== verification/Http.v ===== *)
(** The part of Go's [net/http] the server is written against: headers, requests, the
    [ResponseWriter] interface, the standard library's own response writer, and handlers.

    A handler is polymorphic in the writer it is given, so a middleware is a function from
    handlers to handlers that may hand its inner handler a writer of its own. [G] is the
    state a handler shares with other requests. *)
From S2P Require Import Prelude GoStr.
From stdpp Require Export strings gmap.
From Stdlib Require Import Ascii.
Local Open Scope string_scope.
Local Open Scope Z_scope.
Local Open Scope list_scope.

(** ** Headers *)

(** [http.Header], keyed by canonical names. *)
Definition headers := gmap string (list string).

(** [textproto.CanonicalMIMEHeaderKey]: upper case after the start and after each dash,
    lower case elsewhere; a name with another byte than a token's stays as it is. *)
Definition is_token (c : ascii) : bool :=
  let n := nat_of_ascii c in
  bool_decide ((48 <= n /\ n <= 57)%nat \/ (65 <= n /\ n <= 90)%nat \/ (97 <= n /\ n <= 122)%nat)
  || existsb (Ascii.eqb c) (String.list_ascii_of_string "!#$%&'*+-.^_`|~").
Fixpoint canonical_from (upper : bool) (k : string) : string :=
  match k with
  | "" => ""
  | String c k =>
      String (if upper then upper_ascii c else lower_ascii c) (canonical_from (Ascii.eqb c "-") k)
  end.
Definition canonical (k : string) : string :=
  if forallb is_token (String.list_ascii_of_string k) then canonical_from true k else k.

Definition Values (h : headers) (k : string) : list string := default [] (h !! canonical k).
Definition Get (h : headers) (k : string) : string :=
  match Values h k with v :: _ => v | [] => "" end.
Definition HSet (k v : string) (h : headers) : headers := <[canonical k := [v]]> h.
Definition Del (k : string) (h : headers) : headers := delete (canonical k) h.

Example canonical_ex :
  map canonical ["content-type"; "X-REQUEST-id"; "Link"; "bad key"]
  = ["Content-Type"; "X-Request-Id"; "Link"; "bad key"].
Proof. reflexivity. Qed.

(** ** Requests *)

Record Request := MkRequest {
  Method : string;
  Path : string;              (** [r.URL.Path] *)
  RawQuery : string;
  Host : string;
  RemoteAddr : string;
  TLS : bool;                 (** [r.TLS != nil] *)
  r_Header : headers
}.

Definition set_r_Header (h : headers) (r : Request) : Request :=
  MkRequest (Method r) (Path r) (RawQuery r) (Host r) (RemoteAddr r) (TLS r) h.

(** ** The [ResponseWriter] interface *)

Inductive write_error := ErrBodyNotAllowed | ErrConnection.

Class ResponseWriter (W : Type) := {
  Header : W -> headers;
  SetHeader : (headers -> headers) -> W -> W;      (** stores through the map [Header] returns *)
  WriteHeader : Z -> W -> W;
  Write : list byte -> W -> nat * option write_error * W
}.

(** *** The standard library's writer *)

Record conn := MkConn {
  c_header : headers;
  c_infos : list (Z * headers);       (** the informational responses sent, in order *)
  c_status : option (Z * headers);    (** the status line and the headers sent with it *)
  c_body : list byte
}.

Definition fresh_conn : conn := MkConn ∅ [] None [].

Definition is_info (code : Z) : bool := (100 <=? code) && (code <=? 199) && negb (code =? 101).
Definition bodyAllowed (code : Z) : bool :=
  negb (((100 <=? code) && (code <=? 199)) || (code =? 204) || (code =? 304)).

(** [WriteHeader]: a 1xx status is sent and forgotten, the first other one counts. *)
Definition conn_WriteHeader (code : Z) (c : conn) : conn :=
  match c_status c with
  | Some _ => c
  | None =>
      if is_info code
      then MkConn (c_header c) (c_infos c ++ [(code, c_header c)]) None (c_body c)
      else MkConn (c_header c) (c_infos c) (Some (code, c_header c)) (c_body c)
  end.

Definition conn_Write (bs : list byte) (c : conn) : nat * option write_error * conn :=
  let c := match c_status c with None => conn_WriteHeader 200 c | Some _ => c end in
  match c_status c with
  | Some (code, _) =>
      if bodyAllowed code
      then (length bs, None, MkConn (c_header c) (c_infos c) (c_status c) (c_body c ++ bs))
      else (0%nat, Some ErrBodyNotAllowed, c)
  | None => (0%nat, Some ErrConnection, c)
  end.

#[export] Instance conn_writer : ResponseWriter conn := {
  Header := c_header;
  SetHeader f c := MkConn (f (c_header c)) (c_infos c) (c_status c) (c_body c);
  WriteHeader := conn_WriteHeader;
  Write := conn_Write
}.

(** What the client receives when the handler is done: the headers of a response that was
    never started go out with a 200. *)
Definition response (c : conn) : Z * headers * list byte :=
  match c_status c with
  | Some (code, h) => (code, h, c_body c)
  | None => (200, c_header c, [])
  end.

(** ** Handlers *)

(** What a handler leaves: the shared state, the writer, and whether it panicked. *)
Record outcome (G W : Type) := MkOutcome { o_state : G; o_writer : W; o_panic : bool }.
Arguments MkOutcome {G W}. Arguments o_state {G W}. Arguments o_writer {G W}. Arguments o_panic {G W}.

Definition Handler (G : Type) : Type :=
  forall (W : Type) (_ : ResponseWriter W), Request -> G -> W -> outcome G W.

(** *** Scripts: what a handler does to its writer *)

Inductive action :=
| AStore (f : headers -> headers)     (** through the map [Header] returns *)
| AHeader (code : Z)
| AWrite (bs : list byte).

Definition ASet (k v : string) : action := AStore (HSet k v).

Definition act {W} `{ResponseWriter W} (a : action) (w : W) : W :=
  match a with
  | AStore f => SetHeader f w
  | AHeader code => WriteHeader code w
  | AWrite bs => snd (Write bs w)
  end.

Definition acts {W} `{ResponseWriter W} (s : list action) (w : W) : W := foldl (fun w a => act a w) w s.

(** [http.Error] *)
Definition ascii_bytes (s : string) : list byte := map byte_of_ascii (String.list_ascii_of_string s).
Definition error_script (msg : string) (code : Z) : list action :=
  [AStore (Del "Content-Length"); ASet "Content-Type" "text/plain; charset=utf-8";
   ASet "X-Content-Type-Options" "nosniff"; AHeader code; AWrite (ascii_bytes msg ++ [Byte.x0a])].
Definition http_Error {W} `{ResponseWriter W} (msg : string) (code : Z) (w : W) : W :=
  acts (error_script msg code) w.

(** The handler that runs a script, whatever the request. *)
Definition script {G} (s : list action) : Handler G := fun _ _ _ g w => MkOutcome g (acts s w) false.

Definition written (s : list action) : list byte :=
  s ≫= fun a => match a with AWrite bs => bs | _ => [] end.

Definition headers_of (s : list action) (h : headers) : headers :=
  foldl (fun h a => match a with AStore f => f h | _ => h end) h s.

Lemma acts_cons {W} `{ResponseWriter W} a s (w : W) : acts (a :: s) w = acts s (act a w).
Proof. done. Qed.
Lemma acts_app {W} `{ResponseWriter W} s t (w : W) : acts (s ++ t) w = acts t (acts s w).
Proof. apply foldl_app. Qed.

(** *** Scripts that only set headers, or only write *)

Definition is_set (a : action) : bool := match a with AStore _ => true | _ => false end.
Definition is_write (a : action) : bool := match a with AWrite _ => true | _ => false end.

Lemma conn_sets s h i st b :
  forallb is_set s = true -> acts s (MkConn h i st b) = MkConn (headers_of s h) i st b.
Proof.
  revert h. induction s as [|[f| |] s IH]; intros h; simpl; try done. apply IH.
Qed.

Lemma conn_writes s h i code hs b :
  forallb is_write s = true ->
  acts s (MkConn h i (Some (code, hs)) b)
  = MkConn h i (Some (code, hs)) (b ++ if bodyAllowed code then written s else []).
Proof.
  revert b. induction s as [|[| |bs] s IH]; intros b Hs; simpl in Hs; try done.
  - by destruct (bodyAllowed code); rewrite app_nil_r.
  - rewrite acts_cons. cbn [act Write conn_writer conn_Write c_status c_header c_infos c_body].
    destruct (bodyAllowed code) eqn:Hb; cbn [snd]; rewrite IH by done; [|done].
    by rewrite <- app_assoc.
Qed.

Lemma conn_writes_fresh s h i :
  forallb is_write s = true -> response (acts s (MkConn h i None [])) = (200, h, written s).
Proof.
  destruct s as [|[| |bs] s]; intros Hs; simpl in Hs; try done. rewrite acts_cons.
  change (act (AWrite bs) (MkConn h i None [])) with (MkConn h i (Some (200, h)) bs).
  by rewrite conn_writes.
Qed.
