(* ===== verification/Compress.v ===== *)
(** Response compression: [src/internal/server/compress.go].

    [compressWriter] is a response writer over any other; the middleware gives it to the
    inner handler and closes it afterwards. The gzip format is a parameter with the one
    law that what was compressed decompresses. *)
From S2P Require Import Prelude GoStr Http.
Local Open Scope string_scope.
Local Open Scope Z_scope.
Local Open Scope list_scope.

Definition compressMinSize : nat := 1024.

(** [gzWriter] is the chunks written to the gzip writer so far, [None] for nil. *)
Record compressWriter (W : Type) := MkCW {
  cw_inner : W;
  gzWriter : option (list (list byte));
  cw_buf : list byte;
  cw_wroteHeader : bool;
  compressed : bool;
  headerCode : Z
}.
Arguments MkCW {W}. Arguments cw_inner {W}. Arguments gzWriter {W}. Arguments cw_buf {W}.
Arguments cw_wroteHeader {W}. Arguments compressed {W}. Arguments headerCode {W}.

Definition isCompressibleContentType (ct : string) : bool :=
  ((5 <=? String.length ct)%nat
   && (HasPrefix ct "text/" || HasPrefix ct "Text/" || HasPrefix ct "TEXT/"))
  || Contains ct "application/json" || Contains ct "application/javascript"
  || Contains ct "application/xml" || Contains ct "application/xhtml"
  || Contains ct "image/svg+xml".

Definition compressible (h : headers) : bool :=
  let ct := Get h "Content-Type" in
  if bool_decide (ct = "") then false
  else if negb (bool_decide (Get h "Content-Encoding" = "")) then false
  else isCompressibleContentType ct.

Section Compress.
(** The bytes a gzip writer emits for these writes and a [Close]. *)
Variable gzip : list (list byte) -> list byte.

Section Writer.
Context {W : Type} `{ResponseWriter W}.

Definition reset (w : W) : compressWriter W := MkCW w None [] false false 0.

Definition set_inner (w : W) (cw : compressWriter W) : compressWriter W :=
  MkCW w (gzWriter cw) (cw_buf cw) (cw_wroteHeader cw) (compressed cw) (headerCode cw).

Definition shouldCompress (w : W) : bool := compressible (Header w).

(** The header changes of [startCompress]. *)
Definition gzip_headers (h : headers) : headers :=
  Del "Content-Length" (HSet "Vary" "Accept-Encoding" (HSet "Content-Encoding" "gzip" h)).

Definition startCompress (cw : compressWriter W) : compressWriter W :=
  MkCW (SetHeader gzip_headers (cw_inner cw)) (Some []) (cw_buf cw) (cw_wroteHeader cw) true
    (headerCode cw).

Definition cw_WriteHeader (code : Z) (cw : compressWriter W) : compressWriter W :=
  if cw_wroteHeader cw then cw
  else
    let cw := MkCW (cw_inner cw) (gzWriter cw) (cw_buf cw) true (compressed cw) code in
    let cw := if (compressMinSize <=? length (cw_buf cw))%nat && shouldCompress (cw_inner cw)
              then startCompress cw else cw in
    set_inner (WriteHeader code (cw_inner cw)) cw.

(** [cw.gzWriter.Write(b)] *)
Definition gz_write (b : list byte) (cw : compressWriter W) : compressWriter W :=
  MkCW (cw_inner cw) (option_map (fun ch => ch ++ [b]) (gzWriter cw)) (cw_buf cw)
    (cw_wroteHeader cw) (compressed cw) (headerCode cw).

Definition cw_Write (b : list byte) (cw : compressWriter W) :
    nat * option write_error * compressWriter W :=
  if compressed cw then (length b, None, gz_write b cw)
  else
    let buf := cw_buf cw ++ b in
    let cw := MkCW (cw_inner cw) (gzWriter cw) buf (cw_wroteHeader cw) (compressed cw)
                (headerCode cw) in
    if (compressMinSize <=? length buf)%nat && negb (cw_wroteHeader cw)
       && shouldCompress (cw_inner cw)
    then
      let cw := startCompress cw in
      let cw := MkCW (WriteHeader 200 (cw_inner cw)) (gzWriter cw) (cw_buf cw) true
                  (compressed cw) (headerCode cw) in
      let n := length (cw_buf cw) in
      ((if (length b <? n)%nat then length b else n), None, gz_write (cw_buf cw) cw)
    else (length b, None, cw).

Definition Close (cw : compressWriter W) : compressWriter W :=
  match compressed cw, gzWriter cw with
  | true, Some ch =>
      MkCW (snd (Write (gzip ch) (cw_inner cw))) None (cw_buf cw) (cw_wroteHeader cw)
        (compressed cw) (headerCode cw)
  | _, _ =>
      if (0 <? length (cw_buf cw))%nat then
        let w := if cw_wroteHeader cw then cw_inner cw else WriteHeader 200 (cw_inner cw) in
        set_inner (snd (Write (cw_buf cw) w)) cw
      else cw
  end.

#[export] Instance compress_writer : ResponseWriter (compressWriter W) := {
  Header cw := Header (cw_inner cw);
  SetHeader f cw := set_inner (SetHeader f (cw_inner cw)) cw;
  WriteHeader := cw_WriteHeader;
  Write := cw_Write
}.
End Writer.

Definition accepts_gzip (r : Request) : bool :=
  Contains (Get (r_Header r) "Accept-Encoding") "gzip".

(** The deferred [Close] runs whether the inner handler panicked or not. *)
Definition CompressionMiddleware {G} (next : Handler G) : Handler G := fun W _ r g w =>
  if negb (accepts_gzip r) then next W _ r g w
  else
    let o := next (compressWriter W) _ r g (reset w) in
    MkOutcome (o_state o) (cw_inner (Close (o_writer o))) (o_panic o).

(** ** Scripts through a writer *)

Section Scripts.
Context {W : Type} `{ResponseWriter W}.

Lemma cw_sets s (cw : compressWriter W) :
  forallb is_set s = true -> acts s cw = set_inner (acts s (cw_inner cw)) cw.
Proof.
  revert cw. induction s as [|[f| |] s IH]; intros cw Hs; simpl in Hs; try done; [by destruct cw|].
  by rewrite !acts_cons, IH.
Qed.

(** After an explicit [WriteHeader] everything is buffered. *)
Lemma cw_writes_header s (w : W) gz buf code :
  forallb is_write s = true ->
  acts s (MkCW w gz buf true false code) = MkCW w gz (buf ++ written s) true false code.
Proof.
  revert buf. induction s as [|[| |bs] s IH]; intros buf Hs; simpl in Hs; try done.
  - by rewrite app_nil_r.
  - rewrite acts_cons. simpl. unfold cw_Write. simpl. rewrite andb_false_r. simpl.
    rewrite IH by done. by rewrite <- app_assoc.
Qed.

Lemma cw_writes_gzip s (w : W) ch buf code :
  forallb is_write s = true ->
  exists ch', acts s (MkCW w (Some ch) buf true true code)
              = MkCW w (Some (ch ++ ch')) buf true true code
              /\ concat ch' = written s.
Proof.
  revert ch. induction s as [|[| |bs] s IH]; intros ch Hs; simpl in Hs; try done.
  - exists []. by rewrite app_nil_r.
  - destruct (IH (ch ++ [bs]) Hs) as (ch' & E & Hch).
    exists (bs :: ch'). split; [|simpl; by rewrite Hch].
    rewrite acts_cons. simpl. unfold cw_Write, gz_write. simpl. rewrite E. by rewrite <- app_assoc.
Qed.

(** Without one, compression starts when the buffer is large enough. *)
Lemma cw_writes_fresh s (w : W) buf code :
  forallb is_write s = true -> (shouldCompress w = true -> (length buf < compressMinSize)%nat) ->
  if shouldCompress w && (compressMinSize <=? length (buf ++ written s))%nat
  then exists ch buf', acts s (MkCW w None buf false false code)
         = MkCW (WriteHeader 200 (SetHeader gzip_headers w)) (Some ch) buf' true true code
         /\ concat ch = buf ++ written s
  else acts s (MkCW w None buf false false code) = MkCW w None (buf ++ written s) false false code.
Proof.
  revert buf. induction s as [|[| |bs] s IH]; intros buf Hs Hbuf; simpl in Hs; try done.
  - rewrite app_nil_r. destruct (shouldCompress w); [|done].
    by rewrite (proj2 (Nat.leb_gt _ _)) by auto.
  - rewrite acts_cons. cbn [act Write compress_writer]. unfold cw_Write.
    cbn [compressed cw_buf cw_wroteHeader cw_inner gzWriter headerCode negb].
    rewrite andb_true_r. change (written (AWrite bs :: s)) with (bs ++ written s).
    rewrite app_assoc. destruct (Nat.leb_spec compressMinSize (length (buf ++ bs))) as [Hle|Hlt].
    + destruct (shouldCompress w) eqn:Hc; cbn [andb].
      * rewrite (proj2 (Nat.leb_le _ _)) by (rewrite length_app; lia).
        cbn [snd]. unfold gz_write, startCompress. cbn [option_map gzWriter cw_inner cw_buf
          cw_wroteHeader compressed headerCode app].
        destruct (cw_writes_gzip s (WriteHeader 200 (SetHeader gzip_headers w)) [buf ++ bs]
          (buf ++ bs) code Hs) as (ch & E & Hch).
        eexists _, _. split; [exact E|]. simpl. by rewrite Hch.
      * exact (IH (buf ++ bs) Hs ltac:(done)).
    + cbn [andb snd]. exact (IH (buf ++ bs) Hs ltac:(done)).
Qed.
End Scripts.

(** ** Properties *)

(** The response of a script, direct and through the middleware. *)
Definition direct (s : list action) : Z * headers * list byte := response (acts s fresh_conn).
Definition through (r : Request) (s : list action) : Z * headers * list byte :=
  response (o_writer (CompressionMiddleware (script s) conn _ r tt fresh_conn)).

Lemma through_accepted r s :
  accepts_gzip r = true -> through r s = response (cw_inner (Close (acts s (reset fresh_conn)))).
Proof. intros Ha. unfold through, CompressionMiddleware. by rewrite Ha. Qed.

Definition explicit (hdr : list action) : bool := match hdr with [] => false | _ => true end.

(** C22. Compression is transparent for handlers that set their headers, then possibly
    send a status, then write: the client gets the same status, and either the same
    headers and body, or the gzip headers and a body that decompresses to the same bytes.
    It is compressed exactly when the client accepts gzip, the content type is
    compressible, there are at least 1024 bytes, and the handler did not call
    [WriteHeader] itself. *)
Theorem compression_transparent (gunzip : list byte -> option (list byte)) (r : Request)
    (sets hdr ws : list action) :
  (forall ch, gunzip (gzip ch) = Some (concat ch)) ->
  forallb is_set sets = true -> forallb is_write ws = true ->
  hdr = [] \/ (exists code, hdr = [AHeader code] /\ is_info code = false) ->
  let '(st, h, b) := direct (sets ++ hdr ++ ws) in
  let '(st', h', b') := through r (sets ++ hdr ++ ws) in
  st' = st
  /\ if accepts_gzip r && negb (explicit hdr) && compressible h
        && (compressMinSize <=? length (written ws))%nat
     then h' = gzip_headers h /\ gunzip b' = Some b
     else h' = h /\ b' = b.
Proof.
  intros Hgz Hs Hw Hh. destruct (accepts_gzip r) eqn:Ha; cbn [andb].
  2: { unfold through, CompressionMiddleware. rewrite Ha. unfold direct. cbn [o_writer script negb].
       by destruct (response _) as [[st h] b]. }
  rewrite through_accepted by done. unfold direct, reset.
  rewrite !acts_app, (cw_sets sets) by done. cbn [cw_inner]. unfold fresh_conn.
  rewrite !(conn_sets sets) by done. set (h := headers_of sets ∅). unfold set_inner.
  cbn [gzWriter cw_buf cw_wroteHeader compressed headerCode].
  destruct Hh as [->|(code & -> & Hi)]; cbn [explicit negb andb acts foldl].
  - change (foldl _ ?w []) with w.
    rewrite (conn_writes_fresh ws h []) by done.
    pose proof (cw_writes_fresh ws (MkConn h [] None []) [] 0 Hw
      ltac:(unfold compressMinSize; simpl; lia)) as Hc.
    unfold shouldCompress in Hc. cbn [Header conn_writer c_header app] in Hc.
    destruct (compressible h && _) eqn:Hz.
    + destruct Hc as (ch & buf & -> & Hch). unfold Close. cbn [compressed gzWriter cw_inner].
      split; [done|]. split; [done|]. simpl. by rewrite Hgz, Hch.
    + rewrite Hc. unfold Close. cbn [compressed gzWriter cw_inner cw_buf cw_wroteHeader].
      destruct (Nat.ltb_spec 0 (length (written ws))) as [Hl|Hl]; [done|].
      apply Nat.le_0_r, nil_length_inv in Hl. simpl. by rewrite Hl.
  - cbn [act WriteHeader conn_writer conn_WriteHeader c_status compress_writer]. rewrite Hi.
    unfold cw_WriteHeader, set_inner.
    cbn [cw_wroteHeader cw_buf length cw_inner gzWriter compressed headerCode].
    rewrite (proj2 (Nat.leb_gt _ _)) by (unfold compressMinSize; lia). cbn [andb].
    cbn [WriteHeader conn_writer conn_WriteHeader c_status cw_inner gzWriter cw_buf cw_wroteHeader
      compressed headerCode]. unfold conn_WriteHeader. cbn [c_status]. rewrite Hi.
    cbn [c_header c_infos c_body].
    rewrite (conn_writes ws), (cw_writes_header ws) by done. cbn [app].
    unfold Close. cbn [compressed gzWriter cw_buf cw_wroteHeader cw_inner].
    destruct (Nat.ltb_spec 0 (length (written ws))) as [Hl|Hl].
    + unfold conn_Write. destruct (bodyAllowed code) eqn:Hb; cbn; rewrite Hb; by cbn.
    + apply Nat.le_0_r, nil_length_inv in Hl. rewrite Hl. simpl. by destruct (bodyAllowed code).
Qed.

(** Bytes are lost when a handler writes first and settles its content type and
    status later: with 1024 or more bytes in the buffer, [WriteHeader] turns compression
    on but does not hand the buffer to the compressor, and the client gets an empty body
    where an uncompressed response carries everything. *)
Theorem late_header_loses_body (r : Request) (bs : list byte) (code : Z) :
  accepts_gzip r = true -> (compressMinSize <= length bs)%nat ->
  is_info code = false -> bodyAllowed code = true ->
  let s := [AWrite bs; ASet "Content-Type" "text/html"; AHeader code] in
  snd (through r s) = gzip [] /\ snd (direct s) = bs.
Proof.
  intros Ha Hl Hi Hb s. rewrite through_accepted by done. split; [|done].
  unfold s. rewrite !acts_cons.
  assert (act (AWrite bs) (reset fresh_conn) = MkCW fresh_conn None bs false false 0) as ->.
  { cbn [act Write compress_writer reset]. unfold cw_Write.
    cbn [compressed cw_buf cw_wroteHeader cw_inner gzWriter headerCode app negb reset].
    change (shouldCompress fresh_conn) with false. by rewrite andb_false_r. }
  set (h := HSet "Content-Type" "text/html" ∅).
  change (act (ASet "Content-Type" "text/html") _) with (MkCW (MkConn h [] None []) None bs false false 0).
  assert (act (AHeader code) (MkCW (MkConn h [] None []) None bs false false 0)
          = MkCW (MkConn (gzip_headers h) [] (Some (code, gzip_headers h)) []) (Some []) bs
              true true code) as ->.
  { cbn [act WriteHeader compress_writer]. unfold cw_WriteHeader.
    cbn [cw_wroteHeader cw_buf cw_inner gzWriter compressed headerCode].
    rewrite (proj2 (Nat.leb_le _ _)) by done.
    change (shouldCompress _) with true. cbn -[gzip_headers is_info].
    unfold conn_WriteHeader. cbn -[gzip_headers is_info]. by rewrite Hi. }
  cbn [acts foldl Close compressed gzWriter cw_inner Write conn_writer]. unfold conn_Write.
  cbn [c_status]. by rewrite Hb.
Qed.
End Compress.

(** ** Concrete runs *)

(** A stand-in for gzip: a mark and the bytes. *)
Definition mark_zip (ch : list (list byte)) : list byte := Byte.x1f :: concat ch.
Definition mark_unzip (bs : list byte) : option (list byte) :=
  match bs with Byte.x1f :: bs => Some bs | _ => None end.

Definition gzip_request : Request :=
  MkRequest "GET" "/" "" "localhost" "10.0.0.1:999" false {["Accept-Encoding" := ["gzip, br"]]}.

Definition html (n : nat) : list action :=
  [ASet "Content-Type" "text/html"; AWrite (replicate n Byte.x61)].

Lemma compression_transparent_witness :
  mark_unzip (snd (through mark_zip gzip_request (html 2000))) = Some (replicate 2000 Byte.x61).
Proof.
  refine (proj2 (proj2 (compression_transparent mark_zip mark_unzip gzip_request
    [ASet "Content-Type" "text/html"] [] [AWrite (replicate 2000 Byte.x61)] _ _ _ _)));
    [done|done|done|by left].
Defined.

Lemma late_header_loses_body_witness :
  snd (through mark_zip gzip_request [AWrite (replicate 1024 Byte.x61);
         ASet "Content-Type" "text/html"; AHeader 200]) = [Byte.x1f].
Proof.
  refine (proj1 (late_header_loses_body mark_zip gzip_request (replicate 1024 Byte.x61) 200 _ _ _ _));
    [by vm_compute|rewrite length_replicate; done|done|done].
Defined.
