(* ===== verification/Middleware.v ===== *)
(** The core middleware: [src/internal/server/middleware.go].

    [mabooResponseWriter] records what a response was while passing it on and sends the
    103 Early Hints; [CoreMiddleware] recovers from panics, names the request and logs. *)
From S2P Require Import Prelude GoStr Http.
Local Open Scope string_scope.
Local Open Scope Z_scope.
Local Open Scope list_scope.

Record mabooResponseWriter (W : Type) := MkRW {
  rw_inner : W;
  statusCode : Z;
  bytesWritten : Z;
  rw_wroteHeader : bool;
  hintsSent : bool
}.
Arguments MkRW {W}. Arguments rw_inner {W}. Arguments statusCode {W}. Arguments bytesWritten {W}.
Arguments rw_wroteHeader {W}. Arguments hintsSent {W}.

Definition is_hint (link : string) : bool :=
  Contains link "rel=preload" || Contains link "rel=preconnect".

Section Writer.
Context {W : Type} `{ResponseWriter W}.

Definition rw_reset (w : W) : mabooResponseWriter W := MkRW w 200 0 false false.

Definition rw_set_inner (w : W) (rw : mabooResponseWriter W) : mabooResponseWriter W :=
  MkRW w (statusCode rw) (bytesWritten rw) (rw_wroteHeader rw) (hintsSent rw).

Definition Unwrap (rw : mabooResponseWriter W) : W := rw_inner rw.

(** The hints go out before the first status, once. *)
Definition send_hints (rw : mabooResponseWriter W) : mabooResponseWriter W :=
  if hintsSent rw then rw
  else
    let w := if existsb is_hint (Values (Header (rw_inner rw)) "Link")
             then WriteHeader 103 (rw_inner rw) else rw_inner rw in
    MkRW w (statusCode rw) (bytesWritten rw) (rw_wroteHeader rw) true.

Definition rw_WriteHeader (code : Z) (rw : mabooResponseWriter W) : mabooResponseWriter W :=
  let rw := send_hints rw in
  if rw_wroteHeader rw then rw
  else MkRW (WriteHeader code (rw_inner rw)) code (bytesWritten rw) true (hintsSent rw).

Definition rw_Write (b : list byte) (rw : mabooResponseWriter W) :
    nat * option write_error * mabooResponseWriter W :=
  let rw := if rw_wroteHeader rw then rw
            else MkRW (rw_inner rw) 200 (bytesWritten rw) true (hintsSent rw) in
  let '(n, err, w) := Write b (rw_inner rw) in
  (n, err, MkRW w (statusCode rw) (bytesWritten rw + Z.of_nat n) (rw_wroteHeader rw) (hintsSent rw)).

#[export] Instance maboo_writer : ResponseWriter (mabooResponseWriter W) := {
  Header rw := Header (rw_inner rw);
  SetHeader f rw := rw_set_inner (SetHeader f (rw_inner rw)) rw;
  WriteHeader := rw_WriteHeader;
  Write := rw_Write
}.
End Writer.

(** What the core middleware logs; the times are left out. *)
Inductive log_entry :=
| LogRequest (method path : string) (status bytes : Z) (remote_addr request_id : string)
| LogPanic (path : string).

Section Core.
Context {G : Type}.
(** [fastRequestID], random, for the request at hand; whether the level is enabled. *)
Variable fastRequestID : Request -> string.
Variable logger_Enabled : bool.

Definition CoreMiddleware (next : Handler G) : Handler (list log_entry * G) := fun W _ r lg w =>
  let '(log, g) := lg in
  let id0 := Get (r_Header r) "X-Request-ID" in
  let '(id, r) :=
    if bool_decide (id0 = "")
    then let id := fastRequestID r in (id, set_r_Header (HSet "X-Request-ID" id (r_Header r)) r)
    else (id0, r) in
  let w := SetHeader (HSet "X-Request-ID" id) w in
  let o := next (mabooResponseWriter W) _ r g (rw_reset w) in
  let rw := o_writer o in
  if o_panic o
  then MkOutcome (log ++ [LogPanic (Path r)], o_state o)
         (http_Error "Internal Server Error" 500 (rw_inner rw)) false
  else
    let log := if logger_Enabled
               then log ++ [LogRequest (Method r) (Path r) (statusCode rw) (bytesWritten rw)
                              (RemoteAddr r) id]
               else log in
    MkOutcome (log, o_state o) (rw_inner rw) false.
End Core.

(** ** The writer's record is the response *)

(** No informational status of the handler's own. *)
Definition final_codes (s : list action) : bool :=
  forallb (fun a => match a with AHeader code => negb (is_info code) | _ => true end) s.

(** The record against the standard library's writer it wraps. *)
Record faithful (rw : mabooResponseWriter conn) : Prop := {
  ff_header : rw_wroteHeader rw = true -> exists hs, c_status (rw_inner rw) = Some (statusCode rw, hs);
  ff_fresh : rw_wroteHeader rw = false ->
             c_status (rw_inner rw) = None /\ c_body (rw_inner rw) = [] /\ statusCode rw = 200;
  ff_bytes : bytesWritten rw = Z.of_nat (length (c_body (rw_inner rw)));
  ff_infos : if hintsSent rw then Forall (fun i => fst i = 103) (c_infos (rw_inner rw))
                                  /\ (length (c_infos (rw_inner rw)) <= 1)%nat
             else c_infos (rw_inner rw) = []
}.

Lemma faithful_reset h : faithful (rw_reset (MkConn h [] None [])).
Proof. by split. Qed.

Lemma faithful_hints rw : faithful rw -> faithful (send_hints rw) /\ hintsSent (send_hints rw) = true
  /\ rw_wroteHeader (send_hints rw) = rw_wroteHeader rw.
Proof.
  intros [Hh Hf Hb Hi]. unfold send_hints. destruct (hintsSent rw) eqn:Hs; [split; [|done]|].
  { split; try done. by rewrite Hs. }
  split; [|done]. destruct (existsb _ _); cbn [WriteHeader conn_writer conn_WriteHeader].
  - unfold conn_WriteHeader. destruct (c_status (rw_inner rw)) as [[st hs]|] eqn:Hc.
    + split; cbn; rewrite ?Hc in *; try done. rewrite Hi. split; [constructor|simpl; lia].
    + split; cbn; try done.
      rewrite Hi. simpl. split; [by repeat constructor|lia].
  - split; cbn; try done. rewrite Hi. split; [constructor|simpl; lia].
Qed.

Lemma faithful_act rw a : final_codes [a] = true -> faithful rw -> faithful (act a rw).
Proof.
  intros Ha Hrw. destruct a as [f|code|bs]; cbn [act].
  - destruct Hrw as [Hh Hf Hb Hi]. by split.
  - cbn in Ha. rewrite andb_true_r in Ha. apply negb_true_iff in Ha.
    cbn [WriteHeader maboo_writer]. unfold rw_WriteHeader.
    destruct (faithful_hints rw Hrw) as (H1 & H2 & _).
    destruct (rw_wroteHeader (send_hints rw)) eqn:Hw; [done|]. destruct H1 as [Hh Hf Hb Hi].
    rewrite Hw in Hh, Hf.
    destruct (Hf eq_refl) as (Hc & Hbody & _).
    cbn [WriteHeader conn_writer]. unfold conn_WriteHeader. rewrite Hc, Ha.
    rewrite H2 in *. split; cbn; try done. by eexists.
  - cbn [Write maboo_writer]. unfold rw_Write. destruct Hrw as [Hh Hf Hb Hi].
    destruct (rw_wroteHeader rw) eqn:Hw; cbn [rw_inner statusCode Write conn_writer]; unfold conn_Write.
    + destruct (Hh eq_refl) as [hs Hc]. rewrite Hc, Hc.
      destruct (bodyAllowed (statusCode rw)); split; cbn; rewrite ?Hw, ?Hc; try done; eauto.
      * rewrite Hb, length_app. lia.
      * lia.
    + destruct (Hf eq_refl) as (Hc & Hbody & _). rewrite Hc. unfold conn_WriteHeader. rewrite Hc.
      cbn. split; cbn; try done; eauto. rewrite Hb, Hbody. simpl. lia.
Qed.

Lemma faithful_acts s rw : final_codes s = true -> faithful rw -> faithful (acts s rw).
Proof.
  revert rw. induction s as [|a s IH]; intros rw Hs Hrw; [done|]. rewrite acts_cons.
  cbn in Hs. apply andb_prop in Hs as [Ha Hs]. apply IH; [done|].
  apply faithful_act; [|done]. cbn. by rewrite andb_true_r.
Qed.

(** The status of a script's first action on the response itself. *)
Fixpoint first_status (s : list action) : option Z :=
  match s with
  | [] => None
  | AStore _ :: s => first_status s
  | AHeader code :: _ => Some code
  | AWrite _ :: _ => Some 200
  end.

Lemma acts_wrote s (rw : mabooResponseWriter conn) :
  rw_wroteHeader rw = true ->
  rw_wroteHeader (acts s rw) = true /\ statusCode (acts s rw) = statusCode rw.
Proof.
  revert rw. induction s as [|a s IH]; intros rw Hw; [done|]. rewrite acts_cons.
  assert (rw_wroteHeader (act a rw) = true /\ statusCode (act a rw) = statusCode rw) as [H1 H2];
    [|destruct (IH _ H1) as [-> ->]; by rewrite H2].
  destruct a as [f|code|bs]; cbn [act]; [done| |].
  - cbn [WriteHeader maboo_writer]. unfold rw_WriteHeader, send_hints.
    destruct (hintsSent rw); cbn [rw_wroteHeader statusCode]; by rewrite Hw.
  - cbn [Write maboo_writer]. unfold rw_Write. rewrite Hw.
    destruct (Write bs (rw_inner rw)) as [[n err] w]. done.
Qed.

Lemma acts_first_status s (rw : mabooResponseWriter conn) :
  rw_wroteHeader rw = false ->
  match first_status s with
  | Some code => rw_wroteHeader (acts s rw) = true /\ statusCode (acts s rw) = code
  | None => rw_wroteHeader (acts s rw) = false /\ statusCode (acts s rw) = statusCode rw
  end.
Proof.
  revert rw. induction s as [|[f|code|bs] s IH]; intros rw Hw; [done| | |]; rewrite acts_cons;
    cbn [first_status act].
  - exact (IH (rw_set_inner _ rw) Hw).
  - assert (rw_wroteHeader (WriteHeader code rw) = true /\ statusCode (WriteHeader code rw) = code)
      as [H1 H2]; [|destruct (acts_wrote s _ H1) as [H3 H4]; rewrite H2 in H4; done].
    cbn [WriteHeader maboo_writer]. unfold rw_WriteHeader, send_hints.
    destruct (hintsSent rw); cbn [rw_wroteHeader]; by rewrite Hw.
  - assert (rw_wroteHeader (snd (Write bs rw)) = true /\ statusCode (snd (Write bs rw)) = 200)
      as [H1 H2]; [|destruct (acts_wrote s _ H1) as [H3 H4]; rewrite H2 in H4; done].
    cbn [Write maboo_writer]. unfold rw_Write. rewrite Hw. cbn [rw_inner].
    by destruct (Write bs (rw_inner rw)) as [[n err] w].
Qed.

(** [http.Error] on a response that has been started, and on one that has not. *)
Lemma http_Error_started msg code c st hs :
  c_status c = Some (st, hs) -> exists h b, response (http_Error msg code c) = (st, h, b).
Proof.
  intros Hc. unfold http_Error. cbn. unfold conn_WriteHeader, conn_Write. cbn. rewrite Hc. cbn.
  rewrite ?Hc. destruct (bodyAllowed st); unfold response; cbn; rewrite ?Hc; eauto.
Qed.

Lemma http_Error_fresh msg code c :
  is_info code = false -> bodyAllowed code = true -> c_status c = None -> c_body c = [] ->
  exists h, response (http_Error msg code c) = (code, h, ascii_bytes msg ++ [Byte.x0a]).
Proof.
  intros Hi Hb Hc Hbody. unfold http_Error. cbn. unfold conn_WriteHeader, conn_Write. cbn.
  rewrite Hc, Hi. cbn. rewrite Hb. unfold response. cbn. rewrite Hbody. eauto.
Qed.

(** ** Properties *)

Definition log_status (e : log_entry) : option (Z * Z) :=
  match e with LogRequest _ _ st bytes _ _ => Some (st, bytes) | LogPanic _ => None end.

(** A handler that runs a script and returns or panics. *)
Definition script_then {G} (panics : bool) (s : list action) : Handler G := fun _ _ _ g w =>
  MkOutcome g (acts s w) panics.


(** A panic does not escape: the client gets a 500 with the error text when the
    handler had not started its response, and otherwise the status it had started with;
    the panic is logged, and the request is not. *)
Theorem panic_recovered (fastRequestID : Request -> string) (r : Request) (s : list action) :
  final_codes s = true ->
  let o := CoreMiddleware fastRequestID true (script_then true s) conn _ r ([], tt) fresh_conn in
  let '(st, h, b) := response (o_writer o) in
  o_panic o = false /\ fst (o_state o) = [LogPanic (Path r)]
  /\ match first_status s with
     | None => st = 500 /\ b = ascii_bytes "Internal Server Error" ++ [Byte.x0a]
     | Some code => st = code
     end.
Proof.
  intros Hs. unfold CoreMiddleware. cbn zeta.
  set (named := if bool_decide _ then _ else _).
  assert (Path (snd named) = Path r) as Hpath by (unfold named; by case_bool_decide).
  destruct named as [id r']. simpl in Hpath.
  cbn [script_then o_panic o_writer o_state].
  set (rw0 := rw_reset _).
  assert (faithful (acts s rw0)) as [Hh Hf Hb Hi] by (apply faithful_acts; [done|apply faithful_reset]).
  pose proof (acts_first_status s rw0 eq_refl) as Hfs.
  destruct (first_status s) as [code|]; destruct Hfs as [Hw Hst]; rewrite Hw in Hh, Hf.
  - destruct (Hh eq_refl) as [hs Hc]. rewrite Hst in Hc.
    destruct (http_Error_started "Internal Server Error" 500 (rw_inner (acts s rw0)) code hs Hc)
      as (h & b & ->). by rewrite Hpath.
  - destruct (Hf eq_refl) as (Hc & Hbody & _).
    destruct (http_Error_fresh "Internal Server Error" 500 (rw_inner (acts s rw0)) eq_refl eq_refl Hc Hbody)
      as (h & ->). by rewrite Hpath.
Qed.

(** ** Concrete runs *)

Definition plain_request : Request :=
  MkRequest "GET" "/x" "" "localhost" "10.0.0.1:999" false ∅.

Definition hinting : list action :=
  [ASet "Link" "</a.css>; rel=preload"; AHeader 404; AWrite [Byte.x61]].


Lemma panic_recovered_witness :
  let o := CoreMiddleware (fun _ => "id") true (script_then true []) conn _ plain_request
             ([], tt) fresh_conn in
  fst (fst (response (o_writer o))) = 500.
Proof. exact (proj1 (proj2 (proj2 (panic_recovered (fun _ => "id") plain_request [] eq_refl)))). Defined.
