(* ===== verification/Standalone.v ===== *)
(** The handlers and middlewares beside the server's own stack: the stand-alone middlewares of
    [src/internal/server/middleware.go], [earlyhints.go] and the static handler of [static.go]. *)
From Stdlib Require Import Ascii.
From S2P Require Import Prelude Config Http GoStr Middleware.
Local Open Scope string_scope.
Local Open Scope Z_scope.
Local Open Scope list_scope.

(** ** Request identifiers *)

(** [fastRequestID], for the eight bytes [rand.Read] gives. *)
Definition fastRequestID (random : list byte) : string := hex_encode (take 8 random).

(** ** The middlewares, one by one *)

Section Parts.
Context {G : Type}.
Variable newID : Request -> string.
Variable logger_Enabled : bool.

Definition RecoveryMiddleware (next : Handler (list log_entry * G)) :
    Handler (list log_entry * G) := fun W _ r lg w =>
  let o := next W _ r lg w in
  if o_panic o
  then MkOutcome (fst (o_state o) ++ [LogPanic (Path r)], snd (o_state o))
         (http_Error "Internal Server Error" 500 (o_writer o)) false
  else o.

Definition RequestIDMiddleware {S} (next : Handler S) : Handler S := fun W _ r g w =>
  let id0 := Get (r_Header r) "X-Request-ID" in
  let '(id, r) :=
    if bool_decide (id0 = "")
    then let id := newID r in (id, set_r_Header (HSet "X-Request-ID" id (r_Header r)) r)
    else (id0, r) in
  next W _ r g (SetHeader (HSet "X-Request-ID" id) w).

Definition LoggingMiddleware (next : Handler G) : Handler (list log_entry * G) := fun W _ r lg w =>
  let '(log, g) := lg in
  let o := next (mabooResponseWriter W) _ r g (rw_reset w) in
  let rw := o_writer o in
  if o_panic o then MkOutcome (log, o_state o) (rw_inner rw) true
  else
    let log := if logger_Enabled
               then log ++ [LogRequest (Method r) (Path r) (statusCode rw) (bytesWritten rw)
                              (RemoteAddr r) (Get (r_Header r) "X-Request-ID")]
               else log in
    MkOutcome (log, o_state o) (rw_inner rw) false.

(** A placeholder: it passes every request on. *)
Definition EarlyHintsMiddleware {S} (next : Handler S) : Handler S := fun W _ r g w =>
  next W _ r g w.

Lemma Get_HSet k v h : Get (HSet k v h) k = v.
Proof. unfold Get, Values, HSet. by rewrite (lookup_insert_eq (M:=gmap string) h). Qed.

(** The collapsed middleware is the composition: whatever the inner handler does, on
    whatever writer, panics included, [CoreMiddleware] leaves the same response, the same
    log and the same state as the stand-alone middlewares around each other, recovery
    outermost, then the request's name, then the early hints and the log. *)
Theorem core_is_composition (next : Handler G) (W : Type) (RW : ResponseWriter W) (r : Request)
    (lg : list log_entry * G) (w : W) :
  CoreMiddleware newID logger_Enabled next W RW r lg w
  = RecoveryMiddleware
      (RequestIDMiddleware (EarlyHintsMiddleware (LoggingMiddleware next))) W RW r lg w.
Proof.
  destruct lg as [log g].
  unfold CoreMiddleware, RecoveryMiddleware, RequestIDMiddleware, EarlyHintsMiddleware,
    LoggingMiddleware.
  case_bool_decide as Hid; cbn zeta.
  - set (r' := set_r_Header _ r).
    destruct (next (mabooResponseWriter W) _ r' g _) as [g' rw []]; cbn [o_panic o_state o_writer fst snd];
      [done|]. cbn [r_Header r' set_r_Header]. by rewrite Get_HSet.
  - by destruct (next (mabooResponseWriter W) _ r g _) as [g' rw []].
Qed.
End Parts.

(** ** The static handler *)

(** Components as [Clean] leaves them, and the path made of them. *)
Definition comps (p : string) : list string := clean_comps (is_rooted p) [] (Split slash p).
Definition build (rooted : bool) (cs : list string) : string :=
  if rooted then ("/" ++ Join_with "/" cs)%string
  else match cs with [] => "." | _ => Join_with "/" cs end.

Definition plain (c : string) : Prop := c <> "" /\ c <> "." /\ c <> "..".

Section Static.
Context {G : Type}.
(** [os.Stat]: whether the path is a directory; [http.FileServer] on the root. *)
Variable Stat : string -> option bool.
Variable FileServer : Handler G.

Record StaticHandler := MkStatic { st_root : string; st_cacheControl : string }.

(** The file the handler looks at. *)
Definition static_path (h : StaticHandler) (r : Request) : string :=
  Join [st_root h; Clean (Path r)].

Definition Static_ServeHTTP (h : StaticHandler) : Handler G := fun W _ r g w =>
  match Stat (static_path h r) with
  | None | Some true => MkOutcome g (http_Error "404 page not found" 404 w) false
  | Some false =>
      let w := if is_empty (st_cacheControl h) then w
               else SetHeader (HSet "Cache-Control" (st_cacheControl h)) w in
      FileServer W _ r g w
  end.
End Static.

(** *** Cleaning a path joined to another *)

Lemma Clean_build p : Clean p = build (is_rooted p) (comps p).
Proof. done. Qed.

Lemma Split_app_sep sep s t :
  Split sep (s ++ String sep t)%string = Split sep s ++ Split sep t.
Proof.
  induction s as [|c s IH]; simpl; [by rewrite decide_True|].
  case_decide; [by rewrite IH|]. rewrite IH. pose proof (Split_not_nil sep s).
  by destruct (Split sep s).
Qed.

Lemma clean_comps_app rooted acc xs ys :
  clean_comps rooted acc (xs ++ ys)
  = clean_comps rooted (rev (clean_comps rooted acc xs)) ys.
Proof.
  revert acc. induction xs as [|x xs IH]; intros acc; simpl; [by rewrite rev_involutive|].
  case_decide; [done|]. case_decide; [|done].
  destruct acc as [|a acc]; [done|]. by case_decide.
Qed.

Lemma clean_comps_plain rooted acc cs :
  Forall plain cs -> clean_comps rooted acc cs = rev acc ++ cs.
Proof.
  intros Hcs. revert acc. induction Hcs as [|c cs (H1 & H2 & H3) _ IH]; intros acc; simpl;
    [by rewrite app_nil_r|].
  rewrite decide_False by naive_solver. rewrite decide_False by done.
  rewrite IH. simpl. by rewrite <- app_assoc.
Qed.

(** In a rooted path [..] never stays. *)
Lemma clean_comps_rooted acc cs :
  Forall plain acc -> Forall plain (clean_comps true acc cs).
Proof.
  revert acc. induction cs as [|c cs IH]; intros acc Hacc; simpl; [by apply Forall_rev|].
  case_decide as H1; [auto|]. case_decide as H2.
  - destruct acc as [|a acc]; [auto|]. inversion_clear Hacc as [|? ? Ha Hr].
    case_decide; [subst; by destruct Ha as (_ & _ & ?)|auto].
  - apply IH. constructor; [|done]. unfold plain. naive_solver.
Qed.

(** A component of a path holds no slash. *)
Definition no_slash (c : string) : Prop := Split slash c = [c].

Lemma Split_cons_other sep c s :
  c <> sep -> exists p ps, Split sep s = p :: ps /\ Split sep (String c s) = String c p :: ps.
Proof.
  intros Hc. pose proof (Split_not_nil sep s). simpl. rewrite decide_False by done.
  destruct (Split sep s) as [|p ps]; [done|]. eauto.
Qed.

Lemma Split_no_sep sep s : Forall (fun c => Split sep c = [c]) (Split sep s).
Proof.
  induction s as [|c s IH]; simpl; [by repeat constructor|].
  case_decide as Hc; [by constructor|].
  destruct (Split sep s) as [|p ps] eqn:E; [by apply Split_not_nil in E|].
  inversion_clear IH as [|? ? Hp Hps]. constructor; [|done].
  simpl. rewrite decide_False by done. by rewrite Hp.
Qed.

Lemma clean_comps_no_slash rooted acc cs :
  Forall no_slash acc -> Forall no_slash cs -> Forall no_slash (clean_comps rooted acc cs).
Proof.
  intros Ha Hcs. revert acc Ha. induction Hcs as [|c cs Hc _ IH]; intros acc Ha; simpl;
    [by apply Forall_rev|].
  case_decide; [auto|]. case_decide.
  - destruct acc as [|a acc].
    + apply IH. destruct rooted; by repeat constructor.
    + case_decide; [apply IH; constructor; done|]. inversion_clear Ha. auto.
  - apply IH. by constructor.
Qed.

Lemma Split_Join_with cs :
  Forall no_slash cs -> cs <> [] -> Split slash (Join_with "/" cs) = cs.
Proof.
  induction 1 as [|c cs Hc Hcs IH]; [done|]. intros _.
  destruct cs as [|c' cs]; [exact Hc|].
  change (Join_with "/" (c :: c' :: cs)) with (c ++ String slash (Join_with "/" (c' :: cs)))%string.
  rewrite Split_app_sep, IH by done. by rewrite Hc.
Qed.

Lemma is_rooted_app root t : root <> "" -> is_rooted (root ++ t)%string = is_rooted root.
Proof.
  destruct root as [|c root]; [done|]. intros _. unfold is_rooted. simpl.
  destruct (bool_decide _); [|done]. simpl. by destruct root, t.
Qed.



(** ** The request context *)

Record MabooRequestCtx := MkRequestCtx { RequestID : string; StartTime : Z }.

(** A [context.Context]: values under keys, the nearest first. The key of the package is a
    type of its own, so no other package can store under it. *)
Inductive ctx :=
| Background
| WithRequestCtx (parent : ctx) (v : MabooRequestCtx)     (** under [mabooCtxKey] *)
| WithValue (parent : ctx) (k : string).                  (** under a foreign key *)

Fixpoint GetRequestCtx (c : ctx) : option MabooRequestCtx :=
  match c with
  | Background => None
  | WithRequestCtx _ v => Some v
  | WithValue parent _ => GetRequestCtx parent
  end.

(** A context the program can make: nothing under [src/] stores a request context. *)
Fixpoint of_program (c : ctx) : bool :=
  match c with
  | Background => true
  | WithRequestCtx _ _ => false
  | WithValue parent _ => of_program parent
  end.

(** No handler ever finds a request context. *)
Theorem request_ctx_missing (c : ctx) : of_program c = true -> GetRequestCtx c = None.
Proof. induction c as [|c IH v|c IH k]; [done|done|exact IH]. Qed.

Example fastRequestID_ex :
  fastRequestID [Byte.x00; Byte.x9f; Byte.xff; Byte.x10; Byte.x01; Byte.x02; Byte.x03; Byte.xab]
  = "009fff10010203ab".
Proof. by vm_compute. Qed.
