(* ===== verification/Router.v ===== *)
(** Requests to PHP: [src/internal/server/router.go], [health.go], [pool.go] and
    [src/internal/phpengine/context.go], [detector.go].

    [WorkerPool] is the interface the server asks of a pool; the router's theorems are
    proved against it. The file server, the file system and the decoding of queries, forms
    and cookies belong to the standard library and are parameters. *)
From Stdlib Require Import Ascii.
From S2P Require Import Prelude Config Engine Http GoStr.
Local Open Scope string_scope.
Local Open Scope Z_scope.
Local Open Scope list_scope.

(** ** The PHP context *)

Record File := MkFile { f_Name : string; f_Type : string; f_Size : Z; f_TempName : string }.

Record Context := MkContext {
  ctx_Server : gmap string string;
  ctx_Get : gmap string string;
  ctx_Post : gmap string string;
  ctx_Cookies : gmap string string;
  ctx_Files : gmap string File;
  ctx_Env : gmap string string;
  ScriptFilename : string;
  DocumentRoot : string
}.

(** [values[0]]; the standard library's maps hold no empty lists. *)
Definition first_value (vs : list string) : string := match vs with v :: _ => v | [] => "" end.

Definition http_key (key : string) : string :=
  String.append "HTTP_" (ToUpper (ReplaceByte "-"%char "_"%char key)).

(** One header: all but the two that have variables of their own. *)
Definition add_header (server : gmap string string) (kv : string * list string) : gmap string string :=
  let httpKey := http_key (fst kv) in
  if bool_decide (httpKey = "HTTP_CONTENT_TYPE") || bool_decide (httpKey = "HTTP_CONTENT_LENGTH")
  then server else <[httpKey := first_value (snd kv)]> server.

Definition first_values (kvs : list (string * list string)) : gmap string string :=
  foldl (fun m kv => <[fst kv := first_value (snd kv)]> m) ∅ kvs.

Section Context.
(** The order in which [range] visits the headers; the decoded query, form and cookies. *)
Variable range : headers -> list (string * list string).
Variable Query PostForm : Request -> list (string * list string).
Variable Cookies : Request -> list (string * string).

Definition cgi_server (r : Request) (docRoot entryPoint : string) : gmap string string :=
  let s : gmap string string :=
    list_to_map [
      ("CONTENT_LENGTH", Get (r_Header r) "Content-Length");
      ("CONTENT_TYPE", Get (r_Header r) "Content-Type");
      ("REMOTE_ADDR", first_value (Split ":"%char (RemoteAddr r)));
      ("PHP_SELF", String.append "/" entryPoint);
      ("SCRIPT_FILENAME", Join [docRoot; entryPoint]);
      ("SCRIPT_NAME", String.append "/" entryPoint);
      ("DOCUMENT_ROOT", docRoot);
      ("SERVER_NAME", Host r);
      ("SERVER_PROTOCOL", "HTTP/1.1");
      ("QUERY_STRING", RawQuery r);
      ("REQUEST_URI", Path r);
      ("REQUEST_METHOD", Method r)] in
  if TLS r then <["HTTPS" := "on"]> s else s.

Definition NewContext (r : Request) (docRoot entryPoint : string) : Context :=
  MkContext
    (foldl add_header (cgi_server r docRoot entryPoint) (range (r_Header r)))
    (first_values (Query r))
    (if bool_decide (Method r = "POST") then first_values (PostForm r) else ∅)
    (foldl (fun m c => <[fst c := snd c]> m) ∅ (Cookies r))
    ∅ ∅ (Join [docRoot; entryPoint]) docRoot.
End Context.

(** ** The entry point *)

Definition candidates : list string :=
  ["public/index.php"; "index.php"; "app.php"; "frontend.php"; "main.php"].

Section Detect.
(** [os.Stat] finds the file. *)
Variable Stat : string -> bool.

Definition DetectEntryPoint (docRoot explicit : string) : string :=
  if negb (is_empty explicit) && negb (bool_decide (explicit = "auto")) then explicit
  else match find (fun c => Stat (Join [docRoot; c])) candidates with
       | Some c => c
       | None => "index.php"
       end.

Definition DetectFramework (docRoot : string) : string :=
  if Stat (Join [docRoot; "artisan"]) then "laravel"
  else if Stat (Join [docRoot; "bin"; "console"]) then "symfony"
  else if Stat (Join [docRoot; "wp-config.php"]) then "wordpress"
  else if Stat (Join [docRoot; "core"; "lib"; "Drupal.php"]) then "drupal"
  else "generic".
End Detect.

(** ** The pool interface *)

Record StatsGetter := MkStatsGetter {
  TotalWorkers : Z; BusyWorkers : Z; IdleWorkers : Z; TotalRequests : Z
}.

Class WorkerPool (P E : Type) := {
  pool_Exec : Context -> string -> P -> result Response E * P;
  pool_Stats : P -> StatsGetter;
  error_text : E -> string
}.

(** ** The router *)

Definition static_extensions : list string :=
  [".css"; ".js"; ".png"; ".jpg"; ".jpeg"; ".gif"; ".svg"; ".ico";
   ".woff"; ".woff2"; ".ttf"; ".eot"; ".map"; ".webp"; ".avif";
   ".mp4"; ".webm"; ".pdf"; ".txt"; ".xml"; ".json"].

Definition isStaticFile (path : string) : bool :=
  bool_decide (ToLower (Ext path) ∈ static_extensions).

Section Router.
Context {P E : Type} `{WorkerPool P E}.
Variable cfg : Config.
Variable Stat : string -> bool.
Variable range_headers : headers -> list (string * list string).
Variable range_strings : gmap string string -> list (string * string).
Variable Query PostForm : Request -> list (string * list string).
Variable Cookies : Request -> list (string * string).
(** [http.FileServer] on the static root; the JSON documents of the health endpoints. *)
Variable FileServer : Handler P.
Variable liveness_json : list byte.
Variable readiness_json : StatsGetter -> list byte.

(** What the handler does with the pool's answer. *)
Definition php_script (res : result Response E) : list action :=
  match res with
  | Ok resp =>
      map (fun kv => ASet (fst kv) (snd kv)) (range_strings (resp_Headers resp))
      ++ [AHeader (resp_Status resp); AWrite (ascii_bytes (resp_Body resp))]
  | Err _ => []
  end.

Definition docRoot_of : string :=
  if is_empty (app_Root (App cfg)) then "." else app_Root (App cfg).

Definition phpHandler : Handler P := fun W _ r p w =>
  let docRoot := docRoot_of in
  let entryPoint := DetectEntryPoint Stat docRoot (app_Entry (App cfg)) in
  let script := Join [docRoot; entryPoint] in
  let ctx := NewContext range_headers Query PostForm Cookies r docRoot entryPoint in
  let '(res, p) := pool_Exec ctx script p in
  match res with
  | Err e => MkOutcome p (http_Error (String.append "Internal Server Error: " (error_text e)) 502 w) false
  | Ok _ => MkOutcome p (acts (php_script res) w) false
  end.

Definition liveness {W} `{ResponseWriter W} (w : W) : W :=
  acts [ASet "Content-Type" "application/json"; AHeader 200; AWrite liveness_json] w.

Definition readiness {W} `{ResponseWriter W} (p : P) (w : W) : W :=
  let stats := pool_Stats p in
  let status := if TotalWorkers stats >? 0 then 200 else 503 in
  acts [ASet "Content-Type" "application/json"; AHeader status; AWrite (readiness_json stats)] w.

Definition healthHandler : Handler P := fun W _ r p w =>
  if bool_decide (Path r ∈ ["/ready"; "/readyz"])
  then MkOutcome p (readiness p w) false
  else MkOutcome p (liveness w) false.

Definition static : option (Handler P) :=
  if is_empty (static_Root (Static cfg)) then None else Some FileServer.

Definition ServeHTTP : Handler P := fun W _ r p w =>
  if bool_decide (Path r ∈ ["/health"; "/healthz"; "/ready"; "/readyz"])
  then healthHandler W _ r p w
  else
    match static with
    | Some files =>
        if isStaticFile (Path r) then
          let w := if is_empty (static_CacheControl (Static cfg)) then w
                   else SetHeader (HSet "Cache-Control" (static_CacheControl (Static cfg))) w in
          files W _ r p w
        else phpHandler W _ r p w
    | None => phpHandler W _ r p w
    end.
End Router.

Example isStaticFile_ex :
  map isStaticFile ["/a/b.CSS"; "/app.min.js"; "/index.php"; "/a.js/"; "/.json"; "/x"]
  = [true; true; false; false; true; false].
Proof. by vm_compute. Qed.

(** ** The variables of [$_SERVER] *)

Definition own_variable (k : string) : bool :=
  bool_decide (k = "HTTP_CONTENT_TYPE") || bool_decide (k = "HTTP_CONTENT_LENGTH").

Lemma lookup_add_header m kv k :
  add_header m kv !! k
  = if decide (http_key (fst kv) = k)
    then if own_variable k then m !! k else Some (first_value (snd kv))
    else m !! k.
Proof.
  unfold add_header. change (_ || _) with (own_variable (http_key (fst kv))).
  case_decide as Hk; [subst k|]; destruct (own_variable _); try done;
    [by rewrite lookup_insert_eq|by rewrite lookup_insert_ne].
Qed.

Lemma lookup_foldl_header kvs s k :
  foldl add_header s kvs !! k
  = match list_find (fun kv => http_key (fst kv) = k) (rev kvs) with
    | Some (_, kv) =>
        if own_variable k then s !! k else Some (first_value (snd kv))
    | None => s !! k
    end.
Proof.
  revert s. induction kvs as [|kv kvs IH] using rev_ind; intros s; [done|].
  rewrite foldl_app, rev_app_distr. cbn [foldl rev app list_find].
  rewrite lookup_add_header. case_decide as Hk.
  - rewrite IH. destruct (own_variable k); [|done].
    by destruct (list_find _ (rev kvs)) as [[i x]|].
  - rewrite IH. by destruct (list_find _ (rev kvs)) as [[i x]|].
Qed.

Lemma http_key_prefix key : exists t, http_key key = String.append "HTTP_" t.
Proof. by eexists. Qed.

Lemma Split_head sep s t :
  forallb (fun c => negb (Ascii.eqb c sep)) (String.list_ascii_of_string s) = true ->
  first_value (Split sep (String.append s (String sep t))) = s.
Proof.
  induction s as [|c s IH]; simpl.
  - by rewrite decide_True by done.
  - intros [Hc Hs]%andb_prop. apply negb_true_iff, Ascii.eqb_neq in Hc.
    rewrite decide_False by done. specialize (IH Hs).
    destruct (Split sep (String.append s (String sep t))) as [|p ps] eqn:E; simpl in *; [|by rewrite IH].
    by pose proof (Split_not_nil sep (String.append s (String sep t))).
Qed.

Lemma cgi_not_http r docRoot entry k key : is_Some (cgi_server r docRoot entry !! k) -> http_key key <> k.
Proof.
  intros [v Hv] <-. unfold cgi_server in Hv.
  assert (forall (l : list (string * string)), forallb (fun kv => negb (HasPrefix (fst kv) "HTTP_")) l = true ->
    (list_to_map l : gmap string string) !! http_key key = None) as Hno.
  { intros l Hl. apply not_elem_of_list_to_map_1. intros ([k' v'] & Hk & Hin')%list_elem_of_fmap.
    simpl in Hk. subst k'. rewrite forallb_forall in Hl.
    apply list_elem_of_In, Hl in Hin'. by simpl in Hin'. }
  destruct (TLS r); [rewrite lookup_insert_ne in Hv by done|]; by rewrite Hno in Hv.
Qed.

(** A header never reaches a CGI variable. *)
Lemma server_cgi range Query PostForm Cookies r docRoot entry k v :
  cgi_server r docRoot entry !! k = Some v ->
  ctx_Server (NewContext range Query PostForm Cookies r docRoot entry) !! k = Some v.
Proof.
  intros Hv. cbn [ctx_Server NewContext]. rewrite lookup_foldl_header.
  destruct (list_find _ _) as [[i kv]|] eqn:Hf; [|done].
  apply list_find_Some in Hf as (_ & Hk & _). exfalso.
  by apply (cgi_not_http r docRoot entry k (fst kv) ltac:(by exists v)).
Qed.


(** [REMOTE_ADDR] is what stands before the first colon of the client's address and
    port: an IPv4 address, but for every IPv6 address only its start, a lone bracket for
    the loopback address. *)
Theorem remote_addr (range : headers -> list (string * list string))
    (Query PostForm : Request -> list (string * list string))
    (Cookies : Request -> list (string * string)) (r : Request) (docRoot entry host rest : string) :
  forallb (fun c => negb (Ascii.eqb c ":"%char)) (String.list_ascii_of_string host) = true ->
  RemoteAddr r = String.append host (String ":"%char rest) ->
  ctx_Server (NewContext range Query PostForm Cookies r docRoot entry) !! "REMOTE_ADDR" = Some host.
Proof.
  intros Hh Hr. apply server_cgi.
  transitivity (Some (first_value (Split ":"%char (RemoteAddr r)))).
  { unfold cgi_server. destruct (TLS r); [rewrite lookup_insert_ne by done|]; done. }
  by rewrite Hr, Split_head.
Qed.

(** ** Concrete runs *)

Definition v6_request : Request :=
  MkRequest "GET" "/" "" "localhost" "[::1]:51234" false
    {["Accept" := ["*/*"]; "Content-Type" := ["text/plain"]; "Proxy" := ["evil"]]}.
Definition no_pairs : Request -> list (string * list string) := fun _ => [].


Lemma remote_addr_witness :
  ctx_Server (NewContext map_to_list no_pairs no_pairs (fun _ => []) v6_request "." "index.php")
    !! "REMOTE_ADDR" = Some "[".
Proof. exact (remote_addr map_to_list no_pairs no_pairs (fun _ => []) v6_request "." "index.php" "["
         ":1]:51234" eq_refl eq_refl). Defined.
