(* ===== verification/Metrics.v ===== *)
(** The metrics: [src/internal/server/metrics.go].

    The counters are a record, a request's contribution to them is [observe], and the
    report is the list of samples the endpoint prints, by family, with its text. The numbers
    of the worker pool come through the pool's interface; those of the Go runtime and the
    printing of a floating-point number are parameters. *)
From stdpp Require Import pretty.
From Stdlib Require Import Ascii.
From S2P Require Import Prelude GoStr GoFloat Http Router.
Local Open Scope string_scope.
Local Open Scope Z_scope.
Local Open Scope list_scope.

(** ** State *)

(** A [sync.Map] of atomic counters, as a map; a missing counter is 0. *)
Record Metrics := MkMetrics {
  totalRequests : gmap string Z;
  activeRequests : Z;
  totalBytes : Z;
  durationCounts : gmap string Z;
  durationSum : Z;
  durationCount : Z
}.

(** [durationBuckets] with the keys [fmt.Sprintf("%.3f", bucket)] gives them. *)
Definition durationBuckets : list (string * float64) :=
  [("0.005", fdiv (f64 5) (f64 1000)); ("0.010", fdiv (f64 1) (f64 100));
   ("0.025", fdiv (f64 25) (f64 1000)); ("0.050", fdiv (f64 5) (f64 100));
   ("0.100", fdiv (f64 1) (f64 10)); ("0.250", fdiv (f64 1) (f64 4));
   ("0.500", fdiv (f64 1) (f64 2)); ("1.000", f64 1); ("2.500", fdiv (f64 5) (f64 2));
   ("5.000", f64 5); ("10.000", f64 10)].

Definition NewMetrics : Metrics := MkMetrics ∅ 0 0 ∅ 0 0.

(** [LoadOrStore] and [Add(1)] *)
Definition incr (k : string) (m : gmap string Z) : gmap string Z :=
  <[k := int64 (default 0 (m !! k) + 1)]> m.

(** [duration.Seconds()] *)
Definition Seconds (d : Z) : float64 :=
  fadd (f64 (Z.quot d 1000000000)) (fdiv (f64 (Z.rem d 1000000000)) (f64 1000000000)).

(** [durationSec <= bucket] *)
Definition in_bucket (d : Z) (b : string * float64) : bool := fle (Seconds d) (snd b).

(** [fmt.Sprintf("%s:%d", method, status)] *)
Definition request_key (method : string) (status : Z) : string :=
  (method ++ ":" ++ pretty status)%string.

Definition add_active (d : Z) (m : Metrics) : Metrics :=
  MkMetrics (totalRequests m) (int32 (activeRequests m + d)) (totalBytes m) (durationCounts m)
    (durationSum m) (durationCount m).

(** What one finished request adds. *)
Definition observe (method : string) (status bytes duration : Z) (m : Metrics) : Metrics :=
  MkMetrics (incr (request_key method status) (totalRequests m))
    (activeRequests m)
    (int64 (totalBytes m + bytes))
    (foldl (fun cs b => if in_bucket duration b then incr (fst b) cs else cs)
       (durationCounts m) durationBuckets)
    (int64 (durationSum m + duration))
    (int64 (durationCount m + 1)).

(** ** [metricsResponseWriter] *)

Record metricsResponseWriter (W : Type) := MkMW {
  mw_inner : W;
  mw_statusCode : Z;
  mw_bytesWritten : Z
}.
Arguments MkMW {W}. Arguments mw_inner {W}. Arguments mw_statusCode {W}. Arguments mw_bytesWritten {W}.

#[export] Instance metrics_writer {W} `{ResponseWriter W} : ResponseWriter (metricsResponseWriter W) := {
  Header rw := Header (mw_inner rw);
  SetHeader f rw := MkMW (SetHeader f (mw_inner rw)) (mw_statusCode rw) (mw_bytesWritten rw);
  WriteHeader code rw := MkMW (WriteHeader code (mw_inner rw)) code (mw_bytesWritten rw);
  Write b rw :=
    let '(n, err, w) := Write b (mw_inner rw) in
    (n, err, MkMW w (mw_statusCode rw) (mw_bytesWritten rw + Z.of_nat n))
}.

(** ** The report *)

Inductive sample :=
| RequestsTotal (method status : string) (n : Z)
| RequestsActive (n : Z)
| ResponseBytes (n : Z)
| DurationBucket (le : string) (n : Z)
| DurationSum (nanoseconds : Z)     (** printed in seconds *)
| DurationCount (n : Z)
| WorkersTotal (n : Z)
| WorkersBusy (n : Z)
| WorkersIdle (n : Z)
| PoolRequests (n : Z)
| Goroutines (n : Z)
| MemAlloc (n : Z).

(** [strings.SplitN(key, ":", 2)] *)
Fixpoint split_key (k : string) : string * string :=
  match k with
  | "" => ("", "")
  | String c k => if Ascii.eqb c ":"%char then ("", k)
                  else let '(a, b) := split_key k in (String c a, b)
  end.

(** The loop over the buckets, with its running sum. *)
Fixpoint bucket_samples (cumulative : Z) (counts : gmap string Z) (bs : list (string * float64)) :
    list sample :=
  match bs with
  | [] => []
  | b :: bs =>
      let cumulative := match counts !! fst b with
                        | Some n => int64 (cumulative + n)
                        | None => cumulative
                        end in
      DurationBucket (fst b) cumulative :: bucket_samples cumulative counts bs
  end.

(** What the report takes from elsewhere: the order in which the counters are visited, the
    runtime's numbers, and [fmt.Sprintf("%.6f", seconds)] of a number of nanoseconds. *)
Record Exposition := MkExposition {
  range_counts : gmap string Z -> list (string * Z);
  NumGoroutine : Z;
  mem_Alloc : Z;
  format_seconds : Z -> string
}.

(** Nothing to report, for concrete runs. *)
Definition no_exposition : Exposition := MkExposition map_to_list 0 0 (fun _ => "").

(** A family of samples: its name, its help and its type. *)
Record family := MkFamily { fm_name : string; fm_help : string; fm_type : string }.

Definition pool_report (st : StatsGetter) : list (family * list sample) :=
  [(MkFamily "maboo_workers_total" "Total number of PHP workers." "gauge", [WorkersTotal (TotalWorkers st)]);
   (MkFamily "maboo_workers_busy" "Number of busy PHP workers." "gauge", [WorkersBusy (BusyWorkers st)]);
   (MkFamily "maboo_workers_idle" "Number of idle PHP workers." "gauge", [WorkersIdle (IdleWorkers st)]);
   (MkFamily "maboo_pool_requests_total" "Total requests processed by worker pool." "counter",
    [PoolRequests (TotalRequests st)])].

(** The report, with the pool's numbers when there is a pool. *)
Definition report (x : Exposition) (stats : option StatsGetter) (m : Metrics) :
    list (family * list sample) :=
  [(MkFamily "maboo_http_requests_total" "Total number of HTTP requests." "counter",
    map (fun '(key, n) => RequestsTotal (fst (split_key key)) (snd (split_key key)) n)
      (range_counts x (totalRequests m)));
   (MkFamily "maboo_http_requests_active" "Current number of active HTTP requests." "gauge",
    [RequestsActive (activeRequests m)]);
   (MkFamily "maboo_http_response_bytes_total" "Total bytes sent in HTTP responses." "counter",
    [ResponseBytes (totalBytes m)]);
   (MkFamily "maboo_http_request_duration_seconds" "HTTP request duration in seconds." "histogram",
    bucket_samples 0 (durationCounts m) durationBuckets
    ++ [DurationBucket "+Inf" (durationCount m); DurationSum (durationSum m);
        DurationCount (durationCount m)])]
  ++ match stats with Some st => pool_report st | None => [] end
  ++ [(MkFamily "maboo_go_goroutines" "Number of goroutines." "gauge", [Goroutines (NumGoroutine x)]);
      (MkFamily "maboo_go_memstats_alloc_bytes" "Number of bytes allocated." "gauge",
       [MemAlloc (mem_Alloc x)])].

(** The text of a line; byte 10 ends it, byte 34 is the quotation mark. *)
Definition end_line : string := String (ascii_of_nat 10) "".
Definition label (name value : string) : string :=
  let q := String (ascii_of_nat 34) "" in (name ++ "=" ++ q ++ value ++ q)%string.

Definition sample_text (x : Exposition) (s : sample) : string :=
  (match s with
   | RequestsTotal method status n =>
       "maboo_http_requests_total{" ++ label "method" method ++ "," ++ label "status" status ++ "} " ++ pretty n
   | RequestsActive n => "maboo_http_requests_active " ++ pretty n
   | ResponseBytes n => "maboo_http_response_bytes_total " ++ pretty n
   | DurationBucket le n =>
       "maboo_http_request_duration_seconds_bucket{" ++ label "le" le ++ "} " ++ pretty n
   | DurationSum ns => "maboo_http_request_duration_seconds_sum " ++ format_seconds x ns
   | DurationCount n => "maboo_http_request_duration_seconds_count " ++ pretty n
   | WorkersTotal n => "maboo_workers_total " ++ pretty n
   | WorkersBusy n => "maboo_workers_busy " ++ pretty n
   | WorkersIdle n => "maboo_workers_idle " ++ pretty n
   | PoolRequests n => "maboo_pool_requests_total " ++ pretty n
   | Goroutines n => "maboo_go_goroutines " ++ pretty n
   | MemAlloc n => "maboo_go_memstats_alloc_bytes " ++ pretty n
   end ++ end_line)%string.

Definition family_text (x : Exposition) (fs : family * list sample) : string :=
  ("# HELP " ++ fm_name (fst fs) ++ " " ++ fm_help (fst fs) ++ end_line
   ++ "# TYPE " ++ fm_name (fst fs) ++ " " ++ fm_type (fst fs) ++ end_line
   ++ String.concat "" (map (sample_text x) (snd fs)))%string.

Definition report_text (x : Exposition) (fs : list (family * list sample)) : string :=
  String.concat "" (map (family_text x) fs).

Section Middleware.
Context {G : Type}.
(** The measured duration of a request, and the pool's [Stats] as the state has them. *)
Variable duration : Request -> Z.
Variable stats : G -> option StatsGetter.
Variable x : Exposition.

Definition serveMetrics {W} `{ResponseWriter W} (m : Metrics) (g : G) (w : W) : W :=
  let w := SetHeader (HSet "Content-Type" "text/plain; version=0.0.4; charset=utf-8") w in
  snd (Write (ascii_bytes (report_text x (report x (stats g) m))) w).

(** A panic passes through: the deferred decrement runs, the rest does not. *)
Definition MetricsMiddleware (metricsPath : string) (next : Handler G) : Handler (Metrics * G) :=
  fun W _ r mg w =>
  let '(m, g) := mg in
  if bool_decide (Path r = metricsPath) then MkOutcome (m, g) (serveMetrics m g w) false
  else
    let m := add_active 1 m in
    let o := next (metricsResponseWriter W) _ r g (MkMW w 200 0) in
    let rw := o_writer o in
    let m := if o_panic o then m
             else observe (Method r) (mw_statusCode rw) (mw_bytesWritten rw) (duration r) m in
    MkOutcome (add_active (-1) m, o_state o) (mw_inner rw) (o_panic o).
End Middleware.

(** ** What the counters hold *)

Record observation := MkObs {
  ob_method : string; ob_status : Z; ob_bytes : Z; ob_duration : Z
}.

Definition observe_all (os : list observation) (m : Metrics) : Metrics :=
  foldl (fun m o => observe (ob_method o) (ob_status o) (ob_bytes o) (ob_duration o) m) m os.

Definition count_of {A} (f : A -> bool) (l : list A) : Z := Z.of_nat (length (filter f l)).
Definition sum_of {A} (f : A -> Z) (l : list A) : Z := foldr (fun a n => f a + n) 0 l.

Lemma count_of_snoc {A} (f : A -> bool) l a :
  count_of f (l ++ [a]) = count_of f l + (if f a then 1 else 0).
Proof.
  unfold count_of. rewrite filter_app, length_app, filter_cons, filter_nil.
  destruct (f a); simpl; lia.
Qed.

Lemma sum_of_snoc {A} (f : A -> Z) l a : sum_of f (l ++ [a]) = sum_of f l + f a.
Proof. unfold sum_of. induction l as [|b l IH]; simpl; [lia|]. rewrite IH. lia. Qed.

Lemma lookup_incr k j m :
  default 0 (incr k m !! j) = if decide (j = k) then int64 (default 0 (m !! k) + 1) else default 0 (m !! j).
Proof. unfold incr. rewrite lookup_insert. repeat case_decide; by subst. Qed.

(** The loop over the buckets adds one to each bucket the duration is in. *)
Lemma bucket_loop d bs cs k :
  NoDup (map fst bs) ->
  default 0 (foldl (fun cs b => if in_bucket d b then incr (fst b) cs else cs) cs bs !! k)
  = match list_find (fun b => fst b = k) bs with
    | Some (_, b) => if in_bucket d b then int64 (default 0 (cs !! k) + 1) else default 0 (cs !! k)
    | None => default 0 (cs !! k)
    end.
Proof.
  revert cs. induction bs as [|b bs IH]; intros cs; simpl; [done|].
  intros [Hb Hbs]%NoDup_cons. rewrite (IH _ Hbs). case_decide as Hk.
  - assert (list_find (fun b => fst b = k) bs = None) as ->.
    { apply list_find_None, Forall_forall. intros x Hx Hxk. apply Hb, list_elem_of_fmap.
      exists x. split; congruence. }
    destruct (in_bucket d b); [|done]. rewrite lookup_incr, decide_True by done. by subst.
  - destruct (list_find _ bs) as [[i x]|] eqn:Hf; simpl.
    all: destruct (in_bucket d b); rewrite ?lookup_incr, ?decide_False by congruence; done.
Qed.

Lemma durationBuckets_NoDup : NoDup (map fst durationBuckets).
Proof. apply (bool_decide_unpack _). by vm_compute. Qed.

Lemma durationBuckets_find b :
  b ∈ durationBuckets -> exists i, list_find (fun x => fst x = fst b) durationBuckets = Some (i, b).
Proof.
  pose proof durationBuckets_NoDup as Hnd. revert Hnd.
  induction durationBuckets as [|x bs IH]; [by intros _ ?%elem_of_nil|].
  cbn [map]. intros [Hx Hbs]%NoDup_cons Hb. cbn [list_find]. case_decide as Hk.
  - exists 0%nat. apply elem_of_cons in Hb as [->|Hb]; [done|]. exfalso.
    apply Hx. rewrite Hk. by apply list_elem_of_fmap_2.
  - apply elem_of_cons in Hb as [->|Hb]; [done|]. destruct (IH Hbs Hb) as [i ->]. by eexists.
Qed.

Lemma durationCounts_spec os b :
  b ∈ durationBuckets ->
  default 0 (durationCounts (observe_all os NewMetrics) !! fst b)
  = int64 (count_of (fun o => in_bucket (ob_duration o) b) os).
Proof.
  intros Hb. unfold observe_all. induction os as [|o os IH] using rev_ind; [done|].
  rewrite foldl_app. set (m := foldl _ NewMetrics os) in *. cbn [foldl durationCounts observe].
  rewrite bucket_loop by apply durationBuckets_NoDup.
  destruct (durationBuckets_find b Hb) as [i ->]. rewrite count_of_snoc, IH.
  destruct (in_bucket _ b); [by rewrite int64_add|f_equal; lia].
Qed.

Lemma durationCount_spec os :
  durationCount (observe_all os NewMetrics) = int64 (Z.of_nat (length os)).
Proof.
  unfold observe_all. induction os as [|o os IH] using rev_ind; [done|].
  rewrite foldl_app. cbn [foldl observe durationCount]. rewrite IH, int64_add, length_app.
  f_equal. simpl. lia.
Qed.

(** The counters add up: after any sequence of finished requests the totals, the count
    per method and status, and the count per duration bucket are the numbers of those
    requests, in 64-bit arithmetic. *)
Theorem counters_add_up (os : list observation) :
  let m := observe_all os NewMetrics in
  (forall k, default 0 (totalRequests m !! k)
             = int64 (count_of (fun o => bool_decide (request_key (ob_method o) (ob_status o) = k)) os))
  /\ totalBytes m = int64 (sum_of ob_bytes os)
  /\ durationSum m = int64 (sum_of ob_duration os)
  /\ durationCount m = int64 (Z.of_nat (length os))
  /\ (forall b, b ∈ durationBuckets ->
       default 0 (durationCounts m !! fst b)
       = int64 (count_of (fun o => in_bucket (ob_duration o) b) os)).
Proof.
  cbv zeta. split; [|split; [|split; [|split; [apply durationCount_spec|apply durationCounts_spec]]]].
  - intros k. unfold observe_all. induction os as [|o os IH] using rev_ind; [done|].
    rewrite foldl_app. cbn [foldl observe totalRequests].
    rewrite lookup_incr, count_of_snoc. case_decide as Hk.
    + subst k. rewrite IH, bool_decide_true by done. by rewrite int64_add.
    + rewrite IH, bool_decide_false by congruence. f_equal. lia.
  - unfold observe_all. induction os as [|o os IH] using rev_ind; [done|].
    rewrite foldl_app. cbn [foldl observe totalBytes]. by rewrite sum_of_snoc, IH, int64_add.
  - unfold observe_all. induction os as [|o os IH] using rev_ind; [done|].
    rewrite foldl_app. cbn [foldl observe durationSum]. by rewrite sum_of_snoc, IH, int64_add.
Qed.

(** ** The histogram *)

Definition bucket_counts (counts : gmap string Z) (bs : list (string * float64)) : list Z :=
  map (fun b => default 0 (counts !! fst b)) bs.

Lemma bucket_samples_sum counts bs c :
  bucket_samples (int64 c) counts bs
  = map (fun k => DurationBucket (default "" (fst <$> bs !! k))
                    (int64 (c + sum_of id (take (S k) (bucket_counts counts bs)))))
        (seq 0 (length bs)).
Proof.
  revert c. induction bs as [|b bs IH]; intros c; [done|].
  cbn [bucket_samples length seq map]. rewrite <- seq_shift, map_map.
  assert (match counts !! fst b with Some n => int64 (int64 c + n) | None => int64 c end
          = int64 (c + default 0 (counts !! fst b))) as ->.
  { destruct (counts !! fst b); simpl; [apply int64_add|f_equal; lia]. }
  f_equal.
  - simpl. f_equal. f_equal. unfold id. lia.
  - rewrite IH. apply map_ext. intros k. simpl. f_equal. f_equal. unfold id. lia.
Qed.

(** What the report shows for the buckets, from the requests. *)
Lemma bucket_samples_spec os :
  bucket_samples 0 (durationCounts (observe_all os NewMetrics)) durationBuckets
  = map (fun k => DurationBucket (default "" (fst <$> durationBuckets !! k))
           (int64 (sum_of (fun b => int64 (count_of (fun o => in_bucket (ob_duration o) b) os))
                     (take (S k) durationBuckets))))
        (seq 0 11).
Proof.
  set (m := observe_all os NewMetrics).
  change (bucket_samples 0) with (bucket_samples (int64 0)).
  rewrite (bucket_samples_sum (durationCounts m) durationBuckets 0).
  apply map_ext. intros k. rewrite Z.add_0_l. do 2 f_equal.
  unfold bucket_counts.
  assert (map (fun b => default 0 (durationCounts m !! fst b)) durationBuckets
          = map (fun b => int64 (count_of (fun o => in_bucket (ob_duration o) b) os)) durationBuckets) as ->.
  { apply map_ext_in. intros b Hb%list_elem_of_In. by apply durationCounts_spec. }
  rewrite firstn_map. generalize (take (S k) durationBuckets). intros bs.
  induction bs as [|b bs IH]; [done|]. unfold sum_of in *. cbn [map foldr]. rewrite IH. done.
Qed.

Lemma count_of_all {A} (f : A -> bool) l : forallb f l = true -> count_of f l = Z.of_nat (length l).
Proof.
  intros H. unfold count_of. f_equal. induction l as [|a l IH]; [done|].
  simpl in H. apply andb_prop in H as [Ha Hl]. rewrite filter_cons, decide_True by (by rewrite Ha).
  simpl. by rewrite IH.
Qed.

(** The exported histogram is cumulative twice: the counters of the buckets already
    count every request at or below their bound, and the report adds them up again, so the
    bucket [k] shows the sum over all buckets up to [k]. After [n] requests faster than
    every bound the last finite bucket shows [11 * n] while [+Inf] and the count show [n]. *)
Theorem histogram_counts_twice (expo : Exposition) (stats : option StatsGetter) (os : list observation) :
  let m := observe_all os NewMetrics in
  bucket_samples 0 (durationCounts m) durationBuckets
  = map (fun k => DurationBucket (default "" (fst <$> durationBuckets !! k))
           (int64 (sum_of (fun b => int64 (count_of (fun o => in_bucket (ob_duration o) b) os))
                     (take (S k) durationBuckets))))
        (seq 0 11)
  /\ (forallb (fun o => forallb (in_bucket (ob_duration o)) durationBuckets) os = true ->
      Z.of_nat (length os) * 11 < 2 ^ 63 ->
      last (bucket_samples 0 (durationCounts m) durationBuckets)
      = Some (DurationBucket "10.000" (11 * Z.of_nat (length os)))
      /\ DurationBucket "+Inf" (durationCount m) ∈ (report expo stats m ≫= snd)
      /\ durationCount m = Z.of_nat (length os)).
Proof.
  cbv zeta. rewrite bucket_samples_spec. split; [done|]. intros Hall Hn. split; [|split].
  - assert (forall b, b ∈ durationBuckets ->
       int64 (count_of (fun o => in_bucket (ob_duration o) b) os) = Z.of_nat (length os)) as Hc.
    { intros b Hb. rewrite count_of_all; [apply int64_id; lia|].
      rewrite forallb_forall in Hall |- *. intros o Ho. specialize (Hall o Ho).
      rewrite forallb_forall in Hall. apply Hall. by apply list_elem_of_In. }
    rewrite (last_lookup (map _ _)). rewrite length_map, length_seq. simpl pred.
    rewrite list_lookup_fmap. cbn [lookup list_lookup seq fmap option_fmap option_map].
    do 2 f_equal. rewrite take_ge by (simpl; lia).
    set (f := fun b => int64 (count_of (fun o => in_bucket (ob_duration o) b) os)) in *.
    assert (forall bs, (forall b, b ∈ bs -> f b = Z.of_nat (length os)) ->
      sum_of f bs = Z.of_nat (length bs) * Z.of_nat (length os)) as Hsum.
    { intros bs Hbs. induction bs as [|b bs IH]; [done|]. unfold sum_of in *. simpl.
      rewrite (Hbs b (list_elem_of_here _ _)), IH; [lia|]. intros x Hx. apply Hbs. by right. }
    rewrite (Hsum durationBuckets Hc), int64_id; simpl length; lia.
  - apply list_elem_of_bind. eexists. split; [|unfold report; do 3 right; left].
    cbn [snd]. apply elem_of_app. right. left.
  - rewrite durationCount_spec. apply int64_id. lia.
Qed.

(** The text of a family with one sample. *)
Example report_text_ex :
  family_text no_exposition
    (MkFamily "maboo_http_requests_total" "Total number of HTTP requests." "counter",
     [RequestsTotal "GET" "200" 3])
  = ("# HELP maboo_http_requests_total Total number of HTTP requests." ++ end_line
     ++ "# TYPE maboo_http_requests_total counter" ++ end_line
     ++ "maboo_http_requests_total{" ++ label "method" "GET" ++ "," ++ label "status" "200" ++ "} 3"
     ++ end_line)%string.
Proof. reflexivity. Qed.
