(* ===== verification/Server.v ===== *)
(** The server: [src/internal/server/server.go] and the Alt-Svc middleware of [http3.go].

    [buildMiddleware] puts the middlewares around the router as the code does; the theorems
    follow a request through all of them, against the pool interface. Listening, TLS
    handshakes and shutdown are the standard library's. *)
From Stdlib Require Import Ascii.
From stdpp Require Import pretty.
From S2P Require Import Prelude GoTime Config Engine Http GoStr Compress Middleware Metrics Router.
Local Open Scope string_scope.
Local Open Scope Z_scope.
Local Open Scope list_scope.

(** [fmt.Sprintf(`h3=":%d"; ma=86400`, port)]; byte 34 is the quotation mark. *)
Definition quote : string := String (ascii_of_nat 34) "".
Definition AltSvcHeader (port : Z) : string :=
  ("h3=" ++ quote ++ ":" ++ pretty port ++ quote ++ "; ma=86400")%string.

Definition AltSvcMiddleware {G} (port : Z) (next : Handler G) : Handler G := fun W _ r g w =>
  next W _ r g (SetHeader (HSet "Alt-Svc" (AltSvcHeader port)) w).

(** ** What to listen with *)

(** The server's use of TLS, and where its certificate comes from. *)
Inductive tls_source :=
| ACME                              (** Let's Encrypt, through [SetupACME] *)
| CertificateFiles (cert key : string)
| SelfSigned
| NoCertificate.                    (** the error of [startTLS] *)

Definition useTLS (c : Config) : bool :=
  let t := server_TLS (Config.Server c) in
  tls_Auto t || (negb (is_empty (tls_Cert t)) && negb (is_empty (tls_Key t)))
  || negb (is_empty (acme_Email (tls_ACME t))).

(** The choice [startTLS] makes. *)
Definition certificate (c : Config) : tls_source :=
  let t := server_TLS (Config.Server c) in
  if negb (is_empty (acme_Email (tls_ACME t))) then ACME
  else if negb (is_empty (tls_Cert t)) && negb (is_empty (tls_Key t))
  then CertificateFiles (tls_Cert t) (tls_Key t)
  else if tls_Auto t then SelfSigned
  else NoCertificate.

(** The HTTP/3 server, at the address of the other one; there is none without HTTP/3 in the
    configuration, or without a TLS configuration ([tlsConfig] tells whether there is one). *)
Record HTTP3Server := MkHTTP3Server { h3_Addr : string }.

Definition NewHTTP3Server (c : Config) (tlsConfig : bool) : option HTTP3Server :=
  if negb (server_HTTP3 (Config.Server c)) then None
  else if negb tlsConfig then None
  else Some (MkHTTP3Server (server_Address (Config.Server c))).

(** Plain HTTP, or TLS and the HTTP/3 server started next to it; with certificate files
    [startTLS] returns before it gets there. *)
Inductive listener := Plain | Secure (source : tls_source) (http3 : option HTTP3Server).

Definition startTLS (c : Config) : listener :=
  match certificate c with
  | CertificateFiles cert key => Secure (CertificateFiles cert key) None
  | source => Secure source (NewHTTP3Server c true)
  end.

Definition Start (c : Config) : listener := if useTLS c then startTLS c else Plain.

(** The settings [New] gives to [http.Server]. *)
Record HTTPServer := MkHTTPServer {
  hs_Addr : string; ReadTimeout : Z; WriteTimeout : Z; IdleTimeout : Z
}.
Definition http_settings (c : Config) : HTTPServer :=
  MkHTTPServer (server_Address (Config.Server c)) (30 * Second) (60 * Second) (120 * Second).

(** HTTP/2 comes with TLS by itself; without TLS the handler is wrapped by [h2c.NewHandler]. *)
Definition EnableHTTP2 {G} (h2c : Handler G -> Handler G) (useTLS : bool) (handler : Handler G) : Handler G :=
  if useTLS then handler else h2c handler.

(** [Stop]: what the shutdowns of the HTTP/3 server, the redirecting server and the main one
    return; the errors of the first two are logged. *)
Definition Stop {E} (http3 redirectSrv : option (option E)) (http : option E) : list E * option E :=
  let warning srv := match srv with Some (Some e) => [e] | _ => [] end in
  (warning http3 ++ warning redirectSrv, http).

(** ** The middleware *)

(** What the layers share: the metrics, the log, and the router's state. *)
Definition shared (P : Type) : Type := Metrics * (list log_entry * P).

Section Stack.
Context {P : Type}.
Variable cfg : Config.
Variable fastRequestID : Request -> string.
Variable logger_Enabled : bool.
Variable duration : Request -> Z.
(** The pool's numbers, and what else the metrics report. *)
Variable stats : P -> StatsGetter.
Variable expo : Exposition.
Variable gzip : list (list byte) -> list byte.

(** Without the metrics middleware the counters stay. *)
Definition skip_metrics {G} (next : Handler G) : Handler (Metrics * G) := fun W _ r mg w =>
  let '(m, g) := mg in
  let o := next W _ r g w in MkOutcome (m, o_state o) (o_writer o) (o_panic o).

Definition buildMiddleware (router : Handler P) : Handler (shared P) :=
  let handler := CoreMiddleware fastRequestID logger_Enabled router in
  let handler := if metrics_Enabled (Config.Metrics cfg)
                 then MetricsMiddleware duration (fun g => Some (stats (snd g))) expo (metrics_Path (Config.Metrics cfg)) handler
                 else skip_metrics handler in
  let handler := CompressionMiddleware gzip handler in
  if server_HTTP3 (Config.Server cfg) then AltSvcMiddleware 443 handler else handler.

(** ** A response through the layers *)

(** The writer a handler gets, over a base writer [w]. *)
Definition layered {W} (w : W) : mabooResponseWriter (metricsResponseWriter W) :=
  rw_reset (MkMW w 200 0).

(** The request as the inner handlers see it, and its ID. *)
Definition named (r : Request) : string * Request :=
  let id := Get (r_Header r) "X-Request-ID" in
  if bool_decide (id = "")
  then (fastRequestID r, set_r_Header (HSet "X-Request-ID" (fastRequestID r) (r_Header r)) r)
  else (id, r).

(** The headers every response starts from. *)
Definition base_headers (r : Request) : headers :=
  HSet "X-Request-ID" (fst (named r))
    (if server_HTTP3 (Config.Server cfg) then HSet "Alt-Svc" (AltSvcHeader 443) ∅ else ∅).

(** Whether a header map announces something to preload. *)
Definition has_hint (h : headers) : bool := existsb is_hint (Values h "Link").

(** The outcome of a request answered with this status, headers and body. *)
Definition final (r : Request) (h : headers) (code : Z) (body : list byte) (m : Metrics)
    (log : list log_entry) (p : P) : outcome (shared P) conn :=
  MkOutcome
    (add_active (-1) (observe (Method r) code (Z.of_nat (length body)) (duration r) (add_active 1 m)),
     (if logger_Enabled
      then log ++ [LogRequest (Method r) (Path r) code (Z.of_nat (length body)) (RemoteAddr r)
                     (fst (named r))] else log, p))
    (MkConn h [] (Some (code, h)) body) false.

(** The base writers: the connection itself, and the compressor over it. *)
Definition bare (h : headers) : conn := MkConn h [] None [].
Definition zipped (h : headers) : compressWriter conn := reset (bare h).

Ltac finish Hi Hh :=
  rewrite !acts_cons; cbn [act WriteHeader maboo_writer]; unfold rw_WriteHeader, send_hints, layered;
  cbn [rw_reset hintsSent rw_inner Header metrics_writer compress_writer conn_writer mw_inner
       cw_inner c_header reset bare zipped];
  unfold has_hint in Hh; rewrite Hh; cbn [rw_wroteHeader rw_inner];
  cbn [WriteHeader metrics_writer compress_writer conn_writer mw_inner]; unfold cw_WriteHeader;
  cbn -[is_info bodyAllowed Z.of_nat]; unfold conn_WriteHeader; cbn -[is_info bodyAllowed Z.of_nat];
  rewrite ?Hi; cbn -[is_info bodyAllowed Z.of_nat].

(** Stores into the headers, through the layers. *)
Lemma sets_bare s h : forallb is_set s = true ->
  acts s (layered (bare h)) = layered (bare (headers_of s h)).
Proof.
  revert h. induction s as [|[f| |] s IH]; intros h Hs; simpl in Hs; try done.
  rewrite acts_cons. exact (IH (f h) Hs).
Qed.
Lemma sets_zipped s h : forallb is_set s = true ->
  acts s (layered (zipped h)) = layered (zipped (headers_of s h)).
Proof.
  revert h. induction s as [|[f| |] s IH]; intros h Hs; simpl in Hs; try done.
  rewrite acts_cons. exact (IH (f h) Hs).
Qed.

(** A status and a body, through the layers. *)
Lemma finish_bare h code body :
  is_info code = false -> bodyAllowed code = true -> has_hint h = false ->
  acts [AHeader code; AWrite body] (layered (bare h))
  = MkRW (MkMW (MkConn h [] (Some (code, h)) body) code (Z.of_nat (length body)))
      code (Z.of_nat (length body)) true true.
Proof.
  intros Hi Hb Hh. finish Hi Hh.
  unfold rw_Write. cbn -[is_info bodyAllowed Z.of_nat]. unfold conn_Write.
  cbn -[is_info bodyAllowed Z.of_nat]. by rewrite Hb.
Qed.

Lemma finish_zipped h code body :
  is_info code = false -> has_hint h = false ->
  acts [AHeader code; AWrite body] (layered (zipped h))
  = MkRW (MkMW (MkCW (MkConn h [] (Some (code, h)) []) None body true false code)
           code (Z.of_nat (length body)))
      code (Z.of_nat (length body)) true true.
Proof.
  intros Hi Hh. finish Hi Hh.
  unfold rw_Write. cbn -[is_info bodyAllowed Z.of_nat]. unfold cw_Write.
  cbn -[is_info bodyAllowed Z.of_nat compressMinSize]. rewrite andb_false_r. done.
Qed.

Lemma Close_zipped h code body :
  bodyAllowed code = true ->
  cw_inner (Close gzip (MkCW (MkConn h [] (Some (code, h)) []) None body true false code))
  = MkConn h [] (Some (code, h)) body.
Proof.
  intros Hb. unfold Close. cbn [compressed gzWriter cw_buf cw_wroteHeader cw_inner].
  destruct body as [|b body]; [done|].
  cbn -[bodyAllowed]. unfold conn_Write. cbn -[bodyAllowed]. by rewrite Hb.
Qed.

(** A router that answers [r] with one status and body. *)
Definition replies (router : Handler P) (r : Request) (p p' : P) (sets : list action)
    (code : Z) (body : list byte) : Prop :=
  forallb is_set sets = true
  /\ forall W (RW : ResponseWriter W) (w : W),
       router W RW r p w = MkOutcome p' (acts (sets ++ [AHeader code; AWrite body]) w) false.

(** What the stack leaves when the handler's writer ends as [rw], over a connection [c]. *)
Definition left_by {W} (r : Request) (m : Metrics) (log : list log_entry) (p : P)
    (rw : mabooResponseWriter (metricsResponseWriter W)) (c : conn) : outcome (shared P) conn :=
  MkOutcome
    (add_active (-1) (observe (Method r) (mw_statusCode (rw_inner rw)) (mw_bytesWritten (rw_inner rw))
       (duration r) (add_active 1 m)),
     (if logger_Enabled
      then log ++ [LogRequest (Method r) (Path r) (statusCode rw) (bytesWritten rw) (RemoteAddr r)
                     (fst (named r))] else log, p))
    c false.

Lemma stack_runs (router : Handler P) r m log p p' sets code body :
  metrics_Enabled (Config.Metrics cfg) = true ->
  Path r <> metrics_Path (Config.Metrics cfg) ->
  replies router (snd (named r)) p p' sets code body ->
  buildMiddleware router conn _ r (m, (log, p)) fresh_conn
  = if accepts_gzip r
    then let rw := acts (sets ++ [AHeader code; AWrite body]) (layered (zipped (base_headers r))) in
         left_by r m log p' rw (cw_inner (Close gzip (mw_inner (rw_inner rw))))
    else let rw := acts (sets ++ [AHeader code; AWrite body]) (layered (bare (base_headers r))) in
         left_by r m log p' rw (mw_inner (rw_inner rw)).
Proof.
  intros Hm Hp [Hs Hr]. unfold buildMiddleware. rewrite Hm.
  assert (forall W (RW : ResponseWriter W) (w : W),
    CoreMiddleware fastRequestID logger_Enabled router W RW r (log, p) w
    = let w := SetHeader (HSet "X-Request-ID" (fst (named r))) w in
      let rw := acts (sets ++ [AHeader code; AWrite body]) (rw_reset w) in
      MkOutcome (if logger_Enabled then log ++ [LogRequest (Method r) (Path r) (statusCode rw)
                   (bytesWritten rw) (RemoteAddr r) (fst (named r))] else log, p')
        (rw_inner rw) false) as Hcore.
  { intros W RW w. unfold CoreMiddleware. revert Hr. unfold named.
    case_bool_decide; intros Hr; rewrite (Hr _ _ _); done. }
  assert (forall h0,
    CompressionMiddleware gzip (MetricsMiddleware duration (fun g => Some (stats (snd g))) expo (metrics_Path (Config.Metrics cfg))
      (CoreMiddleware fastRequestID logger_Enabled router)) conn _ r (m, (log, p)) (bare h0)
    = let h := HSet "X-Request-ID" (fst (named r)) h0 in
      if accepts_gzip r
      then let rw := acts (sets ++ [AHeader code; AWrite body]) (layered (zipped h)) in
           left_by r m log p' rw (cw_inner (Close gzip (mw_inner (rw_inner rw))))
      else let rw := acts (sets ++ [AHeader code; AWrite body]) (layered (bare h)) in
           left_by r m log p' rw (mw_inner (rw_inner rw))) as Hgen.
  { intros h0. unfold CompressionMiddleware, MetricsMiddleware. rewrite bool_decide_false by done.
    destruct (accepts_gzip r); cbn [negb]; cbn zeta; rewrite Hcore; done. }
  unfold base_headers. destruct (server_HTTP3 (Config.Server cfg)).
  - exact (Hgen (HSet "Alt-Svc" (AltSvcHeader 443) ∅)).
  - exact (Hgen ∅).
Qed.

(** Whether the client accepts gzip or not, the answer comes out the same. *)
Lemma stack_delivers (router : Handler P) r m log p p' sets code body :
  metrics_Enabled (Config.Metrics cfg) = true ->
  Path r <> metrics_Path (Config.Metrics cfg) ->
  replies router (snd (named r)) p p' sets code body ->
  is_info code = false -> bodyAllowed code = true ->
  has_hint (headers_of sets (base_headers r)) = false ->
  buildMiddleware router conn _ r (m, (log, p)) fresh_conn
  = final r (headers_of sets (base_headers r)) code body m log p'.
Proof.
  intros Hm Hp Hr Hi Hb Hh. rewrite (stack_runs _ _ _ _ _ _ _ _ _ Hm Hp Hr).
  destruct Hr as [Hs _]. destruct (accepts_gzip r); cbv zeta; rewrite acts_app.
  - rewrite sets_zipped, finish_zipped by done. unfold left_by.
    cbn [rw_inner mw_inner mw_statusCode mw_bytesWritten statusCode bytesWritten].
    by rewrite Close_zipped.
  - by rewrite sets_bare, finish_bare by done.
Qed.

(** With a link to preload, the compressor takes the 103 for the status. *)
Lemma finish_hinted h code body :
  has_hint h = true ->
  acts [AHeader code; AWrite body] (layered (zipped h))
  = MkRW (MkMW (MkCW (MkConn h [(103, h)] None []) None body true false 103)
           code (Z.of_nat (length body)))
      code (Z.of_nat (length body)) true true.
Proof.
  intros Hh. rewrite !acts_cons. cbn [act WriteHeader maboo_writer].
  unfold rw_WriteHeader, send_hints, layered.
  cbn [rw_reset hintsSent rw_inner Header metrics_writer compress_writer conn_writer mw_inner
       cw_inner c_header reset bare zipped].
  unfold has_hint in Hh. rewrite Hh. cbn -[Z.of_nat].
  unfold rw_Write. cbn -[Z.of_nat]. unfold cw_Write. cbn -[Z.of_nat compressMinSize].
  by rewrite andb_false_r.
Qed.
End Stack.

(** ** Properties *)

(** Where the certificate comes from: plain HTTP exactly when nothing asks for TLS; an
    ACME e-mail first, then the certificate files, then a self-signed certificate, and the
    error case of [startTLS] is never reached. With certificate files no HTTP/3 listener
    is started even when HTTP/3 is configured and advertised in every response. *)
Theorem Start_certificate (c : Config) :
  let t := server_TLS (Config.Server c) in
  (Start c = Plain <->
     tls_Auto t = false /\ (tls_Cert t = "" \/ tls_Key t = "") /\ acme_Email (tls_ACME t) = "")
  /\ (forall http3, Start c <> Secure NoCertificate http3)
  /\ (acme_Email (tls_ACME t) <> "" -> Start c = Secure ACME (NewHTTP3Server c true))
  /\ (acme_Email (tls_ACME t) = "" -> tls_Cert t <> "" -> tls_Key t <> "" ->
      Start c = Secure (CertificateFiles (tls_Cert t) (tls_Key t)) None).
Proof.
  cbv zeta. unfold Start, startTLS, certificate, useTLS, is_empty.
  destruct (decide (tls_Cert (server_TLS (Config.Server c)) = "")) as [Hc|Hc];
  destruct (decide (tls_Key (server_TLS (Config.Server c)) = "")) as [Hk|Hk];
  destruct (decide (acme_Email (tls_ACME (server_TLS (Config.Server c))) = "")) as [He|He];
  destruct (tls_Auto (server_TLS (Config.Server c)));
    repeat (rewrite ?(bool_decide_true _ Hc), ?(bool_decide_false _ Hc),
      ?(bool_decide_true _ Hk), ?(bool_decide_false _ Hk),
      ?(bool_decide_true _ He), ?(bool_decide_false _ He)); cbn [negb andb orb];
    naive_solver.
Qed.

Section Served.
Context {P E : Type} `{WorkerPool P E}.
Context (cfg : Config) (Stat : string -> bool).
Context (range_headers : headers -> list (string * list string)).
Context (range_strings : gmap string string -> list (string * string)).
Context (Query PostForm : Request -> list (string * list string)).
Context (Cookies : Request -> list (string * string)).
Context (FileServer : Handler P) (liveness_json : list byte).
Context (readiness_json : StatsGetter -> list byte).
Context (fastRequestID : Request -> string) (logger_Enabled : bool) (duration : Request -> Z).
Context (expo : Exposition) (gzip : list (list byte) -> list byte).

Definition router : Handler P :=
  ServeHTTP cfg Stat range_headers range_strings Query PostForm Cookies FileServer liveness_json
    readiness_json.

Abbreviation serve := (buildMiddleware cfg fastRequestID logger_Enabled duration pool_Stats expo gzip router).
Abbreviation final := (final fastRequestID logger_Enabled duration).
Abbreviation base_headers := (base_headers cfg fastRequestID).

(** The pool's answer to a request. *)
Definition pool_answer (r : Request) (p : P) : result Response E * P :=
  let docRoot := docRoot_of cfg in
  let entryPoint := DetectEntryPoint Stat docRoot (app_Entry (App cfg)) in
  pool_Exec (NewContext range_headers Query PostForm Cookies r docRoot entryPoint)
    (Join [docRoot; entryPoint]) p.

Definition response_sets (resp : Response) : list action :=
  map (fun kv => ASet (fst kv) (snd kv)) (range_strings (resp_Headers resp)).

Definition error_sets : list action :=
  [AStore (Del "Content-Length"); ASet "Content-Type" "text/plain; charset=utf-8";
   ASet "X-Content-Type-Options" "nosniff"].

(** Requests the router hands to PHP. *)
Definition for_php (r : Request) : Prop :=
  ~ (Path r ∈ ["/health"; "/healthz"; "/ready"; "/readyz"])
  /\ (isStaticFile (Path r) = false \/ static_Root (Static cfg) = "").

Lemma router_php W RW r p (w : W) :
  for_php r ->
  router W RW r p w
  = phpHandler cfg Stat range_headers range_strings Query PostForm Cookies W RW r p w.
Proof.
  intros [Hh Hs]. unfold router, ServeHTTP. rewrite bool_decide_false by done.
  unfold Router.static. destruct (is_empty (static_Root (Static cfg))) eqn:He; [done|].
  destruct Hs as [->| Hs]; [done|]. by apply is_empty_true in Hs; rewrite Hs in He.
Qed.

Lemma router_replies r p :
  for_php r ->
  match pool_answer r p with
  | (Ok resp, p') => replies router r p p' (response_sets resp) (resp_Status resp)
                       (ascii_bytes (resp_Body resp))
  | (Err e, p') => replies router r p p' error_sets 502
      (ascii_bytes (String.append "Internal Server Error: " (error_text e)) ++ [Byte.x0a])
  end.
Proof.
  intros Hr. destruct (pool_answer r p) as [[resp|e] p'] eqn:Ha; (split;
    [|intros W RW w; rewrite router_php by done; unfold phpHandler; fold (pool_answer r p);
      rewrite Ha; done]).
  - unfold response_sets. by induction (range_strings _).
  - done.
Qed.

Lemma named_for_php r : for_php r -> for_php (snd (named fastRequestID r)).
Proof. intros Hr. unfold named. case_bool_decide; exact Hr. Qed.

Lemma has_hint_base r : has_hint (headers_of error_sets (base_headers r)) = false.
Proof.
  unfold Server.base_headers. generalize (fst (named fastRequestID r)). intros id.
  by destruct (server_HTTP3 _).
Qed.

(** Early hints and compression do not go together: when PHP's response has a link to
    preload and the client accepts gzip, the client gets the 103 and then the page with
    status 200, whatever status PHP had set, while metrics and log record PHP's. *)
Theorem early_hints_lose_status (r : Request) (m : Metrics) (log : list log_entry) (p p' : P)
    (resp : Response) :
  for_php r -> metrics_Enabled (Config.Metrics cfg) = true ->
  Path r <> metrics_Path (Config.Metrics cfg) -> accepts_gzip r = true ->
  pool_answer (snd (named fastRequestID r)) p = (Ok resp, p') ->
  let h := headers_of (response_sets resp) (base_headers r) in
  let body := ascii_bytes (resp_Body resp) in
  has_hint h = true ->
  let o := serve conn _ r (m, (log, p)) fresh_conn in
  response (o_writer o) = (200, h, body)
  /\ c_infos (o_writer o) = [(103, h)]
  /\ o_state o = o_state (final r h (resp_Status resp) body m log p').
Proof.
  intros Hr Hm Hp Hg Ha h body Hh o. unfold o.
  pose proof (router_replies _ p (named_for_php r Hr)) as Hrep. rewrite Ha in Hrep.
  rewrite (stack_runs _ _ _ _ _ _ _ _ _ _ _ _ _ _ _ _ Hm Hp Hrep), Hg. destruct Hrep as [Hs _].
  cbv zeta. rewrite acts_app, sets_zipped by done. fold h. fold body. rewrite finish_hinted by done.
  unfold left_by, Server.final, Close.
  cbn [rw_inner mw_inner mw_statusCode mw_bytesWritten statusCode bytesWritten o_writer o_state
    compressed gzWriter cw_buf cw_wroteHeader cw_inner].
  by destruct body.
Qed.
End Served.

(** ** Concrete runs *)

(** A pool that answers every request with the same response, and counts them. *)
#[local] Instance fixed_pool : WorkerPool (Response * nat) unit := {
  pool_Exec _ _ p := (Ok (fst p), (fst p, S (snd p)));
  pool_Stats p := MkStatsGetter 1 0 1 (Z.of_nat (snd p));
  error_text _ := ""
}.

Definition page (link : bool) : Response :=
  MkResponse 404 (if link then {["Link" := "</a.css>; rel=preload"]} else {["X-A" := "b"]}) "gone".

Definition run_fixed (link : bool) : outcome (shared (Response * nat)) conn :=
  buildMiddleware Default (fun _ => "id") true (fun _ => 1000) pool_Stats no_exposition mark_zip
    (router Default (fun _ => false) map_to_list map_to_list (fun _ => []) (fun _ => []) (fun _ => [])
       (fun _ _ _ p w => MkOutcome p w false) [] (fun _ => []))
    conn _ gzip_request (NewMetrics, ([], (page link, 0%nat))) fresh_conn.

Lemma gzip_request_for_php : for_php Default gzip_request.
Proof. split; [apply (bool_decide_unpack _); by vm_compute|by left; vm_compute]. Qed.


Lemma early_hints_lose_status_witness :
  fst (fst (response (o_writer (run_fixed true)))) = 200.
Proof.
  unfold run_fixed.
  rewrite (proj1 (early_hints_lose_status Default (fun _ => false) map_to_list map_to_list (fun _ => [])
    (fun _ => []) (fun _ => []) (fun _ _ _ p w => MkOutcome p w false) [] (fun _ => []) (fun _ => "id")
    true (fun _ => 1000) no_exposition mark_zip gzip_request NewMetrics [] (page true, 0%nat)
    (page true, 1%nat) (page true)
    gzip_request_for_php eq_refl ltac:(done) ltac:(by vm_compute) eq_refl ltac:(by vm_compute))).
  done.
Defined.
