(* ===== verification/Acme.v ===== *)
(** [src/internal/server/acme.go]: the manager of the certificates of an ACME authority and
    the server that redirects plain HTTP to HTTPS.

    [autocert.Manager] is a library the source does not contain: its settings are modelled, and
    what it does with a request is an operation of the class [Redirection], of which the
    documented behaviour is a law. *)
From Stdlib Require Import Ascii.
From S2P Require Import Prelude Config GoStr GoJSON Http Middleware.
Local Open Scope string_scope.
Local Open Scope Z_scope.
Local Open Scope list_scope.

(** ** The manager *)

Inductive acme_error := EmailRequired | DomainsRequired | CreatingCacheDir.

(** [autocert.Manager], as it is configured. *)
Record Manager := MkManager {
  m_Email : string;
  m_Hosts : list string;
  m_Cache : string;
  m_Client : option string
}.

Definition staging_url : string := "https://acme-staging-v02.api.letsencrypt.org/directory".

(** The [http.Server] of [HTTPRedirectServer]: its address, and the manager its handler asks. *)
Record RedirectServer := MkRedirectServer { rs_Addr : string; rs_Manager : Manager }.

Definition HTTPRedirectServer (addr : string) (manager : Manager) : RedirectServer :=
  MkRedirectServer addr manager.

(** What its goroutine logs, by how [ListenAndServe] ends. *)
Inductive serve_end := ErrServerClosed | ErrServe.
Inductive redirect_entry := LogStarting (addr : string) | LogServeError.
Definition redirect_log (srv : RedirectServer) (err : serve_end) : list redirect_entry :=
  LogStarting (rs_Addr srv)
  :: match err with ErrServerClosed => [] | ErrServe => [LogServeError] end.

Section ACME.
(** Whether [os.MkdirAll] succeeds. *)
Variable MkdirAll : string -> bool.

Definition NewACMEManager (c : ACMEConfig) : result Manager acme_error :=
  if is_empty (acme_Email c) then Err EmailRequired
  else if bool_decide (acme_Domains c = []) then Err DomainsRequired
  else
    let cacheDir := if is_empty (acme_CacheDir c) then "/var/lib/maboo/certs" else acme_CacheDir c in
    if MkdirAll cacheDir
    then Ok (MkManager (acme_Email c) (acme_Domains c) cacheDir
               (if acme_Staging c then Some staging_url else None))
    else Err CreatingCacheDir.

(** [SetupACME]: the manager the certificates come from, and the redirect server, if any. *)
Definition SetupACME (c : Config) : result (Manager * option RedirectServer) acme_error :=
  let acme := tls_ACME (server_TLS (Config.Server c)) in
  if is_empty (acme_Email acme) then Err EmailRequired
  else
    let? manager := NewACMEManager acme in
    Ok (manager, if server_HTTPRedirect (Config.Server c)
                 then Some (HTTPRedirectServer ":80" manager) else None).

(** A redirect server is made exactly when one is configured; it listens on port 80 and asks
    the manager the certificates come from. *)
Lemma SetupACME_server c m rs :
  SetupACME c = Ok (m, rs) ->
  rs = if server_HTTPRedirect (Config.Server c) then Some (MkRedirectServer ":80" m) else None.
Proof.
  unfold SetupACME. destruct (is_empty _); [done|]. destruct (NewACMEManager _); [|done].
  by intros [= <- <-].
Qed.
End ACME.

(** ** The redirect to HTTPS *)

(** [http.Redirect], for a URL with a scheme: percent escapes for bytes beyond ASCII, and a
    short document for GET and HEAD when there is no content type yet. *)
Definition upper_hex (n : nat) : ascii := upper_ascii (hex_digit n).
Definition hexEscapeNonASCII (s : string) : string :=
  String.string_of_list_ascii
    (String.list_ascii_of_string s ≫= fun c =>
       let n := nat_of_ascii c in
       if decide (128 <= n)%nat then ["%"%char; upper_hex (n / 16); upper_hex (n mod 16)] else [c]).
Definition html_quote : string := String (ascii_of_nat 34) "".
Definition htmlEscape (s : string) : string :=
  ReplaceAll (ReplaceAll (ReplaceAll (ReplaceAll (ReplaceAll s "&" "&amp;") "<" "&lt;") ">" "&gt;")
    html_quote "&#34;") "'" "&#39;".
Definition redirect_script (r : Request) (h : headers) (url : string) (code : Z) (text : string) :
    list action :=
  let hadCT := bool_decide (is_Some (h !! canonical "Content-Type")) in
  let get := bool_decide (Method r = "GET") in
  let head := bool_decide (Method r = "HEAD") in
  [ASet "Location" (hexEscapeNonASCII url)]
  ++ (if negb hadCT && (get || head) then [ASet "Content-Type" "text/html; charset=utf-8"] else [])
  ++ [AHeader code]
  ++ (if negb hadCT && get
      then [AWrite (ascii_bytes ("<a href=" ++ html_quote ++ htmlEscape url ++ html_quote ++ ">"
                                 ++ text ++ "</a>." ++ String (ascii_of_nat 10)
                                                        (String (ascii_of_nat 10) ""))%string)]
      else []).

Definition httpsURL (r : Request) : string :=
  let u := ("https://" ++ Host r ++ Path r)%string in
  if is_empty (RawQuery r) then u else (u ++ "?" ++ RawQuery r)%string.

(** The function the mux has under the root pattern. *)
Definition HTTPRedirect {G} : Handler G := fun W _ r g w =>
  MkOutcome g (acts (redirect_script r (Header w) (httpsURL r) 301 "Moved Permanently") w) false.

(** [cleanPath] of [net/http]: the path a mux wants, with a trailing slash kept. *)
Definition cleanPath (p : string) : string :=
  if is_empty p then "/"
  else
    let p := if is_rooted p then p else ("/" ++ p)%string in
    let np := Clean p in
    if bool_decide (last (String.list_ascii_of_string p) = Some slash)
       && negb (bool_decide (np = "/")) then (np ++ "/")%string else np.

Example cleanPath_ex :
  map cleanPath [""; "*"; "/"; "//"; "/a/../b/"; "/a/./b"; "/a"] = ["/"; "/*"; "/"; "/"; "/b/"; "/a/b"; "/a"].
Proof. reflexivity. Qed.

Definition challenge_path : string := "/.well-known/acme-challenge/".

(** What the redirect server uses of the libraries: the escaped path of a request, what a
    mux whose one pattern is the root answers by itself ([None]: it calls the handler it has),
    and [Manager.HTTPHandler]. *)
Class Redirection := {
  EscapedPath : Request -> string;
  mux_answer : Request -> option (list action);
  HTTPHandler : forall G, Manager -> Handler G -> Handler G
}.

(** Their documentation: the mux cleans paths by redirecting, except for CONNECT, and passes
    on what is clean; the manager answers challenges and delegates the rest to its fallback. *)
Class RedirectionLaws `{Redirection} := {
  mux_passes r :
    Method r <> "CONNECT" -> cleanPath (EscapedPath r) = EscapedPath r -> mux_answer r = None;
  HTTPHandler_delegates G m (fallback : Handler G) W (RW : ResponseWriter W) r g w :
    HasPrefix (Path r) challenge_path = false ->
    HTTPHandler G m fallback W RW r g w = fallback W RW r g w
}.

Section Redirect.
Context `{RedirectionLaws}.

(** [http.NewServeMux] with [mux.HandleFunc] of the root pattern. *)
Definition root_mux {G} (h : Handler G) : Handler G := fun W RW r g w =>
  match mux_answer r with
  | Some s => MkOutcome g (acts s w) false
  | None => h W RW r g w
  end.

(** The handler of the redirect server. *)
Definition redirect_handler {G} (srv : RedirectServer) : Handler G :=
  HTTPHandler G (rs_Manager srv) (root_mux HTTPRedirect).

(** A request the manager and the mux leave to the redirect. *)
Definition redirected (r : Request) : Prop :=
  Method r <> "CONNECT" /\ cleanPath (EscapedPath r) = EscapedPath r
  /\ HasPrefix (Path r) challenge_path = false.

Lemma redirect_response {G} (r : Request) (g : G) :
  let '(st, h, b) := response (o_writer (HTTPRedirect conn _ r g fresh_conn)) in
  st = 301 /\ Values h "Location" = [hexEscapeNonASCII (httpsURL r)]
  /\ (b = [] <-> Method r <> "GET").
Proof.
  unfold HTTPRedirect, redirect_script. cbn [o_writer Header conn_writer c_header fresh_conn].
  assert (bool_decide (is_Some ((∅ : headers) !! canonical "Content-Type")) = false) as ->
    by reflexivity.
  cbn [negb andb]. destruct (decide (Method r = "GET")) as [E|E].
  - rewrite (bool_decide_true _ E). split_and!; [reflexivity..|].
    split; [|done]. discriminate.
  - rewrite (bool_decide_false _ E). cbn [orb].
    destruct (bool_decide (Method r = "HEAD")); split_and!; reflexivity || done.
Qed.

(** *** The address tells requests apart *)

Definition lacks (c : ascii) (s : string) : Prop := c ∉ String.list_ascii_of_string s.

Lemma split_at c s t s' t' :
  lacks c s -> lacks c s' -> (s ++ String c t)%string = (s' ++ String c t')%string ->
  s = s' /\ t = t'.
Proof.
  unfold lacks. revert s'. induction s as [|a s IH]; intros [|a' s'] Hs Hs'.
  - by intros [= ->].
  - rewrite append_String. intros [= <- _]. set_unfold. tauto.
  - rewrite append_String. intros [= -> _]. set_unfold. tauto.
  - rewrite !append_String. intros [= <- E]. cbn in Hs, Hs'. set_unfold.
    destruct (IH s' ltac:(tauto) ltac:(tauto) E) as [-> ->]. done.
Qed.

Lemma lacks_app c s t : lacks c (s ++ t)%string <-> lacks c s /\ lacks c t.
Proof.
  unfold lacks. induction s as [|a s IH]; [cbn; set_unfold; tauto|].
  rewrite append_String. cbn. set_unfold. naive_solver.
Qed.

Lemma lacks_not_split c s t u : lacks c s -> s <> (t ++ String c u)%string.
Proof. intros Hs ->. apply lacks_app in Hs as [_ Hs]. apply Hs. by left. Qed.

(** Hosts have no slash, paths start with one. *)
Definition well_formed_address (r : Request) : Prop :=
  lacks "/" (Host r) /\ lacks "?" (Host r) /\ is_rooted (Path r) = true /\ lacks "?" (Path r).

Lemma is_rooted_inv p : is_rooted p = true -> exists p', p = String slash p'.
Proof.
  destruct p as [|c p]; [done|]. unfold is_rooted. cbn [HasPrefix].
  intros [Hc _]%andb_prop. apply bool_decide_eq_true in Hc as <-. by exists p.
Qed.

Lemma append_inj p s t : (p ++ s)%string = (p ++ t)%string -> s = t.
Proof. induction p as [|c p IH]; [done|]. rewrite !append_String. intros [= E]. auto. Qed.

Definition address (r : Request) : string * string * string := (Host r, Path r, RawQuery r).

(** The address before the query. *)
Definition https_base (r : Request) : string := ("https://" ++ Host r ++ Path r)%string.

Lemma https_base_lacks r : well_formed_address r -> lacks "?" (https_base r).
Proof.
  intros (_ & Hh & _ & Hp). unfold https_base. rewrite !lacks_app. split_and!; [|done..].
  unfold lacks. rewrite list_elem_of_In. cbn. intuition discriminate.
Qed.

Lemma https_base_inj r1 r2 :
  well_formed_address r1 -> well_formed_address r2 -> https_base r1 = https_base r2 ->
  Host r1 = Host r2 /\ Path r1 = Path r2.
Proof.
  intros (H1 & _ & (p1 & E1)%is_rooted_inv & _) (H2 & _ & (p2 & E2)%is_rooted_inv & _).
  unfold https_base. intros E%append_inj. rewrite E1, E2 in E |- *.
  by destruct (split_at _ _ _ _ _ H1 H2 E) as [-> ->].
Qed.

Lemma httpsURL_inj r1 r2 :
  well_formed_address r1 -> well_formed_address r2 -> httpsURL r1 = httpsURL r2 ->
  address r1 = address r2.
Proof.
  intros W1 W2. pose proof (https_base_lacks _ W1) as L1. pose proof (https_base_lacks _ W2) as L2.
  unfold httpsURL. fold (https_base r1) (https_base r2).
  change "?" with (String "?" ""). rewrite !append_String.
  unfold address. destruct (RawQuery r1) as [|c1 q1] eqn:Q1, (RawQuery r2) as [|c2 q2] eqn:Q2; cbn [is_empty].
  - intros E. by destruct (https_base_inj _ _ W1 W2 E) as [-> ->].
  - intros E. by apply lacks_not_split in E.
  - intros E. symmetry in E. by apply lacks_not_split in E.
  - intros [E1 E2]%split_at; [|done..]. destruct (https_base_inj _ _ W1 W2 E1) as [-> ->].
    rewrite (E2 : String c1 q1 = String c2 q2). done.
Qed.

End Redirect.

(** The path is the decoded one: a question mark escaped in the path becomes the start of a
    query, so two different requests are sent to the same address. *)
Theorem redirect_conflates (h : string) :
  let encoded := MkRequest "GET" "/a?b" "" h "" false ∅ in   (* GET /a%3Fb *)
  let queried := MkRequest "GET" "/a" "b" h "" false ∅ in    (* GET /a?b *)
  encoded <> queried /\ httpsURL encoded = httpsURL queried.
Proof.
  intros encoded queried. split; [done|].
  change ("https://" ++ (h ++ "/a?b") = ("https://" ++ (h ++ "/a")) ++ "?b")%string.
  by rewrite !append_assoc.
Qed.

(** A configuration [Validate] accepts, for which the server cannot start. *)
Example acme_domains_unchecked :
  let c := MkConfig
    (MkServerConfig ":443" ModeNative true false
       (MkTLS false "" "" (MkACME "me@example.org" [] "" false)) false)
    (PHP Default) (Pool Default) (App Default) (WebSocket Default) (Static Default)
    (Logging Default) (Metrics Default) (Watch Default) [] in
  Validate c = None /\ SetupACME (fun _ => true) c = Err DomainsRequired.
Proof. by split; vm_compute. Qed.

(** ** At a concrete input *)

(** A request whose path needs no escape; a mux that cleans; a manager that answers a
    challenge with its e-mail address. *)
#[local] Instance plain_redirection : Redirection := {
  EscapedPath := Path;
  mux_answer r :=
    if bool_decide (Method r = "CONNECT" \/ cleanPath (Path r) = Path r) then None
    else Some (redirect_script r ∅ (cleanPath (Path r)) 301 "Moved Permanently");
  HTTPHandler G m fallback W RW r g w :=
    if HasPrefix (Path r) challenge_path
    then MkOutcome g (acts [AWrite (ascii_bytes (m_Email m))] w) false
    else fallback W RW r g w
}.

#[local] Instance plain_redirection_laws : RedirectionLaws.
Proof.
  split.
  - intros r _ Hr. cbn in *. by rewrite bool_decide_true by auto.
  - intros G m fb W RW r g w Hc. cbn in *. by rewrite Hc.
Defined.

Definition acme_example : Config := MkConfig
  (MkServerConfig ":443" ModeNative true false
     (MkTLS false "" "" (MkACME "me@example.org" ["example.org"] "" false)) true)
  (PHP Default) (Pool Default) (App Default) (WebSocket Default) (Static Default)
  (Logging Default) (Metrics Default) (Watch Default) [].

Definition example_server : RedirectServer :=
  HTTPRedirectServer ":80" (MkManager "me@example.org" ["example.org"] "/var/lib/maboo/certs" None).

