(* ===== verification/TLS.v ===== *)
(** Certificates: [src/internal/server/tls.go], and [startTLS] of [server.go] with its errors.

    [Server] has the choices [startTLS] makes; here is what it does after each choice, with the
    self-signed certificate of [generateSelfSignedCert] and the certificates of an
    ACME authority ([SetupACME] of [Acme]). The cryptography, [encoding/pem] and
    [tls.X509KeyPair] are parameters. *)
From S2P Require Import Prelude GoTime Config Engine Server Acme.
Local Open Scope string_scope.
Local Open Scope Z_scope.
Local Open Scope list_scope.

(** ** The certificate template *)

(** [x509.KeyUsage], a set of bits. *)
Definition KeyUsageDigitalSignature : Z := Z.shiftl 1 0.
Definition KeyUsageKeyEncipherment : Z := Z.shiftl 1 2.

Inductive ext_key_usage := ExtKeyUsageServerAuth.

(** [net.IP], sixteen bytes; times are nanoseconds. *)
Record Template := MkTemplate {
  SerialNumber : Z;
  Organization : list string;
  NotBefore : Z;
  NotAfter : Z;
  KeyUsage : Z;
  ExtKeyUsage : list ext_key_usage;
  BasicConstraintsValid : bool;
  IsCA : bool;
  DNSNames : list string;
  IPAddresses : list (list byte)
}.

(** A PEM block. *)
Record Block := MkBlock { b_Type : string; b_Bytes : list byte }.

Section TLS.
Context {PrivateKey PublicKey KeyPair E : Type}.
(** [ecdsa.GenerateKey] on P-256 and [rand.Int] below a bound, both from the random source;
    the two calls of [time.Now]; [net.ParseIP]. *)
Variable GenerateKey : result PrivateKey E.
Variable public : PrivateKey -> PublicKey.
Variable rand_Int : Z -> result Z E.
Variable now1 now2 : Z.
Variable ParseIP : string -> list byte.
(** [x509.CreateCertificate] of a template, its parent, the subject's key and the signer's;
    [x509.MarshalECPrivateKey]; [pem.EncodeToMemory]; [tls.X509KeyPair]. *)
Variable CreateCertificate : Template -> Template -> PublicKey -> PrivateKey -> result (list byte) E.
Variable MarshalECPrivateKey : PrivateKey -> result (list byte) E.
Variable EncodeToMemory : Block -> list byte.
Variable X509KeyPair : list byte -> list byte -> result KeyPair E.

Definition template (serialNumber : Z) : Template := {|
  SerialNumber := serialNumber;
  Organization := ["maboo development"];
  NotBefore := now1;
  NotAfter := now2 + 365 * 24 * Hour;
  KeyUsage := Z.lor KeyUsageKeyEncipherment KeyUsageDigitalSignature;
  ExtKeyUsage := [ExtKeyUsageServerAuth];
  BasicConstraintsValid := true;
  IsCA := false;
  DNSNames := ["localhost"];
  IPAddresses := [ParseIP "127.0.0.1"; ParseIP "::1"]
|}.

(** The certificate and the key, in PEM. *)
Definition generateSelfSignedCert : result (list byte * list byte) E :=
  let? key := GenerateKey in
  let? serialNumber := rand_Int (Z.shiftl 1 128) in
  let t := template serialNumber in
  let? certDER := CreateCertificate t t (public key) key in
  let certPEM := EncodeToMemory (MkBlock "CERTIFICATE" certDER) in
  let? keyDER := MarshalECPrivateKey key in
  Ok (certPEM, EncodeToMemory (MkBlock "EC PRIVATE KEY" keyDER)).

(** ** [startTLS] *)

Definition VersionTLS12 : Z := 771.

(** [tls.Config]: where a handshake gets its certificate. *)
Inductive certificates := GetCertificate (m : Manager) | Certificates (k : KeyPair).
Record TLSSettings := MkTLSSettings { t_certificates : certificates; MinVersion : Z }.

Inductive tls_error :=
| SettingUpACME (e : acme_error)            (** "setting up ACME" *)
| GeneratingCert (e : E)                    (** "generating self-signed cert" *)
| ParsingCert (e : E)                       (** "parsing self-signed cert" *)
| NoCertificateConfigured.                  (** "TLS enabled but no cert/key provided ..." *)

(** What [startTLS] serves with: [http.Server]'s TLS configuration ([None] when it is given
    the files), the redirecting server and the HTTP/3 server. *)
Record secure := MkSecure {
  se_config : option TLSSettings;
  se_files : string * string;
  redirectSrv : option RedirectServer;
  http3 : option HTTP3Server
}.

Definition self_signed : result TLSSettings tls_error :=
  let? ck := map_err GeneratingCert generateSelfSignedCert in
  let? tlsCert := map_err ParsingCert (X509KeyPair (fst ck) (snd ck)) in
  Ok (MkTLSSettings (Certificates tlsCert) VersionTLS12).

Definition acme_config (MkdirAll : string -> bool) (c : Config) :
    result (TLSSettings * option RedirectServer) tls_error :=
  let? mr := map_err SettingUpACME (SetupACME MkdirAll c) in
  Ok (MkTLSSettings (GetCertificate (fst mr)) VersionTLS12, snd mr).

Definition startTLS_full (MkdirAll : string -> bool) (c : Config) : result secure tls_error :=
  let t := server_TLS (Config.Server c) in
  let serve tlsConfig redirect :=
    Ok (MkSecure (Some tlsConfig) ("", "") redirect (NewHTTP3Server c true)) in
  if negb (is_empty (acme_Email (tls_ACME t))) then
    let? cr := acme_config MkdirAll c in serve (fst cr) (snd cr)
  else if negb (is_empty (tls_Cert t)) && negb (is_empty (tls_Key t))
  then Ok (MkSecure None (tls_Cert t, tls_Key t) None None)
  else if tls_Auto t then
    let? tlsConfig := self_signed in serve tlsConfig None
  else Err NoCertificateConfigured.

(** [HTTP3Server.Start] and [Stop], on the nil server too. *)
Definition HTTP3_Start (ListenAndServe : HTTP3Server -> option E) (s : option HTTP3Server) : option E :=
  match s with None => None | Some s => ListenAndServe s end.
Definition HTTP3_Stop (Close : HTTP3Server -> option E) (s : option HTTP3Server) : option E :=
  match s with None => None | Some s => Close s end.

(** ** Self-signed certificates *)

(** [generateSelfSignedCert] returns the error of the first call that fails, and otherwise
    a certificate signed with the key it is for. *)
Lemma generateSelfSignedCert_spec :
  match GenerateKey with
  | Err e => generateSelfSignedCert = Err e
  | Ok key =>
      match rand_Int (2 ^ 128) with
      | Err e => generateSelfSignedCert = Err e
      | Ok serial =>
          match CreateCertificate (template serial) (template serial) (public key) key,
                MarshalECPrivateKey key with
          | Err e, _ | Ok _, Err e => generateSelfSignedCert = Err e
          | Ok cert, Ok keyDER =>
              generateSelfSignedCert
              = Ok (EncodeToMemory (MkBlock "CERTIFICATE" cert),
                    EncodeToMemory (MkBlock "EC PRIVATE KEY" keyDER))
          end
      end
  end.
Proof.
  unfold generateSelfSignedCert. change (Z.shiftl 1 128) with (2 ^ 128).
  destruct GenerateKey as [key|e]; [|done]. cbn [result_bind].
  destruct (rand_Int (2 ^ 128)) as [serial|e]; [|done]. cbn [result_bind].
  destruct (CreateCertificate _ _ _ _); [|done]. cbn [result_bind].
  by destruct (MarshalECPrivateKey key).
Qed.

(** The template: a server's certificate for this machine only, valid from now on for a year
    and what passes between the two looks at the clock. *)
Lemma template_usable serial t :
  now1 <= t <= now1 + 365 * 24 * Hour -> now1 <= now2 ->
  NotBefore (template serial) <= t <= NotAfter (template serial)
  /\ Z.testbit (KeyUsage (template serial)) 0 = true
  /\ ExtKeyUsageServerAuth ∈ ExtKeyUsage (template serial).
Proof. intros Ht Hn. cbn [template NotBefore NotAfter]. split; [lia|]. split; [done|by left]. Qed.

(** ** [startTLS] is what [Server] says *)

Lemma acme_config_email MkdirAll c e : acme_config MkdirAll c = Err e -> exists e', e = SettingUpACME e'.
Proof.
  unfold acme_config. destruct (SetupACME MkdirAll c) as [mr|e']; [done|]. intros [= <-]. by eexists.
Qed.

End TLS.
