(* ===== verification/Lifecycle.v ===== *)
(** Starting and stopping the servers: [New], [Start], [startTLS] and [Stop] of
    [src/internal/server/server.go] as goroutines over one [Server].

    [serve] calls [Start] in a goroutine and [Stop] in another one; [Start] itself starts a
    goroutine for the redirect server and one for HTTP/3, and stores both servers in fields that
    [Stop] reads, without a lock. A step is one access to a field, one call of a
    server, or the start of a goroutine. A server is known by what its documentation promises:
    once it is shut down or closed it does not listen any more, and a later call that would make it
    listen returns at once. Listening may fail at any moment. *)
From S2P Require Import Prelude Config Engine Server Acme.
Local Open Scope string_scope.
Local Open Scope list_scope.

(** ** State *)

(** A server: not yet listening, listening, or shut down. *)
Inductive listening := Fresh | Listening | Closed.
#[export] Instance listening_eq_dec : EqDecision listening.
Proof. solve_decision. Defined.

(** Where [Start] is. *)
Inductive start_pc :=
| TStart
| TCertificate                 (** the choice of [startTLS] *)
| TRedirect                    (** [SetupACME] returns: [s.redirectSrv] is stored *)
| THttp3                       (** [s.http3] is stored *)
| TGoHttp3                     (** the goroutine of HTTP/3 is started *)
| TListen                      (** [ListenAndServe] or [ListenAndServeTLS] *)
| TServing
| TReturned.

(** A goroutine that makes a server listen. *)
Inductive go_pc := GNone | GReady | GServing | GDone.
#[export] Instance go_pc_eq_dec : EqDecision go_pc.
Proof. solve_decision. Defined.

(** Where [Stop] is. *)
Inductive stop_pc := KNone | KHttp3 | KRedirect | KMain | KDone.

Record Server := MkServer {
  start : start_pc;
  redirect_go : go_pc;
  http3_go : go_pc;
  stop : stop_pc;
  f_redirectSrv : bool;        (** [s.redirectSrv] is not nil *)
  f_http3 : bool;              (** [s.http3] is not nil *)
  l_http : listening;
  l_redirect : listening;
  l_http3 : listening
}.

(** [New]: the fields of the other servers are nil. *)
Definition New : Server := MkServer TStart GNone GNone KNone false false Fresh Fresh Fresh.

Definition set_start t s := MkServer t (redirect_go s) (http3_go s) (stop s) (f_redirectSrv s) (f_http3 s)
  (l_http s) (l_redirect s) (l_http3 s).
Definition set_redirect_go g s := MkServer (start s) g (http3_go s) (stop s) (f_redirectSrv s) (f_http3 s)
  (l_http s) (l_redirect s) (l_http3 s).
Definition set_http3_go g s := MkServer (start s) (redirect_go s) g (stop s) (f_redirectSrv s) (f_http3 s)
  (l_http s) (l_redirect s) (l_http3 s).
Definition set_stop k s := MkServer (start s) (redirect_go s) (http3_go s) k (f_redirectSrv s) (f_http3 s)
  (l_http s) (l_redirect s) (l_http3 s).
Definition store_redirectSrv s := MkServer (start s) (redirect_go s) (http3_go s) (stop s) true (f_http3 s)
  (l_http s) (l_redirect s) (l_http3 s).
Definition store_http3 s := MkServer (start s) (redirect_go s) (http3_go s) (stop s) (f_redirectSrv s) true
  (l_http s) (l_redirect s) (l_http3 s).
Definition set_http l s := MkServer (start s) (redirect_go s) (http3_go s) (stop s) (f_redirectSrv s)
  (f_http3 s) l (l_redirect s) (l_http3 s).
Definition set_redirect l s := MkServer (start s) (redirect_go s) (http3_go s) (stop s) (f_redirectSrv s)
  (f_http3 s) (l_http s) l (l_http3 s).
Definition set_http3 l s := MkServer (start s) (redirect_go s) (http3_go s) (stop s) (f_redirectSrv s)
  (f_http3 s) (l_http s) (l_redirect s) l.

Section Machine.
Variable cfg : Config.
Variable MkdirAll : string -> bool.
(** Whether the self-signed certificate can be made and read. *)
Variable certificate_made : bool.

(** *** [Start] and [startTLS] *)

(** The set-up of the certificates; the redirect server's goroutine runs when [SetupACME] returns. *)
Definition certificate_step (s : Server) : Server :=
  match certificate cfg with
  | ACME =>
      match SetupACME MkdirAll cfg with
      | Err _ => set_start TReturned s
      | Ok (_, None) => set_start THttp3 s
      | Ok (_, Some _) => set_start TRedirect (set_redirect_go GReady s)
      end
  | CertificateFiles _ _ => set_start TListen s
  | SelfSigned => if certificate_made then set_start THttp3 s else set_start TReturned s
  | NoCertificate => set_start TReturned s
  end.

Definition start_step (s : Server) : option Server :=
  match start s with
  | TStart => Some (set_start (if useTLS cfg then TCertificate else TListen) s)
  | TCertificate => Some (certificate_step s)
  | TRedirect => Some (set_start THttp3 (store_redirectSrv s))
  | THttp3 =>
      Some (if server_HTTP3 (Config.Server cfg) then set_start TGoHttp3 (store_http3 s)
            else set_start TListen s)
  | TGoHttp3 => Some (set_start TListen (set_http3_go GReady s))
  | TListen =>
      Some (match l_http s with
            | Closed => set_start TReturned s
            | _ => set_start TServing (set_http Listening s)
            end)
  | TServing => match l_http s with Closed => Some (set_start TReturned s) | _ => None end
  | TReturned => None
  end.

(** The goroutine of a server: [ListenAndServe], and its return. *)
Definition go_step (g : go_pc) (l : listening) : option (go_pc * listening) :=
  match g, l with
  | GReady, Closed | GServing, Closed => Some (GDone, Closed)
  | GReady, _ => Some (GServing, Listening)
  | _, _ => None
  end.

(** *** Failures

    [ListenAndServe] may return an error, before it listens (the address is in use, a file of
    the certificate cannot be read) or later (the listener breaks); the listener is then closed. *)
Definition broken (l : listening) : listening := match l with Listening => Fresh | l => l end.

Definition start_fails (s : Server) : option Server :=
  match start s with
  | TListen | TServing => Some (set_start TReturned (set_http (broken (l_http s)) s))
  | _ => None
  end.

Definition go_fails (g : go_pc) (l : listening) : option (go_pc * listening) :=
  match g with GReady | GServing => Some (GDone, broken l) | _ => None end.

(** *** [Stop] *)

Definition stop_step (s : Server) : option Server :=
  match stop s with
  | KHttp3 => Some (set_stop KRedirect (if f_http3 s then set_http3 Closed s else s))
  | KRedirect => Some (set_stop KMain (if f_redirectSrv s then set_redirect Closed s else s))
  | KMain => Some (set_stop KDone (set_http Closed s))
  | _ => None
  end.

Inductive event :=
| Start | Redirect | Http3 | CallStop | Stop
| StartFails | RedirectFails | Http3Fails.

(** The events that are actions of the program. *)
Definition actions : list event := [Start; Redirect; Http3; CallStop; Stop].

Definition step (s : Server) (e : event) : option Server :=
  match e with
  | Start => start_step s
  | Redirect =>
      '(g, l) ← go_step (redirect_go s) (l_redirect s); Some (set_redirect_go g (set_redirect l s))
  | Http3 => '(g, l) ← go_step (http3_go s) (l_http3 s); Some (set_http3_go g (set_http3 l s))
  | CallStop => match stop s with KNone => Some (set_stop KHttp3 s) | _ => None end
  | Stop => stop_step s
  | StartFails => start_fails s
  | RedirectFails =>
      '(g, l) ← go_fails (redirect_go s) (l_redirect s); Some (set_redirect_go g (set_redirect l s))
  | Http3Fails => '(g, l) ← go_fails (http3_go s) (l_http3 s); Some (set_http3_go g (set_http3 l s))
  end.

Fixpoint run (s : Server) (es : list event) : option Server :=
  match es with
  | [] => Some s
  | e :: es => match step s e with Some s => run s es | None => None end
  end.

(** ** What is stored, and what is stopped *)

(** [Start] has stored all the servers it will. *)
Definition settled (s : Server) : bool :=
  match start s with TListen | TServing | TReturned => true | _ => false end.

(** [Stop] has come past a server. *)
Definition past_http3 (k : stop_pc) : bool := match k with KRedirect | KMain | KDone => true | _ => false end.
Definition past_redirect (k : stop_pc) : bool := match k with KMain | KDone => true | _ => false end.

(** A server that has a goroutine is in its field, but for the moment in which the redirect
    server has been started and not been stored; and only a goroutine makes a server listen. *)
Record stored (s : Server) : Prop := {
  sd_redirect : redirect_go s <> GNone -> f_redirectSrv s = true \/ start s = TRedirect;
  sd_http3 : http3_go s <> GNone \/ start s = TGoHttp3 -> f_http3 s = true;
  sd_redirect_l : redirect_go s = GNone -> l_redirect s <> Listening;
  sd_http3_l : http3_go s = GNone -> l_http3 s <> Listening;
  sd_http : stop s = KDone -> l_http s = Closed
}.

(** What [Stop], called when everything was stored, has stopped. *)
Record stopped (s : Server) : Prop := {
  sp_settled : settled s = true;
  sp_http3 : past_http3 (stop s) = true -> f_http3 s = true -> l_http3 s = Closed;
  sp_redirect : past_redirect (stop s) = true -> f_redirectSrv s = true -> l_redirect s = Closed
}.

Ltac step_cases Hs :=
  repeat first
    [ apply bind_Some in Hs as ([? ?] & ? & Hs)
    | case_match; try discriminate Hs ];
  simplify_eq.

Lemma go_step_inv g l g' l' :
  go_step g l = Some (g', l') -> g <> GNone /\ g' <> GNone /\ (l = Closed -> l' = Closed).
Proof. by destruct g, l; intros [= <- <-]. Qed.

Lemma go_fails_inv g l g' l' :
  go_fails g l = Some (g', l') -> g <> GNone /\ g' <> GNone /\ (l = Closed -> l' = Closed).
Proof. by destruct g, l; intros [= <- <-]. Qed.

Lemma stored_step s e s' : stored s -> step s e = Some s' -> stored s'.
Proof.
  intros [H1 H2 H3 H4 H5] Hs. destruct e; cbn [step] in Hs.
  - unfold start_step, certificate_step in Hs. step_cases Hs.
    all: split; cbn in *; try done; try tauto; try (intros; naive_solver).
  - apply bind_Some in Hs as ([g l] & (A & B & C)%go_step_inv & [= <-]). split; cbn; naive_solver.
  - apply bind_Some in Hs as ([g l] & (A & B & C)%go_step_inv & [= <-]). split; cbn; naive_solver.
  - case_match; try done. injection Hs as <-. by split.
  - unfold stop_step in Hs. step_cases Hs; split; cbn; naive_solver.
  - unfold start_fails in Hs. step_cases Hs; (split; cbn;
      [by intros [?|?]%H1; [left|]|by intros [?|?]; auto|auto|auto|intros Hd; by rewrite (H5 Hd)]).
  - apply bind_Some in Hs as ([g l] & (A & B & C)%go_fails_inv & [= <-]). split; cbn; naive_solver.
  - apply bind_Some in Hs as ([g l] & (A & B & C)%go_fails_inv & [= <-]). split; cbn; naive_solver.
Qed.

Lemma stopped_step s e s' : stopped s -> step s e = Some s' -> stopped s'.
Proof.
  intros [H1 H2 H3] Hs. destruct e; cbn [step] in Hs.
  - unfold settled in H1. unfold start_step, certificate_step in Hs.
    step_cases Hs; split; cbn; try done; naive_solver.
  - apply bind_Some in Hs as ([g l] & (A & B & C)%go_step_inv & [= <-]). split; [exact H1|cbn; auto..].
  - apply bind_Some in Hs as ([g l] & (A & B & C)%go_step_inv & [= <-]). split; [exact H1|cbn; auto..].
  - case_match; try done. injection Hs as <-. by split.
  - unfold stop_step in Hs. step_cases Hs; (split; [exact H1|..]); cbn in *; try done; auto; congruence.
  - unfold start_fails in Hs. by step_cases Hs; split.
  - apply bind_Some in Hs as ([g l] & (A & B & C)%go_fails_inv & [= <-]). split; [exact H1|cbn; auto..].
  - apply bind_Some in Hs as ([g l] & (A & B & C)%go_fails_inv & [= <-]). split; [exact H1|cbn; auto..].
Qed.

Lemma run_keeps (P : Server -> Prop) :
  (forall s e s', P s -> step s e = Some s' -> P s') ->
  forall es s s', P s -> run s es = Some s' -> P s'.
Proof.
  intros Hstep. induction es as [|e es IH]; intros s s' Hp; cbn [run]; [by intros [= <-]|].
  destruct (step s e) as [s1|] eqn:E; [|done]. intros Hr. by eapply IH, Hr; eapply Hstep.
Qed.

Lemma stored_run es s : run New es = Some s -> stored s.
Proof. apply (run_keeps stored); [apply stored_step|]. split; cbn; naive_solver. Qed.

(** Once the main server is shut down nothing makes it listen again. *)
Lemma done_step s e s' :
  stop s = KDone /\ l_http s = Closed -> step s e = Some s' -> stop s' = KDone /\ l_http s' = Closed.
Proof.
  intros [Hk Hl] Hs. destruct e; cbn [step] in Hs.
  - unfold start_step, certificate_step in Hs. step_cases Hs; cbn; by rewrite ?Hl.
  - by apply bind_Some in Hs as ([g l] & _ & [= <-]).
  - by apply bind_Some in Hs as ([g l] & _ & [= <-]).
  - by rewrite Hk in Hs.
  - unfold stop_step in Hs. by rewrite Hk in Hs.
  - unfold start_fails in Hs. step_cases Hs; cbn; by rewrite Hl.
  - by apply bind_Some in Hs as ([g l] & _ & [= <-]).
  - by apply bind_Some in Hs as ([g l] & _ & [= <-]).
Qed.

Definition silent (s : Server) : Prop :=
  l_http s <> Listening /\ l_redirect s <> Listening /\ l_http3 s <> Listening.

Lemma stopped_silent s : stored s -> stopped s -> stop s = KDone -> silent s.
Proof.
  intros [S1 S2 S3 S4 S5] [P1 P2 P3] Hd. rewrite Hd in P2, P3. specialize (S5 Hd). split_and!.
  - by rewrite S5.
  - destruct (decide (redirect_go s = GNone)) as [Hg|Hg]; [auto|].
    destruct (S1 Hg) as [Hf|Hf]; [by rewrite P3|]. unfold settled in P1. by rewrite Hf in P1.
  - destruct (decide (http3_go s = GNone)) as [Hg|Hg]; [auto|]. rewrite P2; auto.
Qed.

(** How many steps [Stop] still takes. *)
Definition stop_left (k : stop_pc) : nat :=
  match k with KNone => 4 | KHttp3 => 3 | KRedirect => 2 | KMain => 1 | KDone => 0 end.

(** C31. A shutdown leaves no server behind: when [Stop] is called after [Start] has stored the
    servers it starts, then, however the goroutines of the two, of the redirect server and of
    HTTP/3 interleave before and after, and whichever of them fail, once [Stop] is done neither the main server, nor the
    redirect server, nor the HTTP/3 server listens or ever listens again; and [Stop] itself
    never waits for [Start] or for the goroutines of the servers. *)
Theorem Stop_stops_all (es1 es2 : list event) (s1 s2 : Server) :
  run New es1 = Some s1 -> stop s1 = KNone -> settled s1 = true ->
  run s1 es2 = Some s2 ->
  (stop s2 = KDone -> forall es s, run s2 es = Some s -> silent s)
  /\ (stop_left (stop s2) = 0%nat
      \/ exists e s', step s2 e = Some s' /\ e ∈ [CallStop; Stop]
                      /\ (stop_left (stop s') < stop_left (stop s2))%nat).
Proof.
  intros H1 Hk Hset H2. pose proof (stored_run _ _ H1) as Hst1.
  assert (stopped s1) as Hsp1 by (split; [done|by rewrite Hk..]).
  assert (stored s2) as Hst2 by (by eapply (run_keeps stored); [apply stored_step| |exact H2]).
  assert (stopped s2) as Hsp2 by (by eapply (run_keeps stopped); [apply stopped_step| |exact H2]).
  split.
  - intros Hd es s Hr. apply stopped_silent.
    + by eapply (run_keeps stored); [apply stored_step| |exact Hr].
    + by eapply (run_keeps stopped); [apply stopped_step| |exact Hr].
    + assert (stop s = KDone /\ l_http s = Closed) as [? _]; [|done].
      eapply (run_keeps (fun s => stop s = KDone /\ l_http s = Closed)); [apply done_step| |exact Hr].
      split; [done|]. by apply (sd_http s2 Hst2).
  - destruct (stop s2) eqn:E; [right; exists CallStop|right; exists Stop..|by left]; eexists;
      (split; [cbn; unfold stop_step; rewrite E; reflexivity|split; [by repeat constructor|cbn; lia]]).
Qed.
End Machine.

(** ** Concrete runs *)

Definition with_redirect : Config := MkConfig
  (MkServerConfig ":443" ModeNative true true
     (MkTLS false "" "" (MkACME "me@example.org" ["example.org"] "" false)) true)
  (PHP Default) (Pool Default) (App Default) (WebSocket Default) (Static Default)
  (Logging Default) (Metrics Default) (Watch Default) [].

Abbreviation example_run := (run with_redirect (fun _ => true) true).

(** A shutdown that is called while [Start] sets up the certificates reads the fields before they
    are stored: after it is done the redirect server and the HTTP/3 server listen, and nothing
    is left that would stop them, unless they fail by themselves. *)
Theorem Stop_overtakes_Start :
  exists s, example_run New [Start; Start; CallStop; Stop; Stop; Redirect; Start; Start; Start; Http3; Stop; Start]
            = Some s
  /\ stop s = KDone /\ start s = TReturned /\ l_redirect s = Listening /\ l_http3 s = Listening
  /\ forall e, e ∈ actions -> step with_redirect (fun _ => true) true s e = None.
Proof.
  eexists. split; [by vm_compute|]. split_and!; try reflexivity.
  intros e He. repeat (apply elem_of_cons in He as [->|He]; [by vm_compute|]). by apply not_elem_of_nil in He.
Qed.

Definition start_events : list event := [Start; Start; Start; Start; Redirect; Start; Http3; Start].
Definition stop_events : list event := [CallStop; Stop; Stop; Redirect; Stop; Start; Http3].

Lemma Stop_stops_all_witness :
  l_http3 (default New (example_run New (start_events ++ stop_events))) <> Listening.
Proof.
  destruct (Stop_stops_all with_redirect (fun _ => true) true start_events stop_events
    (default New (example_run New start_events)) (default New (example_run New (start_events ++ stop_events)))
    ltac:(by vm_compute) ltac:(by vm_compute) ltac:(by vm_compute) ltac:(by vm_compute)) as [H _].
  exact (proj2 (proj2 (H ltac:(by vm_compute) [] _ eq_refl))).
Defined.
