(* ===== verification/Service.v ===== *)
(** The server on its embedded pool: the middlewares of [Server] and the router, with the
    machine of [EmbPool] as the pool behind the interface [WorkerPool].

    A handler sees one call of the pool's [Exec]. [Exec_alone] is what that call does when no
    other goroutine interferes, computed by running the machine, the replacement of a
    worker that is due included. *)
From stdpp Require Import gmap.
From S2P Require Import Prelude GoTime Config Engine GoStr EmbWorker EmbPool EmbPoolInv EmbPoolSeq.
From S2P Require Import Http Compress Middleware Metrics Router Server.
Local Open Scope string_scope.
Local Open Scope Z_scope.
Local Open Scope list_scope.

(** ** The pool behind the interface *)

Section Embedded.
Context (placeholderHTML : string) (ReadFile : string -> option (list byte)).
Context (UnmarshalRequire : list byte -> option (gmap string string)) (cfg : Config).

Abbreviation step := (step placeholderHTML ReadFile UnmarshalRequire cfg).
Abbreviation run := (run placeholderHTML ReadFile UnmarshalRequire cfg).

(** Runs the events that are possible, and skips the others. *)
Fixpoint run_while (s : state) (es : list event) : state :=
  match es with
  | [] => s
  | e :: es => match step s e with Some s' => run_while s' es | None => run_while s es end
  end.

(** One call of [Exec]: after a shutdown the select sees the context done; with no worker
    available it times out; otherwise it goes on to the end, and the goroutine that
    replaces the worker, if there is one, after it. *)
Definition exec_schedule (p : EmbPool) : list event :=
  CallExec :: Run 0 Go ::
  (if cancelled p then [Run 0 Done]
   else match available p with
        | [] => [Run 0 Timeout]
        | _ => goes 0 9 ++ goes 1 7
        end).

Definition Exec_alone (p : EmbPool) : result Response exec_error * EmbPool :=
  let s := run_while (MkState p []) (exec_schedule p) in
  (match threads s !! 0%nat with
   | Some (Finished (ExecResult r)) => r
   | _ => Err PoolShuttingDown
   end, pool s).

Definition engine_error_text (e : engine_error) : string :=
  match e with
  | UnsupportedPHP v => String.append "unsupported PHP version: " v
  | EngineNotStarted => "engine not started"
  end.
Definition exec_error_text (e : exec_error) : string :=
  match e with
  | NoAvailableWorker =>
      String.append "no available worker within " (Duration_String (AllocateTimeout (Pool cfg)))
  | PoolShuttingDown => "pool shutting down"
  | WorkerError e => engine_error_text e
  end.

(** [worker.Pool] implements [server.Pool]. *)
Definition EmbeddedPool : WorkerPool EmbPool exec_error := {|
  pool_Exec _ _ p := Exec_alone p;
  pool_Stats p :=
    let st := EmbPool.Stats p in
    MkStatsGetter (st_totalWorkers st) (st_busyWorkers st) (st_idleWorkers st) (st_totalRequests st);
  error_text := exec_error_text
|}.

(** ** A pool that answers *)

Context (Hcfg : valid_config cfg) (Hmode : php_Mode (PHP cfg) = "worker").

Definition php_version : string :=
  SelectVersion ReadFile UnmarshalRequire (app_Root (App cfg)) (php_Version (PHP cfg)).
Definition page_body : string := ReplaceAll placeholderHTML "{{PHP_VERSION}}" php_version.
Definition page_response : Response :=
  MkResponse 200 {["Content-Type" := "text/html; charset=utf-8"]} page_body.

Record healthy (p : EmbPool) : Prop := MkHealthy {
  hp_open : closed p = false /\ cancelled p = false;
  hp_nodup : NoDup (available p);
  hp_some : available p <> [] /\ Z.of_nat (length (available p)) <= maxw cfg;
  hp_engine w : w ∈ available p ->
    (w < next_loc p)%nat
    /\ exists x, heap p !! w = Some x /\ w_engine x = MkEngine php_version true
}.

Lemma run_while_app s es fs : run_while s (es ++ fs) = run_while (run_while s es) fs.
Proof.
  revert s. induction es as [|e es IH]; intros s; cbn [app run_while]; [done|].
  by destruct (step s e).
Qed.

Lemma run_while_run s es s' : run s es = Some s' -> run_while s es = s'.
Proof.
  revert s. induction es as [|e es IH]; intros s; cbn; [by intros [= ->]|].
  destruct (step s e); [apply IH|done].
Qed.

Lemma run_while_stuck s es : Forall (fun e => step s e = None) es -> run_while s es = s.
Proof. induction 1 as [|e es He _ IH]; cbn; [done|]. by rewrite He. Qed.

Lemma spawned_engine id :
  w_engine (spawned ReadFile UnmarshalRequire cfg id) = MkEngine php_version true.
Proof.
  unfold spawned, worker_mode. rewrite bool_decide_true by done.
  destruct (NewWorker_valid ReadFile UnmarshalRequire cfg Hcfg id) as [v Ev]. rewrite Ev.
  unfold NewWorker in Ev. fold php_version in Ev. unfold NewEngine in Ev.
  destruct (negb _); cbn in Ev; [done|]. by injection Ev as <-.
Qed.

Lemma Exec_page x :
  w_engine x = MkEngine php_version true ->
  fst (Exec placeholderHTML x) = Ok page_response
  /\ w_engine (snd (Exec placeholderHTML x)) = MkEngine php_version true.
Proof.
  intros E. unfold Exec, exec_run, Execute. cbn. by rewrite E.
Qed.

Lemma Exec_alone_serves p w x av :
  available p = w :: av -> heap p !! w = Some x -> closed p = false -> cancelled p = false ->
  Z.of_nat (length (available p)) <= maxw cfg ->
  Exec_alone p
  = (exec_result (fst (Exec placeholderHTML x)),
     if NeedsRecycle (snd (Exec placeholderHTML x))
     then recycled ReadFile UnmarshalRequire cfg (served placeholderHTML p w x av) w
     else served placeholderHTML p w x (av ++ [w])).
Proof.
  intros Ha Hx Hc Hca Hl. unfold Exec_alone, exec_schedule. rewrite Hca, Ha.
  destruct (NeedsRecycle _) eqn:En.
  - change (CallExec :: Run 0 Go :: goes 0 9 ++ goes 1 7)
      with ((CallExec :: goes 0 9) ++ [Run 0 Go] ++ goes 1 7).
    pose proof (run_due_request placeholderHTML ReadFile UnmarshalRequire cfg p [] w x av [] Ha Hx En) as H9.
    pose proof (run_last_request placeholderHTML ReadFile UnmarshalRequire cfg Hcfg p [] w x av
                  Ha Hx Hc Hl En Hca) as Hrun.
    rewrite (run_due_request _ _ _ _ p [] w x av) in Hrun by done.
    rewrite app_nil_r in H9. cbn [length] in H9, Hrun. rewrite run_while_app, (run_while_run _ _ _ H9), run_while_app.
    rewrite (run_while_stuck _ [_]) by (by repeat constructor).
    by rewrite (run_while_run _ _ _ Hrun).
  - change (CallExec :: Run 0 Go :: goes 0 9 ++ goes 1 7)
      with ((CallExec :: goes 0 10) ++ goes 1 7).
    pose proof (run_request placeholderHTML ReadFile UnmarshalRequire cfg p [] w x av
                  Ha Hx Hc Hl En) as Hrun. cbn [length] in Hrun.
    rewrite run_while_app, (run_while_run _ _ _ Hrun), run_while_stuck by (repeat constructor). done.
Qed.
(** A healthy pool stays healthy when its first worker goes to the back, or is replaced. *)
Lemma healthy_served p w x av :
  healthy p -> available p = w :: av -> heap p !! w = Some x ->
  healthy (served placeholderHTML p w x (av ++ [w])).
Proof.
  intros [Ho Hn [Hs Hl] He] Ha Hx. rewrite Ha in *. constructor; cbn.
  - done.
  - by rewrite <- Permutation_cons_append.
  - split; [by destruct av|]. revert Hl. rewrite length_app. cbn. lia.
  - intros v Hv. rewrite <- Permutation_cons_append in Hv. destruct (He v Hv) as [Hlt (y & Hy & Ey)].
    split; [done|]. rewrite lookup_insert. case_decide as E; [|by exists y].
    eexists. split; [done|]. apply Exec_page. by simplify_eq.
Qed.

Lemma healthy_recycled p w x av :
  healthy p -> available p = w :: av -> heap p !! w = Some x ->
  healthy (recycled ReadFile UnmarshalRequire cfg (served placeholderHTML p w x av) w).
Proof.
  intros [Ho Hn [Hs Hl] He] Ha Hx. rewrite Ha in *. apply NoDup_cons in Hn as [Hw Hn].
  unfold recycled. set (q := upd_worker w EmbWorker.Stop _).
  destruct (removeWorker_frame w q) as (Eh & El & Eav & Ecl & _ & Eca & _).
  constructor; cbn [spawn_pool closed cancelled available heap next_loc]; rewrite ?Eh, ?El, ?Eav, ?Ecl, ?Eca.
  - done.
  - apply NoDup_app. split_and!; [done| |apply NoDup_singleton].
    intros v Hv ->%list_elem_of_singleton. cbn in Hv. destruct (He (next_loc p)) as [? _]; [by right|lia].
  - cbn. split; [by destruct av|]. revert Hl. rewrite length_app. cbn. lia.
  - intros v Hv. apply elem_of_app in Hv as [Hv| ->%list_elem_of_singleton].
    + destruct (He v) as [Hlt (y & Hy & Ey)]; [by right|]. cbn in *. split; [lia|].
      rewrite lookup_insert_ne by lia. assert (v <> w) by (intros ->; done).
      exists y. by rewrite lookup_alter_ne, lookup_insert_ne by done.
    + split; [cbn; lia|]. rewrite lookup_insert_eq. eexists. split; [done|apply spawned_engine].
Qed.

Lemma Exec_alone_healthy p :
  healthy p ->
  exists p', Exec_alone p = (Ok page_response, p') /\ healthy p'
    /\ EmbPool.totalRequests p' = int64 (EmbPool.totalRequests p + 1) /\ busyWorkers p' = int32 (busyWorkers p)
    /\ length (available p') = length (available p).
Proof.
  intros Hp. pose proof Hp as [[Hc Hca] Hn [Hs Hl] He]. destruct (available p) as [|w av] eqn:Ha; [done|].
  destruct (He w) as [_ (x & Hx & Ex)]; [by left|]. destruct (Exec_page x Ex) as [Er _].
  rewrite (Exec_alone_serves p w x av), Er by (done || by rewrite Ha).
  destruct (NeedsRecycle _); (eexists; split; [done|]).
  - destruct (removeWorker_frame w (upd_worker w EmbWorker.Stop (served placeholderHTML p w x av)))
      as (_ & _ & Eav & _ & _ & _ & Et & Eb).
    split; [by apply healthy_recycled|]. unfold recycled. cbn. rewrite Eav, Et, Eb. cbn.
    split_and!; [done..|]. rewrite length_app. cbn. lia.
  - split; [by apply healthy_served|]. cbn. split_and!; [done..|]. rewrite length_app. cbn. lia.
Qed.

Lemma fresh_healthy k p :
  (0 < k)%nat -> Z.of_nat k <= maxw cfg -> fresh_pool ReadFile UnmarshalRequire cfg k p -> healthy p.
Proof.
  intros Hk Hm [Hw Ha Hl _ _ _ _ Ho Hh]. constructor; rewrite ?Ha.
  - done.
  - apply NoDup_seq.
  - rewrite length_seq. split; [by destruct k; [lia|]|done].
  - intros w Hin. apply elem_of_seq in Hin. split; [lia|].
    eexists. split; [apply Hh; lia|apply spawned_engine].
Qed.
(** ** The service *)

Context (Stat : string -> bool) (range_headers : headers -> list (string * list string)).
Context (range_strings : gmap string string -> list (string * string)).
Context (Query PostForm : Request -> list (string * list string)).
Context (Cookies : Request -> list (string * string)).
Context (FileServer : Handler EmbPool) (liveness_json : list byte).
Context (readiness_json : StatsGetter -> list byte).
Context (fastRequestID : Request -> string) (logger_Enabled : bool) (duration : Request -> Z).
Context (expo : Exposition) (gzip : list (list byte) -> list byte).
(** [range] over a map with one entry. *)
Context (Hrange : forall k v, range_strings {[k := v]} = [(k, v)]).

#[local] Existing Instance EmbeddedPool.

(** The handler [New] gives to [http.Server]. *)
Definition service : Handler (shared EmbPool) :=
  buildMiddleware cfg fastRequestID logger_Enabled duration pool_Stats expo gzip
    (router cfg Stat range_headers range_strings Query PostForm Cookies FileServer liveness_json
       readiness_json).

(** ... and, when the configuration says so, with HTTP/2. *)
Definition http_handler (h2c : Handler (shared EmbPool) -> Handler (shared EmbPool)) :
    Handler (shared EmbPool) :=
  if server_HTTP2 (Config.Server cfg) then EnableHTTP2 h2c (useTLS cfg) service else service.

(** Requests one after the other, each on a connection of its own. *)
Fixpoint serve_all (rs : list Request) (st : shared EmbPool) : list conn * shared EmbPool :=
  match rs with
  | [] => ([], st)
  | r :: rs =>
      let o := service conn _ r st fresh_conn in
      let '(cs, st) := serve_all rs (o_state o) in (o_writer o :: cs, st)
  end.

Definition page_sets : list action := [ASet "Content-Type" "text/html; charset=utf-8"].
Definition page_headers (r : Request) : headers :=
  headers_of page_sets (base_headers cfg fastRequestID r).

(** A request for a page. *)
Definition for_page (r : Request) : Prop :=
  for_php cfg r /\ Path r <> metrics_Path (Config.Metrics cfg).

Lemma page_no_hint r : has_hint (page_headers r) = false.
Proof.
  unfold page_headers, base_headers. generalize (fst (named fastRequestID r)). intros id.
  by destruct (server_HTTP3 _).
Qed.

Lemma service_page r m log p :
  metrics_Enabled (Config.Metrics cfg) = true -> for_page r -> healthy p ->
  exists p', Exec_alone p = (Ok page_response, p')
    /\ service conn _ r (m, (log, p)) fresh_conn
       = final fastRequestID logger_Enabled duration r (page_headers r) 200 (ascii_bytes page_body) m log p'.
Proof.
  intros Hm [Hr Hp] Hh. destruct (Exec_alone_healthy p Hh) as (p' & He & _). exists p'. split; [done|].
  pose proof (router_replies cfg Stat range_headers range_strings Query PostForm Cookies FileServer
    liveness_json readiness_json (snd (named fastRequestID r)) p (named_for_php _ _ _ Hr)) as Hrep.
  unfold pool_answer, pool_Exec, EmbeddedPool in Hrep. rewrite He in Hrep.
  unfold response_sets in Hrep. cbn [resp_Headers page_response] in Hrep. rewrite Hrange in Hrep.
  eapply stack_delivers; try done. apply page_no_hint.
Qed.
Lemma serve_all_pages rs : forall m log p t,
  metrics_Enabled (Config.Metrics cfg) = true -> Forall for_page rs ->
  healthy p -> EmbPool.totalRequests p = int64 t -> busyWorkers p = 0 ->
  let '(cs, (_, (_, p'))) := serve_all rs (m, (log, p)) in
  map response cs = map (fun r => (200, page_headers r, ascii_bytes page_body)) rs
  /\ EmbPool.totalRequests p' = int64 (t + Z.of_nat (length rs)) /\ busyWorkers p' = 0
  /\ length (available p') = length (available p).
Proof.
  induction rs as [|r rs IH]; intros m log p t Hm Hrs Hh Ht Hb; cbn [serve_all map].
  { split_and!; try done. by rewrite Ht, Z.add_0_r. }
  apply Forall_cons in Hrs as [Hr Hrs]. destruct (service_page r m log p Hm Hr Hh) as (q & Hq & ->).
  destruct (Exec_alone_healthy p Hh) as (q' & Hq' & Hhq & Htq & Hbq & Hlq).
  rewrite Hq in Hq'. injection Hq' as <-.
  cbn [Server.final o_state o_writer].
  match goal with |- context [serve_all rs (?m1, (?log1, ?p1))] =>
    pose proof (IH m1 log1 p1 (t + 1) Hm Hrs Hhq) as IH';
    destruct (serve_all rs (m1, (log1, p1))) as [cs [m' [log' p']]] end.
  destruct IH' as (E1 & E2 & E3 & E4).
  { by rewrite Htq, Ht, int64_add. }
  { by rewrite Hbq, Hb. }
  cbv beta iota. split_and!; [exact (f_equal (cons _) E1)| |done|by rewrite E4].
  rewrite E2. f_equal. cbn [length]. lia.
Qed.

End Embedded.

(** ** A concrete run: recycling after every second request *)

Definition two_shots : Config := tiny_cfg "worker" 1 2 2.

Definition get_request (path : string) : Request := MkRequest "GET" path "" "h" "1.2.3.4:5" false ∅.

Definition pages : list Request := [get_request "/"; gzip_request; get_request "/a"; get_request "/b"].

Lemma two_shots_valid : valid_config two_shots.
Proof. by apply Validate_valid; vm_compute. Qed.

Definition hello : string := "PHP {{PHP_VERSION}}".

