(* ===== verification/Health.v ===== *)
(** The health documents: [src/internal/server/health.go] down to the bytes.

    [Router] has the endpoints with their status codes; here are the JSON documents they send,
    through the encoder of [GoJSON], and what a client of the whole server reads in them about
    the embedded pool. *)
From S2P Require Import Prelude Config GoStr GoJSON GoTime EmbPool EmbPoolInv.
From S2P Require Import Http Compress Middleware Metrics Router Server Service.
From stdpp Require Import gmap.
From Stdlib Require Import Ascii.
Local Open Scope string_scope.
Local Open Scope Z_scope.
Local Open Scope list_scope.

(** ** The documents *)

(** What [runtime] reports, and the two looks at the clock since [startTime], the second printed in
    seconds. *)
Record Runtime := MkRuntime {
  uptime : Z;
  uptime_seconds : string;
  ms_Alloc : Z; ms_Sys : Z; ms_NumGC : Z;
  Version : string;
  goroutines : Z
}.

Definition liveness_doc (x : Runtime) : json :=
  JObject [("status", JString "ok"); ("uptime", JString (Duration_String (uptime x)))].

Definition readiness_doc (x : Runtime) (stats : StatsGetter) : json :=
  let statusStr := if TotalWorkers stats >? 0 then "ready" else "not_ready" in
  JObject
    [("status", JString statusStr);
     ("uptime", JString (Duration_String (uptime x)));
     ("uptime_seconds", JNumber (uptime_seconds x));
     ("workers", JObject [("total", JInt (TotalWorkers stats)); ("busy", JInt (BusyWorkers stats));
                          ("idle", JInt (IdleWorkers stats)); ("requests", JInt (TotalRequests stats))]);
     ("memory", JObject [("alloc_mb", JInt (ms_Alloc x / 1024 / 1024)); ("sys_mb", JInt (ms_Sys x / 1024 / 1024));
                         ("gc_cycles", JInt (ms_NumGC x))]);
     ("go_version", JString (Version x));
     ("goroutines", JInt (goroutines x))].

Definition liveness_json (x : Runtime) : list byte := ascii_bytes (Encode (liveness_doc x)).
Definition readiness_json (x : Runtime) (stats : StatsGetter) : list byte :=
  ascii_bytes (Encode (readiness_doc x stats)).

(** ** Reading them *)

Definition text_of (bs : list byte) : string :=
  String.string_of_list_ascii (map Ascii.ascii_of_byte bs).

Lemma text_of_ascii_bytes s : text_of (ascii_bytes s) = s.
Proof.
  unfold text_of, ascii_bytes. rewrite map_map.
  rewrite (map_ext _ id) by (intros c; apply Ascii.ascii_of_byte_of_ascii).
  by rewrite map_id, String.string_of_list_ascii_of_string.
Qed.

(** The value at a path of keys. *)
Fixpoint field (path : list string) (v : json) : option json :=
  match path, v with
  | [], _ => Some v
  | k :: path, JObject fs => '(_, v) ← List.find (fun kv => bool_decide (fst kv = k)) fs; field path v
  | _, _ => None
  end.

(** The text of a duration is UTF-8. *)
Lemma valid_cons c s : byte_in 0 127 c = true -> to_valid 0 s = s -> to_valid 0 (String c s) = String c s.
Proof. intros Hc Hs. cbn [to_valid]. by rewrite Hc, Hs. Qed.

Lemma valid_digit d s : 0 <= d < 10 -> to_valid 0 s = s -> to_valid 0 (String (digit d) s) = String (digit d) s.
Proof.
  intros Hd. apply valid_cons, byte_in_range. unfold digit. rewrite Ascii.nat_ascii_embedding; lia.
Qed.

Lemma valid_fmtInt_loop fuel v buf :
  to_valid 0 buf = buf -> to_valid 0 (fmtInt_loop fuel v buf) = fmtInt_loop fuel v buf.
Proof.
  revert v buf. induction fuel as [|fuel IH]; intros v buf Hb; [done|]. cbn [fmtInt_loop].
  destruct (v >? 0); [|done]. apply IH, valid_digit; [|done]. by apply Z.mod_pos_bound.
Qed.

Lemma valid_fmtInt buf v : to_valid 0 buf = buf -> to_valid 0 (fmtInt buf v) = fmtInt buf v.
Proof.
  intros Hb. unfold fmtInt. destruct (v =? 0); [by apply valid_cons|by apply valid_fmtInt_loop].
Qed.

Lemma valid_fmtFrac_loop i print v buf :
  to_valid 0 buf = buf ->
  let '(_, _, buf') := fmtFrac_loop i print v buf in to_valid 0 buf' = buf'.
Proof.
  revert print v buf. induction i as [|i IH]; intros print v buf Hb; [done|]. cbn [fmtFrac_loop]. apply IH.
  destruct (_ || _); [|done]. apply valid_digit; [by apply Z.mod_pos_bound|done].
Qed.

Lemma valid_fmtFrac buf v prec : to_valid 0 buf = buf -> to_valid 0 (fst (fmtFrac buf v prec)) = fst (fmtFrac buf v prec).
Proof.
  intros Hb. unfold fmtFrac. pose proof (valid_fmtFrac_loop prec false v buf Hb) as H.
  destruct (fmtFrac_loop prec false v buf) as [[print u] buf']. destruct print; [by apply valid_cons|done].
Qed.

Lemma valid_Duration d : to_valid 0 (Duration_String d) = Duration_String d.
Proof.
  unfold Duration_String. generalize (if d <? 0 then uint64 (- uint64 d) else uint64 d). intros u.
  assert (to_valid 0 (format_small u) = format_small u) as Hs.
  { unfold format_small. destruct (u =? 0); [done|].
    assert (forall unit prec, to_valid 0 unit = unit ->
      to_valid 0 (let '(buf, u) := fmtFrac unit u prec in fmtInt buf u)
      = let '(buf, u) := fmtFrac unit u prec in fmtInt buf u) as H.
    { intros unit prec Hu. pose proof (valid_fmtFrac unit u prec Hu) as Hf.
      destruct (fmtFrac unit u prec) as [buf u']. by apply valid_fmtInt. }
    destruct (u <? Microsecond); [exact (H "ns" 0%nat eq_refl)|].
    destruct (u <? Millisecond); [exact (H (micro +:+ "s") 3%nat eq_refl)|exact (H "ms" 6%nat eq_refl)]. }
  assert (to_valid 0 (format_large u) = format_large u) as Hl.
  { unfold format_large. pose proof (valid_fmtFrac "s" u 9 eq_refl) as Hf.
    destruct (fmtFrac "s" u 9) as [buf u']. cbn [fst] in Hf. pose proof (valid_fmtInt buf (u' mod 60) Hf) as Hi.
    destruct (u' / 60 >? 0); [|done].
    assert (to_valid 0 (fmtInt (String "m" (fmtInt buf (u' mod 60))) (u' / 60 mod 60))
            = fmtInt (String "m" (fmtInt buf (u' mod 60))) (u' / 60 mod 60)) as Hm
      by (by apply valid_fmtInt, valid_cons).
    destruct (u' / 60 / 60 >? 0); [|done]. by apply valid_fmtInt, valid_cons. }
  assert (to_valid 0 (if u <? Second then format_small u else format_large u)
          = if u <? Second then format_small u else format_large u) as H by (by destruct (u <? Second)).
  destruct (d <? 0); [by apply valid_cons|done].
Qed.

(** The documents as they are read back. *)
Lemma liveness_read x :
  exists doc, Decode (text_of (liveness_json x)) = Some doc
    /\ field ["status"] doc = Some (JString "ok")
    /\ field ["uptime"] doc = Some (JString (Duration_String (uptime x))).
Proof.
  unfold liveness_json. rewrite text_of_ascii_bytes, Decode_Encode by done. eexists. split; [done|].
  split; [reflexivity|]. exact (f_equal (fun t => Some (JString t)) (valid_Duration (uptime x))).
Qed.

Lemma readiness_read x stats :
  number_text (uptime_seconds x) = true ->
  exists doc, Decode (text_of (readiness_json x stats)) = Some doc
    /\ field ["status"] doc = Some (JString (if TotalWorkers stats >? 0 then "ready" else "not_ready"))
    /\ field ["uptime"] doc = Some (JString (Duration_String (uptime x)))
    /\ field ["workers"; "total"] doc = Some (JInt (TotalWorkers stats))
    /\ field ["workers"; "busy"] doc = Some (JInt (BusyWorkers stats))
    /\ field ["workers"; "idle"] doc = Some (JInt (IdleWorkers stats))
    /\ field ["workers"; "requests"] doc = Some (JInt (TotalRequests stats)).
Proof.
  intros Hn. unfold readiness_json. rewrite text_of_ascii_bytes, Decode_Encode.
  2: { unfold readiness_doc. cbn [encodable forallb snd]. rewrite Hn, !encodable_JInt. done. }
  eexists. split; [reflexivity|]. unfold readiness_doc. pose proof (valid_Duration (uptime x)) as Hd.
  revert Hd. generalize (Duration_String (uptime x)). intros t Ht.
  split; [by destruct (TotalWorkers stats >? 0)|].
  split; [exact (f_equal (fun t => Some (JString t)) Ht)|].
  split_and!; reflexivity.
Qed.

(** ** The endpoints of the whole server *)

Definition health_paths : list string := ["/health"; "/healthz"; "/ready"; "/readyz"].
Definition ready_path (path : string) : bool := bool_decide (path ∈ ["/ready"; "/readyz"]).

Section Endpoints.
Context (placeholderHTML : string) (ReadFile : string -> option (list byte)).
Context (UnmarshalRequire : list byte -> option (gmap string string)) (cfg : Config).
Context (Stat : string -> bool) (range_headers : headers -> list (string * list string)).
Context (range_strings : gmap string string -> list (string * string)).
Context (Query PostForm : Request -> list (string * list string)).
Context (Cookies : Request -> list (string * string)).
Context (FileServer : Handler EmbPool) (x : Runtime).
Context (fastRequestID : Request -> string) (logger_Enabled : bool) (duration : Request -> Z).
Context (expo : Exposition) (gzip : list (list byte) -> list byte).

Abbreviation reachable := (reachable placeholderHTML ReadFile UnmarshalRequire cfg).
Abbreviation pool_instance := (EmbeddedPool placeholderHTML ReadFile UnmarshalRequire cfg).
Abbreviation serve :=
  (service placeholderHTML ReadFile UnmarshalRequire cfg Stat range_headers range_strings Query PostForm
     Cookies FileServer (liveness_json x) (readiness_json x) fastRequestID logger_Enabled duration expo gzip).
Abbreviation health_router :=
  (@router EmbPool exec_error pool_instance cfg Stat range_headers range_strings Query PostForm Cookies
     FileServer (liveness_json x) (readiness_json x)).

Lemma health_replies r p :
  Path r ∈ health_paths ->
  let stats := @pool_Stats _ _ pool_instance p in
  replies health_router r p p [ASet "Content-Type" "application/json"]
    (if ready_path (Path r) then if TotalWorkers stats >? 0 then 200 else 503 else 200)
    (if ready_path (Path r) then readiness_json x stats else liveness_json x).
Proof.
  intros Hr stats. split; [done|]. intros W RW w. unfold router, ServeHTTP.
  rewrite bool_decide_true by exact Hr. unfold healthHandler, ready_path. by case_bool_decide.
Qed.

Abbreviation answered := (final fastRequestID logger_Enabled duration).

(** What the client gets. *)
Lemma health_served r m log p :
  Path r ∈ health_paths ->
  metrics_Enabled (Config.Metrics cfg) = true -> Path r <> metrics_Path (Config.Metrics cfg) ->
  let stats := @pool_Stats _ _ pool_instance p in
  serve conn _ r (m, (log, p)) fresh_conn
  = answered r (HSet "Content-Type" "application/json" (base_headers cfg fastRequestID r))
      (if ready_path (Path r) then if TotalWorkers stats >? 0 then 200 else 503 else 200)
      (if ready_path (Path r) then readiness_json x stats else liveness_json x) m log p.
Proof.
  intros Hr Hm Hp stats.
  assert (Path (snd (named fastRequestID r)) = Path r) as En by (unfold named; by case_bool_decide).
  pose proof (health_replies (snd (named fastRequestID r)) p ltac:(by rewrite En)) as Hrep.
  cbv zeta in Hrep. fold stats in Hrep. rewrite En in Hrep.
  change (HSet "Content-Type" "application/json" ?h) with (headers_of [ASet "Content-Type" "application/json"] h).
  unfold service. eapply stack_delivers; [exact Hm|exact Hp|exact Hrep| | |].
  1,2: destruct (ready_path (Path r)), (TotalWorkers stats >? 0); reflexivity.
  unfold Server.base_headers. generalize (fst (named fastRequestID r)). intros id. by destruct (server_HTTP3 _).
Qed.

End Endpoints.

(** ** Concrete runs *)

Definition runtime_example : Runtime := MkRuntime (90 * Second + 500 * Millisecond) "90.5" 3145728 8388608 2 "go1.25.1" 7.


(** A request is running when the pool is reloaded, another one takes the new worker. *)
Definition reloaded_state : state :=
  after (tiny_cfg "worker" 1 2 10)
    ([CallStart] ++ goes 0 5 ++ [CallExec] ++ goes 2 3 ++ [CallReload] ++ goes 3 6 ++ goes 4 5 ++ [CallExec]
       ++ goes 5 3).

(** Requests on workers that have been taken off the list are counted as busy, so that the
    number of idle workers, a difference of the two, can be negative. *)
Theorem idle_negative :
  let stats := @pool_Stats _ _ (EmbeddedPool "" no_file no_json (tiny_cfg "worker" 1 2 10)) (pool reloaded_state) in
  reachable "" no_file no_json (tiny_cfg "worker" 1 2 10) reloaded_state
  /\ (doc ← Decode (text_of (readiness_json runtime_example stats)); field ["workers"; "idle"] doc)
     = Some (JNumber "-1").
Proof. split; [apply after_reachable|by vm_compute]. Qed.
