(* ===== verification/Concurrent.v ===== *)
(** The server under load: many requests at once.

    [Service] serves one request after the other. Here every request is a goroutine of its
    own: it goes through the middlewares of [Server] to the pool, where its call of [Exec]
    is a thread of the machine of [EmbPool], and then back, where it writes to the log and
    to the counters of the metrics that all requests share, one atomic action at a time.
    The theorems say that this comes to the same as serving the requests one by one, and
    what the responses are. *)
From stdpp Require Import gmap.
From S2P Require Import Prelude Config Engine GoStr EmbWorker EmbPool EmbPoolInv EmbPoolMode.
From S2P Require Import Http Compress Middleware Metrics Router Server Service.
Local Open Scope string_scope.
Local Open Scope Z_scope.
Local Open Scope list_scope.

(** ** The counters, one atomic at a time *)

Inductive counter :=
| CRequests (key : string)      (** of [totalRequests] *)
| CActive
| CBytes
| CBucket (le : string)         (** of [durationCounts] *)
| CSum
| CCount.

(** [Add(d)] on one of the counters. *)
Definition bump (cd : counter * Z) (m : Metrics) : Metrics :=
  let '(c, d) := cd in
  let add k (cs : gmap string Z) := <[k := int64 (default 0 (cs !! k) + d)]> cs in
  match c with
  | CRequests k => MkMetrics (add k (Metrics.totalRequests m)) (activeRequests m) (totalBytes m)
                     (durationCounts m) (durationSum m) (durationCount m)
  | CActive => add_active d m
  | CBytes => MkMetrics (Metrics.totalRequests m) (activeRequests m) (int64 (totalBytes m + d))
                (durationCounts m) (durationSum m) (durationCount m)
  | CBucket k => MkMetrics (Metrics.totalRequests m) (activeRequests m) (totalBytes m)
                   (add k (durationCounts m)) (durationSum m) (durationCount m)
  | CSum => MkMetrics (Metrics.totalRequests m) (activeRequests m) (totalBytes m)
              (durationCounts m) (int64 (durationSum m + d)) (durationCount m)
  | CCount => MkMetrics (Metrics.totalRequests m) (activeRequests m) (totalBytes m)
                (durationCounts m) (durationSum m) (int64 (durationCount m + d))
  end.

Definition bumps (l : list (counter * Z)) (m : Metrics) : Metrics := foldl (fun m cd => bump cd m) m l.

(** What the metrics middleware adds for a finished request, in its order. *)
Definition observations (method : string) (status bytes duration : Z) : list (counter * Z) :=
  [(CRequests (request_key method status), 1); (CBytes, bytes); (CSum, duration); (CCount, 1)]
  ++ (durationBuckets ≫= fun b => if in_bucket duration b then [(CBucket (fst b), 1)] else []).

Lemma bumps_app l k m : bumps (l ++ k) m = bumps k (bumps l m).
Proof. apply foldl_app. Qed.

(** One after the other they are [observe]. *)
Lemma bumps_observations method status bytes duration m :
  bumps (observations method status bytes duration) m = observe method status bytes duration m.
Proof.
  unfold observations. rewrite bumps_app. cbn [bumps foldl bump].
  unfold observe, incr. generalize durationBuckets (durationCounts m). intros bs cs.
  match goal with |- bumps _ ?m0 = _ =>
    assert (forall cs, bumps (bs ≫= fun b => if in_bucket duration b then [(CBucket (fst b), 1)] else [])
      (MkMetrics (Metrics.totalRequests m0) (activeRequests m0) (totalBytes m0) cs (durationSum m0) (durationCount m0))
      = MkMetrics (Metrics.totalRequests m0) (activeRequests m0) (totalBytes m0)
          (foldl (fun cs b => if in_bucket duration b then <[fst b := int64 (default 0 (cs !! fst b) + 1)]> cs else cs) cs bs)
          (durationSum m0) (durationCount m0)) as Hb end.
  { induction bs as [|b bs IH]; intros cs0; [done|]. rewrite bind_cons, bumps_app. cbn [foldl].
    destruct (in_bucket duration b); apply IH. }
  exact (Hb cs).
Qed.

(** Atomic additions commute. *)
Lemma bump_comm a b m : bump a (bump b m) = bump b (bump a m).
Proof.
  assert (forall (cs : gmap string Z) j k d e,
    <[j := int64 (default 0 (<[k := int64 (default 0 (cs !! k) + e)]> cs !! j) + d)]>
      (<[k := int64 (default 0 (cs !! k) + e)]> cs)
    = <[k := int64 (default 0 (<[j := int64 (default 0 (cs !! j) + d)]> cs !! k) + e)]>
      (<[j := int64 (default 0 (cs !! j) + d)]> cs)) as Hmap.
  { intros cs j k d e. destruct (decide (j = k)) as [->|Hjk].
    - rewrite !lookup_insert_eq, !insert_insert_eq. cbn [default from_option id]. 
      rewrite !int64_add. do 2 f_equal. lia.
    - rewrite !lookup_insert_ne by done. by rewrite insert_insert_ne. }
  assert (forall x d e, int64 (int64 (x + e) + d) = int64 (int64 (x + d) + e)) as H64
    by (intros; rewrite !int64_add; f_equal; lia).
  assert (forall x d e, int32 (int32 (x + e) + d) = int32 (int32 (x + d) + e)) as H32
    by (intros; rewrite !int32_add; f_equal; lia).
  destruct a as [[j| | |j| |] d], b as [[k| | |k| |] e]; unfold bump, add_active; cbn;
    try done; f_equal; auto.
Qed.

#[export] Instance bumps_perm : Proper ((≡ₚ) ==> (=) ==> (=)) bumps.
Proof.
  intros l k Hlk m ? <-. revert m. induction Hlk as [|a l k _ IH|a b l|l k j _ IH1 _ IH2]; intros m.
  - done.
  - apply IH.
  - cbn. by rewrite bump_comm.
  - by rewrite IH1.
Qed.

Definition is_active (cd : counter * Z) : bool := match fst cd with CActive => true | _ => false end.
Definition active_sum (l : list (counter * Z)) : Z := sum_of snd (filter is_active l).

Lemma bumps_active l m : activeRequests m = int32 (activeRequests m) ->
  activeRequests (bumps l m) = int32 (activeRequests m + active_sum l).
Proof.
  revert m. induction l as [|[c d] l IH]; intros m Hm; [unfold active_sum; cbn; by rewrite Z.add_0_r|].
  cbn [bumps foldl]. change (foldl _ _ l) with (bumps l (bump (c, d) m)).
  destruct c; try (rewrite IH by exact Hm; done).
  change (active_sum ((CActive, d) :: l)) with (d + active_sum l).
  rewrite IH; cbn [bump add_active activeRequests]; [rewrite int32_add; f_equal; lia|].
  pose proof (int32_add (activeRequests m + d) 0) as E. by rewrite !Z.add_0_r in E.
Qed.

(** ** Every answer of the pool is the page *)

Section Pages.
Context (placeholderHTML : string) (ReadFile : string -> option (list byte)).
Context (UnmarshalRequire : list byte -> option (gmap string string)) (cfg : Config).

Abbreviation tstep := (tstep placeholderHTML ReadFile UnmarshalRequire cfg).
Abbreviation step := (EmbPool.step placeholderHTML ReadFile UnmarshalRequire cfg).
Abbreviation page_response := (page_response placeholderHTML ReadFile UnmarshalRequire cfg).
Abbreviation php_version := (php_version ReadFile UnmarshalRequire cfg).

Definition versions (p : EmbPool) : Prop :=
  forall w x, heap p !! w = Some x -> eng_version (w_engine x) = php_version.
Definition page_thread (t : thread) : Prop :=
  forall resp, carries t = Some (Ok resp) -> resp = page_response.

Lemma versions_upd p f w :
  (forall x, eng_version (w_engine (f x)) = eng_version (w_engine x)) ->
  versions p -> versions (upd_worker w f p).
Proof.
  intros Hf Hp v x. cbn. rewrite lookup_alter. case_decide; [|exact (Hp v x)]. subst v.
  destruct (heap p !! w) as [y|] eqn:E; [|done]. cbn. intros [= <-]. rewrite Hf. by apply (Hp w).
Qed.

Lemma NewWorker_version id x :
  NewWorker ReadFile UnmarshalRequire id cfg = Ok x -> eng_version (w_engine x) = php_version.
Proof. unfold NewWorker, NewEngine. case_match; [done|]. by intros [= <-]. Qed.

Lemma Startup_version e : eng_version (Startup e) = eng_version e.
Proof. unfold Startup. by case_match. Qed.

Lemma Shutdown_version e : eng_version (Shutdown e) = eng_version e.
Proof. unfold Shutdown. by case_match. Qed.

Lemma tstep_versions tid b p t c p' t' new :
  tstep tid b p t c = Some (p', t', new) -> versions p -> versions p'.
Proof.
  intros H Hp. tstep_cases H; try exact Hp.
  all: try (apply versions_upd; [intros x; cbn; rewrite ?Startup_version, ?Shutdown_version; done|exact Hp]).
  - intros v x. cbn. rewrite lookup_insert. destruct (decide (next_loc p = v)); [|exact (Hp v x)].
    intros [= <-]. cbn. rewrite Startup_version. by eapply NewWorker_version.
  - intros v x. cbn. rewrite lookup_insert. destruct (decide (next_loc p = v)); [|exact (Hp v x)].
    intros [= <-]. by eapply NewWorker_version.
  - apply versions_upd; [|exact Hp]. intros x. by destruct r.
  - intros v x. destruct (removeWorker_frame w p) as [-> _]. exact (Hp v x).
Qed.

Lemma tstep_page tid b p t c p' t' new :
  tstep tid b p t c = Some (p', t', new) -> versions p -> page_thread t ->
  Forall page_thread (t' :: new).
Proof.
  intros H Hp Ht. tstep_cases H; repeat (apply Forall_cons; split); try apply Forall_nil_2.
  all: try (intros resp Hr; discriminate Hr).
  all: try exact Ht.
  - by destruct k.
  - by destruct k.
  - intros resp. cbn. unfold exec_run, Execute. destruct (eng_started _); [|done]. cbn.
    intros [= <-]. unfold Service.page_response, page_body. do 2 f_equal. by eapply Hp.
  - by destruct k.
  - apply Forall_forall. by intros t (w & -> & _)%list_elem_of_fmap.
Qed.

Record paged (s : state) : Prop := {
  pg_versions : versions (pool s);
  pg_threads : Forall page_thread (threads s)
}.

Lemma paged_step s e s' : step s e = Some s' -> paged s -> paged s'.
Proof.
  intros Hs [Hv Ht].
  destruct (step_inv _ _ _ _ _ _ _ Hs)
    as [[Hp Hts]|(tid & t & b & c & t' & new & rest & H & H1 & H2)].
  - split; [by rewrite Hp|]. rewrite Hts. constructor; [|done]. by destruct e.
  - rewrite H1 in Ht. apply Forall_cons in Ht as [Ht Hrest].
    split; [by eapply tstep_versions|]. rewrite H2, app_comm_cons. apply Forall_app.
    split; [by eapply tstep_page|done].
Qed.

Lemma paged_init : paged EmbPool.init.
Proof. split; [by intros w x|constructor]. Qed.

(** A thread that has finished stays as it is. *)
Lemma finished_stays s e s' tid o :
  step s e = Some s' -> threads s !! tid = Some (Finished o) -> threads s' !! tid = Some (Finished o).
Proof.
  intros Hs Ht. pose proof (lookup_lt_Some _ _ _ Ht) as Hlt.
  destruct e as [| | | |tid' c]; cbn [EmbPool.step] in Hs.
  1-4: injection Hs as <-; cbn; by rewrite lookup_app_l.
  destruct (threads s !! tid') as [t|] eqn:Ht'; [|done].
  destruct (EmbPool.tstep _ _ _ _ _ _ _ _ _) as [[[p t'] new]|] eqn:E; [|done]. injection Hs as <-. cbn.
  destruct (decide (tid' = tid)) as [->|Hne].
  - rewrite Ht in Ht'. by injection Ht' as <-.
  - by rewrite lookup_app_l, list_lookup_insert_ne by (rewrite ?length_insert; done).
Qed.
End Pages.

(** ** A request, given the pool's answer *)

(** How a call of [Exec] ends for the handler: with a result, or with a panic. *)
Inductive answer := Answered (res : result Response exec_error) | Panicking.

(** What a finished thread of the pool tells its caller. *)
Definition answer_of (t : thread) : option answer :=
  match t with
  | Finished (ExecResult res) => Some (Answered res)
  | Finished (ExecPanicked _) => Some Panicking
  | _ => None
  end.

(** An action on what the requests share. *)
Inductive effect := ELog (line : log_entry) | EBump (cd : counter * Z).

Definition lines_of (l : list effect) : list log_entry :=
  l ≫= fun e => match e with ELog line => [line] | EBump _ => [] end.
Definition bumps_of (l : list effect) : list (counter * Z) :=
  l ≫= fun e => match e with ELog _ => [] | EBump cd => [cd] end.

Section Load.
Context (placeholderHTML : string) (ReadFile : string -> option (list byte)).
Context (UnmarshalRequire : list byte -> option (gmap string string)) (cfg : Config).
Context (Stat : string -> bool) (range_headers : headers -> list (string * list string)).
Context (range_strings : gmap string string -> list (string * string)).
Context (Query PostForm : Request -> list (string * list string)).
Context (Cookies : Request -> list (string * string)).
Context (FileServer : Handler unit) (liveness_json : list byte).
Context (readiness_json : StatsGetter -> list byte).
Context (fastRequestID : Request -> string) (logger_Enabled : bool) (duration : Request -> Z).
Context (expo : Exposition) (gzip : list (list byte) -> list byte).

Abbreviation pool_step := (EmbPool.step placeholderHTML ReadFile UnmarshalRequire cfg).
Abbreviation page_response := (page_response placeholderHTML ReadFile UnmarshalRequire cfg).
Abbreviation paged := (paged placeholderHTML ReadFile UnmarshalRequire cfg).

(** A pool whose answer is known. *)
Definition pool_of (res : result Response exec_error) : WorkerPool unit exec_error := {|
  pool_Exec _ _ p := (res, p);
  pool_Stats _ := MkStatsGetter 0 0 0 0;
  error_text := exec_error_text cfg
|}.

Definition handler_of (a : answer) : Handler unit :=
  match a with
  | Answered res =>
      @router unit exec_error (pool_of res) cfg Stat range_headers range_strings Query PostForm Cookies
        FileServer liveness_json readiness_json
  | Panicking => fun _ _ _ p w => MkOutcome p w true
  end.

(** The whole handler of the server, the pool giving this answer. *)
Definition serve_with (a : answer) : Handler (shared unit) :=
  buildMiddleware cfg fastRequestID logger_Enabled duration (fun _ => MkStatsGetter 0 0 0 0) expo gzip
    (handler_of a).

Definition alone (r : Request) (a : answer) : Http.outcome (shared unit) conn :=
  serve_with a conn _ r (NewMetrics, ([], tt)) fresh_conn.

(** What the goroutine does to the log and the counters after the pool's answer, in
    its order: the core middleware logs, the metrics middleware counts, and its deferred
    decrement comes last. *)
Definition effects (r : Request) (a : answer) : list effect :=
  let o := alone r a in
  let '(st, _, b) := response (o_writer o) in
  map ELog (fst (snd (o_state o)))
  ++ map EBump (observations (Method r) st (Z.of_nat (length b)) (duration r))
  ++ [EBump (CActive, -1)].

(** ** The machine *)

Inductive rpc :=
| InPool                                      (** its call of [Exec] is running *)
| Leaving (c : conn) (todo : list effect).    (** the response, and what is left to do *)

Record request := MkReq { q_req : Request; q_thread : nat; q_pc : rpc }.

Record sstate := MkS {
  s_metrics : Metrics;
  s_log : list log_entry;
  s_pool : state;
  s_requests : list request
}.

Definition sinit : sstate := MkS NewMetrics [] EmbPool.init [].

Inductive sevent :=
| Arrive (r : Request)     (** counted as active, and passed to the pool *)
| PoolStep (e : event)     (** any action in the pool *)
| Return (i : nat)         (** the pool's answer reaches the handler *)
| Effect (i : nat).        (** the next action on log and counters *)

Definition apply_effect (e : effect) (s : sstate) : sstate :=
  match e with
  | ELog line => MkS (s_metrics s) (s_log s ++ [line]) (s_pool s) (s_requests s)
  | EBump cd => MkS (bump cd (s_metrics s)) (s_log s) (s_pool s) (s_requests s)
  end.

Definition set_request (i : nat) (q : request) (s : sstate) : sstate :=
  MkS (s_metrics s) (s_log s) (s_pool s) (<[i := q]> (s_requests s)).

Definition sstep (s : sstate) (e : sevent) : option sstate :=
  match e with
  | Arrive r =>
      match pool_step (s_pool s) CallExec with
      | Some p => Some (MkS (bump (CActive, 1) (s_metrics s)) (s_log s) p
                          (s_requests s ++ [MkReq r (length (threads (s_pool s))) InPool]))
      | None => None
      end
  | PoolStep CallExec => None
  | PoolStep e =>
      match pool_step (s_pool s) e with
      | Some p => Some (MkS (s_metrics s) (s_log s) p (s_requests s))
      | None => None
      end
  | Return i =>
      match s_requests s !! i with
      | Some (MkReq r tid InPool) =>
          match threads (s_pool s) !! tid ≫= answer_of with
          | Some a => Some (set_request i (MkReq r tid (Leaving (o_writer (alone r a)) (effects r a))) s)
          | None => None
          end
      | _ => None
      end
  | Effect i =>
      match s_requests s !! i with
      | Some (MkReq r tid (Leaving c (e :: todo))) =>
          Some (apply_effect e (set_request i (MkReq r tid (Leaving c todo)) s))
      | _ => None
      end
  end.

Fixpoint srun (s : sstate) (es : list sevent) : option sstate :=
  match es with
  | [] => Some s
  | e :: es => match sstep s e with Some s => srun s es | None => None end
  end.

(** ** One after the other *)

Fixpoint serve_each (qs : list (Request * answer)) (st : shared unit) : list conn * shared unit :=
  match qs with
  | [] => ([], st)
  | (r, a) :: qs =>
      let o := serve_with a conn _ r st fresh_conn in
      let '(cs, st) := serve_each qs (o_state o) in (o_writer o :: cs, st)
  end.

(** An answer this pool can give. *)
Definition page_answer (a : answer) : Prop :=
  match a with Answered (Ok resp) => resp = page_response | _ => True end.


(** ** A request alone *)

Section Alone.
Hypothesis (Hrange : forall k v, range_strings {[k := v]} = [(k, v)]).
Hypothesis (Hmetrics : metrics_Enabled (Config.Metrics cfg) = true).

(** Status, headers and body of the response to an answer. *)
Definition answer_response (r : Request) (a : answer) : Z * headers * list byte :=
  let error code text := (code, headers_of error_sets (base_headers cfg fastRequestID r),
                          ascii_bytes text ++ [Byte.x0a]) in
  match a with
  | Answered (Ok resp) =>
      (resp_Status resp, headers_of (response_sets range_strings resp) (base_headers cfg fastRequestID r),
       ascii_bytes (resp_Body resp))
  | Answered (Err e) => error 502 (String.append "Internal Server Error: " (exec_error_text cfg e))
  | Panicking => error 500 "Internal Server Error"
  end.

Definition answer_line (r : Request) (a : answer) : list log_entry :=
  let '(st, _, b) := answer_response r a in
  match a with
  | Answered _ =>
      if logger_Enabled
      then [LogRequest (Method r) (Path r) st (Z.of_nat (length b)) (RemoteAddr r) (fst (named fastRequestID r))]
      else []
  | Panicking => [LogPanic (Path r)]
  end.

Definition counted (r : Request) (a : answer) (m : Metrics) : Metrics :=
  let '(st, _, b) := answer_response r a in
  add_active (-1) (observe (Method r) st (Z.of_nat (length b)) (duration r) (add_active 1 m)).

(** The writer of the metrics middleware, over the connection or a compressor. *)
Lemma http_Error_bare h :
  http_Error "Internal Server Error" 500 (MkMW (bare h) 200 0)
  = MkMW (MkConn (headers_of error_sets h) [] (Some (500, headers_of error_sets h))
            (ascii_bytes "Internal Server Error" ++ [Byte.x0a])) 500 22.
Proof. done. Qed.

Lemma http_Error_zipped h :
  http_Error "Internal Server Error" 500 (MkMW (zipped h) 200 0)
  = MkMW (MkCW (MkConn (headers_of error_sets h) [] (Some (500, headers_of error_sets h)) []) None
            (ascii_bytes "Internal Server Error" ++ [Byte.x0a]) true false 500) 500 22.
Proof. done. Qed.

Lemma panic_served r m log :
  Path r <> metrics_Path (Config.Metrics cfg) ->
  serve_with Panicking conn _ r (m, (log, tt)) fresh_conn
  = MkOutcome (counted r Panicking m, (log ++ answer_line r Panicking, tt))
      (let '(st, h, b) := answer_response r Panicking in MkConn h [] (Some (st, h)) b) false.
Proof.
  intros Hp. unfold serve_with, buildMiddleware. rewrite Hmetrics. cbn [handler_of].
  assert (forall W (RW : ResponseWriter W) (w : W),
    CoreMiddleware fastRequestID logger_Enabled
      (fun (_ : Type) _ _ (p : unit) w => MkOutcome p w true) W RW r (log, tt) w
    = MkOutcome (log ++ [LogPanic (Path r)], tt)
        (http_Error "Internal Server Error" 500 (SetHeader (HSet "X-Request-ID" (fst (named fastRequestID r))) w)) false)
    as Hcore.
  { intros W RW w. unfold CoreMiddleware, named. by case_bool_decide. }
  set (h0 := if server_HTTP3 (Config.Server cfg) then HSet "Alt-Svc" (AltSvcHeader 443) ∅ else ∅ : headers).
  assert (CompressionMiddleware gzip (MetricsMiddleware duration
      (fun g : list log_entry * unit => Some (MkStatsGetter 0 0 0 0)) expo (metrics_Path (Config.Metrics cfg))
      (CoreMiddleware fastRequestID logger_Enabled (fun (_ : Type) _ _ (p : unit) w => MkOutcome p w true)))
    conn _ r (m, (log, tt)) (bare h0)
    = MkOutcome (counted r Panicking m, (log ++ answer_line r Panicking, tt))
        (let '(st, h, b) := answer_response r Panicking in MkConn h [] (Some (st, h)) b) false) as Hgen.
  { unfold CompressionMiddleware, MetricsMiddleware. rewrite bool_decide_false by done.
    assert (HSet "X-Request-ID" (fst (named fastRequestID r)) h0 = base_headers cfg fastRequestID r) as E by done.
    destruct (accepts_gzip r); cbn [negb]; cbv zeta; rewrite Hcore; cbn [o_panic o_state o_writer].
    - change (SetHeader _ (MkMW (reset (bare h0)) 200 0))
        with (MkMW (zipped (HSet "X-Request-ID" (fst (named fastRequestID r)) h0)) 200 0).
      by rewrite E, http_Error_zipped.
    - change (SetHeader _ (MkMW (bare h0) 200 0))
        with (MkMW (bare (HSet "X-Request-ID" (fst (named fastRequestID r)) h0)) 200 0).
      by rewrite E, http_Error_bare. }
  unfold h0 in Hgen. destruct (server_HTTP3 (Config.Server cfg)); exact Hgen.
Qed.

Lemma page_sets_hint r resp :
  resp = page_response -> has_hint (headers_of (response_sets range_strings resp) (base_headers cfg fastRequestID r)) = false.
Proof.
  intros ->. unfold response_sets. cbn [resp_Headers Service.page_response]. rewrite Hrange.
  apply (page_no_hint cfg fastRequestID r).
Qed.

(** A request as the whole stack serves it, whatever log and counters it finds. *)
Lemma served r a m log :
  for_page cfg r -> page_answer a ->
  serve_with a conn _ r (m, (log, tt)) fresh_conn
  = MkOutcome (counted r a m, (log ++ answer_line r a, tt))
      (let '(st, h, b) := answer_response r a in MkConn h [] (Some (st, h)) b) false.
Proof.
  intros [Hr Hp] Ha. destruct a as [res|]; [|by apply panic_served].
  pose proof (@router_replies unit exec_error (pool_of res) cfg Stat range_headers range_strings Query
    PostForm Cookies FileServer liveness_json readiness_json (snd (named fastRequestID r)) tt
    (named_for_php _ _ _ Hr)) as Hrep.
  unfold pool_answer in Hrep. cbn [pool_Exec pool_of error_text] in Hrep.
  unfold serve_with, counted, answer_line. cbn [handler_of answer_response].
  destruct res as [resp|e]; cbn [answer_response].
  - cbn [page_answer] in Ha. erewrite stack_delivers; [|exact Hmetrics|exact Hp|exact Hrep| | |by apply page_sets_hint].
    + unfold final. destruct logger_Enabled; by rewrite ?app_nil_r.
    + by rewrite Ha.
    + by rewrite Ha.
  - erewrite stack_delivers; [|exact Hmetrics|exact Hp|exact Hrep|done|done|apply has_hint_base].
    unfold final. destruct logger_Enabled; by rewrite ?app_nil_r.
Qed.

Lemma alone_response r a : for_page cfg r -> page_answer a -> response (o_writer (alone r a)) = answer_response r a.
Proof.
  intros Hr Ha. unfold alone. rewrite served by done. cbn [o_writer].
  by destruct (answer_response r a) as [[st h] b].
Qed.

(** ... is what the machine makes of it: counted as active, then the effects. *)
Lemma served_effects r a m log :
  for_page cfg r -> page_answer a ->
  serve_with a conn _ r (m, (log, tt)) fresh_conn
  = MkOutcome (bumps ((CActive, 1) :: bumps_of (effects r a)) m, (log ++ lines_of (effects r a), tt))
      (o_writer (alone r a)) false.
Proof.
  intros Hr Ha.
  assert (forall ls, lines_of (map ELog ls) = ls /\ bumps_of (map ELog ls) = []) as HL by (induction ls as [|? ? [? ?]]; split; cbn; f_equal; done).
  assert (forall bs, lines_of (map EBump bs) = [] /\ bumps_of (map EBump bs) = bs) as HB by (induction bs as [|? ? [? ?]]; split; cbn; f_equal; done).
  unfold effects. pose proof (alone_response r a Hr Ha) as E. unfold alone in *. rewrite E.
  rewrite !served by done. cbn [o_writer o_state fst snd app].
  unfold counted. destruct (answer_response r a) as [[st h] b] eqn:Er.
  unfold lines_of, bumps_of in *. rewrite !bind_app. 
  rewrite (proj1 (HL _)), (proj2 (HL _)), (proj1 (HB _)), (proj2 (HB _)). cbn [app mbind list_bind].
  change (?x :: ?l ++ ?k) with ([x] ++ l ++ k). rewrite !bumps_app, bumps_observations.
  by rewrite !app_nil_r.
Qed.

(** ** What has been done so far *)

(** [d] is what a request has done so far. *)
Definition req_ok (ts : list thread) (q : request) (d : list effect) : Prop :=
  for_page cfg (q_req q)
  /\ match q_pc q with
     | InPool => d = [EBump (CActive, 1)]
     | Leaving c todo =>
         exists a d', ts !! q_thread q ≫= answer_of = Some a /\ page_answer a
                      /\ c = o_writer (alone (q_req q) a)
                      /\ d = EBump (CActive, 1) :: d' /\ d' ++ todo = effects (q_req q) a
     end.

(** [ds] is what each request has done: the shared state is what comes of it. *)
Record accounted (s : sstate) (ds : list (list effect)) : Prop := {
  ac_requests : Forall2 (req_ok (threads (s_pool s))) (s_requests s) ds;
  ac_metrics : s_metrics s = bumps (bumps_of (concat ds)) NewMetrics;
  ac_log : s_log s ≡ₚ lines_of (concat ds);
  ac_paged : paged (s_pool s)
}.

Lemma answer_stays p e p' tid a :
  pool_step p e = Some p' -> threads p !! tid ≫= answer_of = Some a -> threads p' !! tid ≫= answer_of = Some a.
Proof.
  intros Hs. destruct (threads p !! tid) as [t|] eqn:Ht; [|done]. cbn. intros Ha.
  destruct t; try done. by rewrite (finished_stays _ _ _ _ _ _ _ _ _ Hs Ht).
Qed.

Lemma req_ok_pool p e p' q d : pool_step p e = Some p' -> req_ok (threads p) q d -> req_ok (threads p') q d.
Proof.
  intros Hs [Hf Hq]. split; [done|]. destruct (q_pc q); [done|].
  destruct Hq as (a & d' & Ha & Hrest). exists a, d'. split; [by eapply answer_stays|done].
Qed.

Lemma reqs_ok_pool p e p' qs ds :
  pool_step p e = Some p' -> Forall2 (req_ok (threads p)) qs ds -> Forall2 (req_ok (threads p')) qs ds.
Proof. intros Hs H. eapply Forall2_impl; [exact H|]. intros q d. by apply (req_ok_pool p e). Qed.

Lemma bumps_of_app l k : bumps_of (l ++ k) = bumps_of l ++ bumps_of k.
Proof. apply bind_app. Qed.
Lemma lines_of_app l k : lines_of (l ++ k) = lines_of l ++ lines_of k.
Proof. apply bind_app. Qed.

#[local] Instance bumps_of_perm : Proper ((≡ₚ) ==> (≡ₚ)) bumps_of.
Proof. intros l k H. by apply bind_Permutation. Qed.
#[local] Instance lines_of_perm : Proper ((≡ₚ) ==> (≡ₚ)) lines_of.
Proof. intros l k H. by apply bind_Permutation. Qed.

(** Doing one thing more. *)
Lemma concat_insert_snoc {A} (ls : list (list A)) i l x :
  ls !! i = Some l -> concat (<[i := l ++ [x]]> ls) ≡ₚ concat ls ++ [x].
Proof.
  intros Hl. destruct (insert_Permutation ls i l (l ++ [x]) Hl) as (k & H1 & H2).
  assert (forall ls ls' : list (list A), ls ≡ₚ ls' -> concat ls ≡ₚ concat ls') as Hc.
  { intros l1 l2 HP. induction HP as [|y l1 l2 _ IH|y z l1|l1 l2 l3 _ IH1 _ IH2]; cbn; [done|by rewrite IH| |by rewrite IH1].
    by rewrite !app_assoc, (Permutation_app_comm z). }
  rewrite (Hc _ _ H1), (Hc _ _ H2). cbn. rewrite <- !app_assoc. by rewrite (Permutation_app_comm [x]).
Qed.

Lemma return_answer_ok p tid a :
  paged p -> threads p !! tid ≫= answer_of = Some a -> page_answer a.
Proof.
  intros [_ Ht]. destruct (threads p !! tid) as [t|] eqn:E; [|done]. cbn.
  eapply Forall_lookup_1 in Ht; [|exact E].
  destruct t as [| | | | | | | | | | | | | | | | | | | | | | | | | | | | | | |o]; try done.
  destruct o as [| [resp|e] | |]; try done; intros [= <-]; [by apply Ht|done|done].
Qed.

Lemma accounted_step s e s' ds :
  sstep s e = Some s' -> match e with Arrive r => for_page cfg r | _ => True end ->
  accounted s ds -> exists ds', accounted s' ds'.
Proof.
  intros Hs Hpage [Hq Hm Hl Hp]. destruct e as [r|e|i|i]; cbn [sstep] in Hs.
  - destruct (pool_step (s_pool s) CallExec) as [p|] eqn:E; [|done]. injection Hs as <-.
    exists (ds ++ [[EBump (CActive, 1)]]). split; cbn [s_requests s_metrics s_log s_pool].
    + apply Forall2_app; [by eapply reqs_ok_pool|]. constructor; [done|constructor].
    + by rewrite concat_app, bumps_of_app, bumps_app, <- Hm.
    + by rewrite concat_app, lines_of_app, app_nil_r.
    + by eapply paged_step.
  - destruct (pool_step (s_pool s) e) as [p|] eqn:E; [|by destruct e].
    assert (s' = MkS (s_metrics s) (s_log s) p (s_requests s)) as -> by (destruct e; congruence).
    exists ds. split; cbn; try done; [by eapply reqs_ok_pool|by eapply paged_step].
  - destruct (s_requests s !! i) as [[r tid [|c todo]]|] eqn:Ei; try done.
    destruct (threads (s_pool s) !! tid ≫= answer_of) as [a|] eqn:Ea; [|done]. injection Hs as <-.
    destruct (Forall2_lookup_l _ _ _ _ _ Hq Ei) as (d & Hd & Hr & Ed). cbn in Ed. subst d.
    exists ds. split; cbn [set_request s_requests s_metrics s_log s_pool]; try done.
    rewrite <- (list_insert_id ds i [EBump (CActive, 1)] Hd). apply Forall2_insert; [done|].
    split; [done|]. cbn. exists a, []. split_and!; try done. by eapply return_answer_ok.
  - destruct (s_requests s !! i) as [[r tid [|c [|e todo]]]|] eqn:Ei; try done. injection Hs as <-.
    destruct (Forall2_lookup_l _ _ _ _ _ Hq Ei) as (d & Hd & Hr & a & d' & Ha & Hpa & Hc & -> & E). cbn in Hr, Ha, Hc, E.
    set (d := EBump (CActive, 1) :: d') in *. exists (<[i := d ++ [e]]> ds).
    assert (Forall2 (req_ok (threads (s_pool s))) (<[i := MkReq r tid (Leaving c todo)]> (s_requests s)) (<[i := d ++ [e]]> ds)).
    { apply Forall2_insert; [done|]. split; [done|]. exists a, (d' ++ [e]). by rewrite <- app_assoc. }
    destruct e as [line|cd]; split; cbn [apply_effect set_request s_requests s_metrics s_log s_pool]; try done.
    all: rewrite (concat_insert_snoc _ _ _ _ Hd).
    all: rewrite ?bumps_of_app, ?lines_of_app, ?bumps_app, <- ?Hm; cbn; rewrite ?app_nil_r; try done.
    by rewrite Hl.
Qed.

(** The requests of a run. *)
Definition arrivals (es : list sevent) : list Request :=
  es ≫= fun e => match e with Arrive r => [r] | _ => [] end.

Lemma srun_accounted es s s' ds :
  srun s es = Some s' -> Forall (for_page cfg) (arrivals es) ->
  accounted s ds -> exists ds', accounted s' ds'.
Proof.
  revert s ds. induction es as [|e es IH]; intros s ds; cbn [srun]; [intros [= <-]; by eauto|].
  destruct (sstep s e) as [s1|] eqn:E; [|done]. unfold arrivals. rewrite bind_cons.
  intros Hr [He Hes]%Forall_app Ha.
  destruct (accounted_step s e s1 ds E) as [ds1 Ha1]; [|done|by eapply IH].
  destruct e; try done. by apply Forall_inv in He.
Qed.

Lemma sinit_accounted : accounted sinit [].
Proof. split; [constructor|done|done|apply paged_init]. Qed.

(** ** The gauge of active requests *)

(** The goroutine has returned. *)
Definition finished (q : request) : bool :=
  match q_pc q with Leaving _ [] => true | _ => false end.
Definition in_flight (s : sstate) : nat := length (filter (fun q => negb (finished q)) (s_requests s)).

Lemma active_sum_app l k : active_sum (l ++ k) = active_sum l + active_sum k.
Proof.
  unfold active_sum, sum_of. rewrite filter_app. induction (filter is_active l) as [|x xs IH]; [done|].
  cbn [app foldr]. rewrite IH. lia.
Qed.

Lemma active_sum_effects r a :
  exists l, effects r a = l ++ [EBump (CActive, -1)] /\ forall k, k `suffix_of` l -> active_sum (bumps_of k) = 0.
Proof.
  unfold effects. destruct (response _) as [[st h] b].
  eexists (_ ++ _). split; [by rewrite <- app_assoc|]. intros k [j E].
  assert (Forall (fun e => match e with EBump cd => is_active cd = false | _ => True end) k) as Hk.
  { assert (Forall (fun e => match e with EBump cd => is_active cd = false | _ => True end) (j ++ k)) as H;
      [|by apply Forall_app in H as [_ ?]]. rewrite <- E. apply Forall_app. split.
    - apply Forall_forall. by intros e (x & -> & _)%list_elem_of_fmap.
    - apply Forall_forall. intros e (cd & -> & Hcd)%list_elem_of_fmap.
      unfold observations in Hcd. apply elem_of_app in Hcd as [Hcd|Hcd].
      + rewrite !elem_of_cons, elem_of_nil in Hcd. by destruct_or! Hcd; subst.
      + apply list_elem_of_bind in Hcd as (x & Hcd & _). destruct (in_bucket _ x); [|by apply elem_of_nil in Hcd].
        by apply list_elem_of_singleton in Hcd as ->. }
  clear E. induction Hk as [|e k He Hk IH]; [done|]. destruct e as [line|[c d]]; [exact IH|].
  by destruct c.
Qed.

Lemma active_sum_request ts q d :
  req_ok ts q d -> active_sum (bumps_of d) = if finished q then 0 else 1.
Proof.
  intros [_ Hq]. unfold finished. destruct (q_pc q) as [|c todo]; [by rewrite Hq|].
  destruct Hq as (a & d' & _ & _ & _ & -> & E).
  change (active_sum (bumps_of (EBump (CActive, 1) :: d'))) with (1 + active_sum (bumps_of d')).
  destruct (active_sum_effects (q_req q) a) as (l & El & Hl). rewrite El in E.
  pose proof (Hl l ltac:(by exists [])) as H0.
  destruct todo as [|x todo] using rev_ind.
  - rewrite app_nil_r in E. subst d'. rewrite bumps_of_app, active_sum_app, H0. done.
  - clear IHtodo. rewrite app_assoc in E. apply app_inj_tail in E as [E ->].
    assert (active_sum (bumps_of d') = 0) as ->.
    { rewrite <- E, bumps_of_app, active_sum_app in H0.
      pose proof (Hl todo ltac:(exists d'; done)). lia. }
    by destruct (todo ++ _) eqn:Ez; [by destruct todo|].
Qed.

Lemma active_requests s ds :
  accounted s ds -> activeRequests (s_metrics s) = int32 (Z.of_nat (in_flight s)).
Proof.
  intros [Hq Hm _ _]. rewrite Hm, bumps_active by done. cbn [activeRequests NewMetrics]. f_equal.
  unfold in_flight. clear Hm. induction Hq as [|q d qs ds Hqd Hq IH]; [done|].
  cbn [concat]. rewrite bumps_of_app, active_sum_app, (active_sum_request _ _ _ Hqd), filter_cons.
  destruct (finished q); cbn [negb length] in *.
  - rewrite decide_False by auto. lia.
  - rewrite decide_True by done. cbn [length]. lia.
Qed.

(** ** As if one after the other *)

Lemma serve_each_spec qs m log :
  Forall (fun ra => for_page cfg (fst ra) /\ page_answer (snd ra)) qs ->
  serve_each qs (m, (log, tt))
  = (map (fun ra => o_writer (alone (fst ra) (snd ra))) qs,
     (bumps (bumps_of (qs ≫= fun ra => EBump (CActive, 1) :: effects (fst ra) (snd ra))) m,
      (log ++ lines_of (qs ≫= fun ra => EBump (CActive, 1) :: effects (fst ra) (snd ra)), tt))).
Proof.
  revert m log. induction qs as [|[r a] qs IH]; intros m log Hqs; cbn [serve_each map].
  { by rewrite app_nil_r. }
  apply Forall_cons in Hqs as [[Hr Ha] Hqs]. rewrite served_effects by done. cbn [o_state o_writer fst snd].
  rewrite IH by done. rewrite bind_cons, bumps_of_app, lines_of_app, bumps_app, app_assoc. done.
Qed.

(** When everybody is done, what each has done is all its answer calls for. *)
Lemma all_done ts qs ds :
  Forall2 (req_ok ts) qs ds -> Forall (fun q => finished q = true) qs ->
  exists ans,
    Forall2 (fun q a => ts !! q_thread q ≫= answer_of = Some a) qs ans
    /\ Forall (fun ra => for_page cfg (fst ra) /\ page_answer (snd ra)) (zip (q_req <$> qs) ans)
    /\ concat ds = zip (q_req <$> qs) ans ≫= (fun ra => EBump (CActive, 1) :: effects (fst ra) (snd ra))
    /\ map q_pc qs = map (fun ra => Leaving (o_writer (alone (fst ra) (snd ra))) []) (zip (q_req <$> qs) ans).
Proof.
  induction 1 as [|q d qs ds [Hr Hq] _ IH]; intros Hf.
  { exists []. split_and!; constructor. }
  apply Forall_cons in Hf as [Hfq Hf]. destruct (IH Hf) as (ans & H1 & H2 & H3 & H4).
  unfold finished in Hfq. destruct (q_pc q) as [|c [|e todo]] eqn:Ep; try done.
  destruct Hq as (a & d' & Ha & Hpa & Hc & -> & E). rewrite app_nil_r in E. subst d'.
  exists (a :: ans). split_and!.
  - by constructor.
  - cbn. constructor; [done|exact H2].
  - cbn [concat fmap list_fmap zip zip_with]. rewrite bind_cons, H3. done.
  - cbn [map fmap list_fmap zip zip_with]. rewrite Ep, Hc. f_equal. exact H4.
Qed.

(** C4. Concurrent requests are served as if one after the other. In every reachable state,
    whatever else happens in the pool, the gauge of active requests is the number of
    requests that have arrived and not yet returned. And when none is left, there is an
    answer of the pool for each request, the one its call of [Exec] has returned (a panic included), such that
    every response is the one the whole stack gives alone with that answer, and the
    counters are exactly, and the log up to the order of its lines, what serving
    these requests one after the other leaves. *)
Theorem concurrent_as_sequential (es : list sevent) (s : sstate) :
  srun sinit es = Some s -> Forall (for_page cfg) (arrivals es) ->
  activeRequests (s_metrics s) = int32 (Z.of_nat (in_flight s))
  /\ (in_flight s = 0%nat ->
      exists ans,
        Forall2 (fun q a => threads (s_pool s) !! q_thread q ≫= answer_of = Some a) (s_requests s) ans
        /\ let '(cs, (m, (log, _))) := serve_each (zip (q_req <$> s_requests s) ans) (NewMetrics, ([], tt)) in
           map q_pc (s_requests s) = map (fun c => Leaving c []) cs
           /\ s_metrics s = m /\ s_log s ≡ₚ log).
Proof.
  intros Hr Hes. destruct (srun_accounted _ _ _ _ Hr Hes sinit_accounted) as [ds Ha].
  split; [by eapply active_requests|]. intros H0. destruct Ha as [Hq Hm Hl _].
  assert (Forall (fun q => finished q = true) (s_requests s)) as Hf.
  { apply Forall_forall. intros q Hin. destruct (finished q) eqn:E; [done|]. exfalso.
    apply nil_length_inv in H0. assert (q ∈ filter (fun q => negb (finished q)) (s_requests s)) as Hx.
    { apply list_elem_of_filter. by rewrite E. }
    rewrite H0 in Hx. by apply elem_of_nil in Hx. }
  destruct (all_done _ _ _ Hq Hf) as (ans & H1 & H2 & H3 & H4). exists ans. split; [done|].
  rewrite serve_each_spec by done. cbn [app]. rewrite <- H3.
  split_and!; [by rewrite map_map|done|done].
Qed.

(** ** A calm pool *)

Definition calm_sevent (e : sevent) : bool :=
  match e with PoolStep e => calm_event e | _ => true end.

Lemma sstep_pool s e s' :
  sstep s e = Some s' ->
  s_pool s' = s_pool s
  \/ exists pe, pool_step (s_pool s) pe = Some (s_pool s') /\ (calm_sevent e = true -> calm_event pe = true).
Proof.
  destruct e as [r|e|i|i]; cbn [sstep].
  - destruct (pool_step _ CallExec) as [p|] eqn:E; [|done]. intros [= <-]. right. by exists CallExec.
  - intros Hs. right. exists e. split; [|done].
    destruct (pool_step (s_pool s) e) as [p|] eqn:E; [|by destruct e].
    destruct e; try done; by injection Hs as <-.
  - destruct (s_requests s !! i) as [[r tid [|]]|]; try done.
    destruct (threads (s_pool s) !! tid ≫= answer_of); [|done]. intros [= <-]. by left.
  - destruct (s_requests s !! i) as [[r tid [|c [|e todo]]]|]; try done. intros [= <-]. left. by destruct e.
Qed.

Lemma srun_calm es s s' :
  php_Mode (PHP cfg) = "worker" -> srun s es = Some s' -> forallb calm_sevent es = true ->
  reachable placeholderHTML ReadFile UnmarshalRequire cfg (s_pool s) -> calm (s_pool s) -> calm (s_pool s').
Proof.
  intros Hm. revert s. induction es as [|e es IH]; intros s; cbn [srun forallb]; [by intros [= <-]|].
  destruct (sstep s e) as [s1|] eqn:E; [|done]. intros Hr [He Hes]%andb_prop Hreach Hc.
  destruct (sstep_pool s e s1 E) as [Ep|(pe & Ep & Hpe)].
  - apply (IH s1 Hr Hes); by rewrite Ep.
  - apply (IH s1 Hr Hes); [by eapply reach_step|]. eapply calm_step; eauto.
Qed.

(** C14. The pages under load: in worker mode, as long as nobody reloads or stops the pool,
    under every interleaving of any number of requests, recycling and scaling, every
    response that leaves the pool is the page with status 200 and its headers, or, when no
    worker was free in time, the 502 that says so with the time the configuration allows;
    and nothing panics. *)
Theorem concurrent_pages (es : list sevent) (s : sstate) :
  php_Mode (PHP cfg) = "worker" -> forallb calm_sevent es = true ->
  srun sinit es = Some s -> Forall (for_page cfg) (arrivals es) ->
  Forall (fun t => is_panic t = false) (threads (s_pool s))
  /\ forall q c todo, q ∈ s_requests s -> q_pc q = Leaving c todo ->
       response c = (200, page_headers cfg fastRequestID (q_req q),
                     ascii_bytes (page_body placeholderHTML ReadFile UnmarshalRequire cfg))
       \/ response c
          = (502, headers_of error_sets (base_headers cfg fastRequestID (q_req q)),
             ascii_bytes ("Internal Server Error: no available worker within "
                          +:+ GoTime.Duration_String (AllocateTimeout (Pool cfg))) ++ [Byte.x0a]).
Proof.
  intros Hm He Hr Hes. destruct (srun_accounted _ _ _ _ Hr Hes sinit_accounted) as [ds [Hq _ _ _]].
  assert (calm (s_pool s)) as (_ & _ & Hg & _).
  { eapply srun_calm; [done|done|done|apply reach_init|].
    split; [done|split; [done|split]]; constructor. }
  split.
  - eapply Forall_impl; [exact Hg|]. intros t [Hc _].
    by destruct t as [| | | | | |[]| | | | | | | | | | | | | | | | | | | | | | | | |[]].
  - intros q c todo Hin Epc. apply list_elem_of_lookup in Hin as [i Hi].
    destruct (Forall2_lookup_l _ _ _ _ _ Hq Hi) as (d & _ & Hpage & Hpc). rewrite Epc in Hpc.
    destruct Hpc as (a & d' & Ha & Hpa & -> & _). rewrite alone_response by done.
    destruct (threads (s_pool s) !! q_thread q) as [t|] eqn:Et; [|done]. cbn in Ha.
    eapply Forall_lookup_1 in Hg; [|exact Et]. destruct Hg as [Hcalm Hgood].
    destruct t as [| | | | | | | | | | | | | | | | | | | | | | | | | | | | | | |o]; try done.
    destruct o as [|res|why|]; try done. injection Ha as <-.
    destruct (Hgood res eq_refl) as [(resp & -> & _)| ->]; [left|by right].
    cbn in Hpa. subst resp. cbn [answer_response]. unfold response_sets. cbn [resp_Headers Service.page_response].
    by rewrite Hrange.
Qed.
End Alone.
End Load.

(** ** A concrete run: two requests, one worker *)

Abbreviation load_run :=
  (srun hello no_file no_json two_shots (fun _ => false) map_to_list map_to_list (fun _ => []) (fun _ => [])
    (fun _ => []) (fun _ _ _ p w => MkOutcome p w false) [] (fun _ => []) (fun _ => "id") true (fun _ => 1000)
    no_exposition mark_zip).

(** The second request finds no worker in time; the two then leave in turns. *)
Definition two_at_once : list sevent :=
  PoolStep CallStart :: map PoolStep (goes 0 5)
  ++ [Arrive (get_request "/"); Arrive gzip_request]
  ++ map PoolStep (goes 2 2 ++ goes 3 1 ++ [Run 3 Timeout] ++ goes 2 8)
  ++ [Return 1; Return 0] ++ concat (replicate 17 [Effect 0; Effect 1]).

Lemma two_at_once_pages : Forall (for_page two_shots) (arrivals two_at_once).
Proof. repeat constructor; try (apply (bool_decide_unpack _); by vm_compute); by left. Qed.

Lemma two_at_once_runs :
  (fun s => (in_flight s, map (fun q => match q_pc q with Leaving c _ => fst (fst (response c)) | InPool => 0 end)
                            (s_requests s))) <$> load_run sinit two_at_once
  = Some (0%nat, [200; 502]).
Proof. by vm_compute. Qed.

Lemma concurrent_as_sequential_witness :
  exists s, load_run sinit two_at_once = Some s /\ activeRequests (s_metrics s) = 0
    /\ exists ans, map q_pc (s_requests s)
         = map (fun c => Leaving c [])
             (fst (serve_each two_shots (fun _ => false) map_to_list map_to_list (fun _ => []) (fun _ => [])
                (fun _ => []) (fun _ _ _ p w => MkOutcome p w false) [] (fun _ => []) (fun _ => "id") true
                (fun _ => 1000) no_exposition mark_zip (zip (q_req <$> s_requests s) ans) (NewMetrics, ([], tt)))).
Proof.
  pose proof two_at_once_runs as Hrun. destruct (load_run sinit two_at_once) as [s|] eqn:E; [|discriminate Hrun].
  injection Hrun as H0 _.
  destruct (concurrent_as_sequential hello no_file no_json two_shots (fun _ => false) map_to_list map_to_list
    (fun _ => []) (fun _ => []) (fun _ => []) (fun _ _ _ p w => MkOutcome p w false) [] (fun _ => [])
    (fun _ => "id") true (fun _ => 1000) no_exposition mark_zip
    (fun k v => map_to_list_singleton k v) eq_refl two_at_once s E two_at_once_pages) as [Ha Hs].
  exists s. split; [reflexivity|]. split; [rewrite Ha, H0; reflexivity|].
  destruct (Hs H0) as (ans & _ & H). exists ans. destruct (serve_each _ _ _ _ _ _ _ _ _ _ _ _ _ _ _ _ _)
    as [cs [m [log []]]]. exact (proj1 H).
Defined.

Lemma concurrent_pages_witness :
  exists s, load_run sinit two_at_once = Some s
            /\ Forall (fun t => is_panic t = false) (threads (s_pool s))
            /\ map (fun q => match q_pc q with Leaving c _ => fst (fst (response c)) | InPool => 0 end) (s_requests s)
               = [200; 502].
Proof.
  pose proof two_at_once_runs as Hrun. destruct (load_run sinit two_at_once) as [s|] eqn:E; [|discriminate Hrun].
  injection Hrun as _ Hst.
  destruct (concurrent_pages hello no_file no_json two_shots (fun _ => false) map_to_list map_to_list
    (fun _ => []) (fun _ => []) (fun _ => []) (fun _ _ _ p w => MkOutcome p w false) [] (fun _ => [])
    (fun _ => "id") true (fun _ => 1000) no_exposition mark_zip
    (fun k v => map_to_list_singleton k v) eq_refl two_at_once s eq_refl eq_refl E two_at_once_pages) as [Hp _].
  exists s. exact (conj eq_refl (conj Hp Hst)).
Defined.
