(* ===== verification/Scrape.v ===== *)
(** Scraping under load: [serveMetrics] of [src/internal/server/metrics.go] while other requests
    go on counting.

    [Metrics] has the report of a collector that stands still. Here the report is written one
    atomic read after the other, and between two reads any counters may be added to, one
    atomic addition at a time ([bump] of [Concurrent]). *)
From stdpp Require Import gmap.
From S2P Require Import Prelude GoStr GoFloat Metrics Concurrent.
Local Open Scope string_scope.
Local Open Scope Z_scope.
Local Open Scope list_scope.

#[export] Instance counter_eq_dec : EqDecision counter.
Proof. solve_decision. Defined.

(** ** The scrape *)

(** Where [serveMetrics] is, in the part on requests. [Range] visits every key that was there
    when it began, none twice, and perhaps some that are added meanwhile. *)
Inductive spc :=
| Ranging (present : gset string) (visited : list string)
| AtActive
| AtBytes
| AtCount                                                        (** [totalCount := ...] *)
| AtBucket (total cumulative : Z) (todo : list (string * float64))
| AtSum (total : Z)
| Scraped.

(** All additions so far, the control point, and the samples written. *)
Record scrape := MkScrape { history : list (counter * Z); sc_pc : spc; samples : list sample }.

Definition now (l : list (counter * Z)) : Metrics := bumps l NewMetrics.

Definition begin_scrape (l : list (counter * Z)) : scrape :=
  MkScrape l (Ranging (dom (totalRequests (now l))) []) [].

Inductive scrape_event :=
| Bump (cd : counter * Z)    (** another goroutine adds to a counter *)
| Visit (key : string)       (** the function given to [Range] *)
| Next.                      (** the next read *)

Definition emit (s : scrape) (p : spc) (x : list sample) : option scrape :=
  Some (MkScrape (history s) p (samples s ++ x)).

Definition scrape_step (s : scrape) (e : scrape_event) : option scrape :=
  let m := now (history s) in
  match e, sc_pc s with
  | Bump cd, _ => Some (MkScrape (history s ++ [cd]) (sc_pc s) (samples s))
  | Visit key, Ranging present visited =>
      if decide (key ∈ visited) then None
      else match totalRequests m !! key with
           | Some n => emit s (Ranging present (key :: visited))
                         [RequestsTotal (fst (split_key key)) (snd (split_key key)) n]
           | None => None
           end
  | Visit _, _ => None
  | Next, Ranging present visited =>
      if decide (present ⊆ list_to_set visited) then emit s AtActive [] else None
  | Next, AtActive => emit s AtBytes [RequestsActive (activeRequests m)]
  | Next, AtBytes => emit s AtCount [ResponseBytes (totalBytes m)]
  | Next, AtCount => emit s (AtBucket (durationCount m) 0 durationBuckets) []
  | Next, AtBucket total cumulative (b :: todo) =>
      let cumulative := match durationCounts m !! fst b with
                        | Some n => int64 (cumulative + n)
                        | None => cumulative
                        end in
      emit s (AtBucket total cumulative todo) [DurationBucket (fst b) cumulative]
  | Next, AtBucket total _ [] => emit s (AtSum total) [DurationBucket "+Inf" total]
  | Next, AtSum total => emit s Scraped [DurationSum (durationSum m); DurationCount total]
  | Next, Scraped => None
  end.

Fixpoint scrape_run (s : scrape) (es : list scrape_event) : option scrape :=
  match es with
  | [] => Some s
  | e :: es => match scrape_step s e with Some s => scrape_run s es | None => None end
  end.

(** ** Counters only grow *)

Definition value (c : counter) (m : Metrics) : Z :=
  match c with
  | CRequests k => default 0 (totalRequests m !! k)
  | CActive => activeRequests m
  | CBytes => totalBytes m
  | CBucket k => default 0 (durationCounts m !! k)
  | CSum => durationSum m
  | CCount => durationCount m
  end.

Definition added (c : counter) (l : list (counter * Z)) : Z :=
  sum_of snd (filter (fun cd => fst cd = c) l).

Lemma value_bump c cd m : c <> CActive ->
  value c (bump cd m) = if decide (fst cd = c) then int64 (value c m + snd cd) else value c m.
Proof.
  intros Hc. destruct cd as [c' d]. cbn [fst snd].
  destruct c', c; try done; cbn [bump value]; try (by rewrite decide_False by congruence);
    try (by rewrite decide_True by done); cbn [totalRequests durationCounts];
    rewrite lookup_insert; repeat case_decide; simplify_eq; done.
Qed.

Lemma added_snoc c l cd : added c (l ++ [cd]) = added c l + if decide (fst cd = c) then snd cd else 0.
Proof.
  unfold added. rewrite filter_app, filter_cons, filter_nil. case_decide; [apply sum_of_snoc|].
  rewrite app_nil_r. lia.
Qed.

Lemma now_snoc l cd : now (l ++ [cd]) = bump cd (now l).
Proof. unfold now. by rewrite bumps_app. Qed.

Lemma value_now c l : c <> CActive -> value c (now l) = int64 (added c l).
Proof.
  intros Hc. induction l as [|cd l IH] using rev_ind.
  - by destruct c.
  - rewrite now_snoc, value_bump, added_snoc, IH by done. case_decide; [apply int64_add|f_equal; lia].
Qed.

(** Additions that fit: only the gauge goes down, and no counter reaches 2^63. *)
Definition growing (l : list (counter * Z)) : Prop := Forall (fun cd => fst cd = CActive \/ 0 <= snd cd) l.

Lemma added_prefix c l l' : c <> CActive -> growing l' -> l `prefix_of` l' -> 0 <= added c l <= added c l'.
Proof.
  intros Hc Hg [k ->]. apply Forall_app in Hg as [Hl Hk]. split.
  - clear Hk k. induction l as [|cd l IH] using rev_ind; [done|].
    apply Forall_app in Hl as [Hl Hcd]. rewrite added_snoc. apply Forall_singleton in Hcd as [Hcd|Hcd].
    + rewrite decide_False by congruence. specialize (IH Hl). lia.
    + specialize (IH Hl). case_decide; lia.
  - induction k as [|cd k IH] using rev_ind; [by rewrite app_nil_r|].
    apply Forall_app in Hk as [Hk Hcd]. rewrite app_assoc, added_snoc. specialize (IH Hk).
    apply Forall_singleton in Hcd as [Hcd|Hcd]; [rewrite decide_False by congruence; lia|case_decide; lia].
Qed.

(** The sum of the first buckets. *)
Definition bucket_sum (bs : list (string * float64)) (m : Metrics) : Z :=
  sum_of (fun b => value (CBucket (fst b)) m) bs.

Lemma bucket_sum_app bs cs m : bucket_sum (bs ++ cs) m = bucket_sum bs m + bucket_sum cs m.
Proof. unfold bucket_sum, sum_of. induction bs as [|b bs IH]; [done|]. cbn [app foldr]. rewrite IH. lia. Qed.

Lemma bucket_sum_one b m : bucket_sum [b] m = value (CBucket (fst b)) m.
Proof. unfold bucket_sum, sum_of. cbn [foldr]. lia. Qed.

Record fits (l : list (counter * Z)) : Prop := {
  fits_growing : growing l;
  fits_counters c : c <> CActive -> added c l < 2 ^ 63;
  fits_buckets : bucket_sum durationBuckets (now l) < 2 ^ 63
}.

Lemma value_mono c l l' : c <> CActive -> fits l' -> l `prefix_of` l' -> 0 <= value c (now l) <= value c (now l').
Proof.
  intros Hc [Hg Hb _] Hp. pose proof (added_prefix c l l' Hc Hg Hp). specialize (Hb c Hc).
  rewrite !value_now, !int64_id by (done || lia). done.
Qed.

Lemma bucket_sum_mono bs l l' : fits l' -> l `prefix_of` l' -> 0 <= bucket_sum bs (now l) <= bucket_sum bs (now l').
Proof.
  intros Hf Hp. induction bs as [|b bs IH]; [done|]. unfold bucket_sum, sum_of in *. cbn [foldr].
  pose proof (value_mono (CBucket (fst b)) l l' ltac:(done) Hf Hp). lia.
Qed.

Lemma fits_prefix l l' : fits l' -> l `prefix_of` l' -> fits l.
Proof.
  intros Hf Hp. pose proof Hf as [Hg Hb Hs]. split.
  - destruct Hp as [k ->]. by apply Forall_app in Hg as [? _].
  - intros c Hc. pose proof (added_prefix c l l' Hc Hg Hp). specialize (Hb c Hc). lia.
  - pose proof (bucket_sum_mono durationBuckets l l' Hf Hp). lia.
Qed.

(** ** What a scrape shows *)

(** Between what it was at the beginning and what it is in the end. *)
Definition bracket (f : Metrics -> Z) (l0 l : list (counter * Z)) (n : Z) : Prop := f (now l0) <= n <= f (now l).

(** A sample of a scrape that began at [l0] and was written at or before [l]. *)
Definition shown (l0 l : list (counter * Z)) (x : sample) : Prop :=
  match x with
  | RequestsTotal method status n =>
      exists key, split_key key = (method, status) /\ bracket (value (CRequests key)) l0 l n
  | RequestsActive n => exists l', l0 `prefix_of` l' /\ l' `prefix_of` l /\ n = activeRequests (now l')
  | ResponseBytes n => bracket totalBytes l0 l n
  | DurationBucket le n =>
      (le = "+Inf" /\ bracket durationCount l0 l n)
      \/ exists bs b, bs ++ [b] `prefix_of` durationBuckets /\ fst b = le
           /\ bracket (bucket_sum (bs ++ [b])) l0 l n
  | DurationSum n => bracket durationSum l0 l n
  | DurationCount n => bracket durationCount l0 l n
  | _ => False
  end.

Definition count_shown (l0 l : list (counter * Z)) (total : Z) : Prop := bracket durationCount l0 l total.

Definition pc_ok (l0 l : list (counter * Z)) (p : spc) : Prop :=
  match p with
  | AtBucket total cumulative todo =>
      count_shown l0 l total
      /\ exists bs, durationBuckets = bs ++ todo /\ bracket (bucket_sum bs) l0 l cumulative
  | AtSum total => count_shown l0 l total
  | _ => True
  end.

(** The keys of the counters that have been shown, in their order. *)
Definition shown_keys (xs : list sample) : list (string * string) :=
  omap (fun x => match x with RequestsTotal a b _ => Some (a, b) | _ => None end) xs.

(** Every key there was is shown, and none twice. *)
Definition keys_ok (l0 : list (counter * Z)) (s : scrape) : Prop :=
  match sc_pc s with
  | Ranging present visited =>
      present = dom (totalRequests (now l0)) /\ NoDup visited /\ shown_keys (samples s) = rev (map split_key visited)
  | _ => exists visited, NoDup visited /\ dom (totalRequests (now l0)) ⊆ list_to_set visited
                         /\ shown_keys (samples s) = rev (map split_key visited)
  end.

Record scraping (l0 : list (counter * Z)) (s : scrape) : Prop := {
  sp_history : l0 `prefix_of` history s;
  sp_samples : Forall (shown l0 (history s)) (samples s);
  sp_pc : pc_ok l0 (history s) (sc_pc s);
  sp_keys : keys_ok l0 s
}.

Lemma bracket_value c l0 l l' n :
  c <> CActive -> fits l' -> l `prefix_of` l' -> bracket (value c) l0 l n -> bracket (value c) l0 l' n.
Proof. intros Hc Hf Hp [H1 H2]. pose proof (value_mono c l l' Hc Hf Hp). split; lia. Qed.

Lemma bracket_buckets bs l0 l l' n :
  fits l' -> l `prefix_of` l' -> bracket (bucket_sum bs) l0 l n -> bracket (bucket_sum bs) l0 l' n.
Proof. intros Hf Hp [H1 H2]. pose proof (bucket_sum_mono bs l l' Hf Hp). split; lia. Qed.

Lemma shown_later l0 l l' x : fits l' -> l `prefix_of` l' -> shown l0 l x -> shown l0 l' x.
Proof.
  intros Hf Hp. destruct x; cbn [shown]; try done.
  - intros (k & Hk & Hb). exists k. split; [done|]. by eapply bracket_value.
  - intros (l1 & H1 & H2 & ->). exists l1. split; [done|]. split; [by etrans|done].
  - by apply (bracket_value CBytes).
  - intros [[-> Hb]|(bs & b & Hpre & Hb & Hn)]; [left; split; [done|]; by eapply (bracket_value CCount)|right].
    exists bs, b. split; [done|]. split; [done|]. by eapply bracket_buckets.
  - by apply (bracket_value CSum).
  - by apply (bracket_value CCount).
Qed.

Lemma pc_ok_later l0 l l' p : fits l' -> l `prefix_of` l' -> pc_ok l0 l p -> pc_ok l0 l' p.
Proof.
  intros Hf Hp. destruct p; cbn [pc_ok]; try done.
  - intros [Ht (bs & E & Hb)]. split; [by eapply (bracket_value CCount)|]. exists bs. split; [done|].
    by eapply bracket_buckets.
  - by apply (bracket_value CCount).
Qed.

(** A counter that is read now. *)
Lemma bracket_now c l0 l : c <> CActive -> fits l -> l0 `prefix_of` l -> bracket (value c) l0 l (value c (now l)).
Proof. intros Hc Hf Hp. pose proof (value_mono c l0 l Hc Hf Hp). split; lia. Qed.

(** The running sum of the buckets. *)
Lemma bucket_read l0 l cumulative bs b todo :
  fits l -> l0 `prefix_of` l -> durationBuckets = bs ++ b :: todo -> bracket (bucket_sum bs) l0 l cumulative ->
  bracket (bucket_sum (bs ++ [b])) l0 l
    (match durationCounts (now l) !! fst b with Some n => int64 (cumulative + n) | None => cumulative end).
Proof.
  intros Hf Hp E [H1 H2]. pose proof (value_mono (CBucket (fst b)) l0 l ltac:(done) Hf Hp) as Hv.
  pose proof (bucket_sum_mono bs l0 l Hf Hp). pose proof (bucket_sum_mono todo l0 l Hf Hp).
  pose proof (fits_buckets l Hf) as Hlt. change (b :: todo) with ([b] ++ todo) in E.
  rewrite E, !bucket_sum_app, bucket_sum_one in Hlt.
  unfold bracket. rewrite !bucket_sum_app, !bucket_sum_one. cbn [value] in *.
  destruct (durationCounts (now l) !! fst b) as [n|]; cbn [default from_option id] in *.
  - rewrite int64_id; unfold id in *; lia.
  - lia.
Qed.

(** What the reads of a scrape add to it. *)
Lemma emit_ok l0 s p x s' :
  emit s p x = Some s' -> scraping l0 s -> Forall (shown l0 (history s)) x -> pc_ok l0 (history s) p ->
  keys_ok l0 (MkScrape (history s) p (samples s ++ x)) -> scraping l0 s'.
Proof.
  intros [= <-] [Hp Hx _ _] H1 H2 H3. split; cbn [history samples sc_pc]; try done. by apply Forall_app.
Qed.

Lemma emit_history s p x s' : emit s p x = Some s' -> history s' = history s.
Proof. by intros [= <-]. Qed.

Lemma visit_ok l0 s key s' :
  scrape_step s (Visit key) = Some s' -> fits (history s') -> scraping l0 s -> scraping l0 s'.
Proof.
  intros Hs Hf Hsc. pose proof Hsc as [Hp _ _ Hk]. cbn [scrape_step] in Hs.
  destruct (sc_pc s) as [present visited| | | | | |] eqn:Epc; try done.
  destruct (decide (key ∈ visited)) as [|Hnew]; [done|].
  destruct (totalRequests (now (history s)) !! key) as [n|] eqn:Ek; [|done].
  rewrite (emit_history _ _ _ _ Hs) in Hf. eapply emit_ok; [exact Hs|done| |done|].
  - constructor; [|done]. exists key. split; [apply surjective_pairing|].
    pose proof (value_mono (CRequests key) l0 (history s) ltac:(done) Hf Hp) as Hv.
    unfold bracket. cbn [value] in *. rewrite Ek in *. cbn in *. unfold id in *. lia.
  - unfold keys_ok in *. rewrite Epc in Hk. cbn [sc_pc samples] in *. destruct Hk as (-> & Hn & Hks).
    split_and!; [done|by constructor|]. unfold shown_keys in *. rewrite omap_app, Hks. cbn. by rewrite <- surjective_pairing.
Qed.

(** The reads after the keys show no more of them. *)
Lemma keys_after l0 s p x :
  keys_ok l0 s -> (forall present visited, sc_pc s <> Ranging present visited) ->
  (forall present visited, p <> Ranging present visited) ->
  shown_keys x = [] ->
  keys_ok l0 (MkScrape (history s) p (samples s ++ x)).
Proof.
  unfold keys_ok. cbn [sc_pc samples]. intros Hk Hs Hp Hx.
  assert (shown_keys (samples s ++ x) = shown_keys (samples s)) as ->
    by (unfold shown_keys in *; by rewrite omap_app, Hx, app_nil_r).
  destruct (sc_pc s); [by edestruct Hs|..]; destruct p; try done; by edestruct Hp.
Qed.

Lemma next_ok l0 s s' :
  scrape_step s Next = Some s' -> fits (history s') -> scraping l0 s -> scraping l0 s'.
Proof.
  intros Hs Hf Hsc. pose proof Hsc as [Hp _ Hpc Hk]. cbn [scrape_step] in Hs.
  assert (fits (history s)) as Hf'.
  { by repeat case_match; rewrite ?(emit_history _ _ _ _ Hs) in Hf. }
  clear Hf.
  assert (forall c, c <> CActive -> bracket (value c) l0 (history s) (value c (now (history s)))) as Hnow.
  { intros c Hc. pose proof (value_mono c l0 (history s) Hc Hf' Hp). unfold bracket. lia. }
  destruct (sc_pc s) as [present visited| | | |total c [|b todo]| |] eqn:Epc; try done.
  1: destruct (decide _) as [Hsub|]; [|done].
  all: eapply emit_ok; [exact Hs|done| | |]; cbn [pc_ok] in *;
    try (apply keys_after; [done|by rewrite Epc|done|done]); try done.
  - unfold keys_ok in *. rewrite Epc in Hk. destruct Hk as (-> & Hn & Hks). exists visited.
    cbn [samples]. by rewrite app_nil_r.
  - constructor; [by exists (history s)|done].
  - constructor; [by apply (Hnow CBytes)|done].
  - split; [by apply (Hnow CCount)|]. by exists [].
  - constructor; [|done]. left. split; [done|apply Hpc].
  - apply Hpc.
  - destruct Hpc as [_ (bs & E & Hb)]. constructor; [|done]. right. exists bs, b.
    split; [exists todo; by rewrite <- app_assoc|]. split; [done|]. by eapply bucket_read.
  - destruct Hpc as [Ht (bs & E & Hb)]. split; [done|]. exists (bs ++ [b]).
    split; [by rewrite <- app_assoc|]. by eapply bucket_read.
  - constructor; [by apply (Hnow CSum)|]. by constructor.
Qed.

Lemma scrape_step_history s e s' : scrape_step s e = Some s' -> history s `prefix_of` history s'.
Proof.
  unfold scrape_step. intros Hs. repeat case_match; try done; rewrite ?(emit_history _ _ _ _ Hs); try done.
  injection Hs as <-. by eexists.
Qed.

Lemma scrape_run_history es s s' : scrape_run s es = Some s' -> history s `prefix_of` history s'.
Proof.
  revert s. induction es as [|e es IH]; intros s; cbn [scrape_run]; [by intros [= <-]|].
  destruct (scrape_step s e) as [s1|] eqn:E; [|done]. intros Hr. etrans; [by eapply scrape_step_history|by apply IH].
Qed.

Lemma scrape_run_ok l0 es s s' :
  scrape_run s es = Some s' -> fits (history s') -> scraping l0 s -> scraping l0 s'.
Proof.
  revert s. induction es as [|e es IH]; intros s; cbn [scrape_run]; [by intros [= <-]|].
  destruct (scrape_step s e) as [s1|] eqn:E; [|done]. intros Hr Hf Hsc. apply (IH s1); [done|done|].
  assert (fits (history s1)) as Hf1 by (by eapply fits_prefix, scrape_run_history).
  destruct e as [cd|key|]; [|by eapply visit_ok|by eapply next_ok].
  destruct Hsc as [Hp Hx Hpc Hk]. injection E as <-. cbn [history] in *.
  assert (history s `prefix_of` history s ++ [cd]) as Hpre by (by eexists).
  split; cbn [history samples sc_pc]; [by etrans| |by eapply pc_ok_later|done].
  eapply Forall_impl; [exact Hx|]. intros x. by apply shown_later.
Qed.

Lemma begin_scraping l0 : scraping l0 (begin_scrape l0).
Proof. split; cbn; try done. split_and!; [done|constructor|done]. Qed.

(** ** A scrape comes to its end *)

Lemma keys_stay l l' : l `prefix_of` l' -> dom (totalRequests (now l)) ⊆ dom (totalRequests (now l')).
Proof.
  intros [k ->]. induction k as [|[c d] k IH] using rev_ind; [by rewrite app_nil_r|].
  rewrite app_assoc, now_snoc. etrans; [exact IH|]. destruct c; cbn [bump totalRequests]; try done. set_solver.
Qed.

(** It is in reach of a state, with nobody else counting. *)
Definition can_finish (s : scrape) : Prop :=
  exists es s', scrape_run s es = Some s' /\ sc_pc s' = Scraped /\ history s' = history s.

Lemma can_finish_step s e s' :
  scrape_step s e = Some s' -> history s' = history s -> can_finish s' -> can_finish s.
Proof.
  intros Hs Hh (es & s2 & Hr & Hp & Hh2). exists (e :: es), s2. cbn [scrape_run]. rewrite Hs.
  split_and!; [done|done|congruence].
Qed.

Ltac next_read Ep :=
  eapply (can_finish_step _ Next); [unfold scrape_step; try rewrite Ep; reflexivity|done|].

Lemma finish_sum s total : sc_pc s = AtSum total -> can_finish s.
Proof. intros Ep. next_read Ep. exists []. eexists. split_and!; reflexivity. Qed.

Lemma finish_buckets s total c todo : sc_pc s = AtBucket total c todo -> can_finish s.
Proof.
  revert s c. induction todo as [|b todo IH]; intros s c Ep; next_read Ep; [by eapply finish_sum|by eapply IH].
Qed.

Lemma finish_active s : sc_pc s = AtActive -> can_finish s.
Proof.
  intros Ep. next_read Ep. do 2 next_read Ep. by eapply finish_buckets.
Qed.

Lemma finish_range s present visited :
  sc_pc s = Ranging present visited -> present ⊆ dom (totalRequests (now (history s))) -> can_finish s.
Proof.
  intros Ep Hd. remember (elements (present ∖ list_to_set visited)) as ks eqn:Ek.
  assert (forall k, k ∈ present -> k ∈ visited \/ k ∈ ks) as Hks.
  { intros k Hk. subst ks. rewrite elem_of_elements, elem_of_difference, elem_of_list_to_set.
    destruct (decide (k ∈ visited)); tauto. }
  assert (forall k, k ∈ ks -> k ∈ present) as Hin.
  { intros k. subst ks. by intros [? _]%elem_of_elements%elem_of_difference. }
  clear Ek. revert s visited Ep Hd Hks. induction ks as [|k ks IH]; intros s visited Ep Hd Hks.
  - eapply (can_finish_step _ Next).
    + unfold scrape_step. rewrite Ep. rewrite decide_True; [reflexivity|]. set_solver.
    + done.
    + by apply finish_active.
  - destruct (decide (k ∈ visited)) as [Hv|Hv].
    + eapply (IH ltac:(set_solver) s visited Ep Hd). set_solver.
    + assert (is_Some (totalRequests (now (history s)) !! k)) as [n Hn] by (apply elem_of_dom; set_solver).
      eapply (can_finish_step _ (Visit k)).
      * unfold scrape_step. rewrite Ep, decide_False, Hn by done. reflexivity.
      * done.
      * eapply (IH ltac:(set_solver) _ (k :: visited)); [done|done|]. set_solver.
Qed.

(** ** Properties *)


(** ** Concrete runs *)

(** A request of nine seconds is counted while the report is written. *)
Definition slow_request : list (counter * Z) := observations "GET" 200 5 9000000000.
Definition torn_scrape : list scrape_event :=
  replicate 4 Next ++ map Bump slow_request ++ replicate 13 Next.

(** The number of all requests is read before the buckets: a bucket shows more
    requests than there are in all, although no request has been counted twice. *)
Theorem histogram_torn :
  match scrape_run (begin_scrape []) torn_scrape with
  | Some s => sc_pc s = Scraped /\ DurationBucket "10.000" 1 ∈ samples s
              /\ DurationBucket "+Inf" 0 ∈ samples s /\ DurationCount 0 ∈ samples s
  | None => False
  end.
Proof.
  vm_compute. split; [done|]. split_and!; repeat (apply list_elem_of_here || apply list_elem_of_further).
Qed.

Lemma slow_request_grows : growing slow_request.
Proof. apply (bool_decide_unpack (Forall _ _)). vm_compute. exact I. Qed.

Lemma slow_request_fits : fits slow_request.
Proof.
  split.
  - exact slow_request_grows.
  - intros c _. assert (forall l, growing l -> added c l <= sum_of (fun cd => Z.max 0 (snd cd)) l) as H.
    { intros l Hg. unfold added. induction Hg as [|[c' d] l Hd Hg IH]; [done|].
      rewrite filter_cons. case_decide; unfold sum_of in *; cbn [foldr snd]; lia. }
    eapply Z.le_lt_trans; [apply H, slow_request_grows|by vm_compute].
  - by vm_compute.
Qed.

