(* ===== verification/WriterPool.v ===== *)
(** The pooled response writers: [CompressionMiddleware] of [src/internal/server/compress.go] around
    [CoreMiddleware] of [middleware.go], as [buildMiddleware] nests them, for many requests at once.

    The writers, the gzip writers and the buffers of the random identifiers come from four
    [sync.Pool]s that all requests share. This file runs the two middlewares as a machine: a heap
    of objects, the pools as lists of objects that are free, a connection and a goroutine per
    request; a step is one access to a pool, or what the goroutine does between two of them, or
    one action of its handler. A pool may hand out any of its objects or a new one, and may lose
    objects at any time. The objects point to each other and to the connections, so what a goroutine
    writes through an object that another one uses too would go astray. [Middleware] and
    [Compress] have the same code with a writer of its own for each request; the theorem says that
    sharing changes nothing.

    The core middleware is written, and its theorems proved, against the class [Base] of the
    writers it may find below: the connection, or a compressing writer over it. The writer of the
    metrics middleware, which would stand between the two, is not pooled and is left out. *)
From S2P Require Import Prelude GoStr Http Compress Middleware Standalone.
Local Open Scope string_scope.
Local Open Scope Z_scope.
Local Open Scope list_scope.

(** ** Objects *)

(** The pools: [ridBufPool], [rwPool], [compressWriterPool], [gzWriterPool]. *)
Inductive kind := KRid | KRw | KCw | KGz.
#[export] Instance kind_eq_dec : EqDecision kind.
Proof. solve_decision. Defined.

(** What the core middleware's writer may point to: the connection of a request, or a
    compressing writer. *)
Inductive ptr := PConn (i : nat) | PCw (l : nat).

(** A [compressWriter] in memory: it points to the connection of a request and to its gzip
    writer. *)
Record cw_object := MkCwObject {
  co_ResponseWriter : nat;
  co_gzWriter : option nat;
  co_buf : list byte;
  co_wroteHeader : bool;
  co_compressed : bool;
  co_headerCode : Z
}.

(** Objects are named by their position in the heap; a [gzip.Writer] points to the connection
    it was reset to. *)
Inductive obj :=
| ORid (b : list byte)
| ORw (rw : mabooResponseWriter ptr)
| OCw (cw : cw_object)
| OGz (target : nat) (chunks : list (list byte)).

Definition kind_of (o : obj) : kind :=
  match o with ORid _ => KRid | ORw _ => KRw | OCw _ => KCw | OGz _ _ => KGz end.

(** [New] of the pools. *)
Definition new_rid : list byte := replicate 8 Byte.x00.
Definition new_rw : mabooResponseWriter ptr := MkRW (PConn 0) 0 0 false false.
Definition new_cw : cw_object := MkCwObject 0 None [] false false 0.
Definition new_gz : list (list byte) := [].

Definition new_object (k : kind) : obj :=
  match k with
  | KRid => ORid new_rid
  | KRw => ORw new_rw
  | KCw => OCw new_cw
  | KGz => OGz 0 new_gz
  end.

Record store := MkStore {
  heap : list obj;
  conns : list conn;             (** the standard library's writers, one per request *)
  free : list (kind * nat)       (** what is in the pools *)
}.

Inductive choice := Go | New | Pooled (k : nat) | Random (bs : list byte).

(** [Get] of a pool. *)
Definition Get (k : kind) (s : store) (c : choice) : option (nat * store) :=
  match c with
  | New => Some (length (heap s), MkStore (heap s ++ [new_object k]) (conns s) (free s))
  | Pooled j =>
      match free s !! j with
      | Some (k', l) => if decide (k' = k) then Some (l, MkStore (heap s) (conns s) (delete j (free s)))
                        else None
      | None => None
      end
  | _ => None
  end.

Definition Put (k : kind) (l : nat) (s : store) : store :=
  MkStore (heap s) (conns s) ((k, l) :: free s).

Definition set_obj (l : nat) (o : obj) (s : store) : store :=
  MkStore (<[l := o]> (heap s)) (conns s) (free s).
Definition set_conn (i : nat) (c : conn) (s : store) : store :=
  MkStore (heap s) (<[i := c]> (conns s)) (free s).

(** *** What an object stands for

    A method called on an object works on the objects and the connection it reaches from there:
    [load] finds the writer behind a pointer, [save] stores it after a method; the result of
    [save] is the gzip writer it points to then. *)

Definition retarget {A B} (w : B) (rw : mabooResponseWriter A) : mabooResponseWriter B :=
  MkRW w (statusCode rw) (bytesWritten rw) (rw_wroteHeader rw) (hintsSent rw).

Class Base (W : Type) := {
  load : store -> ptr -> option W;
  save : ptr -> W -> store -> choice -> option (option nat * store)
}.

#[export] Instance conn_base : Base conn := {
  load s p := match p with PConn i => conns s !! i | PCw _ => None end;
  save p v s _ := match p with PConn i => Some (None, set_conn i v s) | PCw _ => None end
}.

Definition gz_load (s : store) (g : option nat) : option (list (list byte)) :=
  match g with
  | Some g => match heap s !! g with Some (OGz _ ch) => Some ch | _ => None end
  | None => None
  end.

(** The gzip writer of a [compressWriter] after a method: [startCompress] gets one and resets it. *)
Definition gz_save (target : nat) (g : option nat) (ch : option (list (list byte))) (s : store)
    (c : choice) : option (option nat * store) :=
  match ch, g with
  | None, _ => Some (None, s)
  | Some ch, Some g => Some (Some g, set_obj g (OGz target ch) s)
  | Some ch, None =>
      match Get KGz s c with
      | Some (g, s) => Some (Some g, set_obj g (OGz target ch) s)
      | None => None
      end
  end.

Definition cw_load (s : store) (l : nat) : option (compressWriter conn) :=
  match heap s !! l with
  | Some (OCw o) =>
      w ← conns s !! co_ResponseWriter o;
      Some (MkCW w (gz_load s (co_gzWriter o)) (co_buf o) (co_wroteHeader o) (co_compressed o)
              (co_headerCode o))
  | _ => None
  end.

Definition cw_save (l : nat) (v : compressWriter conn) (s : store) (c : choice) :
    option (option nat * store) :=
  match heap s !! l with
  | Some (OCw o) =>
      let t := co_ResponseWriter o in
      '(g, s) ← gz_save t (co_gzWriter o) (gzWriter v) s c;
      Some (g, set_conn t (cw_inner v)
                 (set_obj l (OCw (MkCwObject t g (cw_buf v) (cw_wroteHeader v) (compressed v)
                                    (headerCode v))) s))
  | _ => None
  end.

#[export] Instance compress_base : Base (compressWriter conn) := {
  load s p := match p with PCw l => cw_load s l | PConn _ => None end;
  save p v s c := match p with PCw l => cw_save l v s c | PConn _ => None end
}.

Section Writer.
Context {W : Type} `{Base W}.

Definition rw_load (s : store) (l : nat) : option (mabooResponseWriter W) :=
  match heap s !! l with
  | Some (ORw o) => w ← load s (Middleware.rw_inner o); Some (retarget w o)
  | _ => None
  end.

Definition rw_save (l : nat) (v : mabooResponseWriter W) (s : store) (c : choice) :
    option (option nat * store) :=
  match heap s !! l with
  | Some (ORw o) =>
      let p := Middleware.rw_inner o in
      '(g, s) ← save p (Middleware.rw_inner v) s c; Some (g, set_obj l (ORw (retarget p v)) s)
  | _ => None
  end.
End Writer.

(** ** A request *)

(** Where [CoreMiddleware] is. *)
Inductive core_pc :=
| CStart
| CRidRead (bp : nat)                        (** [rand.Read] *)
| CRidEncode (bp : nat)                      (** [hex.Encode] *)
| CRidPut (bp : nat) (id : string)
| CNamed (id : string)                       (** the response's header *)
| CRwGet (id : string)
| CRwReset (id : string) (rw : nat)
| CActs (id : string) (rw : nat) (todo : list action)
| CFinish (id : string) (rw : nat)           (** the log, or the recovery from a panic *)
| CRwPut (id : string) (rw : nat)
| CDone (id : string).                       (** it returns *)

(** Where a request is. [p] is the writer [CoreMiddleware] was given; [gz] is the gzip writer
    that the compressing one points to. *)
Inductive pc :=
| QStart                                     (** [CompressionMiddleware] *)
| QCwReset (cw : nat)
| QCore (p : ptr) (gz : option nat) (k : core_pc)
| QClose (cw : nat) (gz : option nat)
| QCwPut (cw : nat)
| QDone.

Record request := MkReq {
  q_Request : Request;
  q_script : list action;     (** what the handler does to its writer *)
  q_panics : bool;            (** and whether it panics then *)
  q_random : list byte;       (** what [rand.Read] has given *)
  q_log : list log_entry;
  q_pc : pc
}.

Definition at_pc (p : pc) (q : request) : request :=
  MkReq (q_Request q) (q_script q) (q_panics q) (q_random q) (q_log q) p.
Definition logs (e : log_entry) (q : request) : request :=
  MkReq (q_Request q) (q_script q) (q_panics q) (q_random q) (q_log q ++ [e]) (q_pc q).
Definition draws (bs : list byte) (q : request) : request :=
  MkReq (q_Request q) (q_script q) (q_panics q) bs (q_log q) (q_pc q).

Definition request_id (q : request) : string := Http.Get (r_Header (q_Request q)) "X-Request-ID".

(** The request as the inner handlers see it. *)
Definition named (id : string) (q : request) : Request :=
  if bool_decide (request_id q = "")
  then set_r_Header (HSet "X-Request-ID" id (r_Header (q_Request q))) (q_Request q)
  else q_Request q.

Section Machine.
(** The bytes a gzip writer emits for these writes and a [Close]; whether the level is enabled. *)
Variable gzip : list (list byte) -> list byte.
Variable logger_Enabled : bool.

(** *** [CoreMiddleware] *)

Section Core.
Context {W : Type} `{ResponseWriter W} `{!Base W}.

(** Naming the request, over the writer at [p]. *)
Definition id_step (p : ptr) (gz : option nat) (k : core_pc) (s : store) (q : request) (c : choice) :
    option (store * request * option nat * core_pc) :=
  match k, c with
  | CStart, c =>
      if bool_decide (request_id q = "")
      then '(bp, s) ← Get KRid s c; Some (s, q, gz, CRidRead bp)
      else match c with Go => Some (s, q, gz, CNamed (request_id q)) | _ => None end
  | CRidRead bp, Random bs =>
      if decide (length bs = 8%nat) then Some (set_obj bp (ORid bs) s, draws bs q, gz, CRidEncode bp)
      else None
  | CRidEncode bp, Go =>
      match heap s !! bp with
      | Some (ORid b) => Some (s, q, gz, CRidPut bp (fastRequestID b))
      | _ => None
      end
  | CRidPut bp id, Go => Some (Put KRid bp s, q, gz, CNamed id)
  | CNamed id, c =>
      w ← load s p;
      '(gz, s) ← save p (SetHeader (HSet "X-Request-ID" id) w) s c; Some (s, q, gz, CRwGet id)
  | _, _ => None
  end.

(** The writer, the inner handler, the log and the recovery. *)
Definition writer_step (p : ptr) (gz : option nat) (k : core_pc) (s : store) (q : request) (c : choice) :
    option (store * request * option nat * core_pc) :=
  match k, c with
  | CRwGet id, c => '(rw, s) ← Get KRw s c; Some (s, q, gz, CRwReset id rw)
  | CRwReset id rw, Go => Some (set_obj rw (ORw (rw_reset p)) s, q, gz, CActs id rw (q_script q))
  | CActs id rw [], Go => Some (s, q, gz, CFinish id rw)
  | CActs id rw (a :: todo), c =>
      v ← rw_load s rw;
      '(gz, s) ← rw_save rw (act a v) s c; Some (s, q, gz, CActs id rw todo)
  | CFinish id rw, c =>
      if q_panics q then
        w ← load s p;
        '(gz, s) ← save p (http_Error "Internal Server Error" 500 w) s c;
        Some (s, logs (LogPanic (Path (q_Request q))) q, gz, CDone id)
      else
        match heap s !! rw with
        | Some (ORw o) =>
            let r := named id q in
            let q := if logger_Enabled
                     then logs (LogRequest (Method r) (Path r) (statusCode o) (bytesWritten o)
                                  (RemoteAddr r) id) q
                     else q in
            Some (s, q, gz, CRwPut id rw)
        | _ => None
        end
  | CRwPut id rw, Go => Some (Put KRw rw s, q, gz, CDone id)
  | _, _ => None
  end.

Definition core_step (p : ptr) (gz : option nat) (k : core_pc) (s : store) (q : request) (c : choice) :
    option (store * request * option nat * core_pc) :=
  match k with
  | CStart | CRidRead _ | CRidEncode _ | CRidPut _ _ | CNamed _ => id_step p gz k s q c
  | _ => writer_step p gz k s q c
  end.
End Core.

(** *** [CompressionMiddleware] *)

Definition cw_reset (w cw : nat) (s : store) : store :=
  set_obj cw (OCw (MkCwObject w None [] false false 0)) s.

Definition no_gzWriter (o : cw_object) : cw_object :=
  MkCwObject (co_ResponseWriter o) None (co_buf o) (co_wroteHeader o) (co_compressed o) (co_headerCode o).

(** [compressWriter.Close]: the gzip writer goes back to its pool. *)
Definition close (cw : nat) (s : store) : option store :=
  match heap s !! cw with
  | Some (OCw o) =>
      match co_compressed o, co_gzWriter o with
      | true, Some g =>
          match heap s !! g with
          | Some (OGz t ch) =>
              v ← conns s !! t;
              Some (set_obj cw (OCw (no_gzWriter o)) (Put KGz g (set_conn t (snd (Write (gzip ch) v)) s)))
          | _ => None
          end
      | _, _ =>
          if (0 <? length (co_buf o))%nat then
            v ← conns s !! co_ResponseWriter o;
            let v := if co_wroteHeader o then v else WriteHeader 200 v in
            Some (set_conn (co_ResponseWriter o) (snd (Write (co_buf o) v)) s)
          else Some s
      end
  | _ => None
  end.

(** The core middleware, over the connection or over the compressing writer. *)
Definition next_step (p : ptr) (gz : option nat) (k : core_pc) (s : store) (q : request) (c : choice) :
    option (store * request * option nat * core_pc) :=
  match p with
  | PConn _ => core_step (W := conn) p gz k s q c
  | PCw _ => core_step (W := compressWriter conn) p gz k s q c
  end.

(** The deferred [Close] and [Put] come when it has returned. *)
Definition returned (p : ptr) (gz : option nat) : pc :=
  match p with PConn _ => QDone | PCw cw => QClose cw gz end.

Definition req_step (i : nat) (s : store) (q : request) (c : choice) : option (store * request) :=
  match q_pc q, c with
  | QStart, c =>
      if accepts_gzip (q_Request q)
      then '(cw, s) ← Get KCw s c; Some (s, at_pc (QCwReset cw) q)
      else match c with Go => Some (s, at_pc (QCore (PConn i) None CStart) q) | _ => None end
  | QCwReset cw, Go => Some (cw_reset i cw s, at_pc (QCore (PCw cw) None CStart) q)
  | QCore p gz (CDone _), c => match c with Go => Some (s, at_pc (returned p gz) q) | _ => None end
  | QCore p gz k, c =>
      '(s, q, gz, k) ← next_step p gz k s q c; Some (s, at_pc (QCore p gz k) q)
  | QClose cw gz, Go => s ← close cw s; Some (s, at_pc (QCwPut cw) q)
  | QCwPut cw, Go => Some (Put KCw cw s, at_pc QDone q)
  | _, _ => None
  end.

(** ** The machine *)

Record state := MkState { st : store; reqs : list request }.

Inductive event :=
| Arrive (r : Request) (script : list action) (panics : bool)
| Run (i : nat) (c : choice)
| Lose (k : nat).           (** the garbage collector takes an object from a pool *)

Definition step (s : state) (e : event) : option state :=
  match e with
  | Arrive r sc p =>
      Some (MkState (MkStore (heap (st s)) (conns (st s) ++ [fresh_conn]) (free (st s)))
              (reqs s ++ [MkReq r sc p [] [] QStart]))
  | Run i c =>
      q ← reqs s !! i;
      '(s', q') ← req_step i (st s) q c;
      Some (MkState s' (<[i := q']> (reqs s)))
  | Lose k => Some (MkState (MkStore (heap (st s)) (conns (st s)) (delete k (free (st s)))) (reqs s))
  end.

Fixpoint run (s : state) (es : list event) : option state :=
  match es with
  | [] => Some s
  | e :: es => match step s e with Some s => run s es | None => None end
  end.

Definition init : state := MkState (MkStore [] [] []) [].

(** ** Who has an object *)

Definition opt_list (o : option nat) : list nat := match o with Some l => [l] | None => [] end.

(** The objects of the writer that [CoreMiddleware] was given, and its own. *)
Definition own (p : ptr) (gz : option nat) : list nat :=
  match p with PConn _ => [] | PCw cw => cw :: opt_list gz end.
Definition core_holds (k : core_pc) : list nat :=
  match k with
  | CRidRead bp | CRidEncode bp | CRidPut bp _ => [bp]
  | CRwReset _ rw | CActs _ rw _ | CFinish _ rw | CRwPut _ rw => [rw]
  | _ => []
  end.

(** The objects a request has taken and not yet put back. *)
Definition held (p : pc) : list nat :=
  match p with
  | QCwReset cw | QCwPut cw => [cw]
  | QCore p gz k => own p gz ++ core_holds k
  | QClose cw gz => own (PCw cw) gz
  | _ => []
  end.
Definition holds (q : request) : list nat := held (q_pc q).
End Machine.
