(* ===== verification/WriterPoolInv.v ===== *)
(** The pooled response writers under every interleaving: who holds an object, what a request has
    achieved so far, and that it gets the response it would get alone. *)
From S2P Require Import Prelude GoStr Http Compress Middleware Standalone WriterPool.
Local Open Scope string_scope.
Local Open Scope Z_scope.
Local Open Scope list_scope.

(** An object of kind [k] is at [l]. *)
Definition has_kind (s : store) (k : kind) (l : nat) : Prop :=
  exists o, heap s !! l = Some o /\ kind_of o = k.

(** ** What a step may do to the store *)

Definition free_objects (s : store) : list nat := (free s).*2.

Definition pool_ok (s : store) : Prop := Forall (fun x => has_kind s (fst x) (snd x)) (free s).

(** A step of request [i], that held [hs] and now holds [hs'], changes no object but those and
    what it took from the pools, no connection but its own, and no kind; objects are not
    duplicated, but may be made. *)
Record moves (i : nat) (s : store) (hs : list nat) (s' : store) (hs' : list nat) : Prop := {
  m_heap l : (l < length (heap s))%nat -> l ∉ free_objects s ++ hs -> heap s' !! l = heap s !! l;
  m_len : (length (heap s) <= length (heap s'))%nat;
  m_rights : exists news, NoDup news
      /\ Forall (fun l => length (heap s) <= l < length (heap s'))%nat news
      /\ free_objects s' ++ hs' ⊆+ news ++ free_objects s ++ hs;
  m_kinds k l : has_kind s k l -> has_kind s' k l;
  m_pool : pool_ok s -> pool_ok s';
  m_conns j : j <> i -> conns s' !! j = conns s !! j;
  m_count : length (conns s') = length (conns s)
}.

#[export] Instance moves_submseteq i s : Proper ((≡ₚ) ==> (=) ==> flip submseteq ==> impl) (moves i s).
Proof.
  intros h1 h2 E s' ? <- k1 k2 Hk [H1 H2 (n & N1 & N2 & N3) H4 H5 H6 H7]. split; try done.
  - intros l Hl Hn. apply H1; [done|]. by rewrite E.
  - exists n. split_and!; [done..|]. cbn in Hk. rewrite <- E. etrans; [|exact N3]. by apply submseteq_app.
Qed.

Lemma moves_drop i s hs s' k1 k2 : k2 ⊆+ k1 -> moves i s hs s' k1 -> moves i s hs s' k2.
Proof. intros Hk. by eapply moves_submseteq. Qed.

Lemma store_moves_refl i s hs : moves i s hs s hs.
Proof. split; try done. exists []. split_and!; [constructor|constructor|done]. Qed.

Lemma moves_trans i s1 h1 s2 h2 s3 h3 :
  moves i s1 h1 s2 h2 -> moves i s2 h2 s3 h3 -> moves i s1 h1 s3 h3.
Proof.
  intros [A1 A2 (n & A3 & A4 & A5) A6 A7 A8 A9] [B1 B2 (m & B3 & B4 & B5) B6 B7 B8 B9]. split.
  - intros l Hl Hn. rewrite B1; [by apply A1|lia|]. intros Hin.
    apply (elem_of_submseteq _ _ _ Hin) in A5. apply elem_of_app in A5 as [Hl'|]; [|done].
    rewrite Forall_forall in A4. specialize (A4 _ Hl'). lia.
  - lia.
  - exists (m ++ n). split_and!.
    + apply NoDup_app. split_and!; [done| |done]. intros l Hm Hn.
      rewrite Forall_forall in A4, B4. specialize (A4 _ Hn). specialize (B4 _ Hm). lia.
    + apply Forall_app. split; [eapply Forall_impl; [exact B4|]|eapply Forall_impl; [exact A4|]]; cbn; lia.
    + etrans; [exact B5|]. rewrite <- app_assoc. by apply submseteq_app.
  - auto.
  - auto.
  - intros j Hj. by rewrite B8, A8.
  - by rewrite B9.
Qed.

Lemma has_kind_insert s k l l' o' :
  has_kind s (kind_of o') l' -> has_kind s k l -> has_kind (set_obj l' o' s) k l.
Proof.
  intros (o1 & H1 & E1) (o & Ho & Ek). unfold has_kind. cbn [set_obj heap].
  destruct (decide (l = l')) as [->|Hne].
  - rewrite list_lookup_insert_eq by (by eapply lookup_lt_Some). exists o'. split; [done|]. congruence.
  - rewrite list_lookup_insert_ne by done. by exists o.
Qed.

Lemma moves_set_obj i s hs l o :
  l ∈ hs -> has_kind s (kind_of o) l -> moves i s hs (set_obj l o s) hs.
Proof.
  intros Hl Hk. split; cbn [set_obj heap conns]; try done.
  - intros l' _ Hn. apply list_lookup_insert_ne. intros ->. apply Hn, elem_of_app. by right.
  - by rewrite length_insert.
  - exists []. split_and!; [constructor|constructor|done].
  - intros k l'. by apply has_kind_insert.
  - intros H. eapply Forall_impl; [exact H|]. intros x. by apply has_kind_insert.
Qed.

Lemma moves_set_conn i s hs c : moves i s hs (set_conn i c s) hs.
Proof.
  split; cbn [set_conn heap conns]; try done.
  - exists []. split_and!; [constructor|constructor|done].
  - intros j Hj. by apply list_lookup_insert_ne.
  - by rewrite length_insert.
Qed.

Lemma moves_Put i s hs k l : has_kind s k l -> moves i s (l :: hs) (Put k l s) hs.
Proof.
  intros Hk. split; cbn; try done.
  - exists []. split_and!; [constructor|constructor|]. cbn. by rewrite Permutation_middle.
  - intros H. by constructor.
Qed.

Lemma moves_Get i s hs k c l s' :
  Get k s c = Some (l, s') -> moves i s hs s' (l :: hs).
Proof.
  unfold Get. destruct c as [| |j|]; try done.
  - intros [= <- <-].
    assert (forall k1 l, has_kind s k1 l ->
      has_kind (MkStore (heap s ++ [new_object k]) (conns s) (free s)) k1 l) as Hk.
    { intros k1 l (o & Ho & E). exists o. split; [by apply lookup_app_l_Some|done]. }
    split; cbn [heap conns free]; try done.
    + intros l Hl _. by apply lookup_app_l.
    + rewrite length_app. lia.
    + exists [length (heap s)]. split_and!; [apply NoDup_singleton|apply Forall_singleton; rewrite length_app; cbn; lia|].
      cbn. by rewrite <- Permutation_middle.
    + intros H. eapply Forall_impl; [exact H|]. intros x. apply Hk.
  - destruct (free s !! j) as [[k' l']|] eqn:E; [|done]. case_decide; [|done]. intros [= <- <-].
    split; cbn [heap conns free]; try done.
    + exists []. split_and!; [constructor|constructor|]. cbn. unfold free_objects. cbn [free].
      apply delete_Permutation in E. rewrite E at 2. cbn. by rewrite <- Permutation_middle.
    + intros Hp. by apply Forall_delete.
Qed.

Lemma Get_kind k s c l s' : pool_ok s -> Get k s c = Some (l, s') -> has_kind s' k l.
Proof.
  unfold Get. intros Hp. destruct c as [| |j|]; try done.
  - intros [= <- <-]. exists (new_object k). cbn [heap]. rewrite list_lookup_middle by done.
    split; [done|by destruct k].
  - destruct (free s !! j) as [[k' l']|] eqn:E; [|done]. case_decide; [|done]. intros [= <- <-].
    subst k'. apply (Forall_lookup_1 _ _ _ _ Hp E).
Qed.

(** [Get] touches neither connections nor what is not in the pool. *)
Lemma Get_frame k s c l s' :
  Get k s c = Some (l, s') ->
  conns s' = conns s /\ (forall l', (l' < length (heap s))%nat -> heap s' !! l' = heap s !! l').
Proof.
  unfold Get. destruct c as [| |j|]; try done.
  - intros [= <- <-]. split; [done|]. intros l' Hl. by apply lookup_app_l.
  - destruct (free s !! j) as [[k' l']|] eqn:E; [|done]. case_decide; [|done]. by intros [= <- <-].
Qed.

(** What else the goroutine holds stays with it. *)
Lemma moves_app i s h1 s' h2 k : moves i s h1 s' h2 -> moves i s (h1 ++ k) s' (h2 ++ k).
Proof.
  intros [M1 M2 (n & N1 & N2 & N3) M4 M5 M6 M7]. split; try done.
  - intros l Hl Hn. apply M1; [done|]. set_unfold. tauto.
  - exists n. split_and!; [done..|]. rewrite !app_assoc. apply submseteq_skips_r.
    by rewrite <- !app_assoc.
Qed.

Lemma has_kind_ne s k k' l l' : has_kind s k l -> has_kind s k' l' -> k <> k' -> l <> l'.
Proof. intros (o & H1 & E1) (o' & H2 & E2) Hk ->. congruence. Qed.

Lemma lookup_insert_lt {A} (l : list A) i x y : l !! i = Some y -> <[i := x]> l !! i = Some x.
Proof. intros H. by eapply list_lookup_insert_eq, lookup_lt_Some. Qed.

Lemma bind2_Some {A B C} (x : option (A * B)) (f : A -> B -> option C) y :
  ('(a, b) ← x; f a b) = Some y -> exists a b, x = Some (a, b) /\ f a b = Some y.
Proof. destruct x as [[a b]|]; [|done]. eauto. Qed.

(** ** The writer below *)

(** A base writer: [stands s i p gz v] when the writer at [p] is [v], of request [i] alone. It is
    found where it stands, keeps standing where its objects and its connection do, and a [save]
    leaves the new value standing, touching nothing but its objects and its connection. *)
Class BaseLaws (W : Type) `{Base W} := {
  stands : store -> nat -> ptr -> option nat -> W -> Prop;
  stands_load s i p gz v : stands s i p gz v -> load s p = Some v;
  stands_frame s s' i p gz v :
    (forall l, l ∈ own p gz -> heap s' !! l = heap s !! l) -> conns s' !! i = conns s !! i ->
    stands s i p gz v -> stands s' i p gz v;
  stands_save s i p gz v v' c gz' s' :
    pool_ok s -> stands s i p gz v -> save p v' s c = Some (gz', s') ->
    moves i s (own p gz) s' (own p gz') /\ stands s' i p gz' v'
    /\ (forall l, has_kind s KRw l -> heap s' !! l = heap s !! l);
  stands_New s i p gz v v' : stands s i p gz v -> is_Some (save p v' s New);
  stands_kind s i p gz v l :
    stands s i p gz v -> l ∈ own p gz -> has_kind s KCw l \/ has_kind s KGz l
}.

(** *** The connection *)

#[export, refine] Instance conn_laws : BaseLaws conn := {
  stands s i p gz v := p = PConn i /\ gz = None /\ conns s !! i = Some v
}.
Proof.
  - by intros s i p gz v (-> & -> & Hc).
  - intros s s' i p gz v _ Hc (-> & -> & Hv). by rewrite Hc.
  - intros s i p gz v v' c gz' s' _ (-> & -> & Hv) [= <- <-].
    split_and!; [apply moves_set_conn|done|done| |done]. by eapply lookup_insert_lt.
  - intros s i p gz v v' (-> & _). by eexists.
  - intros s i p gz v l (-> & _) Hl. by apply elem_of_nil in Hl.
Defined.

(** *** The compressing writer *)

Definition cw_stands (s : store) (i : nat) (p : ptr) (gz : option nat) (v : compressWriter conn) : Prop :=
  exists l, p = PCw l /\ conns s !! i = Some (cw_inner v)
  /\ heap s !! l = Some (OCw (MkCwObject i gz (cw_buf v) (cw_wroteHeader v) (compressed v) (headerCode v)))
  /\ match gz, gzWriter v with
     | Some g, Some ch => heap s !! g = Some (OGz i ch)
     | None, None => True
     | _, _ => False
     end.

Lemma cw_stands_load s i p gz v : cw_stands s i p gz v -> load s p = Some v.
Proof.
  intros (l & -> & Hc & Hl & Hg). cbn. unfold cw_load. rewrite Hl. cbn. rewrite Hc. cbn.
  destruct v as [w gw]. cbn [cw_inner gzWriter] in *.
  destruct gz as [g|], gw as [ch|]; try done. cbn. by rewrite Hg.
Qed.

(** [startCompress] and the gzip writer. *)
Lemma gz_save_moves i s c t l gz ch gz' s' :
  pool_ok s -> (forall g, gz = Some g -> has_kind s KGz g) -> has_kind s KCw l ->
  gz_save t gz ch s c = Some (gz', s') ->
  moves i s (l :: opt_list gz) s' (l :: opt_list gz')
  /\ conns s' = conns s
  /\ (forall k l', has_kind s k l' -> k <> KGz -> heap s' !! l' = heap s !! l')
  /\ match gz', ch with
     | Some g, Some ch => heap s' !! g = Some (OGz t ch)
     | None, None => True
     | _, _ => False
     end.
Proof.
  intros Hp Hk Hl. destruct ch as [ch|]; cbn [gz_save].
  2: { intros [= <- <-]. split_and!; [|done..].
       eapply moves_drop; [|apply store_moves_refl]. cbn. by apply submseteq_skip, submseteq_nil_l. }
  assert (forall s1 g, has_kind s1 KGz g ->
    (forall k l', has_kind s1 k l' -> k <> KGz -> heap (set_obj g (OGz t ch) s1) !! l' = heap s1 !! l')
    /\ heap (set_obj g (OGz t ch) s1) !! g = Some (OGz t ch)) as Hset.
  { intros s1 g Hg. split.
    - intros k l' Hl' Hne. cbn. apply list_lookup_insert_ne. by eapply has_kind_ne.
    - destruct Hg as (o & Ho & _). by eapply lookup_insert_lt. }
  destruct gz as [g|].
  - intros [= <- <-]. specialize (Hk g eq_refl). destruct (Hset s g Hk) as (H2 & H3).
    split_and!; [|done..]. apply moves_set_obj; [|done]. cbn. set_unfold. auto.
  - destruct (Get KGz s c) as [[g s1]|] eqn:Eg; [|done]. intros [= <- <-].
    pose proof (Get_kind _ _ _ _ _ Hp Eg) as Hg. destruct (Hset s1 g Hg) as (H2 & H3).
    destruct (Get_frame _ _ _ _ _ Eg) as [F1 F2]. pose proof (moves_Get i s [l] _ _ _ _ Eg) as Hm.
    split_and!; [|by cbn| |done].
    + apply (moves_trans i s _ s1 (l :: opt_list (Some g))).
      * eapply moves_drop; [|exact Hm]. cbn. solve_submseteq.
      * apply moves_set_obj; [|done]. cbn. set_unfold. auto.
    + intros k l' Hl' Hne. rewrite (H2 k) by (done || by apply (m_kinds _ _ _ _ _ Hm)).
      apply F2. destruct Hl' as (o & Ho & _). by eapply lookup_lt_Some.
Qed.

Lemma cw_stands_save s i p gz v v' c gz' s' :
  pool_ok s -> cw_stands s i p gz v -> save p v' s c = Some (gz', s') ->
  moves i s (own p gz) s' (own p gz') /\ cw_stands s' i p gz' v'
  /\ (forall l, has_kind s KRw l -> heap s' !! l = heap s !! l).
Proof.
  intros Hp (l & -> & Hc & Hl & Hg). cbn [save compress_base]. unfold cw_save. rewrite Hl.
  cbn [co_ResponseWriter co_gzWriter]. intros (g & s1 & Eg & [= <- <-])%bind2_Some.
  assert (has_kind s KCw l) as Hkl by (by eexists).
  destruct (gz_save_moves i s c i l gz (gzWriter v') g s1 Hp) as (M1 & C1 & F1 & G1); [|done..|].
  { intros g' ->. destruct (gzWriter v); [|done]. by eexists. }
  pose proof (m_kinds _ _ _ _ _ M1 _ _ Hkl) as Hkl1. set (o' := MkCwObject _ _ _ _ _ _).
  split; [|split].
  - eapply moves_trans; [exact M1|]. eapply moves_trans; [|apply moves_set_conn].
    apply moves_set_obj; [by left|done].
  - exists l. split; [done|]. cbn [set_conn set_obj heap conns].
    split; [eapply lookup_insert_lt; by rewrite C1|]. split.
    + destruct Hkl1 as (o & Ho & _). by eapply lookup_insert_lt.
    + destruct g as [g|], (gzWriter v') as [ch|]; try done.
      rewrite list_lookup_insert_ne; [done|]. apply (has_kind_ne s1 KCw KGz); [done|by eexists|done].
  - intros l' Hl'. cbn. rewrite list_lookup_insert_ne; [by apply (F1 KRw)|].
    by apply (has_kind_ne s KCw KRw).
Qed.

#[export, refine] Instance compress_laws : BaseLaws (compressWriter conn) := {
  stands := cw_stands
}.
Proof.
  - apply cw_stands_load.
  - intros s s' i p gz v Hh Hc (l & -> & H1 & H2 & H3). exists l. cbn [own] in Hh.
    rewrite Hc, Hh by (by left). split_and!; [done..|].
    destruct gz as [g|], (gzWriter v); try done. rewrite Hh; [done|]. right. by left.
  - apply cw_stands_save.
  - intros s i p gz v v' (l & -> & Hc & Hl & Hg). cbn [save compress_base]. unfold cw_save. rewrite Hl.
    cbn [co_ResponseWriter co_gzWriter]. destruct (gzWriter v') as [ch|], gz as [g|]; by eexists.
  - intros s i p gz v l (l' & -> & _ & Hl & Hg) [->|Hin]%elem_of_cons; [left; by eexists|right].
    destruct gz as [g|]; [|by apply elem_of_nil in Hin]. apply list_elem_of_singleton in Hin as ->.
    destruct (gzWriter v); [|done]. by eexists.
Defined.

(** ** [CoreMiddleware] over any writer *)

Section Core.
Context (logger_Enabled : bool).
Context {W : Type} `{ResponseWriter W} `{BaseLaws W}.

(** *** Its own writer *)

Definition rw_stands (s : store) (i rw : nat) (p : ptr) (gz : option nat) (v : mabooResponseWriter W) : Prop :=
  heap s !! rw = Some (ORw (retarget p v)) /\ stands s i p gz (Middleware.rw_inner v).

Lemma rw_stands_load s i rw p gz v : rw_stands s i rw p gz v -> rw_load s rw = Some v.
Proof.
  intros [Hrw Hs]. unfold rw_load. rewrite Hrw. cbn [Middleware.rw_inner retarget].
  rewrite (stands_load _ _ _ _ _ Hs). by destruct v.
Qed.

Lemma stands_not_rw s i p gz v l : stands s i p gz v -> has_kind s KRw l -> l ∉ own p gz.
Proof.
  intros Hs Hl Hin. destruct (stands_kind _ _ _ _ _ _ Hs Hin) as [Hk|Hk];
    by apply (has_kind_ne _ _ _ _ _ Hl Hk).
Qed.

Lemma stands_set_rw s i p gz v l o :
  stands s i p gz v -> has_kind s KRw l -> stands (set_obj l o s) i p gz v.
Proof.
  intros Hs Hl. apply (stands_frame s); [|done|exact Hs]. intros l' Hin. cbn.
  apply list_lookup_insert_ne. intros ->. by eapply stands_not_rw.
Qed.

Lemma rw_stands_save s i rw p gz v v' c gz' s' :
  pool_ok s -> rw_stands s i rw p gz v -> rw_save rw v' s c = Some (gz', s') ->
  moves i s (own p gz ++ [rw]) s' (own p gz' ++ [rw]) /\ rw_stands s' i rw p gz' v'.
Proof.
  intros Hp [Hrw Hs]. unfold rw_save. rewrite Hrw. cbn [Middleware.rw_inner retarget].
  intros (g & s1 & Es & [= <- <-])%bind2_Some.
  destruct (stands_save _ _ _ _ _ _ _ _ _ Hp Hs Es) as (Hm & Hs' & Hk).
  assert (has_kind s KRw rw) as Hkr by (by eexists).
  pose proof (m_kinds _ _ _ _ _ Hm _ _ Hkr) as Hkr'. split.
  - eapply moves_trans; [by apply moves_app|]. apply moves_set_obj; [set_unfold; auto|done].
  - split; [|by apply stands_set_rw]. cbn. destruct Hkr' as (o & Ho & _). by eapply lookup_insert_lt.
Qed.

(** *** What it has achieved so far *)

Section Request.
Context (w0 : W) (i : nat).

(** The unpooled middleware, over the writer [w0]. *)
Definition core_alone (q : request) (id : string) : outcome (list log_entry * unit) W :=
  CoreMiddleware (fun _ => id) logger_Enabled (script_then (q_panics q) (q_script q)) W _ (q_Request q)
    ([], tt) w0.

Definition id_ok (q : request) (id : string) : Prop :=
  if bool_decide (request_id q = "") then length (q_random q) = 8%nat /\ id = fastRequestID (q_random q)
  else id = request_id q.

(** The writer with its header, and the core middleware's over it when the handler is done. *)
Definition named_base (id : string) : W := SetHeader (HSet "X-Request-ID" id) w0.
Definition rw_end (q : request) (id : string) : mabooResponseWriter W :=
  acts (q_script q) (rw_reset (named_base id)).

Lemma core_alone_spec q id :
  id_ok q id ->
  core_alone q id
  = if q_panics q
    then MkOutcome ([LogPanic (Path (q_Request q))], tt)
           (http_Error "Internal Server Error" 500 (Middleware.rw_inner (rw_end q id))) false
    else MkOutcome ((if logger_Enabled
                     then [LogRequest (Method (named id q)) (Path (named id q)) (statusCode (rw_end q id))
                             (bytesWritten (rw_end q id)) (RemoteAddr (named id q)) id] else []), tt)
           (Middleware.rw_inner (rw_end q id)) false.
Proof.
  unfold id_ok, core_alone, CoreMiddleware, rw_end, named_base, named, request_id.
  intros Hid. destruct (bool_decide (Http.Get _ _ = "")); [|rewrite <- Hid];
    cbn zeta; cbn; destruct (q_panics q); cbn; try done; by destruct logger_Enabled.
Qed.

Definition core_ok (s : store) (q : request) (p : ptr) (gz : option nat) (k : core_pc) : Prop :=
  match k with
  | CStart => q_log q = [] /\ stands s i p gz w0
  | CRidRead bp => q_log q = [] /\ stands s i p gz w0 /\ request_id q = "" /\ has_kind s KRid bp
  | CRidEncode bp =>
      q_log q = [] /\ stands s i p gz w0 /\ request_id q = "" /\ length (q_random q) = 8%nat
      /\ heap s !! bp = Some (ORid (q_random q))
  | CRidPut bp id => q_log q = [] /\ stands s i p gz w0 /\ id_ok q id /\ has_kind s KRid bp
  | CNamed id => q_log q = [] /\ stands s i p gz w0 /\ id_ok q id
  | CRwGet id => q_log q = [] /\ stands s i p gz (named_base id) /\ id_ok q id
  | CRwReset id rw => q_log q = [] /\ stands s i p gz (named_base id) /\ id_ok q id /\ has_kind s KRw rw
  | CActs id rw todo =>
      q_log q = [] /\ id_ok q id /\ exists v, rw_stands s i rw p gz v /\ acts todo v = rw_end q id
  | CFinish id rw => q_log q = [] /\ id_ok q id /\ rw_stands s i rw p gz (rw_end q id)
  | CRwPut id rw =>
      id_ok q id /\ has_kind s KRw rw /\ stands s i p gz (o_writer (core_alone q id))
      /\ q_log q = fst (o_state (core_alone q id))
  | CDone id =>
      id_ok q id /\ stands s i p gz (o_writer (core_alone q id))
      /\ q_log q = fst (o_state (core_alone q id))
  end.

Lemma core_ok_frame s s' q p gz k :
  (forall l, l ∈ own p gz ++ core_holds k -> heap s' !! l = heap s !! l) -> conns s' !! i = conns s !! i ->
  core_ok s q p gz k -> core_ok s' q p gz k.
Proof.
  intros Hh Hc.
  assert (forall w, stands s i p gz w -> stands s' i p gz w) as Hst.
  { intros w. apply stands_frame; [|done]. intros l Hl. apply Hh, elem_of_app. by left. }
  assert (forall l k', l ∈ core_holds k -> has_kind s k' l -> has_kind s' k' l) as Hk.
  { intros l k' Hl (o & Ho & E). exists o. split; [|done]. rewrite Hh; [done|]. apply elem_of_app. by right. }
  assert (forall l, l ∈ core_holds k -> heap s' !! l = heap s !! l) as Hh'
    by (intros l Hl; apply Hh, elem_of_app; by right).
  assert (forall l : nat, l ∈ [l]) as Hin by (intros l; by left).
  unfold core_ok, rw_stands. destruct k; cbn [core_holds] in *; try rewrite Hh' by (by left);
    intros Hok; try (destruct Hok as (? & ? & v & [? ?] & ?)); destruct_and?;
    split_and?; eauto.
Qed.

(** *** One step *)

Definition core_good (s : store) (q : request) (p : ptr) (gz : option nat) (k : core_pc)
    (s' : store) (q' : request) (gz' : option nat) (k' : core_pc) : Prop :=
  moves i s (own p gz ++ core_holds k) s' (own p gz' ++ core_holds k')
  /\ core_ok s' q' p gz' k' /\ q_pc q' = q_pc q.

Lemma Get_stands k s c l s' p gz v : Get k s c = Some (l, s') ->
  stands s i p gz v -> pool_ok s -> stands s' i p gz v.
Proof.
  intros Hg Hs Hp. destruct (Get_frame _ _ _ _ _ Hg) as [Ec Eh].
  apply (stands_frame s); [|by rewrite Ec|exact Hs]. intros l' Hl'. apply Eh.
  destruct (stands_kind _ _ _ _ _ _ Hs Hl') as [(o & Ho & _)|(o & Ho & _)]; by eapply lookup_lt_Some.
Qed.

Lemma bind4_Some {A B C D E} (x : option (A * B * C * D)) (f : A -> B -> C -> D -> option E) y :
  ('(a, b, c, d) ← x; f a b c d) = Some y ->
  exists a b c d, x = Some (a, b, c, d) /\ f a b c d = Some y.
Proof. destruct x as [[[[a b] c] d]|]; [|done]. eauto 6. Qed.

Lemma moves_own i0 s h s' h' o : moves i0 s h s' h' -> moves i0 s (o ++ h) s' (o ++ h').
Proof.
  intros Hm. rewrite (Permutation_app_comm o h). eapply moves_drop; [|by apply moves_app].
  by rewrite (Permutation_app_comm o h').
Qed.

Lemma id_step_good s q p gz k c s' q' gz' k' :
  pool_ok s -> core_ok s q p gz k -> id_step p gz k s q c = Some (s', q', gz', k') ->
  core_good s q p gz k s' q' gz' k'.
Proof.
  unfold core_good. intros Hp Hok. destruct k; try done; cbn [core_ok id_step] in *.
  - destruct Hok as [Hlog Hs]. destruct (bool_decide (request_id q = "")) eqn:E.
    + intros (bp & s1 & Eg & [= <- <- <- <-])%bind2_Some. split; [|split; [|done]].
      * by apply moves_own; cbn; eapply moves_Get.
      * cbn. apply bool_decide_eq_true in E. split_and!; [done|by eapply Get_stands|done|by eapply Get_kind].
    + destruct c; try done. intros [= <- <- <- <-]. split; [apply store_moves_refl|split; [|done]].
      cbn. split_and!; [done..|]. unfold id_ok. by rewrite E.
  - destruct c as [| | |bs]; try done. destruct Hok as (Hlog & Hs & Hid & Hk).
    case_decide as Hl; [|done]. intros [= <- <- <- <-]. split; [|split; [|done]].
    + by apply moves_own, moves_set_obj; [left|].
    + cbn. split_and!; [done| |done|done|].
      * apply (stands_frame s); [|done|exact Hs]. intros l Hin. cbn. apply list_lookup_insert_ne. intros ->.
        destruct (stands_kind _ _ _ _ _ _ Hs Hin) as [Hk'|Hk']; by apply (has_kind_ne _ _ _ _ _ Hk Hk').
      * destruct Hk as (o & Ho & _). by eapply lookup_insert_lt.
  - destruct c; try done. destruct Hok as (Hlog & Hs & Hid & Hl & Ho). rewrite Ho.
    intros [= <- <- <- <-]. split; [apply store_moves_refl|split; [|done]]. cbn. split_and!; [done..| |by eexists].
    unfold id_ok. by rewrite bool_decide_true by done.
  - destruct c; try done. destruct Hok as (Hlog & Hs & Hid & Hk). intros [= <- <- <- <-].
    split; [by apply moves_own, moves_Put|split; [|done]]. cbn. split_and!; [done| |done].
    by apply (stands_frame s).
  - destruct Hok as (Hlog & Hs & Hid). rewrite (stands_load _ _ _ _ _ Hs). cbn [mbind option_bind].
    intros (g & s1 & Es & [= <- <- <- <-])%bind2_Some.
    destruct (stands_save _ _ _ _ _ _ _ _ _ Hp Hs Es) as (Hm & Hs' & _).
    split; [by apply moves_app|]. by split_and!.
Qed.

Lemma writer_step_good s q p gz k c s' q' gz' k' :
  pool_ok s -> core_ok s q p gz k -> writer_step logger_Enabled p gz k s q c = Some (s', q', gz', k') ->
  core_good s q p gz k s' q' gz' k'.
Proof.
  unfold core_good. intros Hp Hok. destruct k as [| | | | |id|id rw|id rw [|a todo]|id rw|id rw|]; try done;
    cbn [core_ok writer_step] in *.
  - destruct Hok as (Hlog & Hs & Hid). intros (rw & s1 & Eg & [= <- <- <- <-])%bind2_Some.
    split; [|split; [|done]]; [by apply moves_own; cbn; eapply moves_Get|].
    cbn. split_and!; [done|by eapply Get_stands|done|by eapply Get_kind].
  - destruct c; try done. destruct Hok as (Hlog & Hs & Hid & Hk). intros [= <- <- <- <-].
    split; [|split; [|done]]; [by apply moves_own, moves_set_obj; [left|]|].
    cbn. split_and!; [done|done|]. exists (rw_reset (named_base id)). split; [|done].
    split; [|by apply stands_set_rw]. cbn. destruct Hk as (o & Ho & _). by eapply lookup_insert_lt.
  - destruct c; try done. destruct Hok as (Hlog & Hid & v & Hrw & Ev). intros [= <- <- <- <-].
    split; [apply store_moves_refl|split; [|done]]. cbn. by rewrite <- (Ev : v = _).
  - destruct Hok as (Hlog & Hid & v & Hrw & Ev). rewrite (rw_stands_load _ _ _ _ _ _ Hrw).
    cbn [mbind option_bind]. intros (g & s1 & Es & [= <- <- <- <-])%bind2_Some.
    destruct (rw_stands_save _ _ _ _ _ _ _ _ _ _ Hp Hrw Es) as [Hm Hrw'].
    split; [done|split; [|done]]. cbn. split_and!; [done..|]. by exists (act a v).
  - destruct Hok as (Hlog & Hid & [Hl Hs]).
    pose proof (core_alone_spec q id Hid) as Ha. destruct (q_panics q) eqn:Ep.
    + rewrite (stands_load _ _ _ _ _ Hs). cbn [mbind option_bind].
      intros (g & s1 & Es & [= <- <- <- <-])%bind2_Some.
      destruct (stands_save _ _ _ _ _ _ _ _ _ Hp Hs Es) as (Hm & Hs' & _). split; [|split; [|done]].
      * eapply moves_drop; [|by apply moves_app]. by apply submseteq_app, submseteq_nil_l.
      * change (core_ok s1 ?x p g (CDone id)) with
          (id_ok x id /\ stands s1 i p g (o_writer (core_alone q id)) /\ q_log x = fst (o_state (core_alone q id))).
        rewrite Ha. split_and!; [done..|]. cbn. by rewrite Hlog.
    + rewrite Hl. cbn [Middleware.rw_inner retarget]. intros [= <- <- <- <-].
      set (q1 := if logger_Enabled then _ else _).
      assert (core_ok s q1 p gz (CRwPut id rw)
              = (id_ok q id /\ has_kind s KRw rw /\ stands s i p gz (o_writer (core_alone q id))
                 /\ q_log q1 = fst (o_state (core_alone q id)))) as -> by (unfold q1; by destruct logger_Enabled).
      rewrite Ha. split; [apply store_moves_refl|]. split; [|unfold q1; by destruct logger_Enabled].
      split_and!; [done|by eexists|done|]. unfold q1. destruct logger_Enabled; cbn; by rewrite Hlog.
  - destruct c; try done. destruct Hok as (Hid & Hk & Hs & Hlog). intros [= <- <- <- <-].
    split; [by apply moves_own, moves_Put|split; [|done]]. cbn. split_and!; [done| |done].
    by apply (stands_frame s).
Qed.

Lemma core_step_good s q p gz k c s' q' gz' k' :
  pool_ok s -> core_ok s q p gz k -> core_step logger_Enabled p gz k s q c = Some (s', q', gz', k') ->
  core_good s q p gz k s' q' gz' k'.
Proof.
  unfold core_step. intros Hp Hok Hs. destruct k;
    first [exact (id_step_good _ _ _ _ _ _ _ _ _ _ Hp Hok Hs)|exact (writer_step_good _ _ _ _ _ _ _ _ _ _ Hp Hok Hs)].
Qed.

(** While it has not returned it can make a step. *)
Lemma core_step_enabled s q p gz k :
  core_ok s q p gz k -> (forall id, k <> CDone id) ->
  exists c, is_Some (core_step logger_Enabled p gz k s q c).
Proof.
  intros Hok Hk. unfold core_step.
  destruct k as [|bp|bp|bp id|id|id|id rw|id rw [|a todo]|id rw|id rw|id]; cbn [core_ok id_step writer_step] in *;
    try (exists Go; by eexists).
  - destruct (bool_decide _); [exists New|exists Go]; by eexists.
  - exists (Random (replicate 8 Byte.x00)). by eexists.
  - destruct Hok as (_ & _ & _ & _ & Ho). exists Go. rewrite Ho. by eexists.
  - destruct Hok as (_ & Hs & _). exists New. rewrite (stands_load _ _ _ _ _ Hs). cbn [mbind option_bind].
    destruct (stands_New _ _ _ _ _ (SetHeader (HSet "X-Request-ID" id) w0) Hs) as [[g s1] ->].
    by eexists.
  - exists New. by eexists.
  - destruct Hok as (_ & _ & v & Hrw & _). exists New. rewrite (rw_stands_load _ _ _ _ _ _ Hrw).
    destruct Hrw as [Hl Hs]. cbn [mbind option_bind]. unfold rw_save. rewrite Hl.
    cbn [Middleware.rw_inner retarget].
    destruct (stands_New _ _ _ _ _ (Middleware.rw_inner (act a v)) Hs) as [[g s1] ->]. by eexists.
  - destruct Hok as (_ & _ & [Hl Hs]). exists New. rewrite Hl. destruct (q_panics q); [|by eexists].
    rewrite (stands_load _ _ _ _ _ Hs). cbn [mbind option_bind].
    destruct (stands_New _ _ _ _ _ (http_Error "Internal Server Error" 500
      (Middleware.rw_inner (rw_end q id))) Hs) as [[g s1] ->]. by eexists.
  - by destruct (Hk id).
Qed.
End Request.
End Core.

(** ** How many steps are left *)

Definition core_left (n : nat) (k : core_pc) : nat :=
  match k with
  | CStart => 10 + n
  | CRidRead _ => 9 + n
  | CRidEncode _ => 8 + n
  | CRidPut _ _ => 7 + n
  | CNamed _ => 6 + n
  | CRwGet _ => 5 + n
  | CRwReset _ _ => 4 + n
  | CActs _ _ todo => 3 + length todo
  | CFinish _ _ => 2
  | CRwPut _ _ => 1
  | CDone _ => 0
  end.

(** At most; [n] actions of the handler. *)
Definition actions_left (q : request) : nat :=
  let n := length (q_script q) in
  match q_pc q with
  | QStart => 15 + n
  | QCwReset _ => 14 + n
  | QCore _ _ k => 3 + core_left n k
  | QClose _ _ => 2
  | QCwPut _ => 1
  | QDone => 0
  end.

Definition same_request (q q' : request) : Prop :=
  q_Request q' = q_Request q /\ q_script q' = q_script q /\ q_panics q' = q_panics q.

(** Case analysis on what a step looked at. *)
Ltac writer_cases H :=
  repeat first
    [ apply bind4_Some in H as (? & ? & ? & ? & _ & H)
    | apply bind2_Some in H as (? & ? & _ & H)
    | apply bind_Some in H as (? & _ & H)
    | match type of H with context [match ?x with _ => _ end] => destruct x eqn:? end; try discriminate H ].

Lemma core_step_left {W} `{ResponseWriter W} `{!Base W} lg p gz k s q c s' q' gz' k' :
  core_step (W := W) lg p gz k s q c = Some (s', q', gz', k') ->
  (core_left (length (q_script q)) k' < core_left (length (q_script q)) k)%nat /\ same_request q q'.
Proof.
  unfold core_step, id_step, writer_step, same_request.
  destruct k as [|bp|bp|bp id|id|id|id rw|id rw [|a todo]|id rw|id rw|id]; try done; intros Hs.
  all: writer_cases Hs; injection Hs as <- <- <- <-; (split; [cbn; lia|done]).
Qed.

Section Requests.
Context (gzip : list (list byte) -> list byte) (logger_Enabled : bool).

Abbreviation req_step := (req_step gzip logger_Enabled).
Abbreviation step := (step gzip logger_Enabled).
Abbreviation run := (run gzip logger_Enabled).

Definition is_done (k : core_pc) : bool := match k with CDone _ => true | _ => false end.

Lemma req_step_core i s q c p gz k :
  q_pc q = QCore p gz k -> is_done k = false ->
  req_step i s q c
  = '(s, q, gz, k) ← next_step logger_Enabled p gz k s q c; Some (s, at_pc (QCore p gz k) q).
Proof. intros Eq Hk. unfold WriterPool.req_step. rewrite Eq. by destruct k. Qed.

Lemma req_step_done i s q c p gz id :
  q_pc q = QCore p gz (CDone id) ->
  req_step i s q c = match c with Go => Some (s, at_pc (returned p gz) q) | _ => None end.
Proof. intros Eq. unfold WriterPool.req_step. by rewrite Eq. Qed.

Lemma req_step_left i s q c s' q' :
  req_step i s q c = Some (s', q') -> (actions_left q' < actions_left q)%nat /\ same_request q q'.
Proof.
  destruct (q_pc q) as [|cw|p gz k|cw gz|cw|] eqn:Eq; intros Hs.
  3: { destruct (is_done k) eqn:Hk.
       - destruct k; try done. rewrite (req_step_done _ _ _ _ _ _ _ Eq) in Hs. destruct c; try done.
         injection Hs as <- <-. unfold actions_left. rewrite Eq. split; [destruct p; cbn; lia|done].
       - rewrite (req_step_core _ _ _ _ _ _ _ Eq Hk) in Hs.
         apply bind4_Some in Hs as (s1 & q1 & g1 & k1 & Hc & [= <- <-]).
         assert ((core_left (length (q_script q)) k1 < core_left (length (q_script q)) k)%nat
                 /\ same_request q q1) as [Hl (E1 & E2 & E3)]
           by (destruct p; exact (core_step_left _ _ _ _ _ _ _ _ _ _ _ Hc)).
         unfold actions_left. rewrite Eq. cbn. rewrite E2. split; [lia|done]. }
  all: unfold WriterPool.req_step, actions_left in *; rewrite Eq in *; cbn beta iota in Hs;
    writer_cases Hs; first [discriminate Hs|injection Hs as <- <-; (split; [cbn; lia|done])].
Qed.

(** ** What a request has achieved so far *)

(** The request alone: the middlewares with writers of their own. *)
Definition alone (q : request) (id : string) : outcome (list log_entry * unit) conn :=
  CompressionMiddleware gzip
    (CoreMiddleware (fun _ => id) logger_Enabled (script_then (q_panics q) (q_script q)))
    conn _ (q_Request q) ([], tt) fresh_conn.

Abbreviation core_alone := (core_alone logger_Enabled).

Lemma alone_spec q id :
  alone q id
  = if accepts_gzip (q_Request q)
    then let o := core_alone (Compress.reset fresh_conn) q id in
         MkOutcome (o_state o) (cw_inner (Close gzip (o_writer o))) (o_panic o)
    else core_alone fresh_conn q id.
Proof. unfold alone, CompressionMiddleware, WriterPoolInv.core_alone. by destruct (accepts_gzip _). Qed.

(** The response is sent and the log written as they are alone. *)
Definition served (s : store) (i : nat) (q : request) : Prop :=
  exists id, id_ok q id /\ conns s !! i = Some (o_writer (alone q id))
             /\ q_log q = fst (o_state (alone q id)).

Definition call_ok (i : nat) (s : store) (q : request) : Prop :=
  match q_pc q with
  | QStart => q_log q = [] /\ conns s !! i = Some fresh_conn
  | QCwReset cw =>
      q_log q = [] /\ conns s !! i = Some fresh_conn /\ accepts_gzip (q_Request q) = true
      /\ has_kind s KCw cw
  | QCore (PConn j) gz k =>
      accepts_gzip (q_Request q) = false
      /\ core_ok logger_Enabled (W := conn) fresh_conn i s q (PConn j) gz k
  | QCore (PCw cw) gz k =>
      accepts_gzip (q_Request q) = true
      /\ core_ok logger_Enabled (Compress.reset fresh_conn) i s q (PCw cw) gz k
  | QClose cw gz =>
      accepts_gzip (q_Request q) = true
      /\ exists id, id_ok q id
           /\ cw_stands s i (PCw cw) gz (o_writer (core_alone (Compress.reset fresh_conn) q id))
           /\ q_log q = fst (o_state (core_alone (Compress.reset fresh_conn) q id))
  | QCwPut cw => has_kind s KCw cw /\ served s i q
  | QDone => served s i q
  end.

(** ... in its own objects and its own connection. *)
Lemma request_ok_frame i s s' q :
  (forall l, l ∈ holds q -> heap s' !! l = heap s !! l) -> conns s' !! i = conns s !! i ->
  call_ok i s q -> call_ok i s' q.
Proof.
  unfold holds, call_ok, served, has_kind. intros Hh Hc.
  destruct (q_pc q) as [|cw|[j|cw] gz k|cw gz|cw|]; cbn [held] in Hh; rewrite ?Hc; try done.
  - by rewrite Hh by (by left).
  - intros [Ha Hok]. split; [done|]. by eapply core_ok_frame.
  - intros [Ha Hok]. split; [done|]. by eapply core_ok_frame.
  - intros (Ha & id & Hid & Hcw & Hlog). split; [done|]. exists id. split_and!; [done| |done].
    exact (stands_frame (W := compressWriter conn) s s' i (PCw cw) gz _ Hh Hc Hcw).
  - by rewrite Hh by (by left).
Qed.

(** *** [Close] *)

(** What was buffered goes to the connection. *)
Lemma close_plain s i hs (v : compressWriter conn) s' :
  conns s !! i = Some (cw_inner v) ->
  (if (0 <? length (cw_buf v))%nat then
     w ← conns s !! i;
     let w := if cw_wroteHeader v then w else WriteHeader 200 w in
     Some (set_conn i (snd (Write (cw_buf v) w)) s)
   else Some s) = Some s' ->
  moves i s hs s' hs
  /\ conns s' !! i
     = Some (cw_inner (if (0 <? length (cw_buf v))%nat then
                         let w := if cw_wroteHeader v then cw_inner v else WriteHeader 200 (cw_inner v) in
                         set_inner (snd (Write (cw_buf v) w)) v
                       else v)).
Proof.
  intros Hc. destruct (0 <? _)%nat; rewrite ?Hc; cbn [mbind option_bind]; cbv zeta; intros [= <-].
  - split; [apply moves_set_conn|]. by eapply lookup_insert_lt.
  - split; [apply store_moves_refl|done].
Qed.

Lemma close_good s i cw gz v s' :
  cw_stands s i (PCw cw) gz v -> close gzip cw s = Some s' ->
  moves i s (own (PCw cw) gz) s' [cw] /\ conns s' !! i = Some (cw_inner (Close gzip v)).
Proof.
  intros (cw' & [= <-] & Hc & Hl & Hg). unfold close. rewrite Hl.
  cbn [co_compressed co_gzWriter co_ResponseWriter co_buf co_wroteHeader own].
  assert ([cw] ⊆+ cw :: opt_list gz) as Hsub by (destruct gz; cbn; solve_submseteq).
  unfold Close. destruct (compressed v), gz as [g|], (gzWriter v) as [ch|]; try done.
  2-4: intros Hs; match type of Hsub with _ ⊆+ ?hs => destruct (close_plain s i hs v s' Hc Hs) as [Hm Hr] end;
       split; [by eapply moves_drop|exact Hr].
  rewrite Hg, Hc. cbn [mbind option_bind]. intros [= <-].
  assert (has_kind s KCw cw) as Hkl by (by eexists). assert (has_kind s KGz g) as Hkg by (by eexists).
  pose proof (moves_set_conn i s (cw :: opt_list (Some g)) (snd (Write (gzip ch) (cw_inner v)))) as Hm.
  split; [|by eapply lookup_insert_lt].
  eapply moves_trans; [exact Hm|]. set (s1 := set_conn _ _ _).
  apply (moves_trans i s1 _ (Put KGz g s1) [cw]).
  - rewrite (Permutation_swap g cw [] : cw :: opt_list (Some g) ≡ₚ g :: [cw]). by apply moves_Put.
  - by apply moves_set_obj; [left|].
Qed.

Lemma close_some s i cw gz v : cw_stands s i (PCw cw) gz v -> is_Some (close gzip cw s).
Proof.
  intros (cw' & [= <-] & Hc & Hl & Hg). unfold close. rewrite Hl.
  cbn [co_compressed co_gzWriter co_ResponseWriter co_buf co_wroteHeader].
  destruct (compressed v), gz as [g|], (gzWriter v) as [ch|]; try done;
    try rewrite Hg; rewrite Hc; cbn [mbind option_bind]; try by eexists.
  all: destruct (0 <? length (cw_buf v))%nat; by eexists.
Qed.

(** *** One step *)

Definition step_good (i : nat) (s : store) (q : request) (s' : store) (q' : request) : Prop :=
  moves i s (holds q) s' (holds q') /\ call_ok i s' q'.

Lemma cw_reset_stands s i cw :
  conns s !! i = Some fresh_conn -> has_kind s KCw cw ->
  cw_stands (cw_reset i cw s) i (PCw cw) None (Compress.reset fresh_conn).
Proof.
  intros Hc (o & Ho & _). exists cw. split_and!; [done..| |done]. by eapply lookup_insert_lt.
Qed.

(** The core middleware's steps, and its return. *)
Lemma core_req_good i s q p gz k c s' q' :
  q_pc q = QCore p gz k -> pool_ok s -> call_ok i s q -> req_step i s q c = Some (s', q') ->
  step_good i s q s' q'.
Proof.
  intros Eq Hp Hok Hs. unfold step_good, call_ok, holds in *. rewrite Eq in *. cbn [held].
  destruct (is_done k) eqn:Hk.
  - destruct k as [| | | | | | | | | |id]; try done. rewrite (req_step_done _ _ _ _ _ _ _ Eq) in Hs.
    destruct c; try done. injection Hs as <- <-.
    destruct p as [j|cw]; destruct Hok as (Ha & Hid & Hst & Hlog); cbn [returned q_pc at_pc held].
    + split; [apply store_moves_refl|]. exists id. split; [done|].
      change (alone (at_pc QDone q) id) with (alone q id). rewrite alone_spec, Ha.
      by destruct Hst as (_ & _ & ->).
    + split; [cbn [core_holds]; rewrite app_nil_r; apply store_moves_refl|]. split; [done|]. by exists id.
  - rewrite (req_step_core _ _ _ _ _ _ _ Eq Hk) in Hs.
    apply bind4_Some in Hs as (s1 & q1 & g1 & k1 & Hc & [= <- <-]).
    assert (accepts_gzip (q_Request q1) = accepts_gzip (q_Request q)) as Eg.
    { destruct p; by destruct (core_step_left _ _ _ _ _ _ _ _ _ _ _ Hc) as (_ & -> & _). }
    destruct p as [j|cw]; destruct Hok as [Ha Hok]; cbn [next_step] in Hc;
      destruct (core_step_good _ _ _ _ _ _ _ _ _ _ _ _ _ Hp Hok Hc) as (Hm & Hok' & _);
      cbn [q_pc at_pc]; (split; [exact Hm|]); (split; [by cbn; rewrite Eg|]); by destruct k1.
Qed.

Lemma req_step_good i s q c s' q' :
  pool_ok s -> call_ok i s q -> req_step i s q c = Some (s', q') -> step_good i s q s' q'.
Proof.
  destruct (q_pc q) as [|cw|p gz k|cw gz|cw|] eqn:Eq; intros Hp Hok Hs.
  3: by eapply core_req_good.
  all: unfold step_good, call_ok, holds, WriterPool.req_step in *; rewrite Eq in *; cbn [held].
  - destruct Hok as [Hlog Hc]. destruct (accepts_gzip (q_Request q)) eqn:Ea.
    + apply bind2_Some in Hs as (cw & s1 & Eg & [= <- <-]). split; [by eapply moves_Get|].
      cbn. destruct (Get_frame _ _ _ _ _ Eg) as [-> _]. split_and!; [done..|by eapply Get_kind].
    + destruct c; try done. injection Hs as <- <-. split; [apply store_moves_refl|]. by cbn.
  - destruct c; try done. destruct Hok as (Hlog & Hc & Ha & Hk). injection Hs as <- <-.
    split; [by apply moves_set_obj; [left|]|]. cbn [q_pc at_pc]. split; [done|]. split; [done|].
    by apply cw_reset_stands.
  - destruct c; try done. destruct Hok as (Ha & id & Hid & Hcw & Hlog).
    destruct (close gzip cw s) as [s1|] eqn:Ec; [|done]. injection Hs as <- <-.
    destruct (close_good _ _ _ _ _ _ Hcw Ec) as [Hm Hc]. split; [exact Hm|]. cbn [q_pc at_pc].
    destruct Hcw as (cw' & [= <-] & _ & Hl & _).
    split; [apply (m_kinds _ _ _ _ _ Hm); by eexists|]. exists id. split; [done|].
    change (alone (at_pc (QCwPut cw) q) id) with (alone q id). by rewrite alone_spec, Ha.
  - destruct c; try done. destruct Hok as [Hk Hsv]. injection Hs as <- <-.
    split; [by apply moves_Put|done].
  - done.
Qed.

(** A request that is not done can go on, whatever the pools hold. *)
Lemma req_step_enabled i s q :
  call_ok i s q -> (0 < actions_left q)%nat -> exists c, is_Some (req_step i s q c).
Proof.
  unfold call_ok, actions_left. destruct (q_pc q) as [|cw|p gz k|cw gz|cw|] eqn:Eq; intros Hok Hl; try lia.
  3: { destruct (is_done k) eqn:Hk.
       - destruct k; try done. exists Go. rewrite (req_step_done _ _ _ _ _ _ _ Eq). by eexists.
       - assert (exists c, is_Some (next_step logger_Enabled p gz k s q c)) as (c & [[[[s1 q1] g1] k1] E]).
         { destruct p; destruct Hok as [_ Hok]; apply (core_step_enabled _ _ _ _ _ _ _ _ Hok);
             intros id ->; done. }
         exists c. rewrite (req_step_core _ _ _ _ _ _ _ Eq Hk), E. by eexists. }
  all: unfold WriterPool.req_step; rewrite Eq.
  - destruct (accepts_gzip _); [exists New|exists Go]; by eexists.
  - exists Go. by eexists.
  - destruct Hok as (_ & id & _ & Hcw & _). exists Go. destruct (close_some _ _ _ _ _ Hcw) as [s1 ->]. by eexists.
  - exists Go. by eexists.
Qed.

(** ** The invariant *)

Record writers_ok (s : state) : Prop := {
  wo_count : length (conns (st s)) = length (reqs s);
  wo_nodup : NoDup (free_objects (st s) ++ (reqs s ≫= holds));
  wo_heap : Forall (fun l => l < length (heap (st s)))%nat (free_objects (st s) ++ (reqs s ≫= holds));
  wo_pool : pool_ok (st s);
  wo_calls : forall i q, reqs s !! i = Some q -> call_ok i (st s) q;
  wo_left : Forall (fun q => actions_left q <= 15 + length (q_script q))%nat (reqs s)
}.

Lemma run_writers_ok s i q c s' q' :
  writers_ok s -> reqs s !! i = Some q -> req_step i (st s) q c = Some (s', q') ->
  writers_ok (MkState s' (<[i := q']> (reqs s))).
Proof.
  intros [Hc Hn Hb Hp Hcalls Hw] Hq Hs.
  destruct (req_step_good _ _ _ _ _ _ Hp (Hcalls i q Hq) Hs)
    as [[M1 M2 (news & N1 & N2 & N3) M4 M5 M6 M7] Hq'].
  destruct (insert_Permutation (reqs s) i q q' Hq) as (rest & P1 & P2).
  assert (free_objects s' ++ (<[i:=q']> (reqs s) ≫= holds)
          ⊆+ news ++ (free_objects (st s) ++ (reqs s ≫= holds))) as Hsub.
  { rewrite P2, P1, !bind_cons, !app_assoc. rewrite <- (app_assoc news). by apply submseteq_skips_r. }
  rewrite Forall_forall in N2. pose proof Hb as Hb'. rewrite Forall_forall in Hb'.
  split; cbn [st reqs].
  - by rewrite M7, length_insert.
  - eapply NoDup_submseteq_inv; [exact Hsub|]. apply NoDup_app. split_and!; [done| |done].
    intros l Hl Hin. specialize (N2 _ Hl). specialize (Hb' _ Hin). lia.
  - eapply Forall_submseteq; [exact Hsub|]. apply Forall_app. split.
    + rewrite Forall_forall. intros l Hl. specialize (N2 _ Hl). lia.
    + eapply Forall_impl; [exact Hb|]. cbn. lia.
  - auto.
  - intros j qj Hj. destruct (decide (j = i)) as [->|Hne].
    { rewrite list_lookup_insert_eq in Hj by (by eapply lookup_lt_Some). by injection Hj as <-. }
    rewrite list_lookup_insert_ne in Hj by done.
    apply (request_ok_frame j (st s)); [|by apply M6|by apply Hcalls]. intros l Hl.
    assert (l ∈ reqs s ≫= holds) as Hin
      by (apply list_elem_of_bind; exists qj; split; [done|by eapply list_elem_of_lookup_2]).
    apply M1; [apply Hb', elem_of_app; by right|]. intros [Hf|Hf]%elem_of_app.
    + apply NoDup_app in Hn as (_ & Hd & _). by apply (Hd l).
    + apply NoDup_app in Hn as (_ & _ & Hn). apply Hne. by eapply (NoDup_bind_lookup _ _ _ _ _ _ l Hn).
  - apply Forall_insert; [done|]. apply req_step_left in Hs as [Hl (_ & Es & _)].
    pose proof (Forall_lookup_1 _ _ _ _ Hw Hq) as Hb2. cbn in Hb2. rewrite Es. lia.
Qed.

Lemma step_writers_ok s e s' : writers_ok s -> step s e = Some s' -> writers_ok s'.
Proof.
  intros Hok Hs. destruct e as [r sc p|i c|k]; cbn [WriterPool.step] in Hs.
  - injection Hs as <-. destruct Hok as [Hc Hn Hb Hp Hcalls Hw].
    assert ((reqs s ++ [MkReq r sc p [] [] QStart]) ≫= holds = reqs s ≫= holds) as E
      by (by rewrite bind_app, app_nil_r).
    split; cbn [st reqs free heap conns]; [rewrite !length_app; cbn; lia|by rewrite E..|done| |].
    intros i q [Hi|[Hi Hq]]%lookup_app_Some.
    + apply (request_ok_frame i (st s)); [done| |by apply Hcalls].
      apply lookup_app_l. rewrite Hc. by eapply lookup_lt_Some.
    + apply list_lookup_singleton_Some in Hq as [Hz <-].
      split; [done|]. cbn [conns]. rewrite lookup_app_r by lia. by replace (i - _)%nat with 0%nat by lia.
    + apply Forall_app. split; [done|]. by apply Forall_singleton.
  - destruct (reqs s !! i) as [q|] eqn:Hq; [|done]. cbn [mbind option_bind] in Hs.
    apply bind2_Some in Hs as (s1 & q' & Hr & [= <-]). by eapply run_writers_ok.
  - injection Hs as <-. destruct Hok as [Hc Hn Hb Hp Hcalls Hw].
    assert (delete k (free (st s)) ⊆+ free (st s)) as Hsub by (apply sublist_submseteq, sublist_delete).
    assert ((delete k (free (st s))).*2 ++ (reqs s ≫= holds) ⊆+ free_objects (st s) ++ (reqs s ≫= holds))
      as Hsub' by (by apply submseteq_skips_r, fmap_submseteq).
    split; cbn [st reqs free heap conns]; [done| | | |done|done].
    + by eapply NoDup_submseteq_inv.
    + by eapply Forall_submseteq.
    + by eapply (Forall_submseteq _ (delete k (free (st s)))).
Qed.

Lemma init_writers_ok : writers_ok init.
Proof. split; cbn; try done; constructor. Qed.

Lemma run_keeps_writers_ok es : forall s s', writers_ok s -> run s es = Some s' -> writers_ok s'.
Proof.
  induction es as [|e es IH]; intros s s' Hok; cbn [WriterPool.run]; [by intros [= <-]|].
  destruct (step s e) as [s1|] eqn:E; [|done]. intros Hr. by eapply IH, Hr; eapply step_writers_ok.
Qed.

(** ** Many requests *)

(** A request that is done has had the response, and left the log, that it has alone. *)
Definition served_alone (s : state) (i : nat) (q : request) : Prop :=
  match q_pc q with QDone => served (st s) i q | _ => (0 < actions_left q)%nat end.

Lemma call_ok_served_alone s i q : call_ok i (st s) q -> served_alone s i q.
Proof. unfold call_ok, served_alone, actions_left. by destruct (q_pc q); [lia..|]. Qed.

(** C16. The pooled writers do not mix requests up: under every interleaving of any number of
    requests, whichever objects the pools hand out or lose, and whichever handlers panic,
    no object is held by two requests, or held and in a pool; a request that is done has
    the response and the log lines that the unpooled [CompressionMiddleware] around
    [CoreMiddleware] gives it alone, under its own identifier or the one made of the random
    bytes it drew itself; and a request that is not done can always make a step, with at most
    15 of them and one per action of its handler. *)
Theorem pooled_writers (es : list event) (s : state) :
  run init es = Some s ->
  NoDup (free_objects (st s) ++ (reqs s ≫= holds))
  /\ forall i q, reqs s !! i = Some q ->
       served_alone s i q
       /\ (actions_left q <= 15 + length (q_script q))%nat
       /\ (actions_left q = 0%nat \/ exists c, is_Some (step s (Run i c)))
       /\ (forall c s', step s (Run i c) = Some s' ->
             exists q', reqs s' !! i = Some q' /\ same_request q q'
                        /\ (actions_left q' < actions_left q)%nat).
Proof.
  intros Hr. pose proof (run_keeps_writers_ok _ _ _ init_writers_ok Hr) as [_ Hn _ _ Hcalls Hw].
  split; [done|]. intros i q Hq. pose proof (Hcalls i q Hq) as Hok.
  split_and!; [by apply call_ok_served_alone|exact (Forall_lookup_1 _ _ _ _ Hw Hq)| |].
  - destruct (decide (actions_left q = 0%nat)) as [|Hl]; [by left|right].
    destruct (req_step_enabled i (st s) q Hok ltac:(lia)) as [c [[s1 q1] E]]. exists c.
    cbn [WriterPool.step]. rewrite Hq. cbn [mbind option_bind]. rewrite E. by eexists.
  - intros c s'. cbn [WriterPool.step]. rewrite Hq. cbn [mbind option_bind]. intros (s1 & q' & E & [= <-])%bind2_Some.
    exists q'. cbn [reqs]. rewrite list_lookup_insert_eq by (by eapply lookup_lt_Some).
    apply req_step_left in E as [E1 E2]. by split_and!.
Qed.
End Requests.

(** ** A concrete run *)

Definition as_is : list (list byte) -> list byte := fun ch => concat ch.

(** A request that gets a compressed page and is named by its random bytes, and one that is
    served in the writers the first has put back, named by its client, and panics. *)
Definition gzip_page : list action := [ASet "Content-Type" "text/html"; AWrite (replicate 1500 Byte.x61)].
Definition panicking_request : Request :=
  MkRequest "GET" "/b" "" "localhost" "10.0.0.2:99" false
    {["Accept-Encoding" := ["gzip"]; "X-Request-Id" := ["second"]]}.

Definition goes (i n : nat) : list event := replicate n (Run i Go).

Definition two_requests : list event :=
  [Arrive gzip_request gzip_page false; Arrive panicking_request gzip_page true; Run 0 New; Run 1 New]
  ++ goes 0 1 ++ goes 1 3 ++ [Run 0 New; Run 0 (Random (replicate 8 Byte.x2a))] ++ goes 0 3
  ++ [Run 0 New] ++ goes 0 2 ++ [Run 0 New] ++ goes 0 6 ++ [Lose 0; Run 1 (Pooled 1)] ++ goes 1 2
  ++ [Run 1 (Pooled 0)] ++ goes 1 5.

Definition two_served : state := default init (run as_is true init two_requests).

Definition runs_to (o : option state) : bool := match o with Some _ => true | None => false end.

Lemma runs_to_default o : runs_to o = true -> o = Some (default init o).
Proof. by destruct o. Qed.

Lemma two_served_run : run as_is true init two_requests = Some two_served.
Proof. apply runs_to_default. by vm_compute. Qed.

Example two_served_bodies :
  map (fun c => let '(st, h, b) := response c in (st, length b, Values h "X-Request-ID"))
    (conns (st two_served)) = [(200, 1500%nat, ["2a2a2a2a2a2a2a2a"]); (200, 1522%nat, ["second"])].
Proof. by vm_compute. Qed.

Definition is_served (s : state) (i : nat) : bool :=
  match reqs s !! i with Some q => Nat.eqb (actions_left q) 0 | None => false end.

Lemma is_served_inv s i : is_served s i = true -> exists q, reqs s !! i = Some q /\ actions_left q = 0%nat.
Proof. unfold is_served. destruct (reqs s !! i) as [q|]; [|done]. intros H%Nat.eqb_eq. by exists q. Qed.

Lemma pooled_writers_witness :
  exists q, reqs two_served !! 1%nat = Some q /\ served_alone as_is true two_served 1 q
            /\ actions_left q = 0%nat.
Proof.
  destruct (is_served_inv two_served 1 ltac:(by vm_compute)) as (q & Hq & Hl).
  exists q. split; [exact Hq|]. split; [|exact Hl].
  exact (proj1 (proj2 (pooled_writers as_is true two_requests two_served two_served_run) 1%nat q Hq)).
Defined.
